(** * Progress bookkeeping of the desktop LMS: a shallow embedding

    This development embeds the progress and certificate operations of
    [src/main/database/database.ts] (class [DatabaseManager]) together with
    the relational schema of [schema.sql], and proves properties of
    [updateLessonProgress], [updateModuleCompletionStatus],
    [generateCertificate], [resetModuleProgress], [getModuleProgress] and
    [verifyCertificate].  The listing operations of the class, its account
    operations, the handlers of the main process that wrap them, and the
    helpers of the renderer that compute a score, a duration and the next
    page follow them, with the properties of each after those of the
    first.

    Modelling decisions, in the order of the file:
    - JavaScript numbers.  Row counts, array lengths and identifiers are
      integers far below 2^53, where the arithmetic of doubles is exact;
      they are values of [Z].  Seconds are integers too, supplied by the
      caller without a bound: their sums are rounded as the addition of
      doubles rounds them ([JSNum.plus]).  The two places where the code
      leaves the integers, [(totalCompleted / totalItems) * 100] followed
      by [Math.round], and [lessons.length * 0.8], are evaluated in
      binary64 with round-to-nearest-even (module [JSNum]).  A quiz score
      is an integer, [NaN], [null] or absent.
    - The store.  Each table is the list of its rows in insertion order;
      every SQL statement of the source is one function on the store.
    - Effects.  [get], [query] and [run] may reject (no connection, an
      error of the driver, a violated constraint); [new Date()] reads the
      system clock.  Both are threaded through a small monad in which the
      store survives a rejection, as each statement commits on its own.
    - Statements.  The functions [after_touch], [after_upsert] and
      [after_recompute] describe the store after each block of
      [updateLessonProgress] under a driver that does not fail; the lemmas
      [touch_ok], [upsert_ok] and [recompute_ok] tie them to the code, and
      the theorems are stated on the operations themselves. *)

From Stdlib Require Import ZArith List String Ascii Bool Lia.
From Stdlib Require Import DecimalString DecimalZ DecimalPos.
From Stdlib Require Import Floats.SpecFloat.
Import ListNotations.
Local Open Scope Z_scope.

(** ** JavaScript numbers outside the integers *)

Module JSNum.

(** A finite non-negative double, [mant * 2 ^ expo].  Signs, infinities and
    NaN never arise from the operands used here (counts and lengths, a
    non-zero divisor), and the exponents stay far inside the normal range. *)
Record double : Type := mkDouble { mant : Z; expo : Z }.

(** Nearest integer to [n / d], ties to even ([0 <= n], [0 < d]). *)
Definition round_half_even (n d : Z) : Z :=
  let k := n / d in
  let r := n mod d in
  if 2 * r <? d then k
  else if d <? 2 * r then k + 1
  else if Z.even k then k else k + 1.

(** The fraction [p / (q * 2 ^ e)] with integer numerator and denominator. *)
Definition scaled (p q e : Z) : Z * Z :=
  if 0 <=? e then (p, q * 2 ^ e) else (p * 2 ^ (- e), q).

(** The exponent that puts [p / q] between [2^52] and [2^53]. *)
Definition exponent_of (p q : Z) : Z :=
  let e0 := Z.log2 p - Z.log2 q - 53 in
  if fst (scaled p q e0) <? 2 ^ 53 * snd (scaled p q e0) then e0 else e0 + 1.

(** Correct rounding of the rational [p / q] to 53 significant bits. *)
Definition rne (p q : Z) : double :=
  if p <=? 0 then mkDouble 0 0
  else
    let e := exponent_of p q in
    mkDouble (round_half_even (fst (scaled p q e)) (snd (scaled p q e))) e.

(** An integer below 2^53 is a double as it stands. *)
Definition of_int (n : Z) : double := mkDouble n 0.

(** [x / y] *)
Definition div (x y : double) : double :=
  let e := expo x - expo y in
  if 0 <=? e then rne (mant x * 2 ^ e) (mant y)
  else rne (mant x) (mant y * 2 ^ (- e)).

(** [x * y] *)
Definition mul (x y : double) : double :=
  let e := expo x + expo y in
  if 0 <=? e then rne (mant x * mant y * 2 ^ e) 1
  else rne (mant x * mant y) (2 ^ (- e)).

(** [Math.round(x)]: the integer [floor (x + 1/2)]. *)
Definition math_round (x : double) : Z :=
  if 0 <=? expo x then mant x * 2 ^ expo x
  else (2 * mant x + 2 ^ (- expo x)) / 2 ^ (1 - expo x).

(** [k < x] for an integer [k] *)
Definition int_lt (k : Z) (x : double) : bool :=
  if 0 <=? expo x then k <? mant x * 2 ^ expo x
  else k * 2 ^ (- expo x) <? mant x.

(** [x <= k] for an integer [k] *)
Definition le_int (x : double) (k : Z) : Prop :=
  if 0 <=? expo x then mant x * 2 ^ expo x <= k
  else mant x <= k * 2 ^ (- expo x).

(** The literal [0.8]: the double nearest to 4/5. *)
Definition lit_0_8 : double := rne 4 5.

(** The integer that a double holds in place of [n]: [n] itself while it
    has at most 53 significant bits, and beyond the nearest multiple of the
    power of two that leaves 53, ties to the even one ([n] below 2^1024 in
    absolute value). *)
Definition nearest_int (n : Z) : Z :=
  let e := Z.log2 (Z.abs n) - 52 in
  if e <=? 0 then n
  else Z.sgn n * (round_half_even (Z.abs n) (2 ^ e) * 2 ^ e).

(** [a + b] on integers: the exact sum, rounded. *)
Definition plus (a b : Z) : Z := nearest_int (a + b).

(** The same value in the Standard Library's IEEE 754 specification, with
    the mantissa brought below 2^53. *)
Definition to_spec (x : double) : spec_float :=
  match mant x with
  | Zpos m =>
      if mant x =? 2 ^ 53 then S754_finite false (Pos.div2 m) (expo x + 1)
      else S754_finite false m (expo x)
  | _ => S754_zero false
  end.

(** An integer as a binary64 of the Standard Library. *)
Definition spec_of_int (n : Z) : spec_float :=
  match n with
  | Zpos _ => binary_normalize 53 1024 n 0 false
  | _ => S754_zero false
  end.

Definition same_spec (x y : spec_float) : bool :=
  match x, y with
  | S754_zero a, S754_zero b => Bool.eqb a b
  | S754_finite a m e, S754_finite b n f => Bool.eqb a b && Pos.eqb m n && Z.eqb e f
  | _, _ => false
  end.

(** [(c / t) * 100] here and in the Standard Library's binary64. *)
Definition percent_agrees (c t : nat) : bool :=
  same_spec
    (to_spec (mul (div (of_int (Z.of_nat c)) (of_int (Z.of_nat t))) (of_int 100)))
    (SFmul 53 1024
       (SFdiv 53 1024 (spec_of_int (Z.of_nat c)) (spec_of_int (Z.of_nat t)))
       (spec_of_int 100)).

(** [n * 0.8] here and in the Standard Library's binary64. *)
Definition four_fifths_agrees (n : nat) : bool :=
  same_spec
    (to_spec (mul (of_int (Z.of_nat n)) lit_0_8))
    (SFmul 53 1024 (spec_of_int (Z.of_nat n))
       (SFdiv 53 1024 (spec_of_int 4) (spec_of_int 5))).

(** The integer that a binary64 of the Standard Library stands for. *)
Definition spec_value (x : spec_float) : Z :=
  match x with
  | S754_finite false m e =>
      if 0 <=? e then Zpos m * 2 ^ e else Zpos m / 2 ^ (- e)
  | S754_finite true m e =>
      - (if 0 <=? e then Zpos m * 2 ^ e else Zpos m / 2 ^ (- e))
  | _ => 0
  end.

(** [a + b] here and in the Standard Library's binary64, for [a] and [b]
    that are doubles themselves. *)
Definition plus_agrees (a b : Z) : bool :=
  (spec_value (spec_of_int a) =? a) && (spec_value (spec_of_int b) =? b)
  && (spec_value (SFadd 53 1024 (spec_of_int a) (spec_of_int b)) =? plus a b).

End JSNum.

(** ** Text *)

(** ASCII lower-casing, as SQLite's [LIKE] applies it to both operands. *)
Definition to_lower (c : ascii) : ascii :=
  let n := nat_of_ascii c in
  if (Nat.leb 65 n && Nat.leb n 90)%bool then ascii_of_nat (n + 32) else c.

(** SQLite's [LIKE]: [%] matches any run of characters, [_] exactly one,
    any other character itself up to ASCII case. *)
Fixpoint like (pattern s : string) : bool :=
  match pattern with
  | EmptyString => match s with EmptyString => true | String _ _ => false end
  | String c pattern' =>
      if Ascii.eqb c "%" then
        (fix skip (s : string) : bool :=
           like pattern' s
           || match s with EmptyString => false | String _ s' => skip s' end) s
      else if Ascii.eqb c "_" then
        match s with EmptyString => false | String _ s' => like pattern' s' end
      else
        match s with
        | EmptyString => false
        | String d s' => Ascii.eqb (to_lower c) (to_lower d) && like pattern' s'
        end
  end.

(** An integer inside a template literal. *)
Definition show (z : Z) : string := NilZero.string_of_int (Z.to_int z).

(** ** Data model *)

(** A reading of the system clock in milliseconds.  [toISOString] renders
    it injectively, so the stored text is identified with the reading. *)
Definition Timestamp : Type := Z.

Record User : Type := {
  usr_id : Z;
  usr_username : string;
  usr_email : string;
  usr_password_hash : string;
  usr_role : string
}.

Record Lesson : Type := {
  les_id : string;
  les_title : string;
  les_order : Z
}.

Record Quiz : Type := {
  quiz_id : string;
  quiz_title : string;
  quiz_afterLessonId : option string;
  quiz_passingScore : Z
}.

(** The parsed content document; a key can be missing from the JSON. *)
Record ModuleContent : Type := {
  lessons : option (list Lesson);
  quizzes : option (list Quiz);
  estimatedTime : Z
}.

(** The [content TEXT] column: the empty text, a text that [JSON.parse]
    rejects, or the JSON text of a content document. *)
Inductive ContentText : Type :=
| EmptyText
| NotJson
| JsonText (doc : ModuleContent).

Record ModuleRow : Type := {
  mod_id : Z;
  mod_title : string;
  mod_description : string;
  mod_content : ContentText;
  mod_estimated_duration : Z
}.

(** A row of [user_progress] (interface [UserProgress]). *)
Record UserProgress : Type := {
  up_id : Z;
  up_user_id : Z;
  up_module_id : Z;
  up_progress_percentage : Z;
  up_completed : bool;
  up_started_at : option Timestamp;
  up_completion_date : option Timestamp;
  up_total_time_spent : Z;
  up_last_accessed : Timestamp
}.

(** A row of [lesson_progress].  The columns [created_at] and [updated_at],
    which only SQLite's [CURRENT_TIMESTAMP] writes and no code reads, are
    left out. *)
Record LessonProgress : Type := {
  lp_id : Z;
  lp_user_id : Z;
  lp_module_id : Z;
  lp_lesson_id : string;
  lp_completed : bool;
  lp_time_spent : Z;
  lp_quiz_score : option Z;
  lp_quiz_attempts : Z;
  lp_completed_at : option Timestamp
}.

(** The object that [generateCertificate] stringifies into
    [certificate_data]. *)
Record CertificateData : Type := {
  cd_user : string;
  cd_module : string;
  cd_completionDate : Timestamp;
  cd_timeSpent : Z
}.

(** A row of [certificates] ([issued_at], a [CURRENT_TIMESTAMP] default,
    is left out). *)
Record Certificate : Type := {
  cert_id : Z;
  cert_user_id : Z;
  cert_module_id : Z;
  cert_certificate_code : string;
  cert_certificate_data : CertificateData;
  cert_verified : bool
}.

(** The five tables, each with the [AUTOINCREMENT] counter that
    [sqlite_sequence] keeps for it where rows are inserted. *)
Record Store : Type := {
  users : list User;
  modules : list ModuleRow;
  user_progress : list UserProgress;
  user_progress_seq : Z;
  lesson_progress : list LessonProgress;
  lesson_progress_seq : Z;
  certificates : list Certificate;
  certificates_seq : Z
}.

(** ** Effects *)

Inductive Exn : Type :=
| DatabaseNotInitialized      (* new Error('Database not initialized') *)
| DriverError                 (* [err] handed to the callback by sqlite3 *)
| UniqueConstraintFailed (table : string)
| JsonSyntaxError.            (* thrown by JSON.parse *)

Inductive Outcome (A : Type) : Type :=
| Ok (a : A)
| Throw (e : Exn).
Arguments Ok {A} a.
Arguments Throw {A} e.

(** What the program cannot control: the clock, read once per
    [new Date()] or [Date.now()], and the calls of the driver that fail. *)
Record Env : Type := {
  clock : nat -> Timestamp;
  fault : nat -> bool
}.

(** [db] is [this.db]; [ticks] counts the readings of the clock and
    [calls] the statements handed to the driver. *)
Record World : Type := {
  db : option Store;
  ticks : nat;
  calls : nat
}.

Definition M (A : Type) : Type := Env -> World -> Outcome A * World.

Definition ret {A : Type} (a : A) : M A := fun _ w => (Ok a, w).

Definition bind {A B : Type} (m : M A) (k : A -> M B) : M B :=
  fun env w =>
    match m env w with
    | (Ok a, w') => k a env w'
    | (Throw e, w') => (Throw e, w')
    end.

Definition throw {A : Type} (e : Exn) : M A := fun _ w => (Throw e, w).

(** [try { body } catch (error) { handler }]; what the body wrote before
    it threw stays written. *)
Definition try_catch {A : Type} (body : M A) (handler : Exn -> M A) : M A :=
  fun env w =>
    match body env w with
    | (Ok a, w') => (Ok a, w')
    | (Throw e, w') => handler e env w'
    end.

Declare Scope js_scope.
Delimit Scope js_scope with js.
Notation "x <- m ;; k" := (bind m (fun x => k))
  (at level 100, m at next level, right associativity) : js_scope.
Notation "m ;;; k" := (bind m (fun _ => k))
  (at level 100, right associativity) : js_scope.
Local Open Scope js_scope.

(** [new Date()] and [Date.now()] *)
Definition new_Date : M Timestamp :=
  fun env w =>
    (Ok (clock env (ticks w)),
     {| db := db w; ticks := S (ticks w); calls := calls w |}).

(** One statement handed to the driver: rejected without a connection,
    rejected by a fault of the driver, else executed on the store. *)
Definition statement {A : Type} (sql : Store -> Outcome A * Store) : M A :=
  fun env w =>
    match db w with
    | None => (Throw DatabaseNotInitialized, w)
    | Some st =>
        if fault env (calls w)
        then (Throw DriverError,
              {| db := Some st; ticks := ticks w; calls := S (calls w) |})
        else
          (fst (sql st),
           {| db := Some (snd (sql st)); ticks := ticks w; calls := S (calls w) |})
    end.

Record RunResult : Type := { lastID : Z; changes : Z }.

Definition query {T : Type} (sql : Store -> list T) : M (list T) :=
  statement (fun st => (Ok (sql st), st)).

Definition run (sql : Store -> Outcome RunResult * Store) : M RunResult :=
  statement sql.

Definition get {T : Type} (sql : Store -> option T) : M (option T) :=
  statement (fun st => (Ok (sql st), st)).

(** The uniform result envelope.  An error text is a literal or a template
    literal that ends in the caught exception. *)
Inductive ErrorText : Type :=
| Literal (text : string)
| Template (prefix : string) (error : Exn).

Record ApiResponse (A : Type) : Type := {
  success : bool;
  data : option A;
  error : option ErrorText;
  message : option string
}.
Arguments success {A} _.
Arguments data {A} _.
Arguments error {A} _.
Arguments message {A} _.

Definition succeed {A : Type} (a : A) : ApiResponse A :=
  {| success := true; data := Some a; error := None; message := None |}.

Definition fail {A : Type} (e : ErrorText) : ApiResponse A :=
  {| success := false; data := None; error := Some e; message := None |}.


(** ** The SQL statements of [database.ts] *)

(** The [FOREIGN KEY] clauses of the schema are not modelled: the code
    never turns [foreign_keys] on, and no statement of the progress and
    certificate operations deletes a user or a module. *)

(** The row id an [INTEGER PRIMARY KEY AUTOINCREMENT] column gives to a new
    row: one more than the largest id the table holds or ever held. *)
Definition next_rowid (seq : Z) (ids : list Z) : Z :=
  1 + fold_right Z.max seq ids.

Definition up_key (userId moduleId : Z) (r : UserProgress) : bool :=
  (up_user_id r =? userId) && (up_module_id r =? moduleId).

Definition lp_pair (userId moduleId : Z) (r : LessonProgress) : bool :=
  (lp_user_id r =? userId) && (lp_module_id r =? moduleId).

Definition lp_key (userId moduleId : Z) (lessonId : string) (r : LessonProgress) : bool :=
  lp_pair userId moduleId r && String.eqb (lp_lesson_id r) lessonId.

Definition cert_key (userId moduleId : Z) (r : Certificate) : bool :=
  (cert_user_id r =? userId) && (cert_module_id r =? moduleId).

(** The columns that the three [UPDATE] statements set; every other column
    of the row keeps its value. *)
Definition set_last_accessed (last : Timestamp) (r : UserProgress) : UserProgress :=
  {| up_id := up_id r; up_user_id := up_user_id r; up_module_id := up_module_id r;
     up_progress_percentage := up_progress_percentage r;
     up_completed := up_completed r;
     up_started_at := up_started_at r;
     up_completion_date := up_completion_date r;
     up_total_time_spent := up_total_time_spent r;
     up_last_accessed := last |}.

Definition set_aggregate (progressPercentage : Z) (isCompleted : bool)
    (completionDate : option Timestamp) (r : UserProgress) : UserProgress :=
  {| up_id := up_id r; up_user_id := up_user_id r; up_module_id := up_module_id r;
     up_progress_percentage := progressPercentage;
     up_completed := isCompleted;
     up_started_at := up_started_at r;
     up_completion_date := completionDate;
     up_total_time_spent := up_total_time_spent r;
     up_last_accessed := up_last_accessed r |}.

Definition set_outcome (completed : bool) (timeSpent : Z) (quizScore : option Z)
    (completedAt : option Timestamp) (r : LessonProgress) : LessonProgress :=
  {| lp_id := lp_id r; lp_user_id := lp_user_id r; lp_module_id := lp_module_id r;
     lp_lesson_id := lp_lesson_id r;
     lp_completed := completed;
     lp_time_spent := timeSpent;
     lp_quiz_score := quizScore;
     lp_quiz_attempts := lp_quiz_attempts r;
     lp_completed_at := completedAt |}.

(** [SELECT * FROM user_progress WHERE user_id = ? AND module_id = ?] *)
Definition select_user_progress (userId moduleId : Z) (st : Store)
  : option UserProgress :=
  find (up_key userId moduleId) (user_progress st).

Definition with_user_progress (st : Store) (rows : list UserProgress) (seq : Z)
  : Store :=
  {| users := users st; modules := modules st;
     user_progress := rows; user_progress_seq := seq;
     lesson_progress := lesson_progress st;
     lesson_progress_seq := lesson_progress_seq st;
     certificates := certificates st; certificates_seq := certificates_seq st |}.

Definition with_lesson_progress (st : Store) (rows : list LessonProgress) (seq : Z)
  : Store :=
  {| users := users st; modules := modules st;
     user_progress := user_progress st;
     user_progress_seq := user_progress_seq st;
     lesson_progress := rows; lesson_progress_seq := seq;
     certificates := certificates st; certificates_seq := certificates_seq st |}.

Definition with_certificates (st : Store) (rows : list Certificate) (seq : Z)
  : Store :=
  {| users := users st; modules := modules st;
     user_progress := user_progress st;
     user_progress_seq := user_progress_seq st;
     lesson_progress := lesson_progress st;
     lesson_progress_seq := lesson_progress_seq st;
     certificates := rows; certificates_seq := seq |}.

(** [INSERT INTO user_progress (user_id, module_id, started_at,
    last_accessed) VALUES (?, ?, ?, ?)]; the other columns take their
    defaults and [UNIQUE (user_id, module_id)] is enforced. *)
Definition insert_user_progress (userId moduleId : Z) (started last : Timestamp)
    (st : Store) : Outcome RunResult * Store :=
  if existsb (up_key userId moduleId) (user_progress st)
  then (Throw (UniqueConstraintFailed "user_progress"), st)
  else
    let id := next_rowid (user_progress_seq st) (map up_id (user_progress st)) in
    (Ok {| lastID := id; changes := 1 |},
     with_user_progress st
       (user_progress st ++
        [{| up_id := id; up_user_id := userId; up_module_id := moduleId;
            up_progress_percentage := 0; up_completed := false;
            up_started_at := Some started; up_completion_date := None;
            up_total_time_spent := 0; up_last_accessed := last |}])%list
       id).

(** [UPDATE user_progress SET last_accessed = ? WHERE user_id = ? AND
    module_id = ?] *)
Definition update_last_accessed (last : Timestamp) (userId moduleId : Z)
    (st : Store) : Outcome RunResult * Store :=
  (Ok {| lastID := user_progress_seq st;
         changes := Z.of_nat (List.length (filter (up_key userId moduleId) (user_progress st))) |},
   with_user_progress st
     (map (fun r => if up_key userId moduleId r then set_last_accessed last r else r)
          (user_progress st))
     (user_progress_seq st)).

(** [UPDATE user_progress SET progress_percentage = ?, completed = ?,
    completion_date = ? WHERE user_id = ? AND module_id = ?] *)
Definition update_user_progress (progressPercentage : Z) (isCompleted : bool)
    (completionDate : option Timestamp) (userId moduleId : Z)
    (st : Store) : Outcome RunResult * Store :=
  (Ok {| lastID := user_progress_seq st;
         changes := Z.of_nat (List.length (filter (up_key userId moduleId) (user_progress st))) |},
   with_user_progress st
     (map (fun r =>
             if up_key userId moduleId r
             then set_aggregate progressPercentage isCompleted completionDate r
             else r)
          (user_progress st))
     (user_progress_seq st)).

(** [DELETE FROM user_progress WHERE user_id = ? AND module_id = ?] *)
Definition delete_user_progress (userId moduleId : Z) (st : Store)
  : Outcome RunResult * Store :=
  (Ok {| lastID := user_progress_seq st;
         changes := Z.of_nat (List.length (filter (up_key userId moduleId) (user_progress st))) |},
   with_user_progress st
     (filter (fun r => negb (up_key userId moduleId r)) (user_progress st))
     (user_progress_seq st)).

(** [SELECT * FROM lesson_progress WHERE user_id = ? AND module_id = ? AND
    lesson_id = ?] *)
Definition select_lesson_progress (userId moduleId : Z) (lessonId : string)
    (st : Store) : option LessonProgress :=
  find (lp_key userId moduleId lessonId) (lesson_progress st).

(** [SELECT * FROM lesson_progress WHERE user_id = ? AND module_id = ?] *)
Definition select_module_lesson_progress (userId moduleId : Z) (st : Store)
  : list LessonProgress :=
  filter (lp_pair userId moduleId) (lesson_progress st).

(** [SELECT * FROM lesson_progress WHERE user_id = ? AND module_id = ? AND
    completed = 1] *)
Definition select_completed_lesson_progress (userId moduleId : Z) (st : Store)
  : list LessonProgress :=
  filter (fun r => lp_pair userId moduleId r && lp_completed r)
         (lesson_progress st).

(** [UPDATE lesson_progress SET completed = ?, time_spent = ?, quiz_score =
    ?, updated_at = CURRENT_TIMESTAMP, completed_at = ? WHERE user_id = ?
    AND module_id = ? AND lesson_id = ?] *)
Definition update_lesson_progress (completed : bool) (timeSpent : Z)
    (quizScore : option Z) (completedAt : option Timestamp)
    (userId moduleId : Z) (lessonId : string)
    (st : Store) : Outcome RunResult * Store :=
  (Ok {| lastID := lesson_progress_seq st;
         changes := Z.of_nat (List.length (filter (lp_key userId moduleId lessonId)
                                             (lesson_progress st))) |},
   with_lesson_progress st
     (map (fun r =>
             if lp_key userId moduleId lessonId r
             then set_outcome completed timeSpent quizScore completedAt r
             else r)
          (lesson_progress st))
     (lesson_progress_seq st)).

(** [INSERT INTO lesson_progress (user_id, module_id, lesson_id, completed,
    time_spent, quiz_score, completed_at) VALUES (?, ?, ?, ?, ?, ?, ?)]
    under [UNIQUE (user_id, module_id, lesson_id)]. *)
Definition insert_lesson_progress (userId moduleId : Z) (lessonId : string)
    (completed : bool) (timeSpent : Z) (quizScore : option Z)
    (completedAt : option Timestamp)
    (st : Store) : Outcome RunResult * Store :=
  if existsb (lp_key userId moduleId lessonId) (lesson_progress st)
  then (Throw (UniqueConstraintFailed "lesson_progress"), st)
  else
    let id := next_rowid (lesson_progress_seq st) (map lp_id (lesson_progress st)) in
    (Ok {| lastID := id; changes := 1 |},
     with_lesson_progress st
       (lesson_progress st ++
        [{| lp_id := id; lp_user_id := userId; lp_module_id := moduleId;
            lp_lesson_id := lessonId; lp_completed := completed;
            lp_time_spent := timeSpent; lp_quiz_score := quizScore;
            lp_quiz_attempts := 0; lp_completed_at := completedAt |}])%list
       id).

(** [DELETE FROM lesson_progress WHERE user_id = ? AND module_id = ?] *)
Definition delete_lesson_progress (userId moduleId : Z) (st : Store)
  : Outcome RunResult * Store :=
  (Ok {| lastID := lesson_progress_seq st;
         changes := Z.of_nat (List.length (filter (lp_pair userId moduleId)
                                             (lesson_progress st))) |},
   with_lesson_progress st
     (filter (fun r => negb (lp_pair userId moduleId r)) (lesson_progress st))
     (lesson_progress_seq st)).

(** [SELECT COUNT( * ) as count FROM lesson_progress WHERE user_id = ? AND
    module_id = ? AND completed = 1 AND lesson_id LIKE "lesson-%"] *)
Definition count_completed_lessons (userId moduleId : Z) (st : Store) : list Z :=
  [Z.of_nat (List.length (filter
     (fun r => lp_pair userId moduleId r && lp_completed r
               && like "lesson-%" (lp_lesson_id r))
     (lesson_progress st)))].

(** [SELECT COUNT( * ) as count FROM lesson_progress WHERE user_id = ? AND
    module_id = ? AND completed = 1 AND lesson_id LIKE "quiz-%" AND
    quiz_score IS NOT NULL] *)
Definition count_completed_quizzes (userId moduleId : Z) (st : Store) : list Z :=
  [Z.of_nat (List.length (filter
     (fun r => lp_pair userId moduleId r && lp_completed r
               && like "quiz-%" (lp_lesson_id r)
               && match lp_quiz_score r with Some _ => true | None => false end)
     (lesson_progress st)))].

(** [SELECT * FROM modules WHERE id = ?] *)
Definition select_module (moduleId : Z) (st : Store) : option ModuleRow :=
  find (fun r => mod_id r =? moduleId) (modules st).

(** [SELECT * FROM users WHERE id = ?] *)
Definition select_user (userId : Z) (st : Store) : option User :=
  find (fun r => usr_id r =? userId) (users st).

(** [INSERT INTO certificates (user_id, module_id, certificate_code,
    certificate_data) VALUES (?, ?, ?, ?)] under [certificate_code UNIQUE]
    and [UNIQUE (user_id, module_id)]. *)
Definition insert_certificate (userId moduleId : Z) (code : string)
    (certificateData : CertificateData)
    (st : Store) : Outcome RunResult * Store :=
  if existsb (fun r => String.eqb (cert_certificate_code r) code
                       || cert_key userId moduleId r) (certificates st)
  then (Throw (UniqueConstraintFailed "certificates"), st)
  else
    let id := next_rowid (certificates_seq st) (map cert_id (certificates st)) in
    (Ok {| lastID := id; changes := 1 |},
     with_certificates st
       (certificates st ++
        [{| cert_id := id; cert_user_id := userId; cert_module_id := moduleId;
            cert_certificate_code := code;
            cert_certificate_data := certificateData;
            cert_verified := true |}])%list
       id).

(** [SELECT * FROM certificates WHERE id = ?] *)
Definition select_certificate (id : Z) (st : Store) : option Certificate :=
  find (fun r => cert_id r =? id) (certificates st).

(** [SELECT * FROM certificates WHERE certificate_code = ?] *)
Definition select_certificate_by_code (code : string) (st : Store)
  : option Certificate :=
  find (fun r => String.eqb (cert_certificate_code r) code) (certificates st).


(** ** The operations of [DatabaseManager] *)

(** [n || 0] on a number *)
Definition or_zero (n : Z) : Z := if n =? 0 then 0 else n.

(** [xs?.length || 0] on an array that may be missing *)
Definition length_or_zero {T : Type} (xs : option (list T)) : Z :=
  match xs with
  | Some l => or_zero (Z.of_nat (List.length l))
  | None => 0
  end.

(** [result[0]?.count || 0] *)
Definition first_count (result : list Z) : Z :=
  match result with
  | count :: _ => or_zero count
  | [] => 0
  end.

(** [module.content ? JSON.parse(module.content) : { lessons: [], quizzes:
    [] }] *)
Definition parse_content (content : ContentText) : M ModuleContent :=
  match content with
  | EmptyText => ret {| lessons := Some []; quizzes := Some []; estimatedTime := 0 |}
  | NotJson => throw JsonSyntaxError
  | JsonText doc => ret doc
  end.

(** [Math.round((totalCompleted / totalItems) * 100)] *)
Definition progress_percentage (totalCompleted totalItems : Z) : Z :=
  JSNum.math_round
    (JSNum.mul (JSNum.div (JSNum.of_int totalCompleted) (JSNum.of_int totalItems))
               (JSNum.of_int 100)).

(** The [try] block of [updateModuleCompletionStatus]. *)
Definition recompute_aggregate (userId moduleId : Z) : M unit :=
  module <- get (select_module moduleId) ;;
  match module with
  | None => ret tt
  | Some module =>
      parsedContent <- parse_content (mod_content module) ;;
      let totalLessons := length_or_zero (lessons parsedContent) in
      let totalQuizzes := length_or_zero (quizzes parsedContent) in
      let totalItems := totalLessons + totalQuizzes in
      if totalItems =? 0 then ret tt
      else
        completedLessonsResult <- query (count_completed_lessons userId moduleId) ;;
        completedQuizzesResult <- query (count_completed_quizzes userId moduleId) ;;
        let completedLessons := first_count completedLessonsResult in
        let completedQuizzes := first_count completedQuizzesResult in
        let totalCompleted := completedLessons + completedQuizzes in
        let progressPercentage := progress_percentage totalCompleted totalItems in
        let isCompleted :=
          (totalLessons <=? completedLessons) && (totalQuizzes <=? completedQuizzes) in
        currentProgress <- get (select_user_progress userId moduleId) ;;
        match currentProgress with
        | Some currentProgress =>
            let wasAlreadyCompleted := up_completed currentProgress in
            completionDate <-
              (if isCompleted && negb wasAlreadyCompleted
               then now <- new_Date ;; ret (Some now)
               else ret (up_completion_date currentProgress)) ;;
            run (update_user_progress progressPercentage isCompleted
                   completionDate userId moduleId) ;;;
            ret tt
        | None => ret tt
        end
  end.

(** [private async updateModuleCompletionStatus(userId, moduleId)]: the
    block above, any exception caught and only logged ([console.error]
    leaves no trace in the store). *)
Definition updateModuleCompletionStatus (userId moduleId : Z) : M unit :=
  try_catch (recompute_aggregate userId moduleId) (fun _ => ret tt).

(** The property [quizScore?: number] of the argument: absent, or a
    number, which is an integer or, from a quiz without questions
    ([Math.round((0 / 0) * 100)]), [NaN]; the channel of the main process
    hands on what the renderer sent, so that it can also be [null]. *)
Inductive QuizScore : Type :=
| Undefined
| Null
| NaN
| Score (score : Z).

(** What the driver binds for it and the column then holds: the integer,
    or [NULL] (for [null], for a parameter left unbound, and for [NaN],
    which SQLite stores as [NULL]). *)
Definition bound_score (quizScore : QuizScore) : option Z :=
  match quizScore with
  | Score score => Some score
  | Undefined | Null | NaN => None
  end.

(** The argument of [updateLessonProgress]. *)
Record ProgressData : Type := {
  userId : Z;
  moduleId : Z;
  lessonId : string;
  completed : bool;
  timeSpent : Z;
  quizScore : QuizScore
}.

(** [progressData.quizScore !== undefined ? progressData.quizScore :
    existing.quiz_score] *)
Definition score_to_store (progressData : ProgressData) (existing : LessonProgress)
  : option Z :=
  match quizScore progressData with
  | Undefined => lp_quiz_score existing
  | supplied => bound_score supplied
  end.

(** [updateLessonProgress], first block ("Check if module progress exists
    (for setting started_at timestamp)"): the row of [user_progress] is
    created on the first interaction and touched on the later ones. *)
Definition touch_module_progress (progressData : ProgressData) : M RunResult :=
  moduleProgress <-
    get (select_user_progress (userId progressData) (moduleId progressData)) ;;
  match moduleProgress with
  | None =>
      started <- new_Date ;;
      last <- new_Date ;;
      run (insert_user_progress (userId progressData) (moduleId progressData)
             started last)
  | Some _ =>
      now <- new_Date ;;
      run (update_last_accessed now (userId progressData) (moduleId progressData))
  end.

(** Second block ("Check if lesson progress record exists"): the row of
    [lesson_progress] is updated, or created. *)
Definition upsert_lesson_progress (progressData : ProgressData) : M RunResult :=
  existing <-
    get (select_lesson_progress (userId progressData) (moduleId progressData)
           (lessonId progressData)) ;;
  match existing with
  | Some existing =>
      let newTimeSpent :=
        JSNum.plus (or_zero (lp_time_spent existing)) (timeSpent progressData) in
      completedAt <-
        (if completed progressData
         then now <- new_Date ;; ret (Some now)
         else ret (lp_completed_at existing)) ;;
      run (update_lesson_progress (completed progressData) newTimeSpent
             (score_to_store progressData existing)
             completedAt
             (userId progressData) (moduleId progressData) (lessonId progressData))
  | None =>
      completedAt <-
        (if completed progressData
         then now <- new_Date ;; ret (Some now)
         else ret None) ;;
      run (insert_lesson_progress (userId progressData) (moduleId progressData)
             (lessonId progressData) (completed progressData)
             (timeSpent progressData) (bound_score (quizScore progressData))
             completedAt)
  end.

(** Last block ("Return the updated lesson progress record"). *)
Definition return_updated_progress (progressData : ProgressData)
  : M (ApiResponse LessonProgress) :=
  updatedProgress <-
    get (select_lesson_progress (userId progressData) (moduleId progressData)
           (lessonId progressData)) ;;
  match updatedProgress with
  | Some updatedProgress => ret (succeed updatedProgress)
  | None => ret (fail (Literal "Failed to retrieve updated progress"))
  end.

(** [async updateLessonProgress(progressData)]: the three blocks, with the
    recomputation of the aggregate ("Check if the module is now completed")
    before the last, inside one [try]. *)
Definition updateLessonProgress (progressData : ProgressData)
  : M (ApiResponse LessonProgress) :=
  try_catch
    (touch_module_progress progressData ;;;
     upsert_lesson_progress progressData ;;;
     updateModuleCompletionStatus (userId progressData) (moduleId progressData) ;;;
     return_updated_progress progressData)
    (fun error => ret (fail (Template "Failed to update progress: " error))).

(** The result of [getModuleProgress]. *)
Record ModuleProgressView : Type := {
  moduleProgress : option UserProgress;
  lessonProgress : list LessonProgress
}.

(** [async getModuleProgress(userId, moduleId)] *)
Definition getModuleProgress (userId moduleId : Z) : M ModuleProgressView :=
  try_catch
    (moduleProgress <- get (select_user_progress userId moduleId) ;;
     lessonProgress <- query (select_module_lesson_progress userId moduleId) ;;
     ret {| moduleProgress := moduleProgress; lessonProgress := lessonProgress |})
    (fun _ => ret {| moduleProgress := None; lessonProgress := [] |}).

(** The envelope that carries only a message. *)
Definition inform (text : string) : ApiResponse unit :=
  {| success := true; data := None; error := None; message := Some text |}.

(** [async resetModuleProgress(userId, moduleId)] *)
Definition resetModuleProgress (userId moduleId : Z) : M (ApiResponse unit) :=
  try_catch
    (run (delete_user_progress userId moduleId) ;;;
     result <- run (delete_lesson_progress userId moduleId) ;;
     ret (inform ("Reset progress for " ++ show (changes result) ++ " lessons")%string))
    (fun error => ret (fail (Template "Failed to reset progress: " error))).

(** [`CERT-${Date.now()}-${userId}-${moduleId}`] *)
Definition certificate_code (now : Timestamp) (userId moduleId : Z) : string :=
  ("CERT-" ++ show now ++ "-" ++ show userId ++ "-" ++ show moduleId)%string.

(** [lessonProgress.length < lessons.length * 0.8] *)
Definition below_threshold (completedRows totalLessons : Z) : bool :=
  JSNum.int_lt completedRows (JSNum.mul (JSNum.of_int totalLessons) JSNum.lit_0_8).

(** [async generateCertificate(userId, moduleId)] *)
Definition generateCertificate (userId moduleId : Z) : M (ApiResponse Certificate) :=
  try_catch
    (lessonProgress <- query (select_completed_lesson_progress userId moduleId) ;;
     module <- get (select_module moduleId) ;;
     user <- get (select_user userId) ;;
     match module, user with
     | Some module, Some user =>
         parsedContent <- parse_content (mod_content module) ;;
         let lessons := match lessons parsedContent with Some l => l | None => [] end in
         if below_threshold (Z.of_nat (List.length lessonProgress))
                            (Z.of_nat (List.length lessons))
         then ret (fail (Literal "Module not sufficiently completed"))
         else
           stamp <- new_Date ;;
           let certificateCode := certificate_code stamp userId moduleId in
           completionDate <- new_Date ;;
           let certificateData :=
             {| cd_user := usr_username user;
                cd_module := mod_title module;
                cd_completionDate := completionDate;
                cd_timeSpent :=
                  fold_left (fun total p => JSNum.plus total (or_zero (lp_time_spent p)))
                            lessonProgress 0 |} in
           result <- run (insert_certificate userId moduleId certificateCode
                            certificateData) ;;
           newCertificate <- get (select_certificate (lastID result)) ;;
           match newCertificate with
           | Some newCertificate => ret (succeed newCertificate)
           | None => ret (fail (Literal "Failed to retrieve generated certificate"))
           end
     | _, _ => ret (fail (Literal "Module or user not found"))
     end)
    (fun error => ret (fail (Template "Failed to generate certificate: " error))).

(** [async verifyCertificate(code)] *)
Definition verifyCertificate (code : string) : M (option Certificate) :=
  try_catch
    (get (select_certificate_by_code code))
    (fun _ => ret None).


(** ** Vocabulary of the statements *)

(** A world with an open connection. *)
Definition world (st : Store) (t c : nat) : World :=
  {| db := Some st; ticks := t; calls := c |}.

(** The driver never fails. *)
Definition no_faults (env : Env) : Prop := forall n, fault env n = false.

(** The world after a sequence of [updateLessonProgress] calls. *)
Definition record_outcomes (env : Env) (pds : list ProgressData) (w : World)
  : World :=
  fold_left (fun w pd => snd (updateLessonProgress pd env w)) pds w.

(** The call is for the given user, module and lesson or quiz. *)
Definition for_key (u m : Z) (l : string) (pd : ProgressData) : Prop :=
  userId pd = u /\ moduleId pd = m /\ lessonId pd = l.

Definition for_pair (u m : Z) (pd : ProgressData) : Prop :=
  userId pd = u /\ moduleId pd = m.

(** The call erases no stored score: its [quizScore] is absent or an
    integer. *)
Definition keeps_score (pd : ProgressData) : Prop :=
  quizScore pd <> Null /\ quizScore pd <> NaN.

(** The call supplies [completed = true] and erases no stored score. *)
Definition completing (pd : ProgressData) : Prop :=
  completed pd = true /\ keeps_score pd.

(** The sum of the [timeSpent] arguments of a sequence of calls. *)
Definition sum_of_deltas (pds : list ProgressData) : Z :=
  fold_right (fun pd total => timeSpent pd + total) 0 pds.

(** The stored row of a key, as [get] would return it. *)
Definition stored_lesson_progress (u m : Z) (l : string) (w : World)
  : option LessonProgress :=
  match db w with
  | Some st => select_lesson_progress u m l st
  | None => None
  end.

Definition stored_user_progress (u m : Z) (w : World) : option UserProgress :=
  match db w with
  | Some st => select_user_progress u m st
  | None => None
  end.

(** The lesson and quiz totals that the content column yields, when it
    parses. *)
Definition totals (content : ContentText) : option (Z * Z) :=
  match content with
  | EmptyText => Some (0, 0)
  | NotJson => None
  | JsonText doc => Some (length_or_zero (lessons doc), length_or_zero (quizzes doc))
  end.

(** The content document that [generateCertificate] and the recomputation
    work on, when the column parses. *)
Definition parsed (content : ContentText) : option ModuleContent :=
  match content with
  | EmptyText => Some {| lessons := Some []; quizzes := Some []; estimatedTime := 0 |}
  | NotJson => None
  | JsonText doc => Some doc
  end.

(** [lessons.length] in [generateCertificate] *)
Definition lesson_count (doc : ModuleContent) : Z :=
  Z.of_nat (List.length (match lessons doc with Some l => l | None => [] end)).

(** The certificate that [generateCertificate] inserts when the clock
    reads [stamp] and then [completionDate]. *)
Definition minted (userId moduleId : Z) (user : User) (module : ModuleRow)
    (stamp completionDate : Timestamp) (st : Store) : Certificate :=
  {| cert_id := next_rowid (certificates_seq st) (map cert_id (certificates st));
     cert_user_id := userId; cert_module_id := moduleId;
     cert_certificate_code := certificate_code stamp userId moduleId;
     cert_certificate_data :=
       {| cd_user := usr_username user;
          cd_module := mod_title module;
          cd_completionDate := completionDate;
          cd_timeSpent :=
            fold_left (fun total p => JSNum.plus total (or_zero (lp_time_spent p)))
                      (select_completed_lesson_progress userId moduleId st) 0 |};
     cert_verified := true |}.

(** Rows of the pair that are completed and follow the naming convention
    of lessons, respectively of quizzes with a score. *)
Definition completedLessons (userId moduleId : Z) (st : Store) : Z :=
  first_count (count_completed_lessons userId moduleId st).

Definition completedQuizzes (userId moduleId : Z) (st : Store) : Z :=
  first_count (count_completed_quizzes userId moduleId st).

(** The aggregate flag and date of a pair, as stored ([false] and [None]
    while the pair has no row). *)
Definition module_completed (userId moduleId : Z) (w : World) : bool :=
  match db w with
  | Some st =>
      match select_user_progress userId moduleId st with
      | Some r => up_completed r
      | None => false
      end
  | None => false
  end.

Definition module_completion_date (userId moduleId : Z) (w : World)
  : option Timestamp :=
  match db w with
  | Some st =>
      match select_user_progress userId moduleId st with
      | Some r => up_completion_date r
      | None => None
      end
  | None => None
  end.

(** [UNIQUE (user_id, module_id, lesson_id)] holds of the stored rows. *)
Definition lesson_progress_unique (st : Store) : Prop :=
  forall u m l,
    (List.length (filter (lp_key u m l) (lesson_progress st)) <= 1)%nat.

(** [certificate_code UNIQUE] holds of the stored rows. *)
Definition certificate_codes_unique (st : Store) : Prop :=
  NoDup (map cert_certificate_code (certificates st)).

(** What the recomputation is about to store for a pair: the percentage
    and the flag, when the module is found, its content parses and holds
    at least one item. *)
Definition aggregate (userId moduleId : Z) (st : Store) : option (Z * bool) :=
  match select_module moduleId st with
  | Some module =>
      match totals (mod_content module) with
      | Some (totalLessons, totalQuizzes) =>
          if totalLessons + totalQuizzes =? 0 then None
          else
            Some (progress_percentage
                    (completedLessons userId moduleId st
                     + completedQuizzes userId moduleId st)
                    (totalLessons + totalQuizzes),
                  (totalLessons <=? completedLessons userId moduleId st)
                  && (totalQuizzes <=? completedQuizzes userId moduleId st))
      | None => None
      end
  | None => None
  end.

(** The store and the clock readings after each block of
    [updateLessonProgress] when the driver does not fail. *)
Definition after_touch (pd : ProgressData) (env : Env) (st : Store) (t : nat)
  : Store * nat :=
  match select_user_progress (userId pd) (moduleId pd) st with
  | None =>
      (snd (insert_user_progress (userId pd) (moduleId pd)
              (clock env t) (clock env (S t)) st),
       S (S t))
  | Some _ =>
      (snd (update_last_accessed (clock env t) (userId pd) (moduleId pd) st), S t)
  end.

Definition after_upsert (pd : ProgressData) (env : Env) (st : Store) (t : nat)
  : Store * nat :=
  match select_lesson_progress (userId pd) (moduleId pd) (lessonId pd) st with
  | Some existing =>
      (snd (update_lesson_progress (completed pd)
              (JSNum.plus (or_zero (lp_time_spent existing)) (timeSpent pd))
              (score_to_store pd existing)
              (if completed pd then Some (clock env t) else lp_completed_at existing)
              (userId pd) (moduleId pd) (lessonId pd) st),
       if completed pd then S t else t)
  | None =>
      (snd (insert_lesson_progress (userId pd) (moduleId pd) (lessonId pd)
              (completed pd) (timeSpent pd) (bound_score (quizScore pd))
              (if completed pd then Some (clock env t) else None) st),
       if completed pd then S t else t)
  end.

Definition after_recompute (userId moduleId : Z) (env : Env) (st : Store) (t : nat)
  : Store * nat :=
  match aggregate userId moduleId st, select_user_progress userId moduleId st with
  | Some (percentage, isCompleted), Some current =>
      if isCompleted && negb (up_completed current)
      then (snd (update_user_progress percentage isCompleted (Some (clock env t))
                   userId moduleId st),
            S t)
      else (snd (update_user_progress percentage isCompleted
                   (up_completion_date current) userId moduleId st),
            t)
  | _, _ => (st, t)
  end.

Definition after_update (pd : ProgressData) (env : Env) (st : Store) (t : nat)
  : Store * nat :=
  let (st1, t1) := after_touch pd env st t in
  let (st2, t2) := after_upsert pd env st1 t1 in
  after_recompute (userId pd) (moduleId pd) env st2 t2.

(** The row of [user_progress] that the first block of
    [updateLessonProgress] leaves for the pair of the call: created from
    the two readings of the clock, or the former row with a new
    [last_accessed]. *)
Definition touched_row (pd : ProgressData) (env : Env) (st : Store) (t : nat)
  : UserProgress :=
  match select_user_progress (userId pd) (moduleId pd) st with
  | None =>
      {| up_id := next_rowid (user_progress_seq st) (map up_id (user_progress st));
         up_user_id := userId pd; up_module_id := moduleId pd;
         up_progress_percentage := 0; up_completed := false;
         up_started_at := Some (clock env t);
         up_completion_date := None;
         up_total_time_spent := 0;
         up_last_accessed := clock env (S t) |}
  | Some cur => set_last_accessed (clock env t) cur
  end.

(** The aggregate flag and date of a pair in a store. *)
Definition flag_of (u m : Z) (st : Store) : bool :=
  match select_user_progress u m st with
  | Some r => up_completed r
  | None => false
  end.

Definition date_of (u m : Z) (st : Store) : option Timestamp :=
  match select_user_progress u m st with
  | Some r => up_completion_date r
  | None => None
  end.

(** Where the flag of the pair is set, the stored rows complete the
    module. *)
Definition flag_is_earned (u m : Z) (st : Store) : Prop :=
  forall cur p b,
    select_user_progress u m st = Some cur ->
    up_completed cur = true ->
    aggregate u m st = Some (p, b) ->
    b = true.

(** The worlds that calls for a pair reach from a store without a row of
    the pair. *)
Definition settled (u m : Z) (w : World) : Prop :=
  exists st t c,
    w = world st t c /\ lesson_progress_unique st /\ flag_is_earned u m st.

(** [started_at] of the row of a pair is the same in both stores. *)
Definition same_started_at (u m : Z) (st st' : Store) : Prop :=
  forall cur,
    select_user_progress u m st = Some cur ->
    exists cur',
      select_user_progress u m st' = Some cur'
      /\ up_started_at cur' = up_started_at cur.

(** From an open connection the computation ends with an open
    connection, on a store related to the first by [R]. *)
Definition keeps (R : Store -> Store -> Prop) {A : Type} (m : M A) : Prop :=
  forall env w st,
    db w = Some st ->
    exists st', db (snd (m env w)) = Some st' /\ R st st'.

(** The same store with other passing scores on the quizzes of its
    modules. *)
Definition rescore_quiz (f : Quiz -> Z) (q : Quiz) : Quiz :=
  {| quiz_id := quiz_id q; quiz_title := quiz_title q;
     quiz_afterLessonId := quiz_afterLessonId q;
     quiz_passingScore := f q |}.

Definition rescore_content (f : Quiz -> Z) (content : ContentText) : ContentText :=
  match content with
  | JsonText doc =>
      JsonText {| lessons := lessons doc;
                  quizzes := option_map (map (rescore_quiz f)) (quizzes doc);
                  estimatedTime := estimatedTime doc |}
  | EmptyText => EmptyText
  | NotJson => NotJson
  end.

Definition rescore_module (f : Quiz -> Z) (r : ModuleRow) : ModuleRow :=
  {| mod_id := mod_id r; mod_title := mod_title r;
     mod_description := mod_description r;
     mod_content := rescore_content f (mod_content r);
     mod_estimated_duration := mod_estimated_duration r |}.

Definition with_passing_scores (f : Quiz -> Z) (st : Store) : Store :=
  {| users := users st; modules := map (rescore_module f) (modules st);
     user_progress := user_progress st;
     user_progress_seq := user_progress_seq st;
     lesson_progress := lesson_progress st;
     lesson_progress_seq := lesson_progress_seq st;
     certificates := certificates st; certificates_seq := certificates_seq st |}.

(** The percentage that the specification's formula gives: the quotient
    [100 * completed / total] rounded to the nearest integer, halves up. *)
Definition spec_percentage (completed total : Z) : Z :=
  (200 * completed + total) / (2 * total).

(** ** Sample data *)

Module Sample.

(** A clock that advances by one millisecond per reading and a driver
    that never fails. *)
Definition env : Env :=
  {| clock := fun n => 1000 + Z.of_nat n; fault := fun _ => false |}.

(** The same clock with a driver that fails on its fifth call. *)
Definition faulty_env : Env :=
  {| clock := fun n => 1000 + Z.of_nat n; fault := fun n => Nat.eqb n 4 |}.

Definition student : User :=
  {| usr_id := 1; usr_username := "amina"; usr_email := "amina@example.org";
     usr_password_hash := "$2b$10$hash"; usr_role := "student" |}.

Definition lesson (n : Z) : Lesson :=
  {| les_id := ("lesson-" ++ show n)%string;
     les_title := ("Lesson " ++ show n)%string; les_order := n |}.

Definition quiz (n after passing : Z) : Quiz :=
  {| quiz_id := ("quiz-" ++ show n)%string;
     quiz_title := ("Quiz " ++ show n)%string;
     quiz_afterLessonId := Some ("lesson-" ++ show after)%string;
     quiz_passingScore := passing |}.

Definition lessons_upto (n : nat) : list Lesson :=
  map (fun i => lesson (Z.of_nat i)) (seq 1 n).

(** Module 1: three lessons and a quiz after the second, passing score
    70 (the example scenario of the specification). *)
Definition course : ModuleRow :=
  {| mod_id := 1; mod_title := "Algorithms"; mod_description := "Sorting";
     mod_content :=
       JsonText {| lessons := Some (lessons_upto 3);
                   quizzes := Some [quiz 1 2 70];
                   estimatedTime := 30 |};
     mod_estimated_duration := 30 |}.

(** Module 2: one lesson and one quiz. *)
Definition tiny_course : ModuleRow :=
  {| mod_id := 2; mod_title := "Warm-up"; mod_description := "One lesson";
     mod_content :=
       JsonText {| lessons := Some (lessons_upto 1);
                   quizzes := Some [quiz 1 1 70];
                   estimatedTime := 5 |};
     mod_estimated_duration := 5 |}.

(** Module 3: forty lessons, no quiz. *)
Definition long_course : ModuleRow :=
  {| mod_id := 3; mod_title := "Survey"; mod_description := "Forty lessons";
     mod_content :=
       JsonText {| lessons := Some (lessons_upto 40);
                   quizzes := Some [];
                   estimatedTime := 400 |};
     mod_estimated_duration := 400 |}.

(** Module 4: a content that is not JSON. *)
Definition broken_course : ModuleRow :=
  {| mod_id := 4; mod_title := "Broken"; mod_description := "Bad content";
     mod_content := NotJson; mod_estimated_duration := 0 |}.

Definition store : Store :=
  {| users := [student];
     modules := [course; tiny_course; long_course; broken_course];
     user_progress := []; user_progress_seq := 0;
     lesson_progress := []; lesson_progress_seq := 0;
     certificates := []; certificates_seq := 0 |}.

Definition start : World := world store 0 0.

(** A call of the student on a module, with a score or without the
    property. *)
Definition visit (m : Z) (l : string) (done : bool) (seconds : Z)
    (score : option Z) : ProgressData :=
  {| userId := 1; moduleId := m; lessonId := l; completed := done;
     timeSpent := seconds;
     quizScore := match score with Some s => Score s | None => Undefined end |}.

(** The example scenario of the specification. *)
Definition scenario : list ProgressData :=
  [visit 1 "lesson-1" true 60 None; visit 1 "lesson-2" true 90 None;
   visit 1 "quiz-1" true 30 (Some 80); visit 1 "lesson-3" true 45 None].

(** Three visits of the first lesson. *)
Definition visits : list ProgressData :=
  [visit 1 "lesson-1" false 60 None; visit 1 "lesson-1" true 90 None;
   visit 1 "lesson-1" true 45 None].

(** The first [n] lessons of the long course, each completed once. *)
Definition completions (n : nat) : list ProgressData :=
  map (fun i => visit 3 ("lesson-" ++ show (Z.of_nat i))%string true 10 None)
      (seq 1 n).

(** The store that a world holds ([store] when the connection is
    closed). *)
Definition store_of (w : World) : Store :=
  match db w with Some st => st | None => store end.

(** The store after the example scenario, and after the three lessons
    of module 1 alone. *)
Definition after_scenario : Store := store_of (record_outcomes env scenario start).

Definition three_lessons : list ProgressData :=
  [visit 1 "lesson-1" true 60 None; visit 1 "lesson-2" true 90 None;
   visit 1 "lesson-3" true 45 None].

Definition after_lessons : Store :=
  store_of (record_outcomes env three_lessons start).

(** The answer of a computation ([other] if it threw). *)
Definition answer {A : Type} (other : A) (result : Outcome A * World) : A :=
  match fst result with Ok a => a | Throw _ => other end.

End Sample.

(** ** Further operations of [DatabaseManager] *)

(** [SELECT * FROM user_progress WHERE user_id = ?] *)
Definition select_user_progress_of (userId : Z) (st : Store) : list UserProgress :=
  filter (fun r => up_user_id r =? userId) (user_progress st).

(** The rows of one user in the order of the index
    [idx_lesson_progress_user_module] on [(user_id, module_id)]: by
    [module_id], and in the order of the row ids within a module. *)
Fixpoint insert_by_module (r : LessonProgress) (rows : list LessonProgress)
  : list LessonProgress :=
  match rows with
  | [] => [r]
  | x :: xs =>
      if lp_module_id r <=? lp_module_id x then r :: x :: xs
      else x :: insert_by_module r xs
  end.

Definition by_module (rows : list LessonProgress) : list LessonProgress :=
  fold_right insert_by_module [] rows.

(** [SELECT * FROM lesson_progress WHERE user_id = ?], which SQLite
    answers from that index. *)
Definition select_lesson_progress_of (userId : Z) (st : Store)
  : list LessonProgress :=
  by_module (filter (fun r => lp_user_id r =? userId) (lesson_progress st)).

(** [SELECT * FROM certificates WHERE user_id = ?] *)
Definition select_certificates_of (userId : Z) (st : Store) : list Certificate :=
  filter (fun r => cert_user_id r =? userId) (certificates st).

(** [async getUserProgress(userId)] *)
Definition getUserProgress (userId : Z) : M (list UserProgress) :=
  try_catch (query (select_user_progress_of userId)) (fun _ => ret []).

(** [async getUserLessonProgress(userId)] *)
Definition getUserLessonProgress (userId : Z) : M (list LessonProgress) :=
  try_catch (query (select_lesson_progress_of userId)) (fun _ => ret []).

(** [async getUserCertificates(userId)] *)
Definition getUserCertificates (userId : Z) : M (list Certificate) :=
  try_catch (query (select_certificates_of userId)) (fun _ => ret []).

(** [SELECT id, username, email, avatar, created_at FROM users], and the
    same statement with [WHERE id = ?].  The table [users] of [schema.sql]
    has the columns [id], [username], [email], [password_hash], [role],
    [created_at] and [updated_at], and no statement of the program alters
    it: SQLite refuses to prepare a statement that names the unknown column
    [avatar], and the driver hands that error to the callback, whatever
    the table holds.  ([initialize] drops the tables and creates them from
    [schema.sql] again at every start.) *)
Definition select_users_avatar (st : Store) : Outcome (list User) * Store :=
  (Throw DriverError, st).

Definition select_user_avatar (id : Z) (st : Store) : Outcome (option User) * Store :=
  (Throw DriverError, st).

(** [async getAllUsers()] *)
Definition getAllUsers : M (list User) :=
  try_catch (statement select_users_avatar) (fun _ => ret []).

(** [async getUserById(id)] *)
Definition getUserById (id : Z) : M (option User) :=
  try_catch (statement (select_user_avatar id)) (fun _ => ret None).

Definition with_modules (st : Store) (rows : list ModuleRow) : Store :=
  {| users := users st; modules := rows;
     user_progress := user_progress st;
     user_progress_seq := user_progress_seq st;
     lesson_progress := lesson_progress st;
     lesson_progress_seq := lesson_progress_seq st;
     certificates := certificates st; certificates_seq := certificates_seq st |}.

(** [DELETE FROM modules WHERE id = ?].  With [foreign_keys] off (see the
    note on the statements) the rows that refer to the module stay. *)
Definition delete_module (id : Z) (st : Store) : Outcome RunResult * Store :=
  (Ok {| lastID := 0;
         changes := Z.of_nat (List.length (filter (fun r => mod_id r =? id)
                                             (modules st))) |},
   with_modules st (filter (fun r => negb (mod_id r =? id)) (modules st))).

(** [DELETE FROM modules] *)
Definition delete_modules (st : Store) : Outcome RunResult * Store :=
  (Ok {| lastID := 0; changes := Z.of_nat (List.length (modules st)) |},
   with_modules st []).

(** [async deleteModule(id)] *)
Definition deleteModule (id : Z) : M (ApiResponse unit) :=
  try_catch
    (result <- run (delete_module id) ;;
     if 0 <? changes result
     then ret (inform "Module deleted successfully")
     else ret (fail (Literal "Module not found")))
    (fun error => ret (fail (Template "Failed to delete module: " error))).

(** [async deleteAllModules()] *)
Definition deleteAllModules : M (ApiResponse unit) :=
  try_catch
    (result <- run delete_modules ;;
     ret (inform ("Deleted " ++ show (changes result) ++ " modules")%string))
    (fun error => ret (fail (Template "Failed to delete all modules: " error))).

(** *** Accounts *)

(** The two functions of the library [bcrypt] that the accounts use:
    [bcrypt.hash(data, 10)], as a function of the salt that the call
    draws, and [bcrypt.compare(data, encrypted)]. *)
Record Bcrypt : Type := {
  bcrypt_hash : string -> string -> string;
  bcrypt_compare : string -> string -> bool
}.

(** The argument of [createUser]; the field [password_hash] carries the
    password as it was typed. *)
Record UserData : Type := {
  ud_username : string;
  ud_email : string;
  ud_password_hash : string
}.

(** A row of [users] without its [password_hash]. *)
Record PublicUser : Type := {
  pu_id : Z;
  pu_username : string;
  pu_email : string;
  pu_role : string
}.

(** [const { password_hash: _password_hash, ...userWithoutPassword } =
    user] *)
Definition userWithoutPassword (user : User) : PublicUser :=
  {| pu_id := usr_id user; pu_username := usr_username user;
     pu_email := usr_email user; pu_role := usr_role user |}.

(** [SELECT * FROM users WHERE email = ? OR username = ?] *)
Definition select_user_by_email_or_username (email username : string) (st : Store)
  : option User :=
  find (fun r => String.eqb (usr_email r) email || String.eqb (usr_username r) username)
       (users st).

(** [SELECT * FROM users WHERE email = ?] *)
Definition select_user_by_email (email : string) (st : Store) : option User :=
  find (fun r => String.eqb (usr_email r) email) (users st).

Definition with_users (st : Store) (rows : list User) : Store :=
  {| users := rows; modules := modules st;
     user_progress := user_progress st;
     user_progress_seq := user_progress_seq st;
     lesson_progress := lesson_progress st;
     lesson_progress_seq := lesson_progress_seq st;
     certificates := certificates st; certificates_seq := certificates_seq st |}.

(** [INSERT INTO users (username, email, password_hash) VALUES (?, ?, ?)]
    under [username UNIQUE] and [email UNIQUE]; [role] takes its default.
    No statement of the program deletes a user, so the largest id the
    table ever held is the largest it holds. *)
Definition insert_user (username email passwordHash : string) (st : Store)
  : Outcome RunResult * Store :=
  if existsb (fun r => String.eqb (usr_username r) username
                       || String.eqb (usr_email r) email) (users st)
  then (Throw (UniqueConstraintFailed "users"), st)
  else
    let id := next_rowid 0 (map usr_id (users st)) in
    (Ok {| lastID := id; changes := 1 |},
     with_users st
       (users st ++
        [{| usr_id := id; usr_username := username; usr_email := email;
            usr_password_hash := passwordHash; usr_role := "student" |}])%list).

(** [async createUser(userData)]; [salt] is the salt that this call's
    [bcrypt.hash] draws. *)
Definition createUser (bcrypt : Bcrypt) (salt : string) (userData : UserData)
  : M (ApiResponse PublicUser) :=
  try_catch
    (existingUser <-
       get (select_user_by_email_or_username (ud_email userData)
              (ud_username userData)) ;;
     match existingUser with
     | Some _ =>
         ret (fail (Literal "User with this email or username already exists"))
     | None =>
         let hashedPassword := bcrypt_hash bcrypt salt (ud_password_hash userData) in
         result <- run (insert_user (ud_username userData) (ud_email userData)
                          hashedPassword) ;;
         newUser <- get (select_user (lastID result)) ;;
         match newUser with
         | Some newUser => ret (succeed (userWithoutPassword newUser))
         | None => ret (fail (Literal "Failed to retrieve created user"))
         end
     end)
    (fun error => ret (fail (Template "Failed to create user: " error))).

(** [async authenticateUser(email, password)] *)
Definition authenticateUser (bcrypt : Bcrypt) (email password : string)
  : M (ApiResponse PublicUser) :=
  try_catch
    (user <- get (select_user_by_email email) ;;
     match user with
     | None => ret (fail (Literal "Invalid email or password"))
     | Some user =>
         let passwordMatch := bcrypt_compare bcrypt password (usr_password_hash user) in
         if negb passwordMatch
         then ret (fail (Literal "Invalid email or password"))
         else ret (succeed (userWithoutPassword user))
     end)
    (fun error => ret (fail (Template "Authentication failed: " error))).

(** ** The handlers of the main process

    [ipcMain.handle] registers one function per channel; each wraps an
    operation of the database in a result of its own. *)

(** The [error] of a handler: a literal, or [error.message] of what it
    caught. *)
Inductive HandlerError : Type :=
| Said (text : string)
| MessageOf (error : Exn)
| Handed (error : ErrorText).     (* the error of a result that is handed on *)

Record HandlerResult (A : Type) : Type := {
  hr_success : bool;
  hr_data : option A;
  hr_error : option HandlerError
}.
Arguments hr_success {A} _.
Arguments hr_data {A} _.
Arguments hr_error {A} _.

(** [{ success: true, data }] and [{ success: false, error }] *)
Definition handled {A : Type} (a : A) : HandlerResult A :=
  {| hr_success := true; hr_data := Some a; hr_error := None |}.

Definition refused {A : Type} (e : HandlerError) : HandlerResult A :=
  {| hr_success := false; hr_data := None; hr_error := Some e |}.

(** [{ user, token: 'local-session' }] *)
Record Session : Type := {
  session_user : User;
  session_token : string
}.

(** The same object around a row without its password. *)
Record AuthSession : Type := {
  auth_user : PublicUser;
  auth_token : string
}.

(** [if (result.success && result.data) return { success: true, data: {
    user: result.data, token: 'local-session' } }; return result] *)
Definition open_session (result : ApiResponse PublicUser)
  : HandlerResult AuthSession :=
  match success result, data result with
  | true, Some user =>
      handled {| auth_user := user; auth_token := "local-session" |}
  | _, _ =>
      {| hr_success := success result; hr_data := None;
         hr_error := option_map Handed (error result) |}
  end.

(** ['auth:register'] *)
Definition auth_register (bcrypt : Bcrypt) (salt : string)
  (username email password : string) : M (HandlerResult AuthSession) :=
  try_catch
    (result <- createUser bcrypt salt {| ud_username := username; ud_email := email;
                                    ud_password_hash := password |} ;;
     ret (open_session result))
    (fun _ => ret (refused (Said "Registration failed"))).

(** ['auth:login'] *)
Definition auth_login (bcrypt : Bcrypt) (email password : string)
  : M (HandlerResult AuthSession) :=
  try_catch
    (result <- authenticateUser bcrypt email password ;;
     ret (open_session result))
    (fun _ => ret (refused (Said "Login failed"))).

(** ['user:get-all'] *)
Definition user_get_all : M (HandlerResult (list User)) :=
  try_catch
    (users <- getAllUsers ;; ret (handled users))
    (fun _ => ret (refused (Said "Failed to get users"))).

(** ['user:switch'] *)
Definition user_switch (userId : Z) : M (HandlerResult Session) :=
  try_catch
    (user <- getUserById userId ;;
     match user with
     | Some user =>
         ret (handled {| session_user := user; session_token := "local-session" |})
     | None => ret (refused (Said "User not found"))
     end)
    (fun _ => ret (refused (Said "Failed to switch user"))).

(** ['progress:get-user-progress'] *)
Definition progress_get_user_progress (userId : Z)
  : M (HandlerResult (list UserProgress)) :=
  try_catch
    (progress <- getUserProgress userId ;; ret (handled progress))
    (fun error => ret (refused (MessageOf error))).

(** ['progress:get-user-lesson-progress'] *)
Definition progress_get_user_lesson_progress (userId : Z)
  : M (HandlerResult (list LessonProgress)) :=
  try_catch
    (lessonProgress <- getUserLessonProgress userId ;; ret (handled lessonProgress))
    (fun error => ret (refused (MessageOf error))).

(** ['progress:get-module-progress'] *)
Definition progress_get_module_progress (userId moduleId : Z)
  : M (HandlerResult ModuleProgressView) :=
  try_catch
    (progress <- getModuleProgress userId moduleId ;; ret (handled progress))
    (fun error => ret (refused (MessageOf error))).

(** ['certificates:get-user-certificates'] *)
Definition certificates_get_user_certificates (userId : Z)
  : M (HandlerResult (list Certificate)) :=
  try_catch
    (certificates <- getUserCertificates userId ;; ret (handled certificates))
    (fun error => ret (refused (MessageOf error))).

(** ['certificates:verify'] *)
Definition certificates_verify (code : string) : M (HandlerResult Certificate) :=
  try_catch
    (certificate <- verifyCertificate code ;;
     match certificate with
     | Some certificate => ret (handled certificate)
     | None => ret (refused (Said "Certificate not found"))
     end)
    (fun error => ret (refused (MessageOf error))).

(** ** Vocabulary of the further statements *)




(** The computation leaves the connection, the store and the clock
    readings as they are. *)
Definition reads_only {A : Type} (m : M A) : Prop :=
  forall env w,
    db (snd (m env w)) = db w /\ ticks (snd (m env w)) = ticks w.

(** The first statement that the computation hands to the driver does not
    go through: there is no connection, or the driver fails on it. *)
Definition unreachable (env : Env) (w : World) : Prop :=
  db w = None \/ fault env (calls w) = true.

(** The text holds no hyphen. *)
Fixpoint dashless (s : string) : bool :=
  match s with
  | EmptyString => true
  | String c s' => negb (Ascii.eqb c "-") && dashless s'
  end.

(** Every certificate of the store carries the code that
    [generateCertificate] builds for its user and module at some reading
    of the clock. *)
Definition codes_minted (st : Store) : Prop :=
  forall r,
    In r (certificates st) ->
    0 <= cert_user_id r
    /\ exists stamp,
         0 <= stamp
         /\ cert_certificate_code r
            = certificate_code stamp (cert_user_id r) (cert_module_id r).

(** The clock never reads a time before the epoch. *)
Definition after_epoch (env : Env) : Prop := forall n, 0 <= clock env n.

(** Between the two stores nothing has changed but rows of the pair: the
    users, the modules and the certificates are the same, and so are, in
    the same order, the rows of [user_progress] and [lesson_progress] that
    belong to other pairs. *)
Definition others_untouched (u m : Z) (st st' : Store) : Prop :=
  users st' = users st /\ modules st' = modules st
  /\ certificates st' = certificates st
  /\ certificates_seq st' = certificates_seq st
  /\ filter (fun r => negb (up_key u m r)) (user_progress st')
     = filter (fun r => negb (up_key u m r)) (user_progress st)
  /\ filter (fun r => negb (lp_pair u m r)) (lesson_progress st')
     = filter (fun r => negb (lp_pair u m r)) (lesson_progress st).

(** The columns [quiz_attempts] and [total_time_spent] of the second store
    are those of the first, followed by zeros for the rows added. *)
Definition counters_kept (st st' : Store) : Prop :=
  (exists n,
     map lp_quiz_attempts (lesson_progress st')
     = (map lp_quiz_attempts (lesson_progress st) ++ repeat 0 n)%list)
  /\ (exists n,
        map up_total_time_spent (user_progress st')
        = (map up_total_time_spent (user_progress st) ++ repeat 0 n)%list).

(** The score that a sequence of calls leaves: what the last call that
    carried the property bound for it (an integer, or [NULL] for [null] and
    [NaN]), or the former score when no call carried it. *)
Definition latest_score (prior : option Z) (pds : list ProgressData) : option Z :=
  fold_left (fun acc pd => match quizScore pd with
                           | Undefined => acc
                           | supplied => bound_score supplied
                           end) pds prior.

(** The flag that a sequence of calls leaves: the one of the last call. *)
Definition latest_flag (prior : bool) (pds : list ProgressData) : bool :=
  fold_left (fun _ pd => completed pd) pds prior.

(** [UNIQUE (user_id, module_id)] holds of the stored rows. *)
Definition user_progress_unique (st : Store) : Prop :=
  forall u m, (List.length (filter (up_key u m) (user_progress st)) <= 1)%nat.

(** The second store satisfies the uniqueness constraints of the progress
    tables that the first satisfies. *)
Definition uniqueness_kept (st st' : Store) : Prop :=
  (lesson_progress_unique st -> lesson_progress_unique st')
  /\ (user_progress_unique st -> user_progress_unique st').

(** [k <= x] for an integer [k] *)
Definition int_le (k : Z) (x : JSNum.double) : Prop :=
  if 0 <=? JSNum.expo x then k <= JSNum.mant x * 2 ^ JSNum.expo x
  else k * 2 ^ (- JSNum.expo x) <= JSNum.mant x.

(** ** Helpers of the renderer ([lib/utils.ts])

    Their arguments are counts and milliseconds: integers far below 2^53,
    on which [Math.floor(a / b)] is the quotient rounded down and [a % b]
    the remainder with the sign of [a]. *)

(** [calculateProgress(completed, total)], on counts: [completed] is not
    negative and [total] is not negative ([JSNum] holds no negative
    number). *)
Definition calculateProgress (completed total : Z) : Z :=
  if total =? 0 then 0 else progress_percentage completed total.

(** No row of the pair has an id that SQLite matches against
    ["lesson-%"]. *)
Definition off_convention (u m : Z) (st : Store) : Prop :=
  Forall (fun r => lp_pair u m r = true -> like "lesson-%" (lp_lesson_id r) = false)
         (lesson_progress st).

(** [`${n !== 1 ? 's' : ''}`] *)
Definition plural (n : Z) : string := if n =? 1 then "" else "s".

(** [formatDuration(startDate, endDate)], on the texts that
    [updateLessonProgress] stores in [started_at] and [completion_date]
    (null, or a rendering of a clock reading, which [new Date] reads
    back).  [formatDate], which goes through [Intl.DateTimeFormat], is a
    parameter. *)
Definition formatDuration (formatDate : Timestamp -> string)
    (startDate endDate : option Timestamp) : string :=
  match startDate with
  | None => "Not started"
  | Some start =>
      match endDate with
      | None => ("Started " ++ formatDate start)%string
      | Some end_ =>
          let diffMs := end_ - start in
          let diffDays := diffMs / (1000 * 60 * 60 * 24) in
          let diffHours := Z.rem diffMs (1000 * 60 * 60 * 24) / (1000 * 60 * 60) in
          let diffMinutes := Z.rem diffMs (1000 * 60 * 60) / (1000 * 60) in
          if 0 <? diffDays
          then ("Completed in " ++ show diffDays ++ " day" ++ plural diffDays)%string
          else if 0 <? diffHours
          then ("Completed in " ++ show diffHours ++ " hour" ++ plural diffHours)%string
          else if 0 <? diffMinutes
          then ("Completed in " ++ show diffMinutes ++ " minute"
                ++ plural diffMinutes)%string
          else "Completed in less than a minute"
      end
  end.

(** ** The quiz page ([QuizPage.tsx]) *)

(** [correctAnswer: string | number] *)
Inductive AnswerKey : Type :=
| NumberKey (n : Z)
| TextKey (s : string).

(** A question, with the one field that the scoring reads. *)
Record Question : Type := {
  question_id : string;
  correctAnswer : AnswerKey
}.

(** The state [answers: number[]]; an index that was never assigned holds
    [undefined]. *)
Definition Answers : Type := list (option Z).

(** [newAnswers[questionIndex] = answerIndex] on a copy of the array: an
    assignment past the end leaves holes before it. *)
Fixpoint handleAnswerSelect (answers : Answers) (questionIndex : nat)
    (answerIndex : Z) : Answers :=
  match questionIndex, answers with
  | O, [] => [Some answerIndex]
  | O, _ :: rest => Some answerIndex :: rest
  | S i, [] => None :: handleAnswerSelect [] i answerIndex
  | S i, a :: rest => a :: handleAnswerSelect rest i answerIndex
  end.

(** [answers[index]]; [None] is [undefined], for a hole as for an index
    past the end. *)
Definition answer_at (answers : Answers) (index : nat) : option Z :=
  match nth_error answers index with
  | Some (Some answer) => Some answer
  | _ => None
  end.

(** [answers[index] === question.correctAnswer]: a number is strictly
    equal to a number only. *)
Definition answered_correctly (answers : Answers) (index : nat) (question : Question)
  : bool :=
  match answer_at answers index, correctAnswer question with
  | Some answer, NumberKey key => answer =? key
  | _, _ => false
  end.

(** The [forEach] of [completeQuiz], from the question at [index] on. *)
Fixpoint correctAnswers (answers : Answers) (index : nat) (questions : list Question)
  : Z :=
  match questions with
  | [] => 0
  | question :: rest =>
      (if answered_correctly answers index question then 1 else 0)
      + correctAnswers answers (S index) rest
  end.

(** [Math.round((correctAnswers / quiz.questions.length) * 100)]; without
    questions the quotient is [0 / 0] and the score is NaN ([None]). *)
Definition calculatedScore (questions : list Question) (answers : Answers)
  : option Z :=
  match questions with
  | [] => None
  | _ :: _ =>
      Some (progress_percentage (correctAnswers answers 0 questions)
                                (Z.of_nat (List.length questions)))
  end.

(** [score >= quiz.passingScore]; no comparison holds of NaN. *)
Definition isPassed (score : option Z) (passingScore : Z) : bool :=
  match score with
  | Some score => passingScore <=? score
  | None => false
  end.

(** ** Where the lesson page and the quiz page lead *)

Inductive Destination : Type :=
| ToQuiz (quizId : string)       (* /modules/${moduleId}/quiz/${quizId} *)
| ToLesson (lessonId : string)   (* /modules/${moduleId}/learn/${lessonId} *)
| ToModule                       (* /modules/${moduleId} *)
| CompletionModal                (* setShowCompletionModal(true) *)
| Stay                           (* return, the results stay on screen *)
| Uncaught.                      (* a TypeError that nothing catches *)

(** [xs.findIndex(p)]; [None] is -1. *)
Fixpoint findIndex {T : Type} (p : T -> bool) (xs : list T) : option nat :=
  match xs with
  | [] => None
  | x :: rest =>
      if p x then Some O
      else match findIndex p rest with
           | Some i => Some (S i)
           | None => None
           end
  end.

(** [xs[index + 1]] *)
Definition element_after {T : Type} (xs : list T) (index : option nat) : option T :=
  nth_error xs (match index with Some i => S i | None => O end).

(** [quiz.afterLessonId === lessonId] *)
Definition anchored_at (lessonId : string) (quiz : Quiz) : bool :=
  match quiz_afterLessonId quiz with
  | Some after => String.eqb after lessonId
  | None => false
  end.

(** [handleComplete] of [LessonPage.tsx], for a module that is loaded and
    a user who is logged in, after [await updateLessonProgress(...)]:
    [saved] tells whether the hook returned rather than threw, and
    [moduleIsCompleted] is the answer of the hook's [isModuleCompleted]. *)
Definition handleComplete (content : ModuleContent) (lessonId : string)
    (saved moduleIsCompleted : bool) : Destination :=
  if negb saved then ToModule
  else
    match find (anchored_at lessonId)
               (match quizzes content with Some qs => qs | None => [] end) with
    | Some quizAfterThisLesson => ToQuiz (quiz_id quizAfterThisLesson)
    | None =>
        match lessons content with
        | None => ToModule          (* the TypeError is caught *)
        | Some ls =>
            let currentIndex := findIndex (fun l => String.eqb (les_id l) lessonId) ls in
            match element_after ls currentIndex with
            | Some nextLesson => ToLesson (les_id nextLesson)
            | None => if moduleIsCompleted then CompletionModal else ToModule
            end
        end
    end.

(** [handleFinish] of [QuizPage.tsx], for a quiz that was found in a
    module that is loaded. *)
Definition handleFinish (content : ModuleContent) (quiz : Quiz)
    (passed moduleCompleted : bool) : Destination :=
  if negb passed then ToModule
  else
    match quiz_afterLessonId quiz with
    | None => ToModule
    | Some afterLessonId =>
        if String.eqb afterLessonId "" then ToModule
        else
          match lessons content with
          | None => Uncaught
          | Some ls =>
              match findIndex (fun l => String.eqb (les_id l) afterLessonId) ls with
              | None => ToModule
              | Some afterLessonIndex =>
                  match nth_error ls (S afterLessonIndex) with
                  | Some nextLesson => ToLesson (les_id nextLesson)
                  | None => if moduleCompleted then Stay else ToModule
                  end
              end
          end
    end.

(** The three keys of [users] ([id PRIMARY KEY], [username UNIQUE],
    [email UNIQUE]) hold in a store. *)
Definition accounts_unique (st : Store) : Prop :=
  NoDup (map usr_id (users st))
  /\ NoDup (map usr_username (users st))
  /\ NoDup (map usr_email (users st)).

(** What ['auth:login'] answers to a wrong password and to an unknown
    email. *)
Definition invalid_login : HandlerResult AuthSession :=
  {| hr_success := false; hr_data := None;
     hr_error := Some (Handed (Literal "Invalid email or password")) |}.

(** The session that the handlers open for a row. *)
Definition session_of (user : User) : HandlerResult AuthSession :=
  handled {| auth_user := userWithoutPassword user; auth_token := "local-session" |}.

(** ** Further sample data *)

Module Scenes.

(** A driver that fails on every call, and one that fails on its second
    call only. *)
Definition offline_env : Env :=
  {| clock := fun n => 1000 + Z.of_nat n; fault := fun _ => true |}.

Definition flaky_env : Env :=
  {| clock := fun n => 1000 + Z.of_nat n; fault := fun n => Nat.eqb n 1 |}.

(** A driver that fails on its third call only. *)
Definition stalling_env : Env :=
  {| clock := fun n => 1000 + Z.of_nat n; fault := fun n => Nat.eqb n 2 |}.

(** A stand-in for [bcrypt] in the examples: the salt is put in front of
    the data, and looked for there. *)
Definition plain_bcrypt : Bcrypt :=
  {| bcrypt_hash := fun salt data => (salt ++ "$" ++ data)%string;
     bcrypt_compare := fun data encrypted =>
       let n := (String.length encrypted - String.length data)%nat in
       String.eqb (substring n (String.length data) encrypted) data |}.

(** Module 5: an empty content column.  Module 6: two lessons whose ids
    do not begin with "lesson-", and no quiz. *)
Definition blank_course : ModuleRow :=
  {| mod_id := 5; mod_title := "Blank"; mod_description := "No content";
     mod_content := EmptyText; mod_estimated_duration := 0 |}.

Definition plain_course : ModuleRow :=
  {| mod_id := 6; mod_title := "Plain"; mod_description := "Plain ids";
     mod_content :=
       JsonText {| lessons := Some [{| les_id := "intro"; les_title := "Intro";
                                       les_order := 1 |};
                                    {| les_id := "outro"; les_title := "Outro";
                                       les_order := 2 |}];
                   quizzes := Some [];
                   estimatedTime := 10 |};
     mod_estimated_duration := 10 |}.

Definition library : Store :=
  {| users := [Sample.student];
     modules := [Sample.course; Sample.tiny_course; blank_course; plain_course];
     user_progress := []; user_progress_seq := 0;
     lesson_progress := []; lesson_progress_seq := 0;
     certificates := []; certificates_seq := 0 |}.

(** The student completes both lessons of module 6. *)
Definition plain_visits : list ProgressData :=
  [Sample.visit 6 "intro" true 30 None; Sample.visit 6 "outro" true 30 None].

(** A quiz taken three times: 90, then 40, then saved again without a
    score and not completed. *)
Definition retakes : list ProgressData :=
  [Sample.visit 2 "quiz-1" true 5 (Some 90); Sample.visit 2 "quiz-1" true 5 (Some 40);
   Sample.visit 2 "quiz-1" false 5 None].

(** The same, and then a save of a quiz without questions, whose score is
    [NaN]. *)
Definition retakes_then_nan : list ProgressData :=
  (retakes ++
   [{| userId := 1; moduleId := 2; lessonId := "quiz-1"; completed := true;
       timeSpent := 5; quizScore := NaN |}])%list.

(** The content of module 1. *)
Definition course_content : ModuleContent :=
  {| lessons := Some (Sample.lessons_upto 3);
     quizzes := Some [Sample.quiz 1 2 70];
     estimatedTime := 30 |}.

End Scenes.

(** * Properties *)

(** ** Arithmetic of doubles *)

(** The operations agree with the Standard Library's binary64: for every
    quotient of counts up to 64 items, and for four fifths of every length
    below 1000. *)
Example percent_agrees_with_binary64 :
  forallb (fun t => forallb (fun c => JSNum.percent_agrees c t) (seq 0 (S t)))
          (seq 1 64) = true.
Proof. vm_compute. reflexivity. Qed.

Example four_fifths_agrees_with_binary64 :
  forallb JSNum.four_fifths_agrees (seq 0 1000) = true.
Proof. vm_compute. reflexivity. Qed.

(** Sums below, at and beyond 2^53: [2^53 + 1] is [2^53], [2^53 + 3] is
    [2^53 + 4], and so on for the larger steps. *)
Example plus_agrees_with_binary64 :
  forallb (fun ab => JSNum.plus_agrees (fst ab) (snd ab))
          [(1, 2); (60, 90); (2 ^ 52, 2 ^ 52 - 1); (2 ^ 53 - 1, 1); (2 ^ 53, 1);
           (2 ^ 53, 2); (2 ^ 53, 3); (2 ^ 53 + 2, 1); (2 ^ 53 + 2, 3);
           (2 ^ 54, 1); (2 ^ 54, 2); (2 ^ 54, 3); (2 ^ 54, 5); (2 ^ 54, 6);
           (2 ^ 54 + 4, 2); (2 ^ 60, 2 ^ 7); (2 ^ 60, 2 ^ 7 + 1);
           (2 ^ 60 + 2 ^ 8, 2 ^ 7); (2 ^ 100, 2 ^ 53); (2 ^ 53 - 1, 2 ^ 53 - 1);
           (9007199254740991, 9007199254740991); (2 ^ 53, 2 ^ 53 - 1)] = true
  /\ JSNum.plus (2 ^ 53) 1 = 2 ^ 53.
Proof. vm_compute. split; reflexivity. Qed.

Example lit_0_8_bits :
  JSNum.lit_0_8 = JSNum.mkDouble 7205759403792794 (-53).
Proof. vm_compute. reflexivity. Qed.

(** [Math.round((23 / 40) * 100)] is 57: the product is
    57.49999999999999. *)
Example percentage_23_of_40 :
  JSNum.mul (JSNum.div (JSNum.of_int 23) (JSNum.of_int 40)) (JSNum.of_int 100)
  = JSNum.mkDouble 8092405580431359 (-47)
  /\ progress_percentage 23 40 = 57.
Proof. vm_compute. split; reflexivity. Qed.

Module JSNumFacts.

Import JSNum.

Lemma pow2_pos (e : Z) : 0 <= e -> 0 < 2 ^ e.
Proof. intros; apply Z.pow_pos_nonneg; lia. Qed.

Lemma round_half_even_le (n d k : Z) :
  0 < d -> n <= k * d -> round_half_even n d <= k.
Proof.
  intros Hd Hn. unfold round_half_even.
  pose proof (Z.div_mod n d ltac:(lia)) as E.
  pose proof (Z.mod_pos_bound n d Hd) as B.
  assert (n / d <= k) by (apply Z.div_le_upper_bound; lia).
  destruct (2 * (n mod d) <? d) eqn:E1; [lia|].
  apply Z.ltb_ge in E1.
  assert (n / d < k) by nia.
  destruct (d <? 2 * (n mod d)); [lia|].
  destruct (Z.even (n / d)); lia.
Qed.

Lemma round_half_even_nonneg (n d : Z) :
  0 < d -> 0 <= n -> 0 <= round_half_even n d.
Proof.
  intros Hd Hn. unfold round_half_even.
  assert (0 <= n / d) by (apply Z.div_pos; lia).
  destruct (2 * (n mod d) <? d); [lia|].
  destruct (d <? 2 * (n mod d)); [lia|].
  destruct (Z.even (n / d)); lia.
Qed.

Lemma scaled_pos (p q e : Z) :
  0 < p -> 0 < q -> 0 < fst (scaled p q e) /\ 0 < snd (scaled p q e).
Proof.
  intros Hp Hq. unfold scaled.
  destruct (0 <=? e) eqn:E; cbn [fst snd].
  - apply Z.leb_le in E. pose proof (pow2_pos e E). nia.
  - apply Z.leb_gt in E. pose proof (pow2_pos (- e) ltac:(lia)). nia.
Qed.

(** The scaled quotient at the chosen exponent is at least 2^52. *)
Lemma exponent_of_lower (p q : Z) :
  0 < p -> 0 < q ->
  2 ^ 52 * snd (scaled p q (exponent_of p q)) <= fst (scaled p q (exponent_of p q)).
Proof.
  intros Hp Hq. unfold exponent_of.
  set (e0 := Z.log2 p - Z.log2 q - 53).
  pose proof (Z.log2_spec p Hp) as [Lp Up].
  pose proof (Z.log2_spec q Hq) as [Lq Uq].
  pose proof (Z.log2_nonneg p) as Np. pose proof (Z.log2_nonneg q) as Nq.
  destruct (fst (scaled p q e0) <? 2 ^ 53 * snd (scaled p q e0)) eqn:C.
  - (* e0 is kept *)
    clear C. unfold scaled. destruct (0 <=? e0) eqn:E; cbn [fst snd].
    + apply Z.leb_le in E.
      assert (2 ^ Z.log2 p = 2 ^ 52 * 2 ^ e0 * 2 ^ (Z.log2 q + 1)) as Hl.
      { rewrite <- !Z.pow_add_r by lia. f_equal. lia. }
      pose proof (pow2_pos e0 E).
      assert (0 < 2 ^ 52) by (apply pow2_pos; lia).
      replace (Z.succ (Z.log2 q)) with (Z.log2 q + 1) in Uq by lia.
      assert (2 ^ 52 * (q * 2 ^ e0) <= 2 ^ 52 * (2 ^ (Z.log2 q + 1) * 2 ^ e0)).
      { apply Z.mul_le_mono_nonneg_l; [lia|].
        apply Z.mul_le_mono_nonneg_r; lia. }
      rewrite Hl in Lp. 
      replace (2 ^ 52 * 2 ^ e0 * 2 ^ (Z.log2 q + 1))
        with (2 ^ 52 * (2 ^ (Z.log2 q + 1) * 2 ^ e0)) in Lp by ring.
      lia.
    + apply Z.leb_gt in E.
      assert (2 ^ 52 * q <= 2 ^ (Z.log2 p) * 2 ^ (- e0)).
      { rewrite <- Z.pow_add_r by lia.
        replace (Z.log2 p + - e0) with (52 + (Z.log2 q + 1)) by lia.
        rewrite Z.pow_add_r by lia. 
        assert (0 < 2 ^ 52) by (apply pow2_pos; lia). nia. }
      pose proof (pow2_pos (- e0) ltac:(lia)). nia.
  - apply Z.ltb_ge in C. revert C. unfold scaled.
    destruct (0 <=? e0) eqn:E; cbn [fst snd].
    + apply Z.leb_le in E.
      assert ((0 <=? e0 + 1) = true) as -> by (apply Z.leb_le; lia). cbn [fst snd].
      rewrite Z.pow_add_r by lia. change (2 ^ 53) with (2 ^ 52 * 2). 
      change (2 ^ 1) with 2. intros; lia.
    + apply Z.leb_gt in E.
      destruct (0 <=? e0 + 1) eqn:E'; cbn [fst snd].
      * apply Z.leb_le in E'. assert (e0 = -1) as -> by lia.
        change (2 ^ 53) with (2 ^ 52 * 2). change (2 ^ 0) with 1.
        change (2 ^ (- (-1))) with 2. intros; lia.
      * apply Z.leb_gt in E'.
        replace (- e0) with (1 + - (e0 + 1)) by lia.
        rewrite Z.pow_add_r by lia. change (2 ^ 53) with (2 ^ 52 * 2). 
        change (2 ^ 1) with 2. intros; lia.
Qed.

(** Rounding never crosses an integer below 2^53. *)
Lemma rne_le_int (p q k : Z) :
  0 <= p -> 0 < q -> 0 <= k < 2 ^ 53 -> p <= k * q -> le_int (rne p q) k.
Proof.
  intros Hp Hq Hk Hpk. unfold rne.
  destruct (p <=? 0) eqn:P0.
  - unfold le_int; cbn [mant expo Z.leb Z.compare]. lia.
  - apply Z.leb_gt in P0.
    pose proof (exponent_of_lower p q P0 Hq) as L.
    pose proof (scaled_pos p q (exponent_of p q) P0 Hq) as [Sn Sd].
    set (e := exponent_of p q) in *.
    unfold le_int; cbn [mant expo].
    revert L Sn Sd. unfold scaled.
    destruct (0 <=? e) eqn:E; cbn [fst snd]; intros L Sn Sd.
    + apply Z.leb_le in E.
      assert (e = 0) as ->.
      { destruct (Z.eq_dec e 0) as [|Ne]; [assumption|exfalso].
        assert (2 <= 2 ^ e).
        { replace e with (1 + (e - 1)) by lia. rewrite Z.pow_add_r by lia.
          pose proof (pow2_pos (e - 1) ltac:(lia)). change (2 ^ 1) with 2. lia. }
        assert (2 ^ 52 * 2 = 2 ^ 53) by reflexivity. nia. }
      change (2 ^ 0) with 1. rewrite Z.mul_1_r.
      apply round_half_even_le; lia.
    + apply Z.leb_gt in E.
      pose proof (pow2_pos (- e) ltac:(lia)).
      apply round_half_even_le; [lia|]. nia.
Qed.

Lemma rne_mant_nonneg (p q : Z) : 0 < q -> 0 <= mant (rne p q).
Proof.
  intros Hq. unfold rne. destruct (p <=? 0) eqn:P0; cbn [mant]; [lia|].
  apply Z.leb_gt in P0.
  pose proof (scaled_pos p q (exponent_of p q) P0 Hq) as [Sn Sd].
  apply round_half_even_nonneg; lia.
Qed.

Lemma math_round_le (x : double) (k : Z) :
  0 <= k -> le_int x k -> math_round x <= k.
Proof.
  unfold le_int, math_round. intros Hk.
  destruct (0 <=? expo x) eqn:E; [trivial|].
  apply Z.leb_gt in E. intros H.
  pose proof (pow2_pos (- expo x) ltac:(lia)).
  replace (1 - expo x) with (1 + - expo x) by lia.
  rewrite Z.pow_add_r by lia. change (2 ^ 1) with 2.
  apply Z.lt_succ_r, Z.div_lt_upper_bound; [lia|].
  nia.
Qed.

Lemma math_round_nonneg (x : double) : 0 <= mant x -> 0 <= math_round x.
Proof.
  unfold math_round. intros Hm.
  destruct (0 <=? expo x) eqn:E.
  - apply Z.leb_le in E. pose proof (pow2_pos (expo x) E). nia.
  - apply Z.leb_gt in E.
    pose proof (pow2_pos (- expo x) ltac:(lia)).
    pose proof (pow2_pos (1 - expo x) ltac:(lia)).
    apply Z.div_pos; lia.
Qed.

Lemma div_le_one (c t : Z) :
  0 <= c <= t -> 0 < t -> le_int (div (of_int c) (of_int t)) 1.
Proof.
  intros Hc Ht. unfold div, of_int; cbn [mant expo].
  change (0 <=? 0 - 0) with true. cbv iota.
  change (2 ^ (0 - 0)) with 1. rewrite Z.mul_1_r.
  apply rne_le_int; first [lia | split; [lia|reflexivity]].
Qed.

Lemma mul_100_le (x : double) :
  0 <= mant x -> le_int x 1 -> le_int (mul x (of_int 100)) 100.
Proof.
  unfold le_int at 1. unfold mul, of_int; cbn [mant expo]. intros Hm.
  rewrite Z.add_0_r.
  destruct (0 <=? expo x) eqn:E; intros H.
  - apply Z.leb_le in E. pose proof (pow2_pos (expo x) E).
    apply rne_le_int; first [nia | split; [lia|reflexivity]].
  - apply Z.leb_gt in E. pose proof (pow2_pos (- expo x) ltac:(lia)).
    apply rne_le_int; first [nia | split; [lia|reflexivity]].
Qed.

Lemma div_mant_nonneg (c t : Z) :
  0 < t -> 0 <= mant (div (of_int c) (of_int t)).
Proof.
  intros Ht. unfold div, of_int; cbn [mant expo].
  change (0 <=? 0 - 0) with true. cbv iota. apply rne_mant_nonneg. exact Ht.
Qed.

Lemma mul_mant_nonneg (x y : double) : 0 <= mant (mul x y).
Proof.
  unfold mul. destruct (0 <=? expo x + expo y) eqn:E.
  - apply rne_mant_nonneg. lia.
  - apply Z.leb_gt in E. apply rne_mant_nonneg. apply pow2_pos. lia.
Qed.

(** The stored percentage is never negative, and it is at most 100 when no
    more items are counted as completed than the module holds. *)
Lemma progress_percentage_nonneg (c t : Z) : 0 <= progress_percentage c t.
Proof. unfold progress_percentage. apply math_round_nonneg, mul_mant_nonneg. Qed.

Lemma progress_percentage_le_100 (c t : Z) :
  0 <= c <= t -> 0 < t -> progress_percentage c t <= 100.
Proof.
  intros Hc Ht. unfold progress_percentage.
  apply math_round_le; [lia|].
  apply mul_100_le; [apply div_mant_nonneg; exact Ht|].
  apply div_le_one; assumption.
Qed.

(** ** The threshold [lessons.length * 0.8] is the exact four fifths *)

Lemma round_half_even_ge (n d k : Z) :
  0 < d -> k * d <= n -> k <= round_half_even n d.
Proof.
  intros Hd Hn. unfold round_half_even.
  assert (k <= n / d) by (apply Z.div_le_lower_bound; lia).
  destruct (2 * (n mod d) <? d); [lia|].
  destruct (d <? 2 * (n mod d)); [lia|].
  destruct (Z.even (n / d)); lia.
Qed.

Lemma round_half_even_exact (a d r : Z) :
  0 < d -> 0 <= r -> 2 * r < d -> round_half_even (a * d + r) d = a.
Proof.
  intros Hd Hr Hlt. unfold round_half_even.
  assert (Hq : (a * d + r) / d = a).
  { rewrite Z.div_add_l by lia. rewrite Z.div_small by lia. lia. }
  assert (Hm : (a * d + r) mod d = r).
  { rewrite Z.add_comm, Z.mod_add by lia. apply Z.mod_small. lia. }
  rewrite Hq, Hm.
  destruct (2 * r <? d) eqn:E; [reflexivity|]. apply Z.ltb_ge in E. lia.
Qed.

(** The scaled quotient at the chosen exponent is below 2^53. *)
Lemma exponent_of_upper (p q : Z) :
  0 < p -> 0 < q ->
  fst (scaled p q (exponent_of p q)) < 2 ^ 53 * snd (scaled p q (exponent_of p q)).
Proof.
  intros Hp Hq. unfold exponent_of.
  set (e0 := Z.log2 p - Z.log2 q - 53).
  pose proof (Z.log2_spec p Hp) as [Lp Up].
  pose proof (Z.log2_spec q Hq) as [Lq Uq].
  pose proof (Z.log2_nonneg p) as Np. pose proof (Z.log2_nonneg q) as Nq.
  destruct (fst (scaled p q e0) <? 2 ^ 53 * snd (scaled p q e0)) eqn:C.
  - apply Z.ltb_lt in C. exact C.
  - clear C. unfold scaled.
    replace (Z.succ (Z.log2 p)) with (Z.log2 p + 1) in Up by lia.
    destruct (0 <=? e0 + 1) eqn:E; cbn [fst snd].
    + apply Z.leb_le in E.
      assert (2 ^ (Z.log2 p + 1) = 2 ^ 53 * (2 ^ Z.log2 q * 2 ^ (e0 + 1))) as Hl.
      { rewrite <- !Z.pow_add_r by lia. f_equal. lia. }
      assert (2 ^ 53 * (2 ^ Z.log2 q * 2 ^ (e0 + 1)) <= 2 ^ 53 * (q * 2 ^ (e0 + 1))).
      { apply Z.mul_le_mono_nonneg_l; [lia|].
        apply Z.mul_le_mono_nonneg_r; [|lia].
        pose proof (pow2_pos (e0 + 1) E). lia. }
      lia.
    + apply Z.leb_gt in E.
      assert (2 ^ (Z.log2 p + 1) * 2 ^ (- (e0 + 1)) = 2 ^ 53 * 2 ^ Z.log2 q) as Hl.
      { rewrite <- !Z.pow_add_r by lia. f_equal. lia. }
      pose proof (pow2_pos (- (e0 + 1)) ltac:(lia)) as Hpos.
      assert (p * 2 ^ (- (e0 + 1)) < 2 ^ (Z.log2 p + 1) * 2 ^ (- (e0 + 1)))
        by (apply Z.mul_lt_mono_pos_r; assumption).
      assert (2 ^ 53 * 2 ^ Z.log2 q <= 2 ^ 53 * q)
        by (apply Z.mul_le_mono_nonneg_l; lia).
      lia.
Qed.

Lemma rne_mant_lower (p q : Z) : 0 < p -> 0 < q -> 2 ^ 52 <= mant (rne p q).
Proof.
  intros Hp Hq. unfold rne.
  destruct (p <=? 0) eqn:P0; [apply Z.leb_le in P0; lia|]. cbn [mant].
  pose proof (scaled_pos p q (exponent_of p q) Hp Hq) as [_ Sd].
  apply round_half_even_ge; [exact Sd|]. apply exponent_of_lower; assumption.
Qed.

Lemma rne_expo (p q : Z) : 0 < p -> expo (rne p q) = exponent_of p q.
Proof.
  intros Hp. unfold rne. destruct (p <=? 0) eqn:P0; [apply Z.leb_le in P0; lia|].
  reflexivity.
Qed.

Lemma rne_mant (p q : Z) :
  0 < p ->
  mant (rne p q)
  = round_half_even (fst (scaled p q (exponent_of p q)))
                    (snd (scaled p q (exponent_of p q))).
Proof.
  intros Hp. unfold rne. destruct (p <=? 0) eqn:P0; [apply Z.leb_le in P0; lia|].
  reflexivity.
Qed.

(** Rounding stays above a bound with three binary places. *)
Lemma rne_above_eighths (p q k : Z) :
  0 < p -> 0 < q -> 0 <= k -> 8 * k + 1 < 2 ^ 53 -> (8 * k + 1) * q <= 8 * p ->
  int_lt k (rne p q) = true.
Proof.
  intros Hp Hq Hk Hk53 Hb. unfold int_lt.
  pose proof (rne_mant_lower p q Hp Hq) as Hm.
  rewrite rne_mant in * by assumption. rewrite rne_expo by assumption.
  pose proof (scaled_pos p q (exponent_of p q) Hp Hq) as [Sn Sd].
  set (e := exponent_of p q) in *.
  assert (H52 : 2 ^ 52 = 4503599627370496) by reflexivity.
  assert (H53 : 2 ^ 53 = 9007199254740992) by reflexivity.
  destruct (0 <=? e) eqn:E.
  - apply Z.leb_le in E. apply Z.ltb_lt. pose proof (pow2_pos e E) as HP.
    set (R := round_half_even _ _) in *. set (P := 2 ^ e) in *.
    rewrite H52 in Hm. rewrite H53 in Hk53.
    assert (R * 1 <= R * P) by (apply Z.mul_le_mono_nonneg_l; lia). lia.
  - apply Z.leb_gt in E. apply Z.ltb_lt.
    destruct (Z.le_gt_cases (-2) e) as [Hsmall|Hbig].
    + assert (2 ^ (- e) <= 4) as HP.
      { assert (e = -1 \/ e = -2) as He by lia.
        destruct He as [He|He]; rewrite He; cbn; lia. }
      set (R := round_half_even _ _) in *. set (P := 2 ^ (- e)) in *.
      rewrite H52 in Hm. rewrite H53 in Hk53.
      assert (k * P <= k * 4) by (apply Z.mul_le_mono_nonneg_l; lia). lia.
    + revert Hm Sn Sd. unfold scaled.
      assert ((0 <=? e) = false) as -> by (apply Z.leb_gt; lia). cbn [fst snd].
      intros Hm Sn Sd.
      assert (Hf : - e = 3 + (- e - 3)) by lia.
      set (f := - e - 3) in *. assert (0 <= f) as Hf0 by lia.
      rewrite Hf in *. clearbody f. clear Hf.
      rewrite Z.pow_add_r in * by lia. change (2 ^ 3) with 8 in *.
      pose proof (pow2_pos f Hf0) as HP.
      set (P := 2 ^ f) in *.
      assert (Hge : (8 * k + 1) * P <= round_half_even (p * (8 * P)) q).
      { apply round_half_even_ge; [exact Hq|].
        pose proof (Z.mul_le_mono_nonneg_r _ _ P ltac:(lia) Hb). lia. }
      set (R := round_half_even _ _) in *.
      assert (k * (8 * P) < (8 * k + 1) * P) by nia. lia.
Qed.

Lemma int_lt_le_int (k : Z) (x : double) : le_int x k -> int_lt k x = false.
Proof.
  unfold le_int, int_lt. destruct (0 <=? expo x); intros H; apply Z.ltb_ge; exact H.
Qed.

(** Four fifths of a multiple of five is computed exactly. *)
Lemma rne_four_fifths (j : Z) :
  0 < j -> 4 * j < 2 ^ 32 ->
  le_int (rne (5 * j * 7205759403792794) (2 ^ 53)) (4 * j).
Proof.
  intros Hj Hk.
  assert (H32 : 2 ^ 32 = 4294967296) by reflexivity.
  assert (H53 : 2 ^ 53 = 9007199254740992) by reflexivity.
  assert (Hp : 0 < 5 * j * 7205759403792794) by lia.
  assert (Hq : 0 < 2 ^ 53) by lia.
  unfold le_int. rewrite rne_mant, rne_expo by assumption.
  pose proof (exponent_of_lower _ _ Hp Hq) as Hlo.
  pose proof (exponent_of_upper _ _ Hp Hq) as Hup.
  set (e := exponent_of (5 * j * 7205759403792794) (2 ^ 53)) in *.
  assert (H52 : 2 ^ 52 = 4503599627370496) by reflexivity.
  revert Hlo Hup. unfold scaled.
  destruct (0 <=? e) eqn:E; cbn [fst snd]; intros Hlo Hup.
  - apply Z.leb_le in E. pose proof (pow2_pos e E) as HE. exfalso.
    set (P := 2 ^ e) in *. rewrite H52, H53 in Hlo. lia.
  - apply Z.leb_gt in E. pose proof (pow2_pos (- e) ltac:(lia)) as HE.
    set (P := 2 ^ (- e)) in *.
    replace (5 * j * 7205759403792794 * P)
      with (4 * j * P * 2 ^ 53 + 2 * j * P) by (rewrite H53; ring).
    rewrite round_half_even_exact; [lia|lia|nia|].
    rewrite H53 in *. nia.
Qed.

Lemma lit_0_8_value : lit_0_8 = mkDouble 7205759403792794 (-53).
Proof. vm_compute. reflexivity. Qed.

(** [lessonProgress.length < lessons.length * 0.8] decides
    [5 * lessonProgress.length < 4 * lessons.length]: on the lengths of
    JavaScript arrays, which stay below 2^32, the rounding of binary64
    never changes the outcome of the comparison. *)
Lemma below_threshold_exact (k n : Z) :
  0 <= k < 2 ^ 32 -> 0 <= n < 2 ^ 32 ->
  below_threshold k n = (5 * k <? 4 * n).
Proof.
  intros Hk Hn. unfold below_threshold, mul, of_int. rewrite lit_0_8_value.
  cbn [mant expo]. change (0 <=? 0 + -53) with false. cbv iota.
  change (- (0 + -53)) with 53.
  assert (H32 : 2 ^ 32 = 4294967296) by reflexivity.
  assert (H53 : 2 ^ 53 = 9007199254740992) by reflexivity.
  destruct (Z.eq_dec n 0) as [->|Hn0].
  { cbn. destruct k; reflexivity || (exfalso; lia). }
  destruct (5 * k <? 4 * n) eqn:C.
  - apply Z.ltb_lt in C. apply rne_above_eighths; lia.
  - apply Z.ltb_ge in C. apply int_lt_le_int.
    destruct (Z.eq_dec (5 * k) (4 * n)) as [Heq|Hne].
    + assert (exists j, n = 5 * j /\ k = 4 * j) as [j [-> ->]].
      { exists (k / 4).
        pose proof (Z.div_mod k 4 ltac:(lia)).
        pose proof (Z.mod_pos_bound k 4 ltac:(lia)). lia. }
      apply rne_four_fifths; lia.
    + apply rne_le_int; lia.
Qed.

End JSNumFacts.

Import JSNumFacts.

(** ** Running the monad *)

Lemma statement_ok {A : Type} (sql : Store -> Outcome A * Store) env st t c :
  fault env c = false ->
  statement sql env (world st t c) = (fst (sql st), world (snd (sql st)) t (S c)).
Proof. intros F. unfold statement, world; cbn [db ticks calls]. rewrite F. reflexivity. Qed.

Lemma statement_fault {A : Type} (sql : Store -> Outcome A * Store) env st t c :
  fault env c = true ->
  statement sql env (world st t c) = (Throw DriverError, world st t (S c)).
Proof. intros F. unfold statement, world; cbn [db ticks calls]. rewrite F. reflexivity. Qed.

Lemma get_ok {T : Type} (sql : Store -> option T) env st t c :
  fault env c = false ->
  get sql env (world st t c) = (Ok (sql st), world st t (S c)).
Proof. intros F. unfold get. rewrite statement_ok by assumption. reflexivity. Qed.

Lemma query_ok {T : Type} (sql : Store -> list T) env st t c :
  fault env c = false ->
  query sql env (world st t c) = (Ok (sql st), world st t (S c)).
Proof. intros F. unfold query. rewrite statement_ok by assumption. reflexivity. Qed.

Lemma run_ok (sql : Store -> Outcome RunResult * Store) env st t c :
  fault env c = false ->
  run sql env (world st t c) = (fst (sql st), world (snd (sql st)) t (S c)).
Proof. intros F. unfold run. apply statement_ok. assumption. Qed.

Lemma new_Date_ok env st t c :
  new_Date env (world st t c) = (Ok (clock env t), world st (S t) c).
Proof. reflexivity. Qed.

Lemma bind_ok {A B : Type} (m : M A) (k : A -> M B) env w a w' :
  m env w = (Ok a, w') -> bind m k env w = k a env w'.
Proof. intros E. unfold bind. rewrite E. reflexivity. Qed.

Lemma bind_throw {A B : Type} (m : M A) (k : A -> M B) env w e w' :
  m env w = (Throw e, w') -> bind m k env w = (Throw e, w').
Proof. intros E. unfold bind. rewrite E. reflexivity. Qed.

Lemma try_ok {A : Type} (m : M A) h env w a w' :
  m env w = (Ok a, w') -> try_catch m h env w = (Ok a, w').
Proof. intros E. unfold try_catch. rewrite E. reflexivity. Qed.

Lemma try_throw {A : Type} (m : M A) h env w e w' :
  m env w = (Throw e, w') -> try_catch m h env w = h e env w'.
Proof. intros E. unfold try_catch. rewrite E. reflexivity. Qed.

(** ** The blocks of [updateLessonProgress] when the driver does not fail *)

Lemma insert_user_progress_fresh u m a b st :
  select_user_progress u m st = None ->
  fst (insert_user_progress u m a b st)
  = Ok {| lastID := next_rowid (user_progress_seq st) (map up_id (user_progress st));
          changes := 1 |}.
Proof.
  unfold select_user_progress, insert_user_progress. intros H.
  destruct (existsb (up_key u m) (user_progress st)) eqn:E; [|reflexivity].
  apply existsb_exists in E. destruct E as [r [Hin Hr]].
  eapply find_none in H; eauto. congruence.
Qed.

Lemma insert_lesson_progress_fresh u m l cp ts qs ca st :
  select_lesson_progress u m l st = None ->
  fst (insert_lesson_progress u m l cp ts qs ca st)
  = Ok {| lastID := next_rowid (lesson_progress_seq st) (map lp_id (lesson_progress st));
          changes := 1 |}.
Proof.
  unfold select_lesson_progress, insert_lesson_progress. intros H.
  destruct (existsb (lp_key u m l) (lesson_progress st)) eqn:E; [|reflexivity].
  apply existsb_exists in E. destruct E as [r [Hin Hr]].
  eapply find_none in H; eauto. congruence.
Qed.

Lemma touch_ok pd env st t c :
  fault env c = false -> fault env (S c) = false ->
  exists r,
    touch_module_progress pd env (world st t c)
    = (Ok r, world (fst (after_touch pd env st t)) (snd (after_touch pd env st t))
                   (S (S c))).
Proof.
  intros F1 F2. unfold touch_module_progress, after_touch.
  erewrite bind_ok by (apply get_ok; assumption).
  destruct (select_user_progress (userId pd) (moduleId pd) st) eqn:H.
  - erewrite bind_ok by apply new_Date_ok.
    rewrite run_ok by assumption. eexists. reflexivity.
  - erewrite bind_ok by apply new_Date_ok.
    erewrite bind_ok by apply new_Date_ok.
    rewrite run_ok by assumption.
    rewrite insert_user_progress_fresh by assumption. eexists. reflexivity.
Qed.

Lemma upsert_ok pd env st t c :
  fault env c = false -> fault env (S c) = false ->
  exists r,
    upsert_lesson_progress pd env (world st t c)
    = (Ok r, world (fst (after_upsert pd env st t)) (snd (after_upsert pd env st t))
                   (S (S c))).
Proof.
  intros F1 F2. unfold upsert_lesson_progress, after_upsert.
  erewrite bind_ok by (apply get_ok; assumption).
  destruct (select_lesson_progress (userId pd) (moduleId pd) (lessonId pd) st) eqn:H;
    destruct (completed pd).
  - erewrite bind_ok by (erewrite bind_ok by apply new_Date_ok; reflexivity).
    rewrite run_ok by assumption. eexists. reflexivity.
  - erewrite bind_ok by reflexivity.
    rewrite run_ok by assumption. eexists. reflexivity.
  - erewrite bind_ok by (erewrite bind_ok by apply new_Date_ok; reflexivity).
    rewrite run_ok by assumption.
    rewrite insert_lesson_progress_fresh by assumption. eexists. reflexivity.
  - erewrite bind_ok by reflexivity.
    rewrite run_ok by assumption.
    rewrite insert_lesson_progress_fresh by assumption. eexists. reflexivity.
Qed.

Lemma recompute_ok u m env st t c :
  no_faults env ->
  exists c',
    updateModuleCompletionStatus u m env (world st t c)
    = (Ok tt, world (fst (after_recompute u m env st t))
                    (snd (after_recompute u m env st t)) c').
Proof.
  intros NF. unfold updateModuleCompletionStatus, recompute_aggregate,
    after_recompute, aggregate.
  unfold try_catch at 1.
  erewrite bind_ok by (apply get_ok; apply NF).
  destruct (select_module m st) as [mr|]; [|eexists; reflexivity].
  unfold totals, parse_content.
  destruct (mod_content mr) as [| |doc].
  - (* the empty text *)
    erewrite bind_ok by reflexivity. cbn. eexists; reflexivity.
  - (* JSON.parse throws *)
    erewrite bind_throw by reflexivity. eexists; reflexivity.
  - erewrite bind_ok by reflexivity. cbn [lessons quizzes].
    destruct (length_or_zero (lessons doc) + length_or_zero (quizzes doc) =? 0);
      [eexists; reflexivity|].
    erewrite bind_ok by (apply query_ok; apply NF).
    erewrite bind_ok by (apply query_ok; apply NF).
    erewrite bind_ok by (apply get_ok; apply NF).
    fold (completedLessons u m st). fold (completedQuizzes u m st).
    destruct (select_user_progress u m st) as [cur|]; [|eexists; reflexivity].
    destruct ((length_or_zero (lessons doc) <=? completedLessons u m st)
              && (length_or_zero (quizzes doc) <=? completedQuizzes u m st)
              && negb (up_completed cur)).
    + erewrite bind_ok by (erewrite bind_ok by apply new_Date_ok; reflexivity).
      erewrite bind_ok by (rewrite run_ok by apply NF; reflexivity).
      eexists; reflexivity.
    + erewrite bind_ok by reflexivity.
      erewrite bind_ok by (rewrite run_ok by apply NF; reflexivity).
      eexists; reflexivity.
Qed.

(** ** Lists of rows *)

Lemma find_map_same {A : Type} (P : A -> bool) (f : A -> A) (l : list A) :
  (forall x, P (f x) = P x) ->
  find P (map f l) = option_map f (find P l).
Proof.
  intros H. induction l as [|x l IH]; cbn; [reflexivity|].
  rewrite H. destruct (P x); [reflexivity|exact IH].
Qed.

Lemma find_snoc {A : Type} (P : A -> bool) (l : list A) (x : A) :
  find P (l ++ [x]) =
  match find P l with
  | Some y => Some y
  | None => if P x then Some x else None
  end.
Proof.
  induction l as [|y l IH]; cbn; [reflexivity|].
  destruct (P y); [reflexivity|exact IH].
Qed.

Lemma filter_map_same {A : Type} (P : A -> bool) (f : A -> A) (l : list A) :
  (forall x, P (f x) = P x) ->
  filter P (map f l) = map f (filter P l).
Proof.
  intros H. induction l as [|x l IH]; cbn; [reflexivity|].
  rewrite H. destruct (P x); cbn; rewrite IH; reflexivity.
Qed.

Lemma filter_length_map_le {A : Type} (P : A -> bool) (f : A -> A) (l : list A) :
  (forall x, In x l -> P x = true -> P (f x) = true) ->
  (List.length (filter P l) <= List.length (filter P (map f l)))%nat.
Proof.
  induction l as [|x l IH]; intros H; cbn; [lia|].
  assert (IH' : (List.length (filter P l) <= List.length (filter P (map f l)))%nat).
  { apply IH. intros y Hy. apply H. right; exact Hy. }
  destruct (P x) eqn:Px.
  - rewrite (H x (or_introl eq_refl) Px). cbn. lia.
  - destruct (P (f x)); cbn; lia.
Qed.

Lemma filter_length_snoc_le {A : Type} (P : A -> bool) (l : list A) (x : A) :
  (List.length (filter P l) <= List.length (filter P (l ++ [x])))%nat.
Proof. rewrite filter_app, length_app. lia. Qed.

(** ** Keys are kept by the setters *)

Lemma up_key_set_last_accessed u m ts r :
  up_key u m (set_last_accessed ts r) = up_key u m r.
Proof. reflexivity. Qed.

Lemma up_key_set_aggregate u m p b d r :
  up_key u m (set_aggregate p b d r) = up_key u m r.
Proof. reflexivity. Qed.

Lemma lp_key_set_outcome u m l b ts q ca r :
  lp_key u m l (set_outcome b ts q ca r) = lp_key u m l r.
Proof. reflexivity. Qed.

Lemma lp_pair_set_outcome u m b ts q ca r :
  lp_pair u m (set_outcome b ts q ca r) = lp_pair u m r.
Proof. reflexivity. Qed.

Lemma up_key_cond u m u' m' (f : UserProgress -> UserProgress) r :
  (forall x, up_key u m (f x) = up_key u m x) ->
  up_key u m (if up_key u' m' r then f r else r) = up_key u m r.
Proof. intros H. destruct (up_key u' m' r); [apply H|reflexivity]. Qed.

Lemma lp_key_cond u m l u' m' l' (f : LessonProgress -> LessonProgress) r :
  (forall x, lp_key u m l (f x) = lp_key u m l x) ->
  lp_key u m l (if lp_key u' m' l' r then f r else r) = lp_key u m l r.
Proof. intros H. destruct (lp_key u' m' l' r); [apply H|reflexivity]. Qed.

(** ** What each statement leaves in the selected row *)

Lemma select_after_update_last_accessed ts u m st :
  select_user_progress u m (snd (update_last_accessed ts u m st))
  = option_map (set_last_accessed ts) (select_user_progress u m st).
Proof.
  unfold select_user_progress, update_last_accessed; cbn [snd user_progress with_user_progress].
  rewrite find_map_same.
  - destruct (find (up_key u m) (user_progress st)) as [r|] eqn:E; [|reflexivity].
    cbn. apply find_some in E. destruct E as [_ ->]. reflexivity.
  - intros x. apply up_key_cond. reflexivity.
Qed.

Lemma select_after_update_user_progress p b d u m st :
  select_user_progress u m (snd (update_user_progress p b d u m st))
  = option_map (set_aggregate p b d) (select_user_progress u m st).
Proof.
  unfold select_user_progress, update_user_progress; cbn [snd user_progress with_user_progress].
  rewrite find_map_same.
  - destruct (find (up_key u m) (user_progress st)) as [r|] eqn:E; [|reflexivity].
    cbn. apply find_some in E. destruct E as [_ ->]. reflexivity.
  - intros x. apply up_key_cond. reflexivity.
Qed.

Lemma select_after_insert_user_progress u m a b st :
  select_user_progress u m st = None ->
  select_user_progress u m (snd (insert_user_progress u m a b st))
  = Some {| up_id := next_rowid (user_progress_seq st) (map up_id (user_progress st));
            up_user_id := u; up_module_id := m;
            up_progress_percentage := 0; up_completed := false;
            up_started_at := Some a; up_completion_date := None;
            up_total_time_spent := 0; up_last_accessed := b |}.
Proof.
  intros H. pose proof (insert_user_progress_fresh u m a b st H) as F.
  unfold insert_user_progress in *.
  destruct (existsb (up_key u m) (user_progress st)); [discriminate|].
  unfold select_user_progress in *; cbn [snd user_progress with_user_progress].
  rewrite find_snoc, H. unfold up_key; cbn. rewrite !Z.eqb_refl. reflexivity.
Qed.

Lemma select_after_update_lesson_progress b ts q ca u m l st :
  select_lesson_progress u m l (snd (update_lesson_progress b ts q ca u m l st))
  = option_map (set_outcome b ts q ca) (select_lesson_progress u m l st).
Proof.
  unfold select_lesson_progress, update_lesson_progress;
    cbn [snd lesson_progress with_lesson_progress].
  rewrite find_map_same.
  - destruct (find (lp_key u m l) (lesson_progress st)) as [r|] eqn:E; [|reflexivity].
    cbn. apply find_some in E. destruct E as [_ ->]. reflexivity.
  - intros x. apply lp_key_cond. reflexivity.
Qed.

Lemma select_after_insert_lesson_progress u m l b ts q ca st :
  select_lesson_progress u m l st = None ->
  select_lesson_progress u m l (snd (insert_lesson_progress u m l b ts q ca st))
  = Some {| lp_id := next_rowid (lesson_progress_seq st) (map lp_id (lesson_progress st));
            lp_user_id := u; lp_module_id := m; lp_lesson_id := l;
            lp_completed := b; lp_time_spent := ts; lp_quiz_score := q;
            lp_quiz_attempts := 0; lp_completed_at := ca |}.
Proof.
  intros H. pose proof (insert_lesson_progress_fresh u m l b ts q ca st H) as F.
  unfold insert_lesson_progress in *.
  destruct (existsb (lp_key u m l) (lesson_progress st)); [discriminate|].
  unfold select_lesson_progress in *; cbn [snd lesson_progress with_lesson_progress].
  rewrite find_snoc, H. unfold lp_key, lp_pair; cbn.
  rewrite !Z.eqb_refl, String.eqb_refl. reflexivity.
Qed.

(** ** Frames: the tables a block does not write *)

Lemma after_touch_frame pd env st t :
  forall st', st' = fst (after_touch pd env st t) ->
  users st' = users st /\ modules st' = modules st
  /\ lesson_progress st' = lesson_progress st
  /\ lesson_progress_seq st' = lesson_progress_seq st
  /\ certificates st' = certificates st
  /\ certificates_seq st' = certificates_seq st.
Proof.
  intros st' ->. unfold after_touch.
  destruct (select_user_progress (userId pd) (moduleId pd) st); cbn.
  - repeat split.
  - unfold insert_user_progress.
    destruct (existsb _ _); cbn; repeat split.
Qed.

Lemma after_upsert_frame pd env st t :
  forall st', st' = fst (after_upsert pd env st t) ->
  users st' = users st /\ modules st' = modules st
  /\ user_progress st' = user_progress st
  /\ user_progress_seq st' = user_progress_seq st
  /\ certificates st' = certificates st
  /\ certificates_seq st' = certificates_seq st.
Proof.
  intros st' ->. unfold after_upsert.
  destruct (select_lesson_progress _ _ _ st); cbn.
  - repeat split.
  - unfold insert_lesson_progress.
    destruct (existsb _ _); cbn; repeat split.
Qed.

Lemma after_recompute_frame u m env st t :
  forall st', st' = fst (after_recompute u m env st t) ->
  users st' = users st /\ modules st' = modules st
  /\ lesson_progress st' = lesson_progress st
  /\ lesson_progress_seq st' = lesson_progress_seq st
  /\ certificates st' = certificates st
  /\ certificates_seq st' = certificates_seq st.
Proof.
  intros st' ->. unfold after_recompute.
  destruct (aggregate u m st) as [[p b]|]; [|cbn; repeat split].
  destruct (select_user_progress u m st); [|cbn; repeat split].
  destruct (b && negb (up_completed _)); cbn; repeat split.
Qed.

Lemma after_touch_lesson_progress pd env st t :
  lesson_progress (fst (after_touch pd env st t)) = lesson_progress st.
Proof. apply (after_touch_frame pd env st t _ eq_refl). Qed.

Lemma after_touch_modules pd env st t :
  modules (fst (after_touch pd env st t)) = modules st.
Proof. apply (after_touch_frame pd env st t _ eq_refl). Qed.

Lemma after_upsert_user_progress pd env st t :
  user_progress (fst (after_upsert pd env st t)) = user_progress st.
Proof. apply (after_upsert_frame pd env st t _ eq_refl). Qed.

Lemma after_upsert_modules pd env st t :
  modules (fst (after_upsert pd env st t)) = modules st.
Proof. apply (after_upsert_frame pd env st t _ eq_refl). Qed.

Lemma after_recompute_lesson_progress u m env st t :
  lesson_progress (fst (after_recompute u m env st t)) = lesson_progress st.
Proof. apply (after_recompute_frame u m env st t _ eq_refl). Qed.

Lemma after_recompute_modules u m env st t :
  modules (fst (after_recompute u m env st t)) = modules st.
Proof. apply (after_recompute_frame u m env st t _ eq_refl). Qed.

(** [after_update] as the composition of the three effects. *)
Lemma after_update_eq pd env st t :
  after_update pd env st t
  = after_recompute (userId pd) (moduleId pd) env
      (fst (after_upsert pd env (fst (after_touch pd env st t))
              (snd (after_touch pd env st t))))
      (snd (after_upsert pd env (fst (after_touch pd env st t))
              (snd (after_touch pd env st t)))).
Proof.
  unfold after_update.
  destruct (after_touch pd env st t) as [st1 t1]. cbn [fst snd].
  destruct (after_upsert pd env st1 t1) as [st2 t2]. reflexivity.
Qed.

(** ** One call of [updateLessonProgress] when the driver does not fail *)

(** The row that the second block leaves for the key of the call. *)
Lemma select_after_upsert pd env st t :
  select_lesson_progress (userId pd) (moduleId pd) (lessonId pd)
    (fst (after_upsert pd env st t))
  = Some
      match select_lesson_progress (userId pd) (moduleId pd) (lessonId pd) st with
      | Some existing =>
          set_outcome (completed pd)
            (JSNum.plus (or_zero (lp_time_spent existing)) (timeSpent pd))
            (score_to_store pd existing)
            (if completed pd then Some (clock env t) else lp_completed_at existing)
            existing
      | None =>
          {| lp_id := next_rowid (lesson_progress_seq st) (map lp_id (lesson_progress st));
             lp_user_id := userId pd; lp_module_id := moduleId pd;
             lp_lesson_id := lessonId pd; lp_completed := completed pd;
             lp_time_spent := timeSpent pd;
             lp_quiz_score := bound_score (quizScore pd);
             lp_quiz_attempts := 0;
             lp_completed_at := if completed pd then Some (clock env t) else None |}
      end.
Proof.
  unfold after_upsert.
  destruct (select_lesson_progress (userId pd) (moduleId pd) (lessonId pd) st) eqn:E;
    cbn [fst].
  - rewrite select_after_update_lesson_progress, E. reflexivity.
  - rewrite select_after_insert_lesson_progress by assumption. reflexivity.
Qed.

Lemma select_lesson_progress_frame u m l st st' :
  lesson_progress st' = lesson_progress st ->
  select_lesson_progress u m l st' = select_lesson_progress u m l st.
Proof. unfold select_lesson_progress. intros ->. reflexivity. Qed.

Lemma select_user_progress_frame u m st st' :
  user_progress st' = user_progress st ->
  select_user_progress u m st' = select_user_progress u m st.
Proof. unfold select_user_progress. intros ->. reflexivity. Qed.

(** The row for the key of the call after the whole call. *)
Lemma select_after_update pd env st t :
  select_lesson_progress (userId pd) (moduleId pd) (lessonId pd)
    (fst (after_update pd env st t))
  = select_lesson_progress (userId pd) (moduleId pd) (lessonId pd)
      (fst (after_upsert pd env (fst (after_touch pd env st t))
              (snd (after_touch pd env st t)))).
Proof.
  rewrite after_update_eq.
  apply select_lesson_progress_frame, after_recompute_lesson_progress.
Qed.

Lemma updateLessonProgress_ok pd env st t c :
  no_faults env ->
  exists c' row,
    updateLessonProgress pd env (world st t c)
    = (Ok (succeed row),
       world (fst (after_update pd env st t)) (snd (after_update pd env st t)) c')
    /\ select_lesson_progress (userId pd) (moduleId pd) (lessonId pd)
         (fst (after_update pd env st t)) = Some row.
Proof.
  intros NF.
  pose proof (select_after_update pd env st t) as Hsel.
  rewrite select_after_upsert in Hsel.
  rewrite after_update_eq in *.
  destruct (touch_ok pd env st t c (NF _) (NF _)) as [r1 E1].
  destruct (after_touch pd env st t) as [st1 t1]. cbn [fst snd] in *.
  destruct (upsert_ok pd env st1 t1 (S (S c)) (NF _) (NF _)) as [r2 E2].
  destruct (after_upsert pd env st1 t1) as [st2 t2]. cbn [fst snd] in *.
  destruct (recompute_ok (userId pd) (moduleId pd) env st2 t2 (S (S (S (S c)))) NF)
    as [c3 E3].
  destruct (after_recompute (userId pd) (moduleId pd) env st2 t2) as [st3 t3].
  cbn [fst snd] in *.
  eexists. eexists. split; [|exact Hsel].
  unfold updateLessonProgress.
  erewrite try_ok; [reflexivity|].
  erewrite bind_ok by exact E1.
  erewrite bind_ok by exact E2.
  erewrite bind_ok by exact E3.
  unfold return_updated_progress.
  erewrite bind_ok by (apply get_ok; apply NF).
  rewrite Hsel. reflexivity.
Qed.

(** The calls of a sequence keep the connection open. *)
Lemma record_outcomes_world env pds st t c :
  no_faults env ->
  exists st' t' c', record_outcomes env pds (world st t c) = world st' t' c'.
Proof.
  intros NF. revert st t c. induction pds as [|pd pds IH]; intros st t c.
  - cbn. eauto.
  - cbn. destruct (updateLessonProgress_ok pd env st t c NF) as [c' [row [E _]]].
    rewrite E. cbn [snd]. apply IH.
Qed.

Lemma record_outcomes_cons env pd pds st t c :
  no_faults env ->
  exists c',
    record_outcomes env (pd :: pds) (world st t c)
    = record_outcomes env pds
        (world (fst (after_update pd env st t)) (snd (after_update pd env st t)) c').
Proof.
  intros NF. destruct (updateLessonProgress_ok pd env st t c NF) as [c' [row [E _]]].
  exists c'. cbn. rewrite E. reflexivity.
Qed.

(** ** Accumulation of the time spent *)

Lemma or_zero_id (n : Z) : or_zero n = n.
Proof. unfold or_zero. destruct (n =? 0) eqn:E; [|reflexivity]. apply Z.eqb_eq in E. lia. Qed.

(** The row of the key after one call, in terms of the row before it. *)
Lemma row_after_update pd env st t :
  select_lesson_progress (userId pd) (moduleId pd) (lessonId pd)
    (fst (after_update pd env st t))
  = Some
      match select_lesson_progress (userId pd) (moduleId pd) (lessonId pd) st with
      | Some existing =>
          set_outcome (completed pd)
            (JSNum.plus (or_zero (lp_time_spent existing)) (timeSpent pd))
            (score_to_store pd existing)
            (if completed pd then Some (clock env (snd (after_touch pd env st t)))
             else lp_completed_at existing)
            existing
      | None =>
          {| lp_id := next_rowid (lesson_progress_seq st) (map lp_id (lesson_progress st));
             lp_user_id := userId pd; lp_module_id := moduleId pd;
             lp_lesson_id := lessonId pd; lp_completed := completed pd;
             lp_time_spent := timeSpent pd;
             lp_quiz_score := bound_score (quizScore pd);
             lp_quiz_attempts := 0;
             lp_completed_at :=
               if completed pd then Some (clock env (snd (after_touch pd env st t)))
               else None |}
      end.
Proof.
  rewrite select_after_update, select_after_upsert.
  rewrite (select_lesson_progress_frame _ _ _ st (fst (after_touch pd env st t)))
    by apply after_touch_lesson_progress.
  rewrite after_touch_lesson_progress.
  destruct (after_touch_frame pd env st t _ eq_refl) as (_ & _ & _ & -> & _).
  reflexivity.
Qed.

(** Up to 2^53 in absolute value an integer is a double as it stands, so
    that a sum that stays there is exact. *)
Lemma nearest_int_exact (n : Z) : Z.abs n <= 2 ^ 53 -> JSNum.nearest_int n = n.
Proof.
  intros H. unfold JSNum.nearest_int. cbv zeta.
  destruct (Z.eq_dec (Z.abs n) (2 ^ 53)) as [E|E].
  - assert (n = 2 ^ 53 \/ n = - 2 ^ 53) as [-> | ->] by lia; vm_compute; reflexivity.
  - destruct (Z.eq_dec n 0) as [->|Hn]; [reflexivity|].
    assert (Z.log2 (Z.abs n) < 53) by (apply Z.log2_lt_pow2; lia).
    destruct (Z.log2 (Z.abs n) - 52 <=? 0) eqn:L; [reflexivity|].
    apply Z.leb_gt in L. lia.
Qed.

Lemma plus_exact (a b : Z) : Z.abs (a + b) <= 2 ^ 53 -> JSNum.plus a b = a + b.
Proof. apply nearest_int_exact. Qed.

Lemma time_after_update pd env st t :
  option_map lp_time_spent
    (select_lesson_progress (userId pd) (moduleId pd) (lessonId pd)
       (fst (after_update pd env st t)))
  = Some (match select_lesson_progress (userId pd) (moduleId pd) (lessonId pd) st with
          | Some existing => JSNum.plus (lp_time_spent existing) (timeSpent pd)
          | None => timeSpent pd
          end).
Proof.
  rewrite row_after_update.
  destruct (select_lesson_progress (userId pd) (moduleId pd) (lessonId pd) st);
    cbn; rewrite ?or_zero_id; reflexivity.
Qed.

Lemma sum_of_deltas_nonneg pds :
  Forall (fun p => 0 < timeSpent p) pds -> 0 <= sum_of_deltas pds.
Proof.
  induction 1 as [|pd pds Hpd _ IH]; cbn [sum_of_deltas fold_right]; [lia|].
  unfold sum_of_deltas in IH. lia.
Qed.

Lemma time_after_sequence env u m l pds :
  no_faults env -> Forall (for_key u m l) pds ->
  Forall (fun p => 0 < timeSpent p) pds ->
  forall st t c existing,
    select_lesson_progress u m l st = Some existing ->
    0 <= lp_time_spent existing ->
    lp_time_spent existing + sum_of_deltas pds <= 2 ^ 53 ->
    option_map lp_time_spent
      (stored_lesson_progress u m l (record_outcomes env pds (world st t c)))
    = Some (lp_time_spent existing + sum_of_deltas pds).
Proof.
  intros NF Hk Hpos. revert Hpos.
  induction Hk as [|pd pds [Hu [Hm Hl]] Hk IH]; intros Hpos st t c ex Hex H0 Hb.
  - cbn. rewrite Hex. cbn. f_equal. lia.
  - inversion Hpos as [|? ? Hpd Hpos']; subst.
    pose proof (sum_of_deltas_nonneg pds Hpos') as Hs.
    cbn [sum_of_deltas fold_right] in Hb. fold (sum_of_deltas pds) in Hb.
    destruct (record_outcomes_cons env pd pds st t c NF) as [c' ->].
    pose proof (time_after_update pd env st t) as H1.
    rewrite Hex in H1. rewrite plus_exact in H1 by lia.
    destruct (select_lesson_progress (userId pd) (moduleId pd) (lessonId pd)
                (fst (after_update pd env st t)))
      as [row|] eqn:Hrow; [|discriminate].
    cbn in H1. injection H1 as H1.
    rewrite (IH Hpos' _ _ _ row Hrow) by lia.
    cbn [sum_of_deltas fold_right]. fold (sum_of_deltas pds). f_equal. lia.
Qed.

(** C1, as the code has it.  Over any sequence of [updateLessonProgress]
    calls with positive deltas for one user, module and lesson or quiz id
    (driver not failing), [time_spent] accumulates as long as the sum
    stays within the integers that a JavaScript number counts exactly, up
    to 2^53: where the key had no row, the first call stores its delta as
    it is and the row stored after the calls holds the sum of the deltas;
    where it had one (with a value that is not negative), the row holds its
    former value plus that sum.  Every later call adds to what is stored
    and never replaces it. *)
Theorem time_spent_is_sum_of_deltas :
  forall env u m l pd pds st t c,
    no_faults env ->
    Forall (for_key u m l) (pd :: pds) ->
    Forall (fun p => 0 < timeSpent p) (pd :: pds) ->
    (forall existing,
        select_lesson_progress u m l st = Some existing ->
        0 <= lp_time_spent existing) ->
    match select_lesson_progress u m l st with
    | Some existing => lp_time_spent existing + sum_of_deltas (pd :: pds)
    | None => sum_of_deltas (pd :: pds)
    end <= 2 ^ 53 ->
    option_map lp_time_spent
      (stored_lesson_progress u m l (record_outcomes env (pd :: pds) (world st t c)))
    = Some (match select_lesson_progress u m l st with
            | Some existing => lp_time_spent existing + sum_of_deltas (pd :: pds)
            | None => sum_of_deltas (pd :: pds)
            end)
    /\ (select_lesson_progress u m l st = None ->
        option_map lp_time_spent
          (stored_lesson_progress u m l (record_outcomes env [pd] (world st t c)))
        = Some (timeSpent pd)).
Proof.
  intros env u m l pd pds st t c NF Hk Hpos Hprior Hb.
  assert (Hfirst : select_lesson_progress u m l st = None ->
            option_map lp_time_spent
              (stored_lesson_progress u m l (record_outcomes env [pd] (world st t c)))
            = Some (timeSpent pd)).
  { intros Hex. inversion Hk as [|? ? [Hu [Hm Hl]] _]; subst.
    destruct (record_outcomes_cons env pd [] st t c NF) as [c' ->].
    cbn [record_outcomes fold_left stored_lesson_progress db world].
    rewrite time_after_update, Hex. reflexivity. }
  split; [|exact Hfirst].
  destruct (select_lesson_progress u m l st) as [ex|] eqn:Hex.
  - apply time_after_sequence; try assumption. apply Hprior. reflexivity.
  - inversion Hk as [|? ? [Hu [Hm Hl]] Hk']; subst.
    inversion Hpos as [|? ? Hpd Hpos']; subst.
    pose proof (sum_of_deltas_nonneg pds Hpos') as Hs.
    cbn [sum_of_deltas fold_right] in Hb. fold (sum_of_deltas pds) in Hb.
    destruct (record_outcomes_cons env pd pds st t c NF) as [c' ->].
    pose proof (time_after_update pd env st t) as H1.
    rewrite Hex in H1.
    destruct (select_lesson_progress (userId pd) (moduleId pd) (lessonId pd)
                (fst (after_update pd env st t))) as [row|] eqn:Hrow; [|discriminate].
    cbn in H1. injection H1 as H1.
    rewrite (time_after_sequence env _ _ _ pds NF Hk' Hpos' _ _ _ row Hrow) by lia.
    cbn [sum_of_deltas fold_right]. fold (sum_of_deltas pds). f_equal. lia.
Qed.

(** ** Relations that every run keeps, whatever the driver does *)

Section Preservation.

Variable R : Store -> Store -> Prop.
Hypothesis R_refl : forall st, R st st.
Hypothesis R_trans : forall a b c, R a b -> R b c -> R a c.

Lemma keeps_ret {A : Type} (a : A) : keeps R (ret a).
Proof. intros env w st H. exists st. split; [exact H|apply R_refl]. Qed.

Lemma keeps_throw {A : Type} (e : Exn) : keeps R (@throw A e).
Proof. intros env w st H. exists st. split; [exact H|apply R_refl]. Qed.

Lemma keeps_new_Date : keeps R new_Date.
Proof. intros env w st H. exists st. split; [exact H|apply R_refl]. Qed.

Lemma keeps_statement {A : Type} (sql : Store -> Outcome A * Store) :
  (forall st, R st (snd (sql st))) -> keeps R (statement sql).
Proof.
  intros Hsql env w st H. unfold statement. rewrite H.
  destruct (fault env (calls w)); cbn [snd db].
  - exists st. split; [reflexivity|apply R_refl].
  - exists (snd (sql st)). split; [reflexivity|apply Hsql].
Qed.

Lemma keeps_get {T : Type} (sql : Store -> option T) : keeps R (get sql).
Proof. apply keeps_statement. intros st. apply R_refl. Qed.

Lemma keeps_query {T : Type} (sql : Store -> list T) : keeps R (query sql).
Proof. apply keeps_statement. intros st. apply R_refl. Qed.

Lemma keeps_run (sql : Store -> Outcome RunResult * Store) :
  (forall st, R st (snd (sql st))) -> keeps R (run sql).
Proof. apply keeps_statement. Qed.

Lemma keeps_bind {A B : Type} (m : M A) (k : A -> M B) :
  keeps R m -> (forall a, keeps R (k a)) -> keeps R (bind m k).
Proof.
  intros Hm Hk env w st H. unfold bind.
  destruct (Hm env w st H) as [st1 [H1 R1]].
  destruct (m env w) as [[a|e] w1]; cbn [snd] in *.
  - destruct (Hk a env w1 st1 H1) as [st2 [H2 R2]].
    exists st2. split; [exact H2|eapply R_trans; eassumption].
  - exists st1. split; assumption.
Qed.

Lemma keeps_try_catch {A : Type} (m : M A) (h : Exn -> M A) :
  keeps R m -> (forall e, keeps R (h e)) -> keeps R (try_catch m h).
Proof.
  intros Hm Hh env w st H. unfold try_catch.
  destruct (Hm env w st H) as [st1 [H1 R1]].
  destruct (m env w) as [[a|e] w1]; cbn [snd] in *.
  - exists st1. split; assumption.
  - destruct (Hh e env w1 st1 H1) as [st2 [H2 R2]].
    exists st2. split; [exact H2|eapply R_trans; eassumption].
Qed.

Lemma keeps_parse_content (content : ContentText) : keeps R (parse_content content).
Proof. destruct content; [apply keeps_ret|apply keeps_throw|apply keeps_ret]. Qed.

(** The statements that each operation runs. *)
Hypothesis R_insert_up : forall u m a b st, R st (snd (insert_user_progress u m a b st)).
Hypothesis R_touch_up : forall ts u m st, R st (snd (update_last_accessed ts u m st)).
Hypothesis R_update_up : forall p b d u m st, R st (snd (update_user_progress p b d u m st)).
Hypothesis R_insert_lp :
  forall u m l b ts q ca st, R st (snd (insert_lesson_progress u m l b ts q ca st)).
Hypothesis R_update_lp :
  forall b ts q ca u m l st, R st (snd (update_lesson_progress b ts q ca u m l st)).

Lemma keeps_touch pd : keeps R (touch_module_progress pd).
Proof.
  unfold touch_module_progress.
  apply keeps_bind; [apply keeps_get|]. intros [cur|].
  - apply keeps_bind; [apply keeps_new_Date|]. intros now.
    apply keeps_run. intros st. apply R_touch_up.
  - apply keeps_bind; [apply keeps_new_Date|]. intros a.
    apply keeps_bind; [apply keeps_new_Date|]. intros b.
    apply keeps_run. intros st. apply R_insert_up.
Qed.

Lemma keeps_upsert pd : keeps R (upsert_lesson_progress pd).
Proof.
  unfold upsert_lesson_progress.
  apply keeps_bind; [apply keeps_get|]. intros [ex|].
  - apply keeps_bind.
    + destruct (completed pd); [|apply keeps_ret].
      apply keeps_bind; [apply keeps_new_Date|]. intros now. apply keeps_ret.
    + intros ca. apply keeps_run. intros st. apply R_update_lp.
  - apply keeps_bind.
    + destruct (completed pd); [|apply keeps_ret].
      apply keeps_bind; [apply keeps_new_Date|]. intros now. apply keeps_ret.
    + intros ca. apply keeps_run. intros st. apply R_insert_lp.
Qed.

Lemma keeps_recompute_aggregate u m : keeps R (recompute_aggregate u m).
Proof.
  unfold recompute_aggregate.
  apply keeps_bind; [apply keeps_get|]. intros [mr|]; [|apply keeps_ret].
  apply keeps_bind; [apply keeps_parse_content|]. intros doc.
  destruct (_ =? 0); [apply keeps_ret|].
  apply keeps_bind; [apply keeps_query|]. intros cl.
  apply keeps_bind; [apply keeps_query|]. intros cq.
  apply keeps_bind; [apply keeps_get|]. intros [cur|]; [|apply keeps_ret].
  apply keeps_bind.
  - destruct (_ && negb _); [|apply keeps_ret].
    apply keeps_bind; [apply keeps_new_Date|]. intros now. apply keeps_ret.
  - intros d. apply keeps_bind; [|intros; apply keeps_ret].
    apply keeps_run. intros st. apply R_update_up.
Qed.

Lemma keeps_updateModuleCompletionStatus u m :
  keeps R (updateModuleCompletionStatus u m).
Proof.
  apply keeps_try_catch; [apply keeps_recompute_aggregate|].
  intros e. apply keeps_ret.
Qed.

Lemma keeps_updateLessonProgress pd : keeps R (updateLessonProgress pd).
Proof.
  unfold updateLessonProgress.
  apply keeps_try_catch; [|intros e; apply keeps_ret].
  apply keeps_bind; [apply keeps_touch|]. intros _.
  apply keeps_bind; [apply keeps_upsert|]. intros _.
  apply keeps_bind; [apply keeps_updateModuleCompletionStatus|]. intros _.
  unfold return_updated_progress.
  apply keeps_bind; [apply keeps_get|]. intros [r|]; apply keeps_ret.
Qed.

Lemma keeps_record_outcomes env pds :
  forall w st,
    db w = Some st ->
    exists st', db (record_outcomes env pds w) = Some st' /\ R st st'.
Proof.
  induction pds as [|pd pds IH]; intros w st H.
  - exists st. split; [exact H|apply R_refl].
  - cbn. destruct (keeps_updateLessonProgress pd env w st H) as [st1 [H1 R1]].
    destruct (IH _ st1 H1) as [st2 [H2 R2]].
    exists st2. split; [exact H2|eapply R_trans; eassumption].
Qed.

End Preservation.

(** ** The row of [user_progress]: creation, touch, and [started_at] *)

Lemma select_after_touch_other ts u m u' m' st :
  select_user_progress u m (snd (update_last_accessed ts u' m' st))
  = option_map (fun r => if up_key u' m' r then set_last_accessed ts r else r)
               (select_user_progress u m st).
Proof.
  unfold select_user_progress, update_last_accessed;
    cbn [snd user_progress with_user_progress].
  apply find_map_same. intros x. apply up_key_cond. reflexivity.
Qed.

Lemma select_after_aggregate_other p b d u m u' m' st :
  select_user_progress u m (snd (update_user_progress p b d u' m' st))
  = option_map (fun r => if up_key u' m' r then set_aggregate p b d r else r)
               (select_user_progress u m st).
Proof.
  unfold select_user_progress, update_user_progress;
    cbn [snd user_progress with_user_progress].
  apply find_map_same. intros x. apply up_key_cond. reflexivity.
Qed.

Lemma select_after_insert_other u m u' m' a b st cur :
  select_user_progress u m st = Some cur ->
  select_user_progress u m (snd (insert_user_progress u' m' a b st)) = Some cur.
Proof.
  unfold select_user_progress, insert_user_progress. intros H.
  destruct (existsb (up_key u' m') (user_progress st)); cbn [snd]; [exact H|].
  cbn [user_progress with_user_progress]. rewrite find_snoc, H. reflexivity.
Qed.

Lemma same_started_at_refl u m st : same_started_at u m st st.
Proof. intros cur H. exists cur. split; [exact H|reflexivity]. Qed.

Lemma same_started_at_trans u m a b c :
  same_started_at u m a b -> same_started_at u m b c -> same_started_at u m a c.
Proof.
  intros H1 H2 cur H. destruct (H1 cur H) as [cur1 [E1 S1]].
  destruct (H2 cur1 E1) as [cur2 [E2 S2]]. exists cur2. split; [exact E2|congruence].
Qed.

Lemma started_at_kept_by_calls env u m pds w cur :
  stored_user_progress u m w = Some cur ->
  exists cur',
    stored_user_progress u m (record_outcomes env pds w) = Some cur'
    /\ up_started_at cur' = up_started_at cur.
Proof.
  unfold stored_user_progress. intros H.
  destruct (db w) as [st|] eqn:Hdb; [|discriminate].
  destruct (keeps_record_outcomes (same_started_at u m)
              (same_started_at_refl u m) (same_started_at_trans u m)) with
    (env := env) (pds := pds) (w := w) (st := st) as [st' [H' R']]; try assumption.
  - intros u' m' a b st0 cur0 H0. exists cur0. split; [|reflexivity].
    apply select_after_insert_other. exact H0.
  - intros ts u' m' st0 cur0 H0. rewrite select_after_touch_other, H0. cbn.
    eexists. split; [reflexivity|]. destruct (up_key u' m' cur0); reflexivity.
  - intros p b d u' m' st0 cur0 H0. rewrite select_after_aggregate_other, H0. cbn.
    eexists. split; [reflexivity|]. destruct (up_key u' m' cur0); reflexivity.
  - intros u' m' l b ts q ca st0 cur0 H0. exists cur0. split; [|reflexivity].
    rewrite <- H0. apply select_user_progress_frame.
    unfold insert_lesson_progress. destruct (existsb _ _); reflexivity.
  - intros b ts q ca u' m' l st0 cur0 H0. exists cur0. split; [|reflexivity].
    rewrite <- H0. apply select_user_progress_frame. reflexivity.
  - rewrite H'. apply R'. exact H.
Qed.

(** ** Readings of the clock *)

Lemma after_touch_ticks pd env st t :
  snd (after_touch pd env st t) = S t \/ snd (after_touch pd env st t) = S (S t).
Proof.
  unfold after_touch. destruct (select_user_progress _ _ st); cbn; auto.
Qed.

Lemma after_upsert_ticks pd env st t :
  snd (after_upsert pd env st t) = if completed pd then S t else t.
Proof.
  unfold after_upsert. destruct (select_lesson_progress _ _ _ st); reflexivity.
Qed.

Lemma after_recompute_ticks u m env st t :
  (t <= snd (after_recompute u m env st t) <= S t)%nat.
Proof.
  unfold after_recompute.
  destruct (aggregate u m st) as [[p b]|]; [|cbn; lia].
  destruct (select_user_progress u m st); [|cbn; lia].
  destruct (b && negb _); cbn; lia.
Qed.

(** ** [completed_at] *)

(** C5, as the code has it.  When [updateLessonProgress] is called for an id
    that already has a row, [completed_at] of the row becomes the reading of
    the clock taken by this call whenever the supplied flag is true, also
    when the row was completed before; it keeps its former value only when
    the supplied flag is false. *)
Theorem completed_at_stamped_on_every_completed_call :
  forall env pd st t c existing,
    no_faults env ->
    select_lesson_progress (userId pd) (moduleId pd) (lessonId pd) st = Some existing ->
    exists row st' t' c',
      updateLessonProgress pd env (world st t c)
      = (Ok (succeed row), world st' t' c')
      /\ select_lesson_progress (userId pd) (moduleId pd) (lessonId pd) st' = Some row
      /\ (completed pd = true ->
          exists k, (t <= k < t')%nat /\ lp_completed_at row = Some (clock env k))
      /\ (completed pd = false -> lp_completed_at row = lp_completed_at existing).
Proof.
  intros env pd st t c existing NF Hex.
  destruct (updateLessonProgress_ok pd env st t c NF) as [c' [row [E Hrow]]].
  exists row, (fst (after_update pd env st t)), (snd (after_update pd env st t)), c'.
  split; [exact E|]. split; [exact Hrow|].
  rewrite row_after_update, Hex in Hrow. injection Hrow as <-.
  cbn [lp_completed_at set_outcome].
  split; intros Hc; rewrite Hc; [|reflexivity].
  exists (snd (after_touch pd env st t)). split; [|reflexivity].
  rewrite after_update_eq.
  pose proof (after_recompute_ticks (userId pd) (moduleId pd) env
    (fst (after_upsert pd env (fst (after_touch pd env st t)) (snd (after_touch pd env st t))))
    (snd (after_upsert pd env (fst (after_touch pd env st t)) (snd (after_touch pd env st t)))))
    as Ht.
  rewrite after_upsert_ticks, Hc in Ht.
  rewrite after_upsert_ticks, Hc.
  destruct (after_touch_ticks pd env st t) as [H|H]; rewrite H in *; lia.
Qed.

(** ** The stored percentage *)

Lemma or_zero_nonneg n : 0 <= n -> 0 <= or_zero n.
Proof. rewrite or_zero_id. trivial. Qed.

Lemma length_or_zero_nonneg {T : Type} (xs : option (list T)) : 0 <= length_or_zero xs.
Proof. destruct xs; cbn; [rewrite or_zero_id|]; lia. Qed.

Lemma totals_nonneg content tl tq :
  totals content = Some (tl, tq) -> 0 <= tl /\ 0 <= tq.
Proof.
  destruct content as [| |doc]; cbn; intros H; inversion H; subst.
  - lia.
  - split; apply length_or_zero_nonneg.
Qed.

Lemma completedLessons_nonneg u m st : 0 <= completedLessons u m st.
Proof. unfold completedLessons, count_completed_lessons; cbn. rewrite or_zero_id. lia. Qed.

Lemma completedQuizzes_nonneg u m st : 0 <= completedQuizzes u m st.
Proof. unfold completedQuizzes, count_completed_quizzes; cbn. rewrite or_zero_id. lia. Qed.

Lemma aggregate_frame u m st st' :
  modules st' = modules st -> lesson_progress st' = lesson_progress st ->
  aggregate u m st' = aggregate u m st.
Proof.
  intros Hm Hl.
  unfold aggregate, select_module, completedLessons, completedQuizzes,
    count_completed_lessons, count_completed_quizzes.
  rewrite Hm, Hl. reflexivity.
Qed.

Lemma aggregate_some u m st mr tl tq :
  select_module m st = Some mr -> totals (mod_content mr) = Some (tl, tq) ->
  tl + tq <> 0 ->
  aggregate u m st
  = Some (progress_percentage (completedLessons u m st + completedQuizzes u m st)
                              (tl + tq),
          (tl <=? completedLessons u m st) && (tq <=? completedQuizzes u m st)).
Proof.
  intros Hm Ht Hz. unfold aggregate. rewrite Hm, Ht.
  destruct (tl + tq =? 0) eqn:E; [apply Z.eqb_eq in E; contradiction|reflexivity].
Qed.

Lemma set_aggregate_twice p b d r :
  set_aggregate p b d (set_aggregate p b d r) = set_aggregate p b d r.
Proof. reflexivity. Qed.

Lemma update_user_progress_twice p b d u m st :
  snd (update_user_progress p b d u m (snd (update_user_progress p b d u m st)))
  = snd (update_user_progress p b d u m st).
Proof.
  unfold update_user_progress; cbn [snd]. unfold with_user_progress; cbn.
  f_equal. rewrite map_map. apply map_ext. intros r.
  destruct (up_key u m r) eqn:K.
  - rewrite up_key_set_aggregate, K. reflexivity.
  - rewrite K. reflexivity.
Qed.

(** Recomputing right after a recomputation writes the same store and
    reads no clock. *)
Lemma after_recompute_twice u m env st t t2 :
  after_recompute u m env (fst (after_recompute u m env st t)) t2
  = (fst (after_recompute u m env st t), t2).
Proof.
  pose proof (aggregate_frame u m st _ (after_recompute_modules u m env st t)
                (after_recompute_lesson_progress u m env st t)) as Ha.
  unfold after_recompute at 1. rewrite Ha. clear Ha.
  unfold after_recompute.
  destruct (aggregate u m st) as [[p b]|]; [|reflexivity].
  destruct (select_user_progress u m st) as [cur|] eqn:Hcur;
    [|cbn [fst]; rewrite Hcur; reflexivity].
  destruct (b && negb (up_completed cur)) eqn:Hb; cbn [fst];
    rewrite select_after_update_user_progress, Hcur; cbn [option_map];
    cbn [up_completed up_completion_date set_aggregate].
  - apply andb_prop in Hb. destruct Hb as [-> _]. cbn [negb andb].
    rewrite update_user_progress_twice. reflexivity.
  - destruct b; cbn [negb andb]; rewrite update_user_progress_twice; reflexivity.
Qed.

(** C2, as the code has it.  After a recomputation for a pair that has a
    row, for a module whose content parses and holds at least one lesson or
    quiz, the stored [progress_percentage] is
    [Math.round((completed / total) * 100)] as binary64 arithmetic evaluates
    it, where [completed] counts the completed lesson rows and the completed
    quiz rows with a score; it is never negative, it is at most 100 whenever
    [completed] does not exceed [total], and recomputing again with no new
    data leaves the store as it is. *)
Theorem percentage_after_recomputation :
  forall env u m st t c mr tl tq cur,
    no_faults env ->
    select_module m st = Some mr ->
    totals (mod_content mr) = Some (tl, tq) ->
    tl + tq <> 0 ->
    select_user_progress u m st = Some cur ->
    exists st' t' c' row,
      updateModuleCompletionStatus u m env (world st t c) = (Ok tt, world st' t' c')
      /\ select_user_progress u m st' = Some row
      /\ up_progress_percentage row
         = progress_percentage (completedLessons u m st + completedQuizzes u m st)
                               (tl + tq)
      /\ 0 <= up_progress_percentage row
      /\ (completedLessons u m st + completedQuizzes u m st <= tl + tq ->
          up_progress_percentage row <= 100)
      /\ (forall t2 c2, exists c3,
            updateModuleCompletionStatus u m env (world st' t2 c2)
            = (Ok tt, world st' t2 c3)).
Proof.
  intros env u m st t c mr tl tq cur NF Hm Ht Hz Hcur.
  destruct (recompute_ok u m env st t c NF) as [c' E].
  pose proof (after_recompute_twice u m env st t) as Htwice.
  pose proof (aggregate_some u m st mr tl tq Hm Ht Hz) as Ha.
  destruct (totals_nonneg _ _ _ Ht) as [Hl Hq].
  pose proof (completedLessons_nonneg u m st) as Hcl.
  pose proof (completedQuizzes_nonneg u m st) as Hcq.
  assert (Hrow : exists d,
            select_user_progress u m (fst (after_recompute u m env st t))
            = Some (set_aggregate
                      (progress_percentage
                         (completedLessons u m st + completedQuizzes u m st) (tl + tq))
                      ((tl <=? completedLessons u m st) && (tq <=? completedQuizzes u m st))
                      d cur)).
  { unfold after_recompute. rewrite Ha, Hcur.
    destruct (_ && negb _); cbn [fst];
      rewrite select_after_update_user_progress, Hcur; eexists; reflexivity. }
  destruct Hrow as [d Hrow].
  exists (fst (after_recompute u m env st t)), (snd (after_recompute u m env st t)), c'.
  eexists. split; [exact E|]. split; [exact Hrow|].
  cbn [up_progress_percentage set_aggregate].
  split; [reflexivity|]. split; [apply progress_percentage_nonneg|].
  split.
  - intros Hle. apply progress_percentage_le_100; lia.
  - intros t2 c2.
    destruct (recompute_ok u m env (fst (after_recompute u m env st t)) t2 c2 NF)
      as [c3 E3].
    rewrite Htwice in E3. exists c3. exact E3.
Qed.

(** ** Uniqueness of the key of [lesson_progress] *)

Lemma unique_find_in {A : Type} (P : A -> bool) (l : list A) (x r : A) :
  (List.length (filter P l) <= 1)%nat ->
  find P l = Some x -> In r l -> P r = true -> r = x.
Proof.
  induction l as [|y l IH]; cbn; intros Hlen Hfind Hin Hr; [contradiction|].
  destruct (P y) eqn:Py.
  - injection Hfind as <-. destruct Hin as [->|Hin]; [reflexivity|].
    cbn in Hlen. assert (filter P l = []) as Hnil
      by (destruct (filter P l); [reflexivity|cbn in Hlen; lia]).
    assert (In r (filter P l)) as Hf by (apply filter_In; split; assumption).
    rewrite Hnil in Hf. contradiction.
  - destruct Hin as [->|Hin]; [congruence|]. apply IH; assumption.
Qed.

Lemma find_none_filter_nil {A : Type} (P : A -> bool) (l : list A) :
  find P l = None -> filter P l = [].
Proof.
  induction l as [|y l IH]; cbn; [reflexivity|].
  destruct (P y); [discriminate|exact IH].
Qed.

Lemma lp_key_true u m l r :
  lp_key u m l r = true ->
  lp_user_id r = u /\ lp_module_id r = m /\ lp_lesson_id r = l.
Proof.
  unfold lp_key, lp_pair. intros H.
  apply andb_prop in H. destruct H as [H Hl].
  apply andb_prop in H. destruct H as [Hu Hm].
  apply Z.eqb_eq in Hu, Hm. apply String.eqb_eq in Hl. tauto.
Qed.

Lemma after_upsert_unique pd env st t :
  lesson_progress_unique st ->
  lesson_progress_unique (fst (after_upsert pd env st t)).
Proof.
  intros U u m l. unfold after_upsert.
  destruct (select_lesson_progress (userId pd) (moduleId pd) (lessonId pd) st) eqn:E;
    cbn [fst].
  - unfold update_lesson_progress; cbn [snd lesson_progress with_lesson_progress].
    rewrite filter_map_same, length_map; [apply U|].
    intros x. apply lp_key_cond. reflexivity.
  - pose proof (insert_lesson_progress_fresh _ _ _ (completed pd) (timeSpent pd)
                  (bound_score (quizScore pd))
                  (if completed pd then Some (clock env t) else None)
                  st E) as F.
    unfold insert_lesson_progress in *.
    destruct (existsb _ _); [discriminate|].
    cbn [snd lesson_progress with_lesson_progress].
    rewrite filter_app, length_app. cbn [filter].
    match goal with |- context [lp_key u m l ?r] => destruct (lp_key u m l r) eqn:K end.
    + apply lp_key_true in K. cbn in K. destruct K as (<- & <- & <-).
      unfold select_lesson_progress in E.
      rewrite (find_none_filter_nil _ _ E). cbn. lia.
    + cbn. specialize (U u m l). lia.
Qed.

Lemma after_update_unique pd env st t :
  lesson_progress_unique st ->
  lesson_progress_unique (fst (after_update pd env st t)).
Proof.
  intros U. rewrite after_update_eq.
  assert (U1 : lesson_progress_unique (fst (after_touch pd env st t))).
  { intros u m l. rewrite after_touch_lesson_progress. apply U. }
  pose proof (after_upsert_unique pd env _ (snd (after_touch pd env st t)) U1) as U2.
  intros u m l. rewrite after_recompute_lesson_progress. apply U2.
Qed.

(** ** A call with [completed = true] that erases no score lowers no count *)

Lemma completed_counts_grow pd env st t :
  lesson_progress_unique st -> completed pd = true -> keeps_score pd ->
  completedLessons (userId pd) (moduleId pd) st
  <= completedLessons (userId pd) (moduleId pd) (fst (after_upsert pd env st t))
  /\ completedQuizzes (userId pd) (moduleId pd) st
     <= completedQuizzes (userId pd) (moduleId pd) (fst (after_upsert pd env st t)).
Proof.
  intros U Hc [Hnull Hnan].
  unfold completedLessons, completedQuizzes, count_completed_lessons,
    count_completed_quizzes, first_count. rewrite !or_zero_id.
  unfold after_upsert. rewrite Hc.
  destruct (select_lesson_progress (userId pd) (moduleId pd) (lessonId pd) st)
    as [ex|] eqn:E; cbn [fst].
  - unfold update_lesson_progress; cbn [snd lesson_progress with_lesson_progress].
    split; apply inj_le, filter_length_map_le; intros r Hin Hr.
    + destruct (lp_key (userId pd) (moduleId pd) (lessonId pd) r); [|exact Hr].
      apply andb_prop in Hr. destruct Hr as [Hr Hlike].
      apply andb_prop in Hr. destruct Hr as [Hpair _].
      rewrite lp_pair_set_outcome, Hpair.
      cbn [lp_completed lp_lesson_id set_outcome andb]. exact Hlike.
    + destruct (lp_key (userId pd) (moduleId pd) (lessonId pd) r) eqn:K; [|exact Hr].
      assert (r = ex) as ->.
      { apply (unique_find_in _ (lesson_progress st) ex r (U _ _ _) E Hin K). }
      apply andb_prop in Hr. destruct Hr as [Hr Hscore].
      apply andb_prop in Hr. destruct Hr as [Hr Hlike].
      apply andb_prop in Hr. destruct Hr as [Hpair _].
      rewrite lp_pair_set_outcome, Hpair.
      cbn [lp_completed lp_lesson_id lp_quiz_score set_outcome andb].
      rewrite Hlike. cbn [andb]. unfold score_to_store.
      destruct (quizScore pd); cbn [bound_score];
        [exact Hscore|contradiction|contradiction|reflexivity].
  - pose proof (insert_lesson_progress_fresh _ _ _ true (timeSpent pd)
                  (bound_score (quizScore pd)) (Some (clock env t)) st E) as F.
    unfold insert_lesson_progress in *.
    destruct (existsb _ _); [discriminate|].
    cbn [snd lesson_progress with_lesson_progress].
    split; apply inj_le, filter_length_snoc_le.
Qed.

(** ** The flag and the date over one call *)

Lemma flag_date_after_touch pd env st t :
  flag_of (userId pd) (moduleId pd) (fst (after_touch pd env st t))
  = flag_of (userId pd) (moduleId pd) st
  /\ date_of (userId pd) (moduleId pd) (fst (after_touch pd env st t))
     = date_of (userId pd) (moduleId pd) st
  /\ select_user_progress (userId pd) (moduleId pd) (fst (after_touch pd env st t))
     <> None.
Proof.
  unfold flag_of, date_of, after_touch.
  destruct (select_user_progress (userId pd) (moduleId pd) st) as [cur|] eqn:E; cbn [fst].
  - rewrite select_after_update_last_accessed, E. cbn. repeat split. discriminate.
  - rewrite select_after_insert_user_progress by assumption. cbn. repeat split.
    discriminate.
Qed.

Lemma aggregate_flag_monotone u m st st' :
  modules st' = modules st ->
  completedLessons u m st <= completedLessons u m st' ->
  completedQuizzes u m st <= completedQuizzes u m st' ->
  (aggregate u m st = None -> aggregate u m st' = None)
  /\ (forall p, aggregate u m st = Some (p, true) ->
                exists p', aggregate u m st' = Some (p', true))
  /\ (forall p b, aggregate u m st = Some (p, b) ->
                  exists p' b', aggregate u m st' = Some (p', b')).
Proof.
  intros Hm Hl Hq. unfold aggregate, select_module. rewrite Hm.
  destruct (find _ (modules st)) as [mr|]; [|repeat split; intros; discriminate].
  destruct (totals (mod_content mr)) as [[tl tq]|]; [|repeat split; intros; discriminate].
  destruct (tl + tq =? 0); [repeat split; intros; discriminate|].
  split; [discriminate|]. split.
  - intros p H. injection H as _ H. eexists. f_equal. f_equal.
    apply andb_prop in H. destruct H as [H1 H2].
    apply Z.leb_le in H1, H2. apply andb_true_intro. split; apply Z.leb_le; lia.
  - intros p b _. eexists. eexists. reflexivity.
Qed.

(** One call from a store where the flag is earned. *)
Lemma flag_step pd env st t u m :
  userId pd = u -> moduleId pd = m ->
  lesson_progress_unique st ->
  flag_is_earned u m st ->
  let st' := fst (after_update pd env st t) in
  let t' := snd (after_update pd env st t) in
  (completing pd -> flag_of u m st = true ->
   flag_of u m st' = true /\ date_of u m st' = date_of u m st)
  /\ (flag_of u m st = false -> flag_of u m st' = false ->
      date_of u m st' = date_of u m st)
  /\ (flag_of u m st = false -> flag_of u m st' = true ->
      exists k, (t <= k < t')%nat /\ date_of u m st' = Some (clock env k)).
Proof.
  intros Hu Hm U Inv st' t'. subst st' t'. rewrite after_update_eq.
  pose proof (flag_date_after_touch pd env st t) as (Hf1 & Hd1 & Hrow1).
  pose proof (completed_counts_grow pd env (fst (after_touch pd env st t))
                (snd (after_touch pd env st t))) as Hgrow.
  rewrite Hu, Hm in *.
  assert (U1 : lesson_progress_unique (fst (after_touch pd env st t))).
  { intros a b l. rewrite after_touch_lesson_progress. apply U. }
  specialize (Hgrow U1).
  set (st1 := fst (after_touch pd env st t)) in *.
  set (t1 := snd (after_touch pd env st t)) in *.
  assert (Hagg1 : aggregate u m st1 = aggregate u m st).
  { apply aggregate_frame; [apply after_touch_modules|apply after_touch_lesson_progress]. }
  pose proof (after_upsert_ticks pd env st1 t1) as Ht2.
  pose proof (after_upsert_user_progress pd env st1 t1) as Hup2.
  pose proof (after_upsert_modules pd env st1 t1) as Hm2.
  set (st2 := fst (after_upsert pd env st1 t1)) in *.
  set (t2 := snd (after_upsert pd env st1 t1)) in *.
  assert (Hmono : completing pd ->
            (aggregate u m st = None -> aggregate u m st2 = None)
            /\ (forall p, aggregate u m st = Some (p, true) ->
                          exists p', aggregate u m st2 = Some (p', true))).
  { intros [Hc Hk]. destruct (Hgrow Hc Hk) as [Hl Hq].
    destruct (aggregate_flag_monotone u m st1 st2 Hm2 Hl Hq) as (Hnone & Htrue & _).
    rewrite Hagg1 in Hnone, Htrue. split; assumption. }
  clear Hgrow.
  assert (Hsel2 : select_user_progress u m st2 = select_user_progress u m st1)
    by (apply select_user_progress_frame; exact Hup2).
  assert (Ht1 : (t < t1)%nat).
  { subst t1. destruct (after_touch_ticks pd env st t) as [H|H]; rewrite H; lia. }
  assert (Ht12 : (t1 <= t2)%nat) by (rewrite Ht2; destruct (completed pd); lia).
  unfold flag_of, date_of in *.
  unfold after_recompute. rewrite Hsel2.
  destruct (select_user_progress u m st1) as [cur1|] eqn:Hcur1; [|contradiction].
  destruct (aggregate u m st2) as [[p2 b2]|] eqn:Hagg2.
  - destruct (b2 && negb (up_completed cur1)) eqn:Hb; cbn [fst snd];
      rewrite select_after_update_user_progress, Hsel2;
      cbn [option_map up_completed up_completion_date set_aggregate].
    + apply andb_prop in Hb. destruct Hb as [-> Hb].
      apply negb_true_iff in Hb. rewrite Hb in Hf1.
      split; [intros _ H; congruence|]. split; [intros _ H; discriminate|].
      intros _ _. exists t2. split; [lia|reflexivity].
    + split; [|split].
      * intros Hcg Hflag. destruct (Hmono Hcg) as [Hnone Htrue].
        rewrite <- Hd1. split; [|reflexivity].
        rewrite Hflag in Hf1.
        destruct (select_user_progress u m st) as [cur|] eqn:Hcur; [|discriminate].
        destruct (aggregate u m st) as [[p b]|] eqn:Hagg.
        -- assert (b = true) as -> by (eapply Inv; eauto).
           destruct (Htrue p eq_refl) as [p' Hp']. congruence.
        -- specialize (Hnone eq_refl). congruence.
      * intros _ _. exact Hd1.
      * intros Hflag Hb2. subst b2. rewrite Hf1, Hflag in Hb. discriminate.
  - cbn [fst snd]. rewrite Hsel2.
    split; [|split].
    + intros _ H. rewrite Hf1, Hd1. split; [exact H|reflexivity].
    + intros _ _. exact Hd1.
    + intros H H'. congruence.
Qed.

(** After any call the flag is earned. *)
Lemma flag_is_earned_after_update pd env st t :
  flag_is_earned (userId pd) (moduleId pd) (fst (after_update pd env st t)).
Proof.
  rewrite after_update_eq.
  set (st2 := fst (after_upsert pd env (fst (after_touch pd env st t))
                     (snd (after_touch pd env st t)))).
  set (t2 := snd (after_upsert pd env (fst (after_touch pd env st t))
                    (snd (after_touch pd env st t)))).
  intros cur p b Hcur Hflag Hagg.
  rewrite (aggregate_frame _ _ st2) in Hagg
    by (apply after_recompute_modules || apply after_recompute_lesson_progress).
  revert Hcur. unfold after_recompute. rewrite Hagg.
  destruct (select_user_progress (userId pd) (moduleId pd) st2) as [cur2|] eqn:Hcur2.
  - destruct (b && negb (up_completed cur2)); cbn [fst];
      rewrite select_after_update_user_progress, Hcur2; cbn [option_map];
      intros H; injection H as <-; exact Hflag.
  - cbn [fst]. rewrite Hcur2. discriminate.
Qed.

(** ** The flag and the date over sequences of calls *)

Lemma settled_fresh u m st t c :
  lesson_progress_unique st -> select_user_progress u m st = None ->
  settled u m (world st t c).
Proof.
  intros U H. exists st, t, c. split; [reflexivity|]. split; [exact U|].
  intros cur p b Hcur. congruence.
Qed.

Lemma settled_step env u m pd w :
  no_faults env -> for_pair u m pd -> settled u m w ->
  settled u m (record_outcomes env [pd] w).
Proof.
  intros NF [Hu Hm] (st & t & c & -> & U & _).
  destruct (record_outcomes_cons env pd [] st t c NF) as [c' ->]. cbn.
  eexists _, _, _. split; [reflexivity|]. split.
  - apply after_update_unique. exact U.
  - subst u m. apply flag_is_earned_after_update.
Qed.

Lemma record_outcomes_app env pds pds' w :
  record_outcomes env (pds ++ pds') w
  = record_outcomes env pds' (record_outcomes env pds w).
Proof. unfold record_outcomes. apply fold_left_app. Qed.

Lemma settled_sequence env u m pds w :
  no_faults env -> Forall (for_pair u m) pds -> settled u m w ->
  settled u m (record_outcomes env pds w).
Proof.
  intros NF H. revert w. induction H as [|pd pds Hpd _ IH]; intros w Hw; [exact Hw|].
  change (pd :: pds) with ([pd] ++ pds). rewrite record_outcomes_app.
  apply IH. apply settled_step; assumption.
Qed.

Lemma call_on_settled env u m pd w :
  no_faults env -> for_pair u m pd -> settled u m w ->
  let w' := record_outcomes env [pd] w in
  (completing pd -> module_completed u m w = true ->
   module_completed u m w' = true
   /\ module_completion_date u m w' = module_completion_date u m w)
  /\ (module_completed u m w = false -> module_completed u m w' = false ->
      module_completion_date u m w' = module_completion_date u m w)
  /\ (module_completed u m w = false -> module_completed u m w' = true ->
      exists k, (ticks w <= k < ticks w')%nat
                /\ module_completion_date u m w' = Some (clock env k)).
Proof.
  intros NF [Hu Hm] (st & t & c & -> & U & Inv) w'. subst w'.
  destruct (record_outcomes_cons env pd [] st t c NF) as [c' ->].
  cbn [record_outcomes fold_left].
  exact (flag_step pd env st t u m Hu Hm U Inv).
Qed.

Lemma completing_calls_keep_flag env u m pds :
  no_faults env -> Forall (for_pair u m) pds ->
  Forall completing pds ->
  forall w,
    settled u m w -> module_completed u m w = true ->
    module_completed u m (record_outcomes env pds w) = true
    /\ module_completion_date u m (record_outcomes env pds w)
       = module_completion_date u m w.
Proof.
  intros NF Hp Hc. induction pds as [|pd pds IH]; intros w Hw Hflag.
  - cbn. split; [exact Hflag|reflexivity].
  - inversion Hp as [|? ? Hpd Hp']; subst. inversion Hc as [|? ? Hcd Hc']; subst.
    change (pd :: pds) with ([pd] ++ pds). rewrite record_outcomes_app.
    destruct (call_on_settled env u m pd w NF Hpd Hw) as [H1 _].
    destruct (H1 Hcd Hflag) as [Hflag' Hdate'].
    destruct (IH Hp' Hc' _ (settled_step env u m pd w NF Hpd Hw) Hflag') as [H2 H3].
    split; [exact H2|congruence].
Qed.

(** C3, as the code has it.  Take any sequence of [updateLessonProgress]
    calls for a pair that starts without a row (driver not failing, the
    key of [lesson_progress] unique).  A call that supplies
    [completed = true] and erases no stored score (its [quizScore] is
    absent or an integer) never takes the aggregate flag from true to
    false, and then leaves [completion_date] as it is.  Any call after
    which the flag is still false leaves the date as it is, and any call
    that takes the flag from false to true sets the date to a reading of
    the clock taken by that call.  Hence, as long as the following calls
    all supply [completed = true] and erase no score, the flag stays true
    and the date keeps its value. *)
Theorem completed_flag_stable_under_completing_calls :
  forall env u m st t c pre pd post,
    no_faults env ->
    lesson_progress_unique st ->
    select_user_progress u m st = None ->
    Forall (for_pair u m) (pre ++ pd :: post) ->
    Forall completing post ->
    let w1 := record_outcomes env pre (world st t c) in
    let w2 := record_outcomes env [pd] w1 in
    let w3 := record_outcomes env post w2 in
    (completing pd -> module_completed u m w1 = true ->
     module_completed u m w2 = true
     /\ module_completion_date u m w2 = module_completion_date u m w1)
    /\ (module_completed u m w1 = false -> module_completed u m w2 = false ->
        module_completion_date u m w2 = module_completion_date u m w1)
    /\ (module_completed u m w1 = false -> module_completed u m w2 = true ->
        exists k, (ticks w1 <= k < ticks w2)%nat
                  /\ module_completion_date u m w2 = Some (clock env k))
    /\ (module_completed u m w2 = true ->
        module_completed u m w3 = true
        /\ module_completion_date u m w3 = module_completion_date u m w2).
Proof.
  intros env u m st t c pre pd post NF U Hnone Hall Hpost w1 w2 w3.
  apply Forall_app in Hall. destruct Hall as [Hpre Hrest].
  inversion Hrest as [|? ? Hpd Hpost']; subst.
  assert (S1 : settled u m w1).
  { apply settled_sequence; [assumption..|]. apply settled_fresh; assumption. }
  destruct (call_on_settled env u m pd w1 NF Hpd S1) as (H1 & H2 & H3).
  split; [exact H1|]. split; [exact H2|]. split; [exact H3|].
  apply completing_calls_keep_flag; try assumption.
  apply settled_step; assumption.
Qed.

(** ** Certificates *)

Lemma get_fault {T : Type} (sql : Store -> option T) env st t c :
  fault env c = true ->
  get sql env (world st t c) = (Throw DriverError, world st t (S c)).
Proof. intros F. unfold get. apply statement_fault. exact F. Qed.

Lemma query_fault {T : Type} (sql : Store -> list T) env st t c :
  fault env c = true ->
  query sql env (world st t c) = (Throw DriverError, world st t (S c)).
Proof. intros F. unfold query. apply statement_fault. exact F. Qed.

Lemma run_fault (sql : Store -> Outcome RunResult * Store) env st t c :
  fault env c = true ->
  run sql env (world st t c) = (Throw DriverError, world st t (S c)).
Proof. intros F. unfold run. apply statement_fault. exact F. Qed.

Lemma parse_content_parsed content env w :
  parse_content content env w
  = match parsed content with
    | Some doc => (Ok doc, w)
    | None => (Throw JsonSyntaxError, w)
    end.
Proof. destruct content; reflexivity. Qed.

Lemma next_rowid_above seq ids x : In x ids -> x < next_rowid seq ids.
Proof.
  unfold next_rowid. induction ids as [|y ids IH]; cbn [fold_right In]; [contradiction|].
  intros [->|H]; [lia|]. specialize (IH H). lia.
Qed.

Lemma insert_certificate_duplicate u m code cdata st :
  existsb (cert_key u m) (certificates st) = true ->
  insert_certificate u m code cdata st
  = (Throw (UniqueConstraintFailed "certificates"), st).
Proof.
  intros H. unfold insert_certificate.
  assert (existsb (fun r => String.eqb (cert_certificate_code r) code || cert_key u m r)
                  (certificates st) = true) as ->; [|reflexivity].
  apply existsb_exists in H. destruct H as [r [Hin Hr]].
  apply existsb_exists. exists r. split; [exact Hin|]. rewrite Hr. apply orb_true_r.
Qed.

Lemma insert_certificate_fresh u m code cdata st :
  existsb (cert_key u m) (certificates st) = false ->
  select_certificate_by_code code st = None ->
  let cert :=
    {| cert_id := next_rowid (certificates_seq st) (map cert_id (certificates st));
       cert_user_id := u; cert_module_id := m;
       cert_certificate_code := code; cert_certificate_data := cdata;
       cert_verified := true |} in
  insert_certificate u m code cdata st
  = (Ok {| lastID := cert_id cert; changes := 1 |},
     with_certificates st (certificates st ++ [cert]) (cert_id cert))
  /\ select_certificate (cert_id cert)
       (with_certificates st (certificates st ++ [cert]) (cert_id cert))
     = Some cert.
Proof.
  intros Hkey Hcode cert. unfold insert_certificate.
  assert (existsb (fun r => String.eqb (cert_certificate_code r) code || cert_key u m r)
                  (certificates st) = false) as ->.
  { apply not_true_is_false. intros H. apply existsb_exists in H.
    destruct H as [r [Hin Hr]]. apply orb_prop in Hr. destruct Hr as [Hr|Hr].
    - unfold select_certificate_by_code in Hcode.
      eapply find_none in Hcode; eauto. cbn in Hcode. congruence.
    - assert (existsb (cert_key u m) (certificates st) = true)
        by (apply existsb_exists; eauto). congruence. }
  split; [reflexivity|].
  unfold select_certificate; cbn [certificates with_certificates].
  rewrite find_snoc.
  destruct (find _ (certificates st)) as [r|] eqn:E.
  - apply find_some in E. destruct E as [Hin Hid]. apply Z.eqb_eq in Hid.
    pose proof (next_rowid_above (certificates_seq st) (map cert_id (certificates st))
                  (cert_id r) (in_map cert_id _ _ Hin)) as Hlt.
    cbn [cert_id cert] in Hid. lia.
  - cbn [cert_id cert]. rewrite Z.eqb_refl. reflexivity.
Qed.

(** [generateCertificate] when the statements it reaches do not fail and
    the module and the user are found. *)
Lemma generateCertificate_run env u m st t c mr usr doc :
  fault env c = false -> fault env (S c) = false -> fault env (S (S c)) = false ->
  select_module m st = Some mr -> select_user u st = Some usr ->
  parsed (mod_content mr) = Some doc ->
  generateCertificate u m env (world st t c)
  = if below_threshold
         (Z.of_nat (List.length (select_completed_lesson_progress u m st)))
         (lesson_count doc)
    then (Ok (fail (Literal "Module not sufficiently completed")),
          world st t (S (S (S c))))
    else
      let cert := minted u m usr mr (clock env t) (clock env (S t)) st in
      if fault env (S (S (S c)))
      then (Ok (fail (Template "Failed to generate certificate: " DriverError)),
            world st (S (S t)) (S (S (S (S c)))))
      else
        match insert_certificate u m (cert_certificate_code cert)
                (cert_certificate_data cert) st with
        | (Ok result, st') =>
            if fault env (S (S (S (S c))))
            then (Ok (fail (Template "Failed to generate certificate: " DriverError)),
                  world st' (S (S t)) (S (S (S (S (S c))))))
            else
              (Ok match select_certificate (lastID result) st' with
                  | Some newCertificate => succeed newCertificate
                  | None => fail (Literal "Failed to retrieve generated certificate")
                  end,
               world st' (S (S t)) (S (S (S (S (S c))))))
        | (Throw e, st') =>
            (Ok (fail (Template "Failed to generate certificate: " e)),
             world st' (S (S t)) (S (S (S (S c)))))
        end.
Proof.
  intros F0 F1 F2 Hm Hu Hp. unfold generateCertificate, try_catch.
  erewrite bind_ok by (apply query_ok; exact F0).
  erewrite bind_ok by (apply get_ok; exact F1).
  erewrite bind_ok by (apply get_ok; exact F2).
  rewrite Hm, Hu.
  erewrite bind_ok by (rewrite parse_content_parsed, Hp; reflexivity).
  fold (lesson_count doc).
  destruct (below_threshold _ _); [reflexivity|].
  erewrite bind_ok by apply new_Date_ok.
  erewrite bind_ok by apply new_Date_ok.
  cbv zeta. unfold minted; cbn [cert_certificate_code cert_certificate_data].
  destruct (fault env (S (S (S c)))) eqn:F3.
  { erewrite bind_throw by (apply run_fault; exact F3). reflexivity. }
  match goal with
  | |- context [insert_certificate ?a ?b ?cd ?dt st] =>
      destruct (insert_certificate a b cd dt st) as [[result|e] st'] eqn:E
  end.
  - erewrite bind_ok by (rewrite run_ok by exact F3; rewrite E; reflexivity).
    cbn [snd].
    destruct (fault env (S (S (S (S c))))) eqn:F4.
    { erewrite bind_throw by (apply get_fault; exact F4). reflexivity. }
    erewrite bind_ok by (apply get_ok; exact F4).
    destruct (select_certificate (lastID result) st'); reflexivity.
  - erewrite bind_throw by (rewrite run_ok by exact F3; rewrite E; reflexivity).
    reflexivity.
Qed.

(** A successful issuance, read backwards: no statement failed, the
    module and the user were found, the content parsed, the threshold was
    met and the insertion went through. *)
Lemma generateCertificate_success env u m w resp w1 :
  generateCertificate u m env w = (Ok resp, w1) -> success resp = true ->
  exists st t c mr usr doc result st',
    w = world st t c
    /\ fault env (S (S (S c))) = false
    /\ select_module m st = Some mr /\ select_user u st = Some usr
    /\ parsed (mod_content mr) = Some doc
    /\ below_threshold
         (Z.of_nat (List.length (select_completed_lesson_progress u m st)))
         (lesson_count doc) = false
    /\ insert_certificate u m (certificate_code (clock env t) u m)
         (cert_certificate_data (minted u m usr mr (clock env t) (clock env (S t)) st))
         st = (Ok result, st')
    /\ (exists cert, select_certificate (lastID result) st' = Some cert
                     /\ resp = succeed cert)
    /\ w1 = world st' (S (S t)) (S (S (S (S (S c))))).
Proof.
  destruct w as [[st|] t c]; intros E Hs.
  2:{ cbv in E. injection E as <- _. discriminate. }
  change {| db := Some st; ticks := t; calls := c |} with (world st t c) in E.
  destruct (fault env c) eqn:F0.
  { unfold generateCertificate in E.
    erewrite try_throw in E by (erewrite bind_throw by (apply query_fault; exact F0);
                                reflexivity).
    injection E as <- _. discriminate. }
  destruct (fault env (S c)) eqn:F1.
  { unfold generateCertificate in E.
    erewrite try_throw in E
      by (erewrite bind_ok by (apply query_ok; exact F0);
          erewrite bind_throw by (apply get_fault; exact F1); reflexivity).
    injection E as <- _. discriminate. }
  destruct (fault env (S (S c))) eqn:F2.
  { unfold generateCertificate in E.
    erewrite try_throw in E
      by (erewrite bind_ok by (apply query_ok; exact F0);
          erewrite bind_ok by (apply get_ok; exact F1);
          erewrite bind_throw by (apply get_fault; exact F2); reflexivity).
    injection E as <- _. discriminate. }
  destruct (select_module m st) as [mr|] eqn:Hm;
    [destruct (select_user u st) as [usr|] eqn:Hu|].
  2,3: unfold generateCertificate in E;
       erewrite try_ok in E
         by (erewrite bind_ok by (apply query_ok; exact F0);
             erewrite bind_ok by (apply get_ok; exact F1);
             erewrite bind_ok by (apply get_ok; exact F2);
             rewrite Hm, ?Hu; reflexivity);
       injection E as <- _; discriminate.
  destruct (parsed (mod_content mr)) as [doc|] eqn:Hp.
  2:{ unfold generateCertificate in E.
      erewrite try_throw in E
        by (erewrite bind_ok by (apply query_ok; exact F0);
            erewrite bind_ok by (apply get_ok; exact F1);
            erewrite bind_ok by (apply get_ok; exact F2);
            rewrite Hm, Hu;
            erewrite bind_throw by (rewrite parse_content_parsed, Hp; reflexivity);
            reflexivity).
      injection E as <- _. discriminate. }
  rewrite (generateCertificate_run env u m st t c mr usr doc F0 F1 F2 Hm Hu Hp) in E.
  destruct (below_threshold _ _) eqn:Hb; [injection E as <- _; discriminate|].
  cbv zeta in E.
  destruct (fault env (S (S (S c)))) eqn:F3; [injection E as <- _; discriminate|].
  unfold minted in E at 1; cbn [cert_certificate_code] in E.
  destruct (insert_certificate _ _ _ _ st) as [[result|e] st'] eqn:Hi;
    [|injection E as <- _; discriminate].
  destruct (fault env (S (S (S (S c))))) eqn:F4; [injection E as <- _; discriminate|].
  destruct (select_certificate (lastID result) st') as [cert|] eqn:Hc;
    [|injection E as <- _; discriminate].
  injection E as <- <-.
  exists st, t, c, mr, usr, doc, result, st'.
  repeat split; try assumption. exists cert. split; [exact Hc|reflexivity].
Qed.

(** ** A second issuance *)

Lemma cert_key_true u m r :
  cert_key u m r = true -> cert_user_id r = u /\ cert_module_id r = m.
Proof.
  unfold cert_key. intros H. apply andb_prop in H. destruct H as [Hu Hm].
  apply Z.eqb_eq in Hu, Hm. tauto.
Qed.

Lemma existsb_false_filter_nil {A : Type} (P : A -> bool) (l : list A) :
  existsb P l = false -> filter P l = [].
Proof.
  induction l as [|x l IH]; cbn; [reflexivity|].
  destruct (P x); cbn; [discriminate|exact IH].
Qed.

Lemma insert_certificate_inv u m code cdata st result st' :
  insert_certificate u m code cdata st = (Ok result, st') ->
  let cert :=
    {| cert_id := next_rowid (certificates_seq st) (map cert_id (certificates st));
       cert_user_id := u; cert_module_id := m;
       cert_certificate_code := code; cert_certificate_data := cdata;
       cert_verified := true |} in
  existsb (cert_key u m) (certificates st) = false
  /\ lastID result = cert_id cert
  /\ st' = with_certificates st (certificates st ++ [cert]) (cert_id cert)
  /\ select_certificate (lastID result) st' = Some cert.
Proof.
  intros H cert. unfold insert_certificate in H.
  destruct (existsb _ (certificates st)) eqn:E; [discriminate|].
  injection H as <- <-.
  assert (Hkey : existsb (cert_key u m) (certificates st) = false).
  { apply not_true_is_false. intros K. apply existsb_exists in K.
    destruct K as [r [Hin Hr]].
    assert (existsb (fun r => String.eqb (cert_certificate_code r) code || cert_key u m r)
              (certificates st) = true).
    { apply existsb_exists. exists r. split; [exact Hin|]. rewrite Hr. apply orb_true_r. }
    congruence. }
  assert (Hcode : select_certificate_by_code code st = None).
  { unfold select_certificate_by_code.
    destruct (find _ (certificates st)) as [r|] eqn:F; [|reflexivity].
    apply find_some in F. destruct F as [Hin Hr].
    assert (existsb (fun r => String.eqb (cert_certificate_code r) code || cert_key u m r)
              (certificates st) = true).
    { apply existsb_exists. exists r. split; [exact Hin|]. rewrite Hr. reflexivity. }
    congruence. }
  destruct (insert_certificate_fresh u m code cdata st Hkey Hcode) as [_ Hsel].
  repeat split; [exact Hkey|exact Hsel].
Qed.

(** With a certificate of the pair in the store, [generateCertificate]
    answers with a failure and leaves the store as it is, whatever the
    driver does. *)
Lemma generateCertificate_existing env u m st t c :
  existsb (cert_key u m) (certificates st) = true ->
  exists resp t' c',
    generateCertificate u m env (world st t c) = (Ok resp, world st t' c')
    /\ success resp = false.
Proof.
  intros Hex.
  destruct (fault env c) eqn:F0.
  { unfold generateCertificate.
    erewrite try_throw by (erewrite bind_throw by (apply query_fault; exact F0);
                           reflexivity).
    eexists _, _, _. split; reflexivity. }
  destruct (fault env (S c)) eqn:F1.
  { unfold generateCertificate.
    erewrite try_throw
      by (erewrite bind_ok by (apply query_ok; exact F0);
          erewrite bind_throw by (apply get_fault; exact F1); reflexivity).
    eexists _, _, _. split; reflexivity. }
  destruct (fault env (S (S c))) eqn:F2.
  { unfold generateCertificate.
    erewrite try_throw
      by (erewrite bind_ok by (apply query_ok; exact F0);
          erewrite bind_ok by (apply get_ok; exact F1);
          erewrite bind_throw by (apply get_fault; exact F2); reflexivity).
    eexists _, _, _. split; reflexivity. }
  destruct (select_module m st) as [mr|] eqn:Hm;
    [destruct (select_user u st) as [usr|] eqn:Hu|].
  2,3: unfold generateCertificate;
       erewrite try_ok
         by (erewrite bind_ok by (apply query_ok; exact F0);
             erewrite bind_ok by (apply get_ok; exact F1);
             erewrite bind_ok by (apply get_ok; exact F2);
             rewrite Hm, ?Hu; reflexivity);
       eexists _, _, _; split; reflexivity.
  destruct (parsed (mod_content mr)) as [doc|] eqn:Hp.
  2:{ unfold generateCertificate.
      erewrite try_throw
        by (erewrite bind_ok by (apply query_ok; exact F0);
            erewrite bind_ok by (apply get_ok; exact F1);
            erewrite bind_ok by (apply get_ok; exact F2);
            rewrite Hm, Hu;
            erewrite bind_throw by (rewrite parse_content_parsed, Hp; reflexivity);
            reflexivity).
      eexists _, _, _. split; reflexivity. }
  rewrite (generateCertificate_run env u m st t c mr usr doc F0 F1 F2 Hm Hu Hp).
  destruct (below_threshold _ _); [eexists _, _, _; split; reflexivity|].
  cbv zeta. destruct (fault env (S (S (S c)))); [eexists _, _, _; split; reflexivity|].
  rewrite insert_certificate_duplicate by exact Hex.
  eexists _, _, _. split; reflexivity.
Qed.

(** C6.  Let a first [generateCertificate] for a pair succeed.  Then the
    store holds exactly one certificate of the pair, the one returned;
    every later [generateCertificate] for the pair on that store answers
    with a failure and leaves the store as it is, whatever the driver does;
    and the call that follows at once, when the driver does not fail, is
    rejected by the uniqueness constraint of [certificates]: it never
    returns a second certificate. *)
Theorem second_issuance_is_rejected :
  forall env u m w resp w1,
    generateCertificate u m env w = (Ok resp, w1) ->
    success resp = true ->
    exists st1 t1 c1 cert,
      w1 = world st1 t1 c1
      /\ data resp = Some cert
      /\ filter (cert_key u m) (certificates st1) = [cert]
      /\ (forall env2 t2 c2,
            exists resp2 t3 c3,
              generateCertificate u m env2 (world st1 t2 c2)
              = (Ok resp2, world st1 t3 c3)
              /\ success resp2 = false)
      /\ (fault env c1 = false -> fault env (S c1) = false ->
          fault env (S (S c1)) = false -> fault env (S (S (S c1))) = false ->
          generateCertificate u m env w1
          = (Ok (fail (Template "Failed to generate certificate: "
                         (UniqueConstraintFailed "certificates"))),
             world st1 (S (S t1)) (S (S (S (S c1)))))).
Proof.
  intros env u m w resp w1 E Hs.
  destruct (generateCertificate_success env u m w resp w1 E Hs)
    as (st & t & c & mr & usr & doc & result & st' & -> & F3 & Hm & Hu & Hp & Hb
        & Hi & (cert & Hc & ->) & ->).
  destruct (insert_certificate_inv _ _ _ _ _ _ _ Hi) as (Hkey & Hid & Hst' & Hsel).
  rewrite Hsel in Hc. injection Hc as <-.
  assert (Hfilter : filter (cert_key u m) (certificates st')
                    = [{| cert_id := next_rowid (certificates_seq st)
                                       (map cert_id (certificates st));
                          cert_user_id := u; cert_module_id := m;
                          cert_certificate_code := certificate_code (clock env t) u m;
                          cert_certificate_data :=
                            cert_certificate_data
                              (minted u m usr mr (clock env t) (clock env (S t)) st);
                          cert_verified := true |}]).
  { rewrite Hst'. cbn [certificates with_certificates].
    rewrite filter_app, (existsb_false_filter_nil _ _ Hkey). cbn.
    unfold cert_key; cbn. rewrite !Z.eqb_refl. reflexivity. }
  assert (Hex : existsb (cert_key u m) (certificates st') = true).
  { apply existsb_exists. eexists. split.
    - eapply (proj1 (filter_In (cert_key u m) _ _)). rewrite Hfilter. left. reflexivity.
    - unfold cert_key; cbn. rewrite !Z.eqb_refl. reflexivity. }
  eexists st', _, _, _. split; [reflexivity|]. split; [reflexivity|].
  split; [exact Hfilter|]. split.
  - intros env2 t2 c2. apply generateCertificate_existing. exact Hex.
  - intros G0 G1 G2 G3.
    assert (Hm' : select_module m st' = Some mr) by (rewrite Hst'; exact Hm).
    assert (Hu' : select_user u st' = Some usr) by (rewrite Hst'; exact Hu).
    rewrite (generateCertificate_run env u m st' _ _ mr usr doc G0 G1 G2 Hm' Hu' Hp).
    assert (Hrows : select_completed_lesson_progress u m st'
                    = select_completed_lesson_progress u m st)
      by (rewrite Hst'; reflexivity).
    rewrite Hrows, Hb. cbv zeta. rewrite G3.
    rewrite insert_certificate_duplicate by exact Hex. reflexivity.
Qed.

(** ** The threshold of [generateCertificate] *)








(** ** Reset *)

Lemma find_filter_negb {A : Type} (P : A -> bool) (l : list A) :
  find P (filter (fun x => negb (P x)) l) = None.
Proof.
  induction l as [|x l IH]; cbn; [reflexivity|].
  destruct (P x) eqn:Px; cbn; [exact IH|]. rewrite Px. exact IH.
Qed.

Lemma filter_filter_negb {A : Type} (P : A -> bool) (l : list A) :
  filter P (filter (fun x => negb (P x)) l) = [].
Proof.
  induction l as [|x l IH]; cbn; [reflexivity|].
  destruct (P x) eqn:Px; cbn; [exact IH|]. rewrite Px. exact IH.
Qed.

Lemma find_by_unique_key {A : Type} (key : A -> string) (rows : list A) (x : A) :
  NoDup (map key rows) -> In x rows ->
  find (fun r => String.eqb (key r) (key x)) rows = Some x.
Proof.
  induction rows as [|y rows IH]; cbn [map find In]; [contradiction|].
  intros Hnd [->|Hin].
  - rewrite String.eqb_refl. reflexivity.
  - inversion Hnd as [|? ? Hy Hrest]; subst.
    destruct (String.eqb (key y) (key x)) eqn:E.
    + apply String.eqb_eq in E. exfalso. apply Hy. rewrite E.
      apply in_map. exact Hin.
    + apply IH; assumption.
Qed.

Lemma find_by_key {A : Type} (key : A -> string) (rows : list A) (x : A) :
  In x rows ->
  exists found,
    find (fun r => String.eqb (key r) (key x)) rows = Some found
    /\ key found = key x /\ In found rows.
Proof.
  intros Hin.
  destruct (find (fun r => String.eqb (key r) (key x)) rows) as [found|] eqn:E.
  - exists found. split; [reflexivity|].
    apply find_some in E. destruct E as [Hf Hk].
    apply String.eqb_eq in Hk. split; assumption.
  - exfalso. pose proof (find_none _ _ E x Hin) as H. cbn beta in H.
    rewrite String.eqb_refl in H. discriminate.
Qed.

(** C7.  When the driver does not fail, [resetModuleProgress] succeeds and
    removes the row of [user_progress] and all rows of [lesson_progress] of
    the pair, and nothing else: the rows of other pairs, the users, the
    modules and the certificates stay.  A [getModuleProgress] that follows
    returns no module progress and an empty list.  For the code of every
    certificate of the store, of this pair or another, [verifyCertificate]
    still returns a certificate after the reset, the one it returned
    before: the certificate itself, the codes being unique as the schema
    has them.  For every other code too it answers as before. *)
Theorem reset_removes_progress_only :
  forall env u m st t c,
    fault env c = false -> fault env (S c) = false ->
    fault env (S (S c)) = false -> fault env (S (S (S c))) = false ->
    exists resp st',
      resetModuleProgress u m env (world st t c)
      = (Ok resp, world st' t (S (S c)))
      /\ success resp = true
      /\ user_progress st'
         = filter (fun r => negb (up_key u m r)) (user_progress st)
      /\ lesson_progress st'
         = filter (fun r => negb (lp_pair u m r)) (lesson_progress st)
      /\ users st' = users st /\ modules st' = modules st
      /\ certificates st' = certificates st
      /\ getModuleProgress u m env (world st' t (S (S c)))
         = (Ok {| moduleProgress := None; lessonProgress := [] |},
            world st' t (S (S (S (S c)))))
      /\ (forall cert env2 t2 c2,
            In cert (certificates st) ->
            fault env2 c2 = false ->
            exists found,
              verifyCertificate (cert_certificate_code cert) env2 (world st' t2 c2)
              = (Ok (Some found), world st' t2 (S c2))
              /\ verifyCertificate (cert_certificate_code cert) env2 (world st t2 c2)
                 = (Ok (Some found), world st t2 (S c2))
              /\ cert_certificate_code found = cert_certificate_code cert
              /\ In found (certificates st)
              /\ (certificate_codes_unique st -> found = cert))
      /\ (forall code env2 t2 c2,
            fault env2 c2 = false ->
            fst (verifyCertificate code env2 (world st' t2 c2))
            = fst (verifyCertificate code env2 (world st t2 c2))).
Proof.
  intros env u m st t c F0 F1 F2 F3.
  eexists _, (snd (delete_lesson_progress u m (snd (delete_user_progress u m st)))).
  split.
  { unfold resetModuleProgress.
    erewrite try_ok; [reflexivity|].
    erewrite bind_ok by (rewrite run_ok by exact F0; reflexivity).
    erewrite bind_ok by (rewrite run_ok by exact F1; reflexivity).
    reflexivity. }
  split; [reflexivity|]. split; [reflexivity|]. split; [reflexivity|].
  split; [reflexivity|]. split; [reflexivity|]. split; [reflexivity|].
  split.
  { unfold getModuleProgress.
    erewrite try_ok; [reflexivity|].
    erewrite bind_ok by (apply get_ok; exact F2).
    erewrite bind_ok by (apply query_ok; exact F3).
    unfold select_user_progress, select_module_lesson_progress,
      delete_lesson_progress, delete_user_progress;
      cbn [snd user_progress lesson_progress with_user_progress with_lesson_progress].
    rewrite find_filter_negb, filter_filter_negb. reflexivity. }
  split.
  - intros cert env2 t2 c2 Hin G.
    destruct (find_by_key cert_certificate_code (certificates st) cert Hin)
      as (found & Hfind & Hcode & Hfound).
    exists found.
    assert (Hverify : forall s, certificates s = certificates st ->
              verifyCertificate (cert_certificate_code cert) env2 (world s t2 c2)
              = (Ok (Some found), world s t2 (S c2))).
    { intros s Hs. unfold verifyCertificate. erewrite try_ok; [reflexivity|].
      rewrite get_ok by exact G. unfold select_certificate_by_code.
      rewrite Hs, Hfind. reflexivity. }
    split; [apply Hverify; reflexivity|]. split; [apply Hverify; reflexivity|].
    split; [exact Hcode|]. split; [exact Hfound|].
    intros Hu. unfold certificate_codes_unique in Hu.
    pose proof (find_by_unique_key cert_certificate_code _ _ Hu Hin) as H.
    rewrite Hfind in H. injection H as H. exact H.
  - intros code env2 t2 c2 G.
    unfold verifyCertificate.
    erewrite !try_ok by (rewrite get_ok by exact G; reflexivity).
    reflexivity.
Qed.

(** ** The row of [user_progress] over a call *)

Lemma select_after_touch pd env st t :
  select_user_progress (userId pd) (moduleId pd) (fst (after_touch pd env st t))
  = Some (touched_row pd env st t).
Proof.
  unfold after_touch, touched_row.
  destruct (select_user_progress (userId pd) (moduleId pd) st) as [cur|] eqn:E;
    cbn [fst].
  - rewrite select_after_update_last_accessed, E. reflexivity.
  - apply select_after_insert_user_progress. exact E.
Qed.

Lemma user_progress_length_after_touch pd env st t :
  List.length (user_progress (fst (after_touch pd env st t)))
  = match select_user_progress (userId pd) (moduleId pd) st with
    | None => S (List.length (user_progress st))
    | Some _ => List.length (user_progress st)
    end.
Proof.
  unfold after_touch.
  destruct (select_user_progress (userId pd) (moduleId pd) st) as [cur|] eqn:E;
    cbn [fst].
  - unfold update_last_accessed; cbn [snd user_progress with_user_progress].
    apply length_map.
  - pose proof (insert_user_progress_fresh _ _ (clock env t) (clock env (S t)) st E) as F.
    unfold insert_user_progress in *.
    destruct (existsb _ _); [discriminate|].
    cbn [snd user_progress with_user_progress].
    rewrite length_app. cbn. lia.
Qed.

Lemma user_progress_length_after_recompute u m env st t :
  List.length (user_progress (fst (after_recompute u m env st t)))
  = List.length (user_progress st).
Proof.
  unfold after_recompute.
  destruct (aggregate u m st) as [[p b]|]; [|reflexivity].
  destruct (select_user_progress u m st) as [cur|]; [|reflexivity].
  destruct (b && negb (up_completed cur)); cbn [fst];
    unfold update_user_progress; cbn [snd user_progress with_user_progress];
    apply length_map.
Qed.

(** The row of the pair after the whole call: the row that the first
    block left, with the three columns of the aggregate rewritten if the
    recomputation stored its result. *)
Lemma module_row_after_call pd env st t :
  exists row,
    select_user_progress (userId pd) (moduleId pd) (fst (after_update pd env st t))
    = Some row
    /\ (row = touched_row pd env st t
        \/ exists p b d, row = set_aggregate p b d (touched_row pd env st t)).
Proof.
  rewrite after_update_eq.
  pose proof (select_after_touch pd env st t) as H1.
  rewrite <- (select_user_progress_frame _ _ _ _
                (after_upsert_user_progress pd env (fst (after_touch pd env st t))
                   (snd (after_touch pd env st t)))) in H1.
  set (st2 := fst (after_upsert pd env (fst (after_touch pd env st t))
                     (snd (after_touch pd env st t)))) in *.
  set (t2 := snd (after_upsert pd env (fst (after_touch pd env st t))
                    (snd (after_touch pd env st t)))) in *.
  unfold after_recompute. rewrite H1.
  destruct (aggregate (userId pd) (moduleId pd) st2) as [[p b]|].
  - destruct (b && negb (up_completed (touched_row pd env st t))); cbn [fst];
      rewrite select_after_update_user_progress, H1; cbn [option_map];
      eexists; (split; [reflexivity|]); right; eauto.
  - cbn [fst]. rewrite H1. eexists. split; [reflexivity|]. left. reflexivity.
Qed.

(** A call that the driver stops at the first statement of its second
    block has written the first block and nothing else. *)
Lemma call_stopped_after_touch pd env st t c :
  fault env c = false -> fault env (S c) = false -> fault env (S (S c)) = true ->
  updateLessonProgress pd env (world st t c)
  = (Ok (fail (Template "Failed to update progress: " DriverError)),
     world (fst (after_touch pd env st t)) (snd (after_touch pd env st t))
           (S (S (S c)))).
Proof.
  intros F0 F1 F2.
  destruct (touch_ok pd env st t c F0 F1) as [r E].
  unfold updateLessonProgress. erewrite try_throw; [reflexivity|].
  erewrite bind_ok by exact E.
  erewrite bind_throw; [reflexivity|].
  unfold upsert_lesson_progress.
  erewrite bind_throw by (apply get_fault; exact F2). reflexivity.
Qed.

(** C8.  The row of [user_progress] over [updateLessonProgress].  (1) When
    the driver does not fail, the call answers and leaves a row for its
    pair.  If the pair had none, exactly one row is added: it carries
    [started_at] and [last_accessed] from the first two readings of the
    clock, [completed = false] and [progress_percentage = 0], except that
    the recomputation at the end of the same call may already have
    rewritten the flag, the percentage and the completion date.  If the
    pair had a row, no row is added and the row is the former one with
    [last_accessed] set to the first reading of the clock, again up to
    the three columns of the recomputation.  (2) The row as the first
    step leaves it is what the store holds when the driver stops the call
    right after that step: created with [completed = false] and
    [progress_percentage = 0], or changed in [last_accessed] only.
    (3) Whatever sequence of [updateLessonProgress] calls follows, and
    whatever the driver does, [started_at] of an existing row keeps its
    value. *)
Theorem module_progress_created_then_touched :
  forall env pd st t c,
    no_faults env ->
    (exists resp st' t' c' row,
        updateLessonProgress pd env (world st t c) = (Ok resp, world st' t' c')
        /\ select_user_progress (userId pd) (moduleId pd) st' = Some row
        /\ (row = touched_row pd env st t
            \/ exists p b d, row = set_aggregate p b d (touched_row pd env st t))
        /\ up_started_at row = up_started_at (touched_row pd env st t)
        /\ up_last_accessed row = up_last_accessed (touched_row pd env st t)
        /\ (select_user_progress (userId pd) (moduleId pd) st = None ->
            up_started_at row = Some (clock env t)
            /\ up_last_accessed row = clock env (S t)
            /\ List.length (user_progress st') = S (List.length (user_progress st)))
        /\ (forall cur,
              select_user_progress (userId pd) (moduleId pd) st = Some cur ->
              up_started_at row = up_started_at cur
              /\ up_last_accessed row = clock env t
              /\ up_id row = up_id cur
              /\ up_total_time_spent row = up_total_time_spent cur
              /\ List.length (user_progress st') = List.length (user_progress st)))
    /\ (forall env2,
          fault env2 c = false -> fault env2 (S c) = false ->
          fault env2 (S (S c)) = true ->
          exists resp st1 t1,
            updateLessonProgress pd env2 (world st t c)
            = (Ok resp, world st1 t1 (S (S (S c))))
            /\ select_user_progress (userId pd) (moduleId pd) st1
               = Some (touched_row pd env2 st t)
            /\ (select_user_progress (userId pd) (moduleId pd) st = None ->
                up_completed (touched_row pd env2 st t) = false
                /\ up_progress_percentage (touched_row pd env2 st t) = 0
                /\ up_started_at (touched_row pd env2 st t) = Some (clock env2 t)
                /\ up_last_accessed (touched_row pd env2 st t) = clock env2 (S t))
            /\ (forall cur,
                  select_user_progress (userId pd) (moduleId pd) st = Some cur ->
                  touched_row pd env2 st t = set_last_accessed (clock env2 t) cur))
    /\ (forall env' pds w cur,
          stored_user_progress (userId pd) (moduleId pd) w = Some cur ->
          exists cur',
            stored_user_progress (userId pd) (moduleId pd)
              (record_outcomes env' pds w) = Some cur'
            /\ up_started_at cur' = up_started_at cur).
Proof.
  intros env pd st t c NF. split; [|split].
  - destruct (updateLessonProgress_ok pd env st t c NF) as (c' & lrow & E & _).
    destruct (module_row_after_call pd env st t) as (row & Hrow & Hshape).
    exists (succeed lrow), (fst (after_update pd env st t)),
      (snd (after_update pd env st t)), c', row.
    split; [exact E|]. split; [exact Hrow|]. split; [exact Hshape|].
    assert (Hs : up_started_at row = up_started_at (touched_row pd env st t)
                 /\ up_last_accessed row = up_last_accessed (touched_row pd env st t)
                 /\ up_id row = up_id (touched_row pd env st t)
                 /\ up_total_time_spent row
                    = up_total_time_spent (touched_row pd env st t)).
    { destruct Hshape as [->|(p & b & d & ->)]; repeat split. }
    destruct Hs as (Hs1 & Hs2 & Hs3 & Hs4).
    split; [exact Hs1|]. split; [exact Hs2|].
    assert (Hlen : List.length (user_progress (fst (after_update pd env st t)))
                   = match select_user_progress (userId pd) (moduleId pd) st with
                     | None => S (List.length (user_progress st))
                     | Some _ => List.length (user_progress st)
                     end).
    { rewrite after_update_eq, user_progress_length_after_recompute,
        after_upsert_user_progress. apply user_progress_length_after_touch. }
    split.
    + intros Hnone. rewrite Hs1, Hs2, Hlen. unfold touched_row. rewrite Hnone.
      repeat split.
    + intros cur Hcur. rewrite Hs1, Hs2, Hs3, Hs4, Hlen. unfold touched_row.
      rewrite Hcur. repeat split.
  - intros env2 F0 F1 F2.
    rewrite (call_stopped_after_touch pd env2 st t c F0 F1 F2).
    eexists _, _, _. split; [reflexivity|].
    split; [apply select_after_touch|].
    split.
    + intros Hnone. unfold touched_row. rewrite Hnone. repeat split.
    + intros cur Hcur. unfold touched_row. rewrite Hcur. reflexivity.
  - intros env' pds w cur. apply started_at_kept_by_calls.
Qed.

(** ** A recomputation that fails *)

Lemma statement_closed {A : Type} (sql : Store -> Outcome A * Store) env t c :
  statement sql env {| db := None; ticks := t; calls := c |}
  = (Throw DatabaseNotInitialized, {| db := None; ticks := t; calls := c |}).
Proof. reflexivity. Qed.

(** The first two blocks, read backwards from their success. *)
Lemma first_blocks_success pd env w r w2 :
  bind (touch_module_progress pd) (fun _ => upsert_lesson_progress pd) env w
  = (Ok r, w2) ->
  exists st t c,
    w = world st t c
    /\ fault env c = false /\ fault env (S c) = false
    /\ fault env (S (S c)) = false /\ fault env (S (S (S c))) = false
    /\ w2 = world
              (fst (after_upsert pd env (fst (after_touch pd env st t))
                      (snd (after_touch pd env st t))))
              (snd (after_upsert pd env (fst (after_touch pd env st t))
                      (snd (after_touch pd env st t))))
              (S (S (S (S c)))).
Proof.
  destruct w as [[st|] t c]; intros E.
  2:{ unfold touch_module_progress in E.
      erewrite bind_throw in E
        by (erewrite bind_throw by (unfold get; apply statement_closed); reflexivity).
      discriminate. }
  change {| db := Some st; ticks := t; calls := c |} with (world st t c) in E.
  destruct (fault env c) eqn:F0.
  { unfold touch_module_progress in E.
    erewrite bind_throw in E
      by (erewrite bind_throw by (apply get_fault; exact F0); reflexivity).
    discriminate. }
  destruct (fault env (S c)) eqn:F1.
  { unfold touch_module_progress in E.
    destruct (select_user_progress (userId pd) (moduleId pd) st) eqn:Hs.
    - erewrite bind_throw in E
        by (erewrite bind_ok by (apply get_ok; exact F0); rewrite Hs;
            erewrite bind_ok by apply new_Date_ok; apply run_fault; exact F1).
      discriminate.
    - erewrite bind_throw in E
        by (erewrite bind_ok by (apply get_ok; exact F0); rewrite Hs;
            erewrite bind_ok by apply new_Date_ok;
            erewrite bind_ok by apply new_Date_ok; apply run_fault; exact F1).
      discriminate. }
  destruct (touch_ok pd env st t c F0 F1) as [r1 E1].
  erewrite bind_ok in E by exact E1.
  set (st1 := fst (after_touch pd env st t)) in *.
  set (t1 := snd (after_touch pd env st t)) in *.
  destruct (fault env (S (S c))) eqn:F2.
  { unfold upsert_lesson_progress in E.
    erewrite bind_throw in E by (apply get_fault; exact F2). discriminate. }
  destruct (fault env (S (S (S c)))) eqn:F3.
  { unfold upsert_lesson_progress in E.
    erewrite bind_ok in E by (apply get_ok; exact F2).
    destruct (select_lesson_progress _ _ _ st1); destruct (completed pd).
    - erewrite bind_ok in E by (erewrite bind_ok by apply new_Date_ok; reflexivity).
      rewrite run_fault in E by exact F3. discriminate.
    - erewrite bind_ok in E by reflexivity.
      rewrite run_fault in E by exact F3. discriminate.
    - erewrite bind_ok in E by (erewrite bind_ok by apply new_Date_ok; reflexivity).
      rewrite run_fault in E by exact F3. discriminate.
    - erewrite bind_ok in E by reflexivity.
      rewrite run_fault in E by exact F3. discriminate. }
  destruct (upsert_ok pd env st1 t1 (S (S c)) F2 F3) as [r2 E2].
  rewrite E2 in E. injection E as _ <-.
  exists st, t, c. repeat split; solve [assumption | reflexivity].
Qed.

(** Whenever the [try] block of the recomputation throws, it has written
    nothing. *)
Lemma recompute_aggregate_throw u m env st t c e w3 :
  recompute_aggregate u m env (world st t c) = (Throw e, w3) ->
  exists t3 c3, w3 = world st t3 c3.
Proof.
  unfold recompute_aggregate. intros E.
  destruct (fault env c) eqn:F0.
  { erewrite bind_throw in E by (apply get_fault; exact F0).
    injection E as _ <-. eauto. }
  erewrite bind_ok in E by (apply get_ok; exact F0).
  destruct (select_module m st) as [mr|]; [|discriminate].
  destruct (parsed (mod_content mr)) as [doc|] eqn:Hp.
  2:{ erewrite bind_throw in E by (rewrite parse_content_parsed, Hp; reflexivity).
      injection E as _ <-. eauto. }
  erewrite bind_ok in E by (rewrite parse_content_parsed, Hp; reflexivity).
  destruct (_ =? 0); [discriminate|].
  destruct (fault env (S c)) eqn:F1.
  { erewrite bind_throw in E by (apply query_fault; exact F1).
    injection E as _ <-. eauto. }
  erewrite bind_ok in E by (apply query_ok; exact F1).
  destruct (fault env (S (S c))) eqn:F2.
  { erewrite bind_throw in E by (apply query_fault; exact F2).
    injection E as _ <-. eauto. }
  erewrite bind_ok in E by (apply query_ok; exact F2).
  destruct (fault env (S (S (S c)))) eqn:F3.
  { erewrite bind_throw in E by (apply get_fault; exact F3).
    injection E as _ <-. eauto. }
  erewrite bind_ok in E by (apply get_ok; exact F3).
  destruct (select_user_progress u m st) as [cur|]; [|discriminate].
  destruct (_ && negb (up_completed cur)).
  - erewrite bind_ok in E by (erewrite bind_ok by apply new_Date_ok; reflexivity).
    destruct (fault env (S (S (S (S c))))) eqn:F4.
    + erewrite bind_throw in E by (apply run_fault; exact F4).
      injection E as _ <-. eauto.
    + erewrite bind_ok in E by (rewrite run_ok by exact F4; reflexivity).
      discriminate.
  - erewrite bind_ok in E by reflexivity.
    destruct (fault env (S (S (S (S c))))) eqn:F4.
    + erewrite bind_throw in E by (apply run_fault; exact F4).
      injection E as _ <-. eauto.
    + erewrite bind_ok in E by (rewrite run_ok by exact F4; reflexivity).
      discriminate.
Qed.

(** The aggregate columns of the pair after the first two blocks are
    those before the call, or the defaults of a new row. *)
Lemma aggregate_columns_after_blocks pd env st t :
  let st2 := fst (after_upsert pd env (fst (after_touch pd env st t))
                    (snd (after_touch pd env st t))) in
  exists cur',
    select_user_progress (userId pd) (moduleId pd) st2 = Some cur'
    /\ match select_user_progress (userId pd) (moduleId pd) st with
       | Some cur =>
           up_progress_percentage cur' = up_progress_percentage cur
           /\ up_completed cur' = up_completed cur
           /\ up_completion_date cur' = up_completion_date cur
       | None =>
           up_progress_percentage cur' = 0
           /\ up_completed cur' = false
           /\ up_completion_date cur' = None
       end.
Proof.
  intros st2. subst st2.
  rewrite (select_user_progress_frame _ _ (fst (after_touch pd env st t)))
    by apply after_upsert_user_progress.
  unfold after_touch.
  destruct (select_user_progress (userId pd) (moduleId pd) st) as [cur|] eqn:Hcur;
    cbn [fst].
  - rewrite select_after_update_last_accessed, Hcur. cbn [option_map].
    eexists. split; [reflexivity|]. repeat split.
  - rewrite select_after_insert_user_progress by exact Hcur.
    eexists. split; [reflexivity|]. repeat split.
Qed.

(** C9.  Let the first two blocks of [updateLessonProgress] succeed and
    let the [try] block of the recomputation throw, whatever the exception
    (an error of the driver when reading the module, counting or writing
    the row, or a content that does not parse).  If the last read does not
    fail, [updateLessonProgress] still answers [success = true] with the
    updated row of [lesson_progress]; the recomputation has written
    nothing, so the percentage, the flag and the completion date of the
    pair are those from before the call (the defaults, for a row the call
    created). *)
Theorem recomputation_failure_is_swallowed :
  forall env pd w r w2 e w3,
    bind (touch_module_progress pd) (fun _ => upsert_lesson_progress pd) env w
    = (Ok r, w2) ->
    recompute_aggregate (userId pd) (moduleId pd) env w2 = (Throw e, w3) ->
    fault env (calls w3) = false ->
    exists st0 st row w4 cur',
      db w = Some st0
      /\ updateLessonProgress pd env w = (Ok (succeed row), w4)
      /\ db w4 = Some st /\ db w2 = Some st
      /\ select_lesson_progress (userId pd) (moduleId pd) (lessonId pd) st = Some row
      /\ lp_completed row = completed pd
      /\ lp_time_spent row
         = match select_lesson_progress (userId pd) (moduleId pd) (lessonId pd) st0 with
           | Some existing => JSNum.plus (lp_time_spent existing) (timeSpent pd)
           | None => timeSpent pd
           end
      /\ select_user_progress (userId pd) (moduleId pd) st = Some cur'
      /\ match select_user_progress (userId pd) (moduleId pd) st0 with
         | Some cur =>
             up_progress_percentage cur' = up_progress_percentage cur
             /\ up_completed cur' = up_completed cur
             /\ up_completion_date cur' = up_completion_date cur
         | None =>
             up_progress_percentage cur' = 0
             /\ up_completed cur' = false
             /\ up_completion_date cur' = None
         end.
Proof.
  intros env pd w r w2 e w3 E12 E3 F.
  destruct (first_blocks_success pd env w r w2 E12)
    as (st0 & t & c & -> & F0 & F1 & F2 & F3 & ->).
  destruct (touch_ok pd env st0 t c F0 F1) as [r1 E1].
  set (st1 := fst (after_touch pd env st0 t)) in *.
  set (t1 := snd (after_touch pd env st0 t)) in *.
  destruct (upsert_ok pd env st1 t1 (S (S c)) F2 F3) as [r2 E2].
  pose proof (select_after_upsert pd env st1 t1) as Hrow.
  pose proof (aggregate_columns_after_blocks pd env st0 t) as [cur' [Hcur' Hagg]].
  fold st1 t1 in Hcur'.
  set (st2 := fst (after_upsert pd env st1 t1)) in *.
  set (t2 := snd (after_upsert pd env st1 t1)) in *.
  destruct (recompute_aggregate_throw _ _ _ _ _ _ _ _ E3) as (t3 & c3 & ->).
  cbn [calls world] in F.
  exists st0, st2. eexists. eexists. exists cur'.
  split; [reflexivity|]. split.
  { unfold updateLessonProgress. erewrite try_ok; [reflexivity|].
    erewrite bind_ok by exact E1.
    erewrite bind_ok by exact E2.
    erewrite bind_ok
      by (unfold updateModuleCompletionStatus; erewrite try_throw by exact E3;
          reflexivity).
    unfold return_updated_progress.
    erewrite bind_ok by (apply get_ok; exact F).
    rewrite Hrow. reflexivity. }
  split; [reflexivity|]. split; [reflexivity|].
  split; [exact Hrow|].
  rewrite (select_lesson_progress_frame _ _ _ st0 st1)
    by apply after_touch_lesson_progress.
  split; [|split; [|split; [exact Hcur'|exact Hagg]]].
  - destruct (select_lesson_progress _ _ _ st0); reflexivity.
  - destruct (select_lesson_progress _ _ _ st0); cbn; rewrite ?or_zero_id; reflexivity.
Qed.

(** ** The passing score plays no part *)

Lemma totals_rescore f content : totals (rescore_content f content) = totals content.
Proof.
  destruct content as [| |doc]; cbn; [reflexivity..|].
  destruct (quizzes doc); cbn; [rewrite length_map|]; reflexivity.
Qed.

Lemma select_module_rescore f m st :
  select_module m (with_passing_scores f st)
  = option_map (rescore_module f) (select_module m st).
Proof.
  unfold select_module, with_passing_scores; cbn [modules].
  induction (modules st) as [|r l IH]; cbn; [reflexivity|].
  destruct (mod_id r =? m); [reflexivity|exact IH].
Qed.

Lemma aggregate_rescore f u m st :
  aggregate u m (with_passing_scores f st) = aggregate u m st.
Proof.
  unfold aggregate. rewrite select_module_rescore.
  destruct (select_module m st) as [mr|]; cbn; [|reflexivity].
  rewrite totals_rescore. reflexivity.
Qed.

Lemma after_recompute_rescore f u m env st t :
  after_recompute u m env (with_passing_scores f st) t
  = (with_passing_scores f (fst (after_recompute u m env st t)),
     snd (after_recompute u m env st t)).
Proof.
  unfold after_recompute. rewrite aggregate_rescore.
  change (select_user_progress u m (with_passing_scores f st))
    with (select_user_progress u m st).
  destruct (aggregate u m st) as [[p b]|]; [|reflexivity].
  destruct (select_user_progress u m st) as [cur|]; [|reflexivity].
  destruct (b && negb (up_completed cur)); reflexivity.
Qed.

(** C10.  The recomputation never reads [passingScore]: run on a store
    whose quizzes carry any other passing scores, it writes the same rows.
    So a quiz counts as completed once its row is completed and has a
    score, whatever the score: in the sample module with one lesson and one
    quiz of passing score 70, completing the lesson and submitting the quiz
    with a score of 10 stores [completed = true] and
    [progress_percentage = 100]. *)
Theorem quiz_counts_without_passing :
  (forall env u m st t c f,
      no_faults env ->
      exists st' t' c1 c2,
        updateModuleCompletionStatus u m env (world st t c)
        = (Ok tt, world st' t' c1)
        /\ updateModuleCompletionStatus u m env (world (with_passing_scores f st) t c)
           = (Ok tt, world (with_passing_scores f st') t' c2))
  /\ (let w := record_outcomes Sample.env
                 [Sample.visit 2 "lesson-1" true 300 None;
                  Sample.visit 2 "quiz-1" true 120 (Some 10)]
                 Sample.start in
      select_module 2 Sample.store = Some Sample.tiny_course
      /\ parsed (mod_content Sample.tiny_course)
         = Some {| lessons := Some [Sample.lesson 1];
                   quizzes := Some [Sample.quiz 1 1 70];
                   estimatedTime := 5 |}
      /\ option_map lp_quiz_score (stored_lesson_progress 1 2 "quiz-1" w)
         = Some (Some 10)
      /\ option_map up_completed (stored_user_progress 1 2 w) = Some true
      /\ option_map up_progress_percentage (stored_user_progress 1 2 w) = Some 100).
Proof.
  split.
  - intros env u m st t c f NF.
    destruct (recompute_ok u m env st t c NF) as [c1 E1].
    destruct (recompute_ok u m env (with_passing_scores f st) t c NF) as [c2 E2].
    rewrite after_recompute_rescore in E2. cbn [fst snd] in E2.
    eexists _, _, c1, c2. split; [exact E1|exact E2].
  - vm_compute. repeat split; reflexivity.
Qed.

(** ** The statements on the sample data *)

Lemma sample_env_no_faults : no_faults Sample.env.
Proof. intros n. reflexivity. Defined.

Lemma sample_store_unique : lesson_progress_unique Sample.store.
Proof. intros u m l. cbn. apply Nat.le_0_1. Defined.

(** The example scenario of the specification ends as it says. *)
Example scenario_outcome :
  let w := record_outcomes Sample.env Sample.scenario Sample.start in
  completedLessons 1 1 Sample.after_scenario = 3
  /\ completedQuizzes 1 1 Sample.after_scenario = 1
  /\ option_map up_progress_percentage (stored_user_progress 1 1 w) = Some 100
  /\ module_completed 1 1 w = true
  /\ module_completion_date 1 1 w = Some 1009
  /\ success (Sample.answer (fail (Literal "")) (generateCertificate 1 1 Sample.env w))
     = true.
Proof. vm_compute. repeat split; reflexivity. Qed.

(** C1 fails as stated.  After a first delta of 2^53 seconds a second
    delta of one second is lost: the deltas sum to 2^53 + 1, and the row
    holds 2^53, as [9007199254740992 + 1] evaluates to. *)
Lemma time_spent_claim_fails :
  let calls := [Sample.visit 1 "lesson-1" false (2 ^ 53) None;
                Sample.visit 1 "lesson-1" false 1 None] in
  Forall (for_key 1 1 "lesson-1") calls
  /\ Forall (fun p => 0 < timeSpent p) calls
  /\ sum_of_deltas calls = 2 ^ 53 + 1
  /\ option_map lp_time_spent
       (stored_lesson_progress 1 1 "lesson-1"
          (record_outcomes Sample.env calls Sample.start))
     = Some (2 ^ 53)
  /\ 2 ^ 53 <> 2 ^ 53 + 1.
Proof.
  intros calls.
  split; [repeat constructor|]. split; [repeat constructor|].
  split; [reflexivity|]. split; [vm_compute; reflexivity|]. discriminate.
Qed.

Lemma time_spent_is_sum_of_deltas_witness :
  no_faults Sample.env
  /\ Forall (for_key 1 1 "lesson-1") Sample.visits
  /\ Forall (fun p => 0 < timeSpent p) Sample.visits
  /\ select_lesson_progress 1 1 "lesson-1" Sample.store = None
  /\ sum_of_deltas Sample.visits <= 2 ^ 53
  /\ option_map lp_time_spent
       (stored_lesson_progress 1 1 "lesson-1"
          (record_outcomes Sample.env Sample.visits (world Sample.store 0 0)))
     = Some 195
  /\ option_map lp_time_spent
       (stored_lesson_progress 1 1 "lesson-1"
          (record_outcomes Sample.env (firstn 1 Sample.visits) (world Sample.store 0 0)))
     = Some 60.
Proof.
  assert (H : Forall (for_key 1 1 "lesson-1") Sample.visits)
    by (repeat constructor).
  assert (Hp : Forall (fun p => 0 < timeSpent p) Sample.visits)
    by (repeat constructor).
  assert (Hb : sum_of_deltas Sample.visits <= 2 ^ 53) by (vm_compute; discriminate).
  split; [exact sample_env_no_faults|]. split; [exact H|]. split; [exact Hp|].
  split; [reflexivity|]. split; [exact Hb|].
  assert (H0 : forall existing,
             select_lesson_progress 1 1 "lesson-1" Sample.store = Some existing ->
             0 <= lp_time_spent existing)
    by (intros existing E; discriminate E).
  destruct (time_spent_is_sum_of_deltas Sample.env 1 1 "lesson-1" _ _ Sample.store
              0%nat 0%nat sample_env_no_faults H Hp H0 Hb)
    as [Hsum Hfirst].
  split; [exact Hsum|exact (Hfirst eq_refl)].
Defined.

(** C2 fails as stated.  Three completed lesson rows in the module of two
    items store 150, which is above 100; and 23 completed lessons of 40
    store 57, where the quotient 100 * 23 / 40 = 57.5 rounds to 58. *)
Lemma percentage_claim_fails :
  (let w := record_outcomes Sample.env
              [Sample.visit 2 "lesson-1" true 5 None;
               Sample.visit 2 "lesson-2" true 5 None;
               Sample.visit 2 "lesson-3" true 5 None] Sample.start in
   totals (mod_content Sample.tiny_course) = Some (1, 1)
   /\ option_map up_progress_percentage
        (stored_user_progress 1 2
           (snd (updateModuleCompletionStatus 1 2 Sample.env w))) = Some 150
   /\ ~ (0 <= 150 <= 100))
  /\ (let w := record_outcomes Sample.env (Sample.completions 23) Sample.start in
      totals (mod_content Sample.long_course) = Some (40, 0)
      /\ completedLessons 1 3 (Sample.store_of w)
         + completedQuizzes 1 3 (Sample.store_of w) = 23
      /\ option_map up_progress_percentage
           (stored_user_progress 1 3
              (snd (updateModuleCompletionStatus 1 3 Sample.env w))) = Some 57
      /\ spec_percentage 23 40 = 58).
Proof.
  split.
  - vm_compute. repeat split; try reflexivity. intros [_ H]. apply H. reflexivity.
  - vm_compute. repeat split; reflexivity.
Qed.

Lemma percentage_after_recomputation_witness :
  no_faults Sample.env
  /\ select_module 1 Sample.after_scenario = Some Sample.course
  /\ totals (mod_content Sample.course) = Some (3, 1)
  /\ 3 + 1 <> 0
  /\ (exists cur, select_user_progress 1 1 Sample.after_scenario = Some cur)
  /\ exists st' t' c' row,
       updateModuleCompletionStatus 1 1 Sample.env (world Sample.after_scenario 0 0)
       = (Ok tt, world st' t' c')
       /\ select_user_progress 1 1 st' = Some row
       /\ up_progress_percentage row
          = progress_percentage (completedLessons 1 1 Sample.after_scenario
                                 + completedQuizzes 1 1 Sample.after_scenario) (3 + 1)
       /\ 0 <= up_progress_percentage row
       /\ (completedLessons 1 1 Sample.after_scenario
           + completedQuizzes 1 1 Sample.after_scenario <= 3 + 1 ->
           up_progress_percentage row <= 100)
       /\ (forall t2 c2, exists c3,
             updateModuleCompletionStatus 1 1 Sample.env (world st' t2 c2)
             = (Ok tt, world st' t2 c3)).
Proof.
  assert (Hm : select_module 1 Sample.after_scenario = Some Sample.course)
    by (vm_compute; reflexivity).
  assert (Ht : totals (mod_content Sample.course) = Some (3, 1))
    by (vm_compute; reflexivity).
  assert (Hz : 3 + 1 <> 0) by lia.
  assert (Hc : select_user_progress 1 1 Sample.after_scenario
               = Some {| up_id := 1; up_user_id := 1; up_module_id := 1;
                         up_progress_percentage := 100; up_completed := true;
                         up_started_at := Some 1000;
                         up_completion_date := Some 1009;
                         up_total_time_spent := 0; up_last_accessed := 1007 |})
    by (vm_compute; reflexivity).
  split; [exact sample_env_no_faults|]. split; [exact Hm|]. split; [exact Ht|].
  split; [exact Hz|]. split; [eexists; exact Hc|].
  exact (percentage_after_recomputation Sample.env 1 1 Sample.after_scenario 0%nat 0%nat
           Sample.course 3 1 _ sample_env_no_faults Hm Ht Hz Hc).
Defined.

(** C3 fails as stated.  In the module with one lesson and one quiz the
    flag is true after the lesson and the quiz are completed, false after
    the lesson is saved again with [completed = false], and true again
    after a third save; the completion date written at the first
    transition (1005) is then overwritten (1009). *)
Lemma completed_flag_claim_fails :
  let calls :=
    [Sample.visit 2 "lesson-1" true 5 None;
     Sample.visit 2 "quiz-1" true 5 (Some 90);
     Sample.visit 2 "lesson-1" false 5 None;
     Sample.visit 2 "lesson-1" true 5 None] in
  let after n := record_outcomes Sample.env (firstn n calls) Sample.start in
  (module_completed 1 2 (after 2%nat) = true
   /\ module_completion_date 1 2 (after 2%nat) = Some 1005)
  /\ module_completed 1 2 (after 3%nat) = false
  /\ (module_completed 1 2 (after 4%nat) = true
      /\ module_completion_date 1 2 (after 4%nat) = Some 1009).
Proof. vm_compute. repeat split; reflexivity. Qed.

(** The flag also reverts when a completed quiz is saved again with a
    score of [NaN], which erases the stored score. *)
Example erased_score_reverts_flag :
  let calls :=
    [Sample.visit 2 "lesson-1" true 5 None;
     Sample.visit 2 "quiz-1" true 5 (Some 90);
     {| userId := 1; moduleId := 2; lessonId := "quiz-1"; completed := true;
        timeSpent := 5; quizScore := NaN |}] in
  let after n := record_outcomes Sample.env (firstn n calls) Sample.start in
  module_completed 1 2 (after 2%nat) = true
  /\ option_map lp_quiz_score (stored_lesson_progress 1 2 "quiz-1" (after 2%nat))
     = Some (Some 90)
  /\ module_completed 1 2 (after 3%nat) = false
  /\ option_map lp_quiz_score (stored_lesson_progress 1 2 "quiz-1" (after 3%nat))
     = Some None.
Proof. vm_compute. repeat split; reflexivity. Qed.

Lemma sample_visits_completing (m : Z) (l : string) (seconds : Z) (score : option Z) :
  completing (Sample.visit m l true seconds score).
Proof.
  split; [reflexivity|]. destruct score; split; discriminate.
Defined.

Lemma completed_flag_stable_under_completing_calls_witness :
  let pre := [Sample.visit 2 "lesson-1" true 5 None] in
  let pd := Sample.visit 2 "quiz-1" true 5 (Some 90) in
  let post := [Sample.visit 2 "quiz-1" true 5 None] in
  no_faults Sample.env
  /\ lesson_progress_unique Sample.store
  /\ select_user_progress 1 2 Sample.store = None
  /\ Forall (for_pair 1 2) (pre ++ pd :: post)
  /\ Forall completing post
  /\ let w1 := record_outcomes Sample.env pre (world Sample.store 0 0) in
     let w2 := record_outcomes Sample.env [pd] w1 in
     let w3 := record_outcomes Sample.env post w2 in
     module_completed 1 2 w1 = false
     /\ module_completed 1 2 w2 = true
     /\ (exists k, (ticks w1 <= k < ticks w2)%nat
                   /\ module_completion_date 1 2 w2 = Some (clock Sample.env k))
     /\ module_completed 1 2 w3 = true
     /\ module_completion_date 1 2 w3 = module_completion_date 1 2 w2
     /\ let again := Sample.visit 2 "quiz-1" true 5 None in
        let v1 := record_outcomes Sample.env (pre ++ [pd]) (world Sample.store 0 0) in
        let v2 := record_outcomes Sample.env [again] v1 in
        completing again
        /\ module_completed 1 2 v1 = true
        /\ module_completed 1 2 v2 = true
        /\ module_completion_date 1 2 v2 = module_completion_date 1 2 v1.
Proof.
  intros pre pd post.
  assert (Hp : Forall (for_pair 1 2) (pre ++ pd :: post)) by (repeat constructor).
  assert (Hc : Forall completing post).
  { constructor; [apply sample_visits_completing|constructor]. }
  split; [exact sample_env_no_faults|]. split; [exact sample_store_unique|].
  split; [reflexivity|]. split; [exact Hp|]. split; [exact Hc|].
  pose proof (completed_flag_stable_under_completing_calls Sample.env 1 2 Sample.store
              0%nat 0%nat pre pd post sample_env_no_faults sample_store_unique eq_refl Hp
              Hc) as H.
  cbv zeta in H.
  destruct H as (_ & _ & H3 & H4).
  intros w1 w2 w3.
  assert (E1 : module_completed 1 2 w1 = false) by (vm_compute; reflexivity).
  assert (E2 : module_completed 1 2 w2 = true) by (vm_compute; reflexivity).
  split; [exact E1|]. split; [exact E2|].
  split; [exact (H3 E1 E2)|].
  split; [exact (proj1 (H4 E2))|]. split; [exact (proj2 (H4 E2))|].
  intros again v1 v2.
  assert (Hp' : Forall (for_pair 1 2) ((pre ++ [pd]) ++ again :: []))
    by (repeat constructor).
  pose proof (completed_flag_stable_under_completing_calls Sample.env 1 2 Sample.store
                0%nat 0%nat (pre ++ [pd]) again [] sample_env_no_faults
                sample_store_unique eq_refl Hp' (Forall_nil _)) as H.
  cbv zeta in H. destruct H as (H1 & _).
  assert (Ha : completing again) by apply sample_visits_completing.
  assert (F1 : module_completed 1 2 v1 = true) by (vm_compute; reflexivity).
  split; [exact Ha|]. split; [exact F1|]. exact (H1 Ha F1).
Defined.



(** C5 fails as stated.  The first lesson is completed at 1003; saving it
    again with [completed = true] moves [completed_at] to 1005. *)
Lemma completed_at_claim_fails :
  let after n := record_outcomes Sample.env (firstn n Sample.visits) Sample.start in
  option_map lp_completed (stored_lesson_progress 1 1 "lesson-1" (after 2%nat))
  = Some true
  /\ option_map lp_completed_at (stored_lesson_progress 1 1 "lesson-1" (after 2%nat))
     = Some (Some 1003)
  /\ completed (Sample.visit 1 "lesson-1" true 45 None) = true
  /\ option_map lp_completed_at (stored_lesson_progress 1 1 "lesson-1" (after 3%nat))
     = Some (Some 1005)
  /\ Some 1005 <> Some 1003.
Proof. vm_compute. repeat split; try reflexivity. discriminate. Qed.

Lemma completed_at_stamped_on_every_completed_call_witness :
  let st := Sample.store_of
              (record_outcomes Sample.env (firstn 2 Sample.visits) Sample.start) in
  let pd := Sample.visit 1 "lesson-1" true 45 None in
  no_faults Sample.env
  /\ (exists existing,
        select_lesson_progress 1 1 "lesson-1" st = Some existing
        /\ lp_completed existing = true
        /\ lp_completed_at existing = Some 1003)
  /\ exists row st' t' c',
       updateLessonProgress pd Sample.env (world st 4 0)
       = (Ok (succeed row), world st' t' c')
       /\ select_lesson_progress 1 1 "lesson-1" st' = Some row
       /\ exists k, (4 <= k < t')%nat /\ lp_completed_at row = Some (clock Sample.env k).
Proof.
  intros st pd.
  assert (He : select_lesson_progress (userId pd) (moduleId pd) (lessonId pd) st
               = Some {| lp_id := 1; lp_user_id := 1; lp_module_id := 1;
                         lp_lesson_id := "lesson-1"; lp_completed := true;
                         lp_time_spent := 150; lp_quiz_score := None;
                         lp_quiz_attempts := 0; lp_completed_at := Some 1003 |})
    by (vm_compute; reflexivity).
  split; [exact sample_env_no_faults|].
  split; [eexists; split; [exact He|split; reflexivity]|].
  destruct (completed_at_stamped_on_every_completed_call Sample.env pd st 4%nat 0%nat _
              sample_env_no_faults He) as (row & st' & t' & c' & E & Hrow & Hk & _).
  exists row, st', t', c'. split; [exact E|]. split; [exact Hrow|].
  exact (Hk eq_refl).
Defined.

Lemma second_issuance_is_rejected_witness :
  let w := record_outcomes Sample.env Sample.scenario Sample.start in
  let resp := Sample.answer (fail (Literal "")) (generateCertificate 1 1 Sample.env w) in
  let w1 := snd (generateCertificate 1 1 Sample.env w) in
  generateCertificate 1 1 Sample.env w = (Ok resp, w1)
  /\ success resp = true
  /\ exists st1 t1 c1 cert,
       w1 = world st1 t1 c1
       /\ data resp = Some cert
       /\ filter (cert_key 1 1) (certificates st1) = [cert]
       /\ generateCertificate 1 1 Sample.env w1
          = (Ok (fail (Template "Failed to generate certificate: "
                         (UniqueConstraintFailed "certificates"))),
             world st1 (S (S t1)) (S (S (S (S c1))))).
Proof.
  intros w resp w1.
  assert (E : generateCertificate 1 1 Sample.env w = (Ok resp, w1))
    by (vm_compute; reflexivity).
  assert (Hs : success resp = true) by (vm_compute; reflexivity).
  split; [exact E|]. split; [exact Hs|].
  destruct (second_issuance_is_rejected Sample.env 1 1 w resp w1 E Hs)
    as (st1 & t1 & c1 & cert & Hw & Hd & Hf & _ & Hnext).
  exists st1, t1, c1, cert. split; [exact Hw|]. split; [exact Hd|]. split; [exact Hf|].
  apply Hnext; reflexivity.
Defined.

Lemma reset_removes_progress_only_witness :
  let st :=
    Sample.store_of (snd (generateCertificate 1 1 Sample.env
                            (world Sample.after_scenario 9 0))) in
  fault Sample.env 0 = false /\ fault Sample.env 1 = false
  /\ fault Sample.env 2 = false /\ fault Sample.env 3 = false
  /\ List.length (user_progress st) = 1%nat
  /\ List.length (lesson_progress st) = 4%nat
  /\ exists cert resp st',
       certificates st = [cert]
       /\ cert_certificate_code cert = "CERT-1009-1-1"%string
       /\ resetModuleProgress 1 1 Sample.env (world st 0 0)
          = (Ok resp, world st' 0 2)
       /\ success resp = true
       /\ user_progress st' = []
       /\ lesson_progress st' = []
       /\ certificates st' = [cert]
       /\ getModuleProgress 1 1 Sample.env (world st' 0 2)
          = (Ok {| moduleProgress := None; lessonProgress := [] |}, world st' 0 4)
       /\ verifyCertificate "CERT-1009-1-1" Sample.env (world st' 0 4)
          = (Ok (Some cert), world st' 0 5).
Proof.
  intros st.
  do 4 (split; [reflexivity|]).
  assert (Hcerts : exists cert, certificates st = [cert]
                                /\ cert_certificate_code cert = "CERT-1009-1-1"%string).
  { eexists. split; vm_compute; reflexivity. }
  destruct Hcerts as (cert & Hcerts & Hcode).
  assert (Hu : certificate_codes_unique st).
  { unfold certificate_codes_unique. rewrite Hcerts.
    constructor; [intros []|constructor]. }
  split; [vm_compute; reflexivity|]. split; [vm_compute; reflexivity|].
  destruct (reset_removes_progress_only Sample.env 1 1 st 0%nat 0%nat
              eq_refl eq_refl eq_refl eq_refl)
    as (resp & st' & E & Hs & Hup & Hlp & _ & _ & Hc & Hg & Hv & _).
  exists cert, resp, st'.
  split; [exact Hcerts|]. split; [exact Hcode|].
  split; [exact E|]. split; [exact Hs|].
  split; [rewrite Hup; vm_compute; reflexivity|].
  split; [rewrite Hlp; vm_compute; reflexivity|].
  split; [rewrite Hc; exact Hcerts|]. split; [exact Hg|].
  assert (Hin : In cert (certificates st)) by (rewrite Hcerts; left; reflexivity).
  destruct (Hv cert Sample.env 0%nat 4%nat Hin eq_refl)
    as (found & Hafter & _ & _ & _ & Hsame).
  rewrite <- Hcode. rewrite Hafter. rewrite (Hsame Hu). reflexivity.
Defined.

Lemma module_progress_created_then_touched_witness :
  let pd := Sample.visit 1 "lesson-1" true 60 None in
  no_faults Sample.env
  /\ select_user_progress 1 1 Sample.store = None
  /\ (exists resp st' t' c' row,
         updateLessonProgress pd Sample.env (world Sample.store 0 0)
         = (Ok resp, world st' t' c')
         /\ select_user_progress 1 1 st' = Some row
         /\ up_started_at row = Some 1000
         /\ up_last_accessed row = 1001
         /\ List.length (user_progress st') = 1%nat)
  /\ (exists resp st1 t1,
         updateLessonProgress pd Scenes.stalling_env (world Sample.store 0 0)
         = (Ok resp, world st1 t1 3)
         /\ select_user_progress 1 1 st1
            = Some {| up_id := 1; up_user_id := 1; up_module_id := 1;
                      up_progress_percentage := 0; up_completed := false;
                      up_started_at := Some 1000; up_completion_date := None;
                      up_total_time_spent := 0; up_last_accessed := 1001 |})
  /\ (exists cur resp st' t' c' row,
         select_user_progress 1 1 Sample.after_scenario = Some cur
         /\ up_started_at cur = Some 1000
         /\ updateLessonProgress pd Sample.env (world Sample.after_scenario 9 0)
            = (Ok resp, world st' t' c')
         /\ select_user_progress 1 1 st' = Some row
         /\ up_started_at row = Some 1000
         /\ up_last_accessed row = 1009
         /\ List.length (user_progress st')
            = List.length (user_progress Sample.after_scenario)).
Proof.
  intros pd.
  split; [exact sample_env_no_faults|]. split; [reflexivity|].
  destruct (module_progress_created_then_touched Sample.env pd Sample.store 0%nat 0%nat
              sample_env_no_faults) as (Hcall & Hstep & _).
  split; [|split].
  - destruct Hcall as (resp & st' & t' & c' & row & E & Hrow & _ & _ & _ & Hnew & _).
    destruct (Hnew eq_refl) as (Hs & Hl & Hlen).
    exists resp, st', t', c', row.
    split; [exact E|]. split; [exact Hrow|]. split; [exact Hs|].
    split; [exact Hl|exact Hlen].
  - destruct (Hstep Scenes.stalling_env eq_refl eq_refl eq_refl)
      as (resp & st1 & t1 & E & Hrow & _).
    exists resp, st1, t1. split; [exact E|exact Hrow].
  - assert (Hcur : exists cur, select_user_progress 1 1 Sample.after_scenario = Some cur
                               /\ up_started_at cur = Some 1000).
    { eexists. split; vm_compute; reflexivity. }
    destruct Hcur as (cur & Hcur & Hstart).
    destruct (module_progress_created_then_touched Sample.env pd Sample.after_scenario
                9%nat 0%nat sample_env_no_faults)
      as ((resp & st' & t' & c' & row & E & Hrow & _ & _ & _ & _ & Hold) & _ & _).
    destruct (Hold cur Hcur) as (Hs & Hl & _ & _ & Hlen).
    exists cur, resp, st', t', c', row.
    split; [exact Hcur|]. split; [exact Hstart|]. split; [exact E|].
    split; [exact Hrow|]. split; [congruence|]. split; [exact Hl|exact Hlen].
Defined.

Lemma recomputation_failure_is_swallowed_witness :
  let pd := Sample.visit 1 "lesson-1" true 60 None in
  let w2 := snd (bind (touch_module_progress pd) (fun _ => upsert_lesson_progress pd)
                   Sample.faulty_env Sample.start) in
  let w3 := snd (recompute_aggregate 1 1 Sample.faulty_env w2) in
  bind (touch_module_progress pd) (fun _ => upsert_lesson_progress pd)
    Sample.faulty_env Sample.start
  = (Ok {| lastID := 1; changes := 1 |}, w2)
  /\ recompute_aggregate 1 1 Sample.faulty_env w2 = (Throw DriverError, w3)
  /\ fault Sample.faulty_env (calls w3) = false
  /\ exists row w4,
       updateLessonProgress pd Sample.faulty_env Sample.start = (Ok (succeed row), w4)
       /\ lp_completed row = true /\ lp_time_spent row = 60
       /\ option_map up_progress_percentage (stored_user_progress 1 1 w4) = Some 0
       /\ option_map up_completed (stored_user_progress 1 1 w4) = Some false.
Proof.
  intros pd w2 w3.
  assert (E12 : bind (touch_module_progress pd) (fun _ => upsert_lesson_progress pd)
                  Sample.faulty_env Sample.start
                = (Ok {| lastID := 1; changes := 1 |}, w2))
    by (vm_compute; reflexivity).
  assert (E3 : recompute_aggregate (userId pd) (moduleId pd) Sample.faulty_env w2
               = (Throw DriverError, w3))
    by (vm_compute; reflexivity).
  assert (F : fault Sample.faulty_env (calls w3) = false) by (vm_compute; reflexivity).
  split; [exact E12|]. split; [exact E3|]. split; [exact F|].
  destruct (recomputation_failure_is_swallowed Sample.faulty_env pd Sample.start _ w2 _ w3
              E12 E3 F)
    as (st0 & st & row & w4 & cur' & H0 & E & H4 & _ & _ & Hc & Ht & Hcur & Hagg).
  exists row, w4. split; [exact E|]. split; [exact Hc|].
  injection H0 as <-.
  split; [exact Ht|].
  change (select_user_progress 1 1 st = Some cur') in Hcur.
  unfold stored_user_progress. rewrite H4, Hcur. cbn [option_map].
  change (select_user_progress (userId pd) (moduleId pd) Sample.store) with
    (@None UserProgress) in Hagg.
  destruct Hagg as (-> & -> & _). split; reflexivity.
Defined.

Lemma quiz_counts_without_passing_witness :
  no_faults Sample.env
  /\ exists st' t' c1 c2,
       updateModuleCompletionStatus 1 1 Sample.env (world Sample.after_scenario 0 0)
       = (Ok tt, world st' t' c1)
       /\ updateModuleCompletionStatus 1 1 Sample.env
            (world (with_passing_scores (fun _ => 100) Sample.after_scenario) 0 0)
          = (Ok tt, world (with_passing_scores (fun _ => 100) st') t' c2).
Proof.
  split; [exact sample_env_no_faults|].
  exact (proj1 quiz_counts_without_passing Sample.env 1 1 Sample.after_scenario 0%nat 0%nat
           (fun _ => 100) sample_env_no_faults).
Defined.

(** ** No exception leaves an operation *)

















(** ** Without a connection *)

(** X2.  While [this.db] is null every operation answers at once, without
    reading the clock or reaching the driver: the three writing operations
    with [success = false] and the text 'Database not initialized' behind
    their own prefix, the reading ones with the same value as for an empty
    table ([null], [[]]). *)
Theorem closed_connection_is_reported :
  forall env t c,
    let w := {| db := None; ticks := t; calls := c |} in
    (forall pd,
        updateLessonProgress pd env w
        = (Ok (fail (Template "Failed to update progress: " DatabaseNotInitialized)), w))
    /\ (forall u m,
          resetModuleProgress u m env w
          = (Ok (fail (Template "Failed to reset progress: " DatabaseNotInitialized)), w))
    /\ (forall u m,
          generateCertificate u m env w
          = (Ok (fail (Template "Failed to generate certificate: "
                         DatabaseNotInitialized)), w))
    /\ (forall u m,
          getModuleProgress u m env w
          = (Ok {| moduleProgress := None; lessonProgress := [] |}, w))
    /\ (forall code, verifyCertificate code env w = (Ok None, w))
    /\ (forall u, getUserProgress u env w = (Ok [], w))
    /\ (forall u, getUserLessonProgress u env w = (Ok [], w))
    /\ (forall u, getUserCertificates u env w = (Ok [], w)).
Proof.
  intros env t c w. repeat split; intros; reflexivity.
Qed.

(** ** The operations that only read *)

Lemma reads_only_ret {A : Type} (a : A) : reads_only (ret a).
Proof. intros env w. split; reflexivity. Qed.

Lemma reads_only_statement {A : Type} (sql : Store -> Outcome A * Store) :
  (forall st, snd (sql st) = st) -> reads_only (statement sql).
Proof.
  intros Hsql env w. unfold statement.
  destruct (db w) as [st|] eqn:E; [|cbn [snd]; split; [exact E|reflexivity]].
  destruct (fault env (calls w)); cbn [snd db ticks];
    rewrite ?Hsql; split; reflexivity.
Qed.

Lemma reads_only_get {T : Type} (sql : Store -> option T) : reads_only (get sql).
Proof. apply reads_only_statement. reflexivity. Qed.

Lemma reads_only_query {T : Type} (sql : Store -> list T) : reads_only (query sql).
Proof. apply reads_only_statement. reflexivity. Qed.

Lemma reads_only_bind {A B : Type} (m : M A) (k : A -> M B) :
  reads_only m -> (forall a, reads_only (k a)) -> reads_only (bind m k).
Proof.
  intros Hm Hk env w. unfold bind. specialize (Hm env w).
  destruct (m env w) as [[a|e] w1]; cbn [snd] in *; [|exact Hm].
  destruct (Hk a env w1) as [H1 H2]. destruct Hm as [H3 H4].
  split; congruence.
Qed.

Lemma reads_only_try_catch {A : Type} (m : M A) (h : Exn -> M A) :
  reads_only m -> (forall e, reads_only (h e)) -> reads_only (try_catch m h).
Proof.
  intros Hm Hh env w. unfold try_catch. specialize (Hm env w).
  destruct (m env w) as [[a|e] w1]; cbn [snd] in *; [exact Hm|].
  destruct (Hh e env w1) as [H1 H2]. destruct Hm as [H3 H4].
  split; congruence.
Qed.

Lemma reads_only_getModuleProgress u m : reads_only (getModuleProgress u m).
Proof.
  apply reads_only_try_catch; [|intros; apply reads_only_ret].
  apply reads_only_bind; [apply reads_only_get|]. intros mp.
  apply reads_only_bind; [apply reads_only_query|]. intros lp.
  apply reads_only_ret.
Qed.

Lemma reads_only_verifyCertificate code : reads_only (verifyCertificate code).
Proof.
  apply reads_only_try_catch; [apply reads_only_get|intros; apply reads_only_ret].
Qed.

(** X3.  The reading operations and the handlers on top of them never
    write: whatever the driver does, the connection, every table and the
    number of clock readings are after the call what they were before. *)
Theorem reading_operations_never_write :
  (forall u m, reads_only (getModuleProgress u m))
  /\ (forall code, reads_only (verifyCertificate code))
  /\ (forall u, reads_only (getUserProgress u))
  /\ (forall u, reads_only (getUserLessonProgress u))
  /\ (forall u, reads_only (getUserCertificates u))
  /\ reads_only getAllUsers
  /\ (forall u, reads_only (getUserById u))
  /\ (forall code, reads_only (certificates_verify code))
  /\ (forall u m, reads_only (progress_get_module_progress u m))
  /\ (forall u, reads_only (user_switch u)).
Proof.
  repeat match goal with |- _ /\ _ => split end; intros.
  - apply reads_only_getModuleProgress.
  - apply reads_only_verifyCertificate.
  - apply reads_only_try_catch; [apply reads_only_query|intros; apply reads_only_ret].
  - apply reads_only_try_catch; [apply reads_only_query|intros; apply reads_only_ret].
  - apply reads_only_try_catch; [apply reads_only_query|intros; apply reads_only_ret].
  - apply reads_only_try_catch; [|intros; apply reads_only_ret].
    apply reads_only_statement. reflexivity.
  - apply reads_only_try_catch; [|intros; apply reads_only_ret].
    apply reads_only_statement. reflexivity.
  - apply reads_only_try_catch; [|intros; apply reads_only_ret].
    apply reads_only_bind; [apply reads_only_verifyCertificate|].
    intros [cert|]; apply reads_only_ret.
  - apply reads_only_try_catch; [|intros; apply reads_only_ret].
    apply reads_only_bind; [apply reads_only_getModuleProgress|].
    intros v. apply reads_only_ret.
  - apply reads_only_try_catch; [|intros; apply reads_only_ret].
    apply reads_only_bind.
    + apply reads_only_try_catch; [|intros; apply reads_only_ret].
      apply reads_only_statement. reflexivity.
    + intros [usr|]; apply reads_only_ret.
Qed.

(** ** Failures that read as absence *)

(** X4.  The reading operations fold every failure into the value they
    return for "nothing there".  When there is no connection, or the
    driver fails on the first statement, [getModuleProgress] returns no
    module progress and no lesson progress, [verifyCertificate] returns
    null and the three listings return the empty list, whatever the store
    holds; the handlers on top of them then answer [success: true] with
    that empty data, and ['certificates:verify'] answers 'Certificate not
    found' also for a certificate that is stored. *)
Theorem failures_read_as_absence :
  forall env w u m code,
    unreachable env w ->
    fst (getModuleProgress u m env w)
    = Ok {| moduleProgress := None; lessonProgress := [] |}
    /\ fst (verifyCertificate code env w) = Ok None
    /\ fst (getUserProgress u env w) = Ok []
    /\ fst (getUserLessonProgress u env w) = Ok []
    /\ fst (getUserCertificates u env w) = Ok []
    /\ fst (progress_get_module_progress u m env w)
       = Ok (handled {| moduleProgress := None; lessonProgress := [] |})
    /\ fst (progress_get_user_progress u env w) = Ok (handled [])
    /\ fst (progress_get_user_lesson_progress u env w) = Ok (handled [])
    /\ fst (certificates_get_user_certificates u env w) = Ok (handled [])
    /\ fst (certificates_verify code env w)
       = Ok (refused (Said "Certificate not found")).
Proof.
  intros env [[st|] t c] u m code [H|H]; cbn [db calls] in H; try discriminate;
    unfold progress_get_module_progress,
      progress_get_user_progress, progress_get_user_lesson_progress,
      certificates_get_user_certificates, certificates_verify,
      getModuleProgress, verifyCertificate, getUserProgress,
      getUserLessonProgress, getUserCertificates,
      try_catch, bind, get, query, statement; cbn [db calls];
    rewrite ?H; repeat split; reflexivity.
Qed.

(** ** The users of the store cannot be listed *)

(** X5.  [getAllUsers] and [getUserById] select the column [avatar],
    which the table [users] of the schema does not have, so the statement
    is rejected every time and the error is caught: [getUserById] returns
    null for every id, also the id of a stored user, and [getAllUsers]
    returns the empty list.  The handler of ['user:switch'] therefore
    answers 'User not found' whatever user is asked for, and
    ['user:get-all'] answers with success and no users. *)
Theorem users_are_never_found :
  forall env w userId,
    fst (getUserById userId env w) = Ok None
    /\ fst (getAllUsers env w) = Ok []
    /\ fst (user_switch userId env w) = Ok (refused (Said "User not found"))
    /\ fst (user_get_all env w) = Ok (handled []).
Proof.
  intros env [[st|] t c] userId;
    unfold user_switch, user_get_all, getUserById, getAllUsers,
      try_catch, bind, statement; cbn [db calls];
    [destruct (fault env c)|]; repeat split; reflexivity.
Qed.

(** ** Certificate codes *)

Lemma show_inj (x y : Z) : show x = show y -> x = y.
Proof.
  unfold show. intros H. apply to_int_inj.
  assert (N : forall z, Z.to_int z <> Decimal.Pos Decimal.Nil
                        /\ Z.to_int z <> Decimal.Neg Decimal.Nil).
  { intros [|p|p]; cbn; split; try discriminate;
      intros E; injection E as E; exact (Unsigned.to_uint_nonnil p E). }
  pose proof (NilZero.isi (Z.to_int x) (proj1 (N x)) (proj2 (N x))) as Hx.
  pose proof (NilZero.isi (Z.to_int y) (proj1 (N y)) (proj2 (N y))) as Hy.
  rewrite H in Hx. congruence.
Qed.

Lemma dashless_digits (d : Decimal.uint) :
  dashless (NilEmpty.string_of_uint d) = true.
Proof. induction d; cbn; try reflexivity; exact IHd. Qed.

Lemma dashless_show (z : Z) : 0 <= z -> dashless (show z) = true.
Proof.
  unfold show. destruct z as [|p|p]; intros H; [reflexivity| |lia].
  cbn [Z.to_int NilZero.string_of_int]. unfold NilZero.string_of_uint.
  pose proof (Unsigned.to_uint_nonnil p) as N.
  destruct (Pos.to_uint p) eqn:E; try apply dashless_digits. congruence.
Qed.

(** Two texts split at their first hyphen in one way only. *)
Lemma split_at_dash (a a' r r' : string) :
  dashless a = true -> dashless a' = true ->
  (a ++ String "-" r)%string = (a' ++ String "-" r')%string ->
  a = a' /\ r = r'.
Proof.
  revert a'. induction a as [|c a IH]; intros [|c' a'] Ha Ha' H; cbn in *.
  - injection H as ->. split; reflexivity.
  - injection H as <- _. cbn in Ha'. discriminate.
  - injection H as -> _. cbn in Ha. discriminate.
  - injection H as <- H.
    apply andb_prop in Ha, Ha'.
    destruct (IH a' (proj2 Ha) (proj2 Ha') H) as [-> ->]. split; reflexivity.
Qed.

Lemma certificate_code_inj ts u m ts' u' m' :
  0 <= ts -> 0 <= u -> 0 <= ts' -> 0 <= u' ->
  certificate_code ts u m = certificate_code ts' u' m' ->
  ts = ts' /\ u = u' /\ m = m'.
Proof.
  intros Hts Hu Hts' Hu' H. unfold certificate_code in H.
  cbn [String.append] in H. injection H as H.
  apply split_at_dash in H; try (apply dashless_show; assumption).
  destruct H as [Ha H]. apply split_at_dash in H; try (apply dashless_show; assumption).
  destruct H as [Hb Hc].
  apply show_inj in Ha, Hb, Hc. tauto.
Qed.

(** X6.  The code of a certificate names its moment, user and module:
    two issuances that differ in the millisecond read, in the user or in
    the module are given different codes (times and user ids not
    negative), the hyphens keeping the three numbers apart. *)
Theorem certificate_code_injective :
  forall ts u m ts' u' m',
    0 <= ts -> 0 <= u -> 0 <= ts' -> 0 <= u' ->
    (ts, u, m) <> (ts', u', m') ->
    certificate_code ts u m <> certificate_code ts' u' m'.
Proof.
  intros ts u m ts' u' m' Hts Hu Hts' Hu' Hne H. apply Hne.
  destruct (certificate_code_inj ts u m ts' u' m' Hts Hu Hts' Hu' H) as (-> & -> & ->).
  reflexivity.
Qed.

Lemma certificate_code_injective_witness :
  0 <= 1 /\ 0 <= 12 /\ 0 <= 11 /\ 0 <= 2
  /\ (1, 12, 3) <> (11, 2, 3)
  /\ certificate_code 1 12 3 <> certificate_code 11 2 3.
Proof.
  assert (H1 : 0 <= 1) by lia. assert (H12 : 0 <= 12) by lia.
  assert (H11 : 0 <= 11) by lia. assert (H2 : 0 <= 2) by lia.
  assert (Hne : (1, 12, 3) <> (11, 2, 3)) by discriminate.
  split; [exact H1|]. split; [exact H12|]. split; [exact H11|]. split; [exact H2|].
  split; [exact Hne|].
  exact (certificate_code_injective 1 12 3 11 2 3 H1 H12 H11 H2 Hne).
Defined.

(** ** Issuance, in full *)

(** The three reads at the head of [generateCertificate]. *)
Lemma generateCertificate_reads env u m st t c :
  fault env c = false -> fault env (S c) = false -> fault env (S (S c)) = false ->
  (select_module m st = None \/ select_user u st = None ->
   generateCertificate u m env (world st t c)
   = (Ok (fail (Literal "Module or user not found")), world st t (S (S (S c)))))
  /\ (forall mr usr,
        select_module m st = Some mr -> select_user u st = Some usr ->
        parsed (mod_content mr) = None ->
        generateCertificate u m env (world st t c)
        = (Ok (fail (Template "Failed to generate certificate: " JsonSyntaxError)),
           world st t (S (S (S c))))).
Proof.
  intros F0 F1 F2. split.
  - intros H. unfold generateCertificate.
    erewrite try_ok; [reflexivity|].
    erewrite bind_ok by (apply query_ok; exact F0).
    erewrite bind_ok by (apply get_ok; exact F1).
    erewrite bind_ok by (apply get_ok; exact F2).
    destruct H as [-> | ->]; [reflexivity|].
    destruct (select_module m st); reflexivity.
  - intros mr usr Hm Hu Hp. unfold generateCertificate.
    erewrite try_throw; [reflexivity|].
    erewrite bind_ok by (apply query_ok; exact F0).
    erewrite bind_ok by (apply get_ok; exact F1).
    erewrite bind_ok by (apply get_ok; exact F2).
    rewrite Hm, Hu.
    erewrite bind_throw by (rewrite parse_content_parsed, Hp; reflexivity).
    reflexivity.
Qed.

(** X7.  [generateCertificate] looks for the module and the user before it
    looks at the progress: when either is missing it answers 'Module or
    user not found', and when the content of the module is not JSON it
    answers with the error of [JSON.parse]; in both cases whatever progress
    is stored plays no part and nothing is written. *)
Theorem certificate_refused_before_threshold :
  forall env u m st t c,
    fault env c = false -> fault env (S c) = false -> fault env (S (S c)) = false ->
    (select_module m st = None \/ select_user u st = None ->
     generateCertificate u m env (world st t c)
     = (Ok (fail (Literal "Module or user not found")), world st t (S (S (S c)))))
    /\ (forall mr usr,
          select_module m st = Some mr -> select_user u st = Some usr ->
          parsed (mod_content mr) = None ->
          generateCertificate u m env (world st t c)
          = (Ok (fail (Template "Failed to generate certificate: " JsonSyntaxError)),
             world st t (S (S (S c))))).
Proof. exact generateCertificate_reads. Qed.

(** The code built for a pair without a certificate is in use nowhere. *)
Lemma minted_code_is_free u m stamp st :
  codes_minted st -> 0 <= u -> 0 <= stamp ->
  existsb (cert_key u m) (certificates st) = false ->
  select_certificate_by_code (certificate_code stamp u m) st = None.
Proof.
  intros Hw Hu Hs Hkey. unfold select_certificate_by_code.
  destruct (find _ (certificates st)) as [r|] eqn:F; [|reflexivity].
  apply find_some in F. destruct F as [Hin Hcode].
  apply String.eqb_eq in Hcode.
  destruct (Hw r Hin) as [Hur [stamp' [Hs' Hr]]].
  rewrite Hr in Hcode.
  apply certificate_code_inj in Hcode; try assumption.
  destruct Hcode as (_ & Hu' & Hm').
  assert (existsb (cert_key u m) (certificates st) = true).
  { apply existsb_exists. exists r. split; [exact Hin|].
    unfold cert_key. rewrite Hu', Hm', !Z.eqb_refl. reflexivity. }
  congruence.
Qed.

(** The issuance that goes through. *)
Lemma generateCertificate_issues env u m st t c mr usr doc :
  no_faults env ->
  select_module m st = Some mr -> select_user u st = Some usr ->
  parsed (mod_content mr) = Some doc ->
  below_threshold (Z.of_nat (List.length (select_completed_lesson_progress u m st)))
                  (lesson_count doc) = false ->
  existsb (cert_key u m) (certificates st) = false ->
  select_certificate_by_code (certificate_code (clock env t) u m) st = None ->
  generateCertificate u m env (world st t c)
  = (Ok (succeed (minted u m usr mr (clock env t) (clock env (S t)) st)),
     world (with_certificates st
              (certificates st ++ [minted u m usr mr (clock env t) (clock env (S t)) st])
              (cert_id (minted u m usr mr (clock env t) (clock env (S t)) st)))
           (S (S t)) (S (S (S (S (S c)))))).
Proof.
  intros NF Hm Hu Hp Hb Hkey Hcode.
  rewrite (generateCertificate_run env u m st t c mr usr doc (NF _) (NF _) (NF _) Hm Hu Hp).
  rewrite Hb. cbv zeta. rewrite (NF _).
  destruct (insert_certificate_fresh u m _
              (cert_certificate_data (minted u m usr mr (clock env t) (clock env (S t)) st))
              st Hkey Hcode) as [Hi Hsel].
  unfold minted at 1; cbn [cert_certificate_code].
  rewrite Hi. rewrite (NF _). cbn [lastID]. rewrite Hsel. reflexivity.
Qed.

(** X8.  The decision of [generateCertificate], in a store whose
    certificates all carry codes built by it, with a driver that does not
    fail and a clock that reads no time before the epoch, for a user (of an
    id that is not negative) and a module that exist and a content that
    parses: with [k] the number of completed rows of the pair, lesson rows
    or not, and [n] the number of lessons of the module, both below 2^32,
    it answers 'Module not sufficiently completed' when [5 * k < 4 * n];
    else it is rejected by the uniqueness constraint when the pair has a
    certificate; else it succeeds and appends the certificate.  The
    generated code never collides with a code in use. *)
Theorem certificate_decision :
  forall env u m st t c mr usr doc,
    no_faults env -> after_epoch env -> codes_minted st -> 0 <= u ->
    select_module m st = Some mr -> select_user u st = Some usr ->
    parsed (mod_content mr) = Some doc ->
    let k := Z.of_nat (List.length (select_completed_lesson_progress u m st)) in
    let n := lesson_count doc in
    k < 2 ^ 32 -> n < 2 ^ 32 ->
    (5 * k < 4 * n ->
     generateCertificate u m env (world st t c)
     = (Ok (fail (Literal "Module not sufficiently completed")),
        world st t (S (S (S c)))))
    /\ (4 * n <= 5 * k -> existsb (cert_key u m) (certificates st) = true ->
        generateCertificate u m env (world st t c)
        = (Ok (fail (Template "Failed to generate certificate: "
                       (UniqueConstraintFailed "certificates"))),
           world st (S (S t)) (S (S (S (S c))))))
    /\ (4 * n <= 5 * k -> existsb (cert_key u m) (certificates st) = false ->
        generateCertificate u m env (world st t c)
        = (Ok (succeed (minted u m usr mr (clock env t) (clock env (S t)) st)),
           world (with_certificates st
                    (certificates st
                     ++ [minted u m usr mr (clock env t) (clock env (S t)) st])
                    (cert_id (minted u m usr mr (clock env t) (clock env (S t)) st)))
                 (S (S t)) (S (S (S (S (S c))))))).
Proof.
  intros env u m st t c mr usr doc NF Hclock Hw Hu Hm Husr Hp k n Hk Hn.
  assert (Hexact : below_threshold k n = (5 * k <? 4 * n)).
  { apply below_threshold_exact; subst k n; unfold lesson_count in *; lia. }
  repeat match goal with |- _ /\ _ => split end.
  - intros Hlt.
    rewrite (generateCertificate_run env u m st t c mr usr doc
               (NF _) (NF _) (NF _) Hm Husr Hp).
    fold k n. rewrite Hexact. apply Z.ltb_lt in Hlt. rewrite Hlt. reflexivity.
  - intros Hge Hkey.
    rewrite (generateCertificate_run env u m st t c mr usr doc
               (NF _) (NF _) (NF _) Hm Husr Hp).
    fold k n. rewrite Hexact.
    assert ((5 * k <? 4 * n) = false) as -> by (apply Z.ltb_ge; lia).
    cbv zeta. rewrite (NF _).
    rewrite insert_certificate_duplicate by exact Hkey. reflexivity.
  - intros Hge Hkey.
    apply (generateCertificate_issues env u m st t c mr usr doc); try assumption.
    + fold k n. rewrite Hexact. apply Z.ltb_ge. lia.
    + apply minted_code_is_free; try assumption. apply Hclock.
Qed.

(** ** What an issuance leaves in the store, whatever the driver does *)

(** Either the store is as it was, or the certificate of this call has been
    appended to a store that had none of the pair. *)
Lemma generateCertificate_store env u m st t c :
  exists resp t' c',
    (generateCertificate u m env (world st t c) = (Ok resp, world st t' c')
     /\ success resp = false)
    \/ (exists mr usr,
          select_module m st = Some mr /\ select_user u st = Some usr
          /\ existsb (cert_key u m) (certificates st) = false
          /\ generateCertificate u m env (world st t c)
             = (Ok resp,
                world (with_certificates st
                         (certificates st
                          ++ [minted u m usr mr (clock env t) (clock env (S t)) st])
                         (cert_id (minted u m usr mr (clock env t) (clock env (S t)) st)))
                      t' c')
          /\ (fault env (S (S (S (S c)))) = false ->
              resp = succeed (minted u m usr mr (clock env t) (clock env (S t)) st))
          /\ (fault env (S (S (S (S c)))) = true ->
              resp = fail (Template "Failed to generate certificate: " DriverError))).
Proof.
  destruct (fault env c) eqn:F0.
  { unfold generateCertificate.
    erewrite try_throw by (erewrite bind_throw by (apply query_fault; exact F0);
                           reflexivity).
    eexists _, _, _. left. split; reflexivity. }
  destruct (fault env (S c)) eqn:F1.
  { unfold generateCertificate.
    erewrite try_throw
      by (erewrite bind_ok by (apply query_ok; exact F0);
          erewrite bind_throw by (apply get_fault; exact F1); reflexivity).
    eexists _, _, _. left. split; reflexivity. }
  destruct (fault env (S (S c))) eqn:F2.
  { unfold generateCertificate.
    erewrite try_throw
      by (erewrite bind_ok by (apply query_ok; exact F0);
          erewrite bind_ok by (apply get_ok; exact F1);
          erewrite bind_throw by (apply get_fault; exact F2); reflexivity).
    eexists _, _, _. left. split; reflexivity. }
  destruct (generateCertificate_reads env u m st t c F0 F1 F2) as [Hnone Hjson].
  destruct (select_module m st) as [mr|] eqn:Hm.
  2:{ rewrite Hnone by (left; reflexivity). eexists _, _, _. left. split; reflexivity. }
  destruct (select_user u st) as [usr|] eqn:Hu.
  2:{ rewrite Hnone by (right; reflexivity). eexists _, _, _. left. split; reflexivity. }
  destruct (parsed (mod_content mr)) as [doc|] eqn:Hp.
  2:{ rewrite (Hjson mr usr eq_refl eq_refl Hp).
      eexists _, _, _. left. split; reflexivity. }
  rewrite (generateCertificate_run env u m st t c mr usr doc F0 F1 F2 Hm Hu Hp).
  destruct (below_threshold _ _); [eexists _, _, _; left; split; reflexivity|].
  cbv zeta. destruct (fault env (S (S (S c)))); [eexists _, _, _; left; split; reflexivity|].
  change (cert_certificate_code (minted u m usr mr (clock env t) (clock env (S t)) st))
    with (certificate_code (clock env t) u m).
  destruct (insert_certificate u m (certificate_code (clock env t) u m)
              (cert_certificate_data (minted u m usr mr (clock env t) (clock env (S t)) st))
              st) as [[result|e] st'] eqn:Hi.
  2:{ unfold insert_certificate in Hi.
      destruct (existsb _ (certificates st)); [|discriminate].
      injection Hi as <- <-. eexists _, _, _. left. split; reflexivity. }
  destruct (insert_certificate_inv _ _ _ _ _ _ _ Hi) as (Hkey & Hid & Hst' & Hsel).
  rewrite Hsel, Hst'.
  destruct (fault env (S (S (S (S c))))) eqn:F4.
  - eexists _, _, _. right. exists mr, usr.
    split; [reflexivity|]. split; [reflexivity|]. split; [exact Hkey|].
    split; [reflexivity|]. split; [discriminate|reflexivity].
  - eexists _, _, _. right. exists mr, usr.
    split; [reflexivity|]. split; [reflexivity|]. split; [exact Hkey|].
    split; [reflexivity|]. split; [reflexivity|discriminate].
Qed.

Lemma codes_minted_snoc st cert id :
  codes_minted st ->
  0 <= cert_user_id cert ->
  (exists stamp, 0 <= stamp
     /\ cert_certificate_code cert
        = certificate_code stamp (cert_user_id cert) (cert_module_id cert)) ->
  codes_minted (with_certificates st (certificates st ++ [cert]) id).
Proof.
  intros Hw Hu Hc r Hin. cbn [certificates with_certificates] in Hin.
  apply in_app_or in Hin. destruct Hin as [Hin|[<-|[]]].
  - apply Hw. exact Hin.
  - split; assumption.
Qed.

(** X9.  Whatever the driver does, [generateCertificate] writes to no
    table but [certificates], and there it at most appends one verified
    certificate of the pair, with the code of this call, to a store that
    had none of the pair: it never alters or removes a certificate.  The
    certificate can be stored although the call answers with a failure,
    when the driver fails on the read that follows the insertion.  Codes
    built by [generateCertificate] stay the only codes of the store. *)
Theorem certificates_only_grow :
  forall env u m st t c,
    exists resp st' t' c',
      generateCertificate u m env (world st t c) = (Ok resp, world st' t' c')
      /\ users st' = users st /\ modules st' = modules st
      /\ user_progress st' = user_progress st
      /\ lesson_progress st' = lesson_progress st
      /\ ((certificates st' = certificates st /\ success resp = false)
          \/ exists cert,
               certificates st' = (certificates st ++ [cert])%list
               /\ existsb (cert_key u m) (certificates st) = false
               /\ cert_key u m cert = true /\ cert_verified cert = true
               /\ cert_certificate_code cert = certificate_code (clock env t) u m
               /\ (success resp = true -> data resp = Some cert)
               /\ (success resp = false -> fault env (S (S (S (S c)))) = true))
      /\ (after_epoch env -> 0 <= u -> codes_minted st -> codes_minted st').
Proof.
  intros env u m st t c.
  destruct (generateCertificate_store env u m st t c)
    as (resp & t' & c' & [[E Hs] | (mr & usr & Hm & Hu & Hkey & E & Hok & Hbad)]).
  - exists resp, st, t', c'.
    repeat match goal with |- _ /\ _ => split end; try reflexivity; try exact E.
    + left. split; [reflexivity|exact Hs].
    + intros _ _ H. exact H.
  - eexists resp, _, t', c'.
    split; [exact E|].
    repeat match goal with |- _ /\ _ => split end; try reflexivity.
    + right. eexists. split; [reflexivity|].
      repeat match goal with |- _ /\ _ => split end; try reflexivity.
      * exact Hkey.
      * unfold cert_key, minted; cbn. rewrite !Z.eqb_refl. reflexivity.
      * intros Hs. destruct (fault env (S (S (S (S c))))) eqn:F4.
        -- rewrite (Hbad eq_refl) in Hs. discriminate.
        -- rewrite (Hok eq_refl). reflexivity.
      * intros Hs. destruct (fault env (S (S (S (S c))))) eqn:F4; [reflexivity|].
        rewrite (Hok eq_refl) in Hs. discriminate.
    + intros Hclock Hu0 Hw. apply codes_minted_snoc; [exact Hw|exact Hu0|].
      exists (clock env t). split; [apply Hclock|reflexivity].
Qed.

(** ** From issuance to verification *)

Lemma insert_certificate_code_free u m code cdata st result st' :
  insert_certificate u m code cdata st = (Ok result, st') ->
  select_certificate_by_code code st = None.
Proof.
  unfold insert_certificate. intros H.
  destruct (existsb _ (certificates st)) eqn:E; [discriminate|].
  unfold select_certificate_by_code.
  destruct (find _ (certificates st)) as [r|] eqn:F; [|reflexivity].
  apply find_some in F. destruct F as [Hin Hr].
  assert (existsb (fun r => String.eqb (cert_certificate_code r) code || cert_key u m r)
            (certificates st) = true).
  { apply existsb_exists. exists r. split; [exact Hin|]. rewrite Hr. reflexivity. }
  congruence.
Qed.

(** X10.  A certificate that [generateCertificate] returns can be verified:
    on the store the call leaves, [verifyCertificate] with the code of the
    certificate returns that very certificate, the handler of
    ['certificates:verify'] answers with success and the same certificate,
    and [getUserCertificates] lists it last, after the certificates the
    user had. *)
Theorem issued_certificate_verifies :
  forall env u m w resp w1,
    generateCertificate u m env w = (Ok resp, w1) ->
    success resp = true ->
    exists cert st,
      data resp = Some cert /\ db w = Some st
      /\ cert_user_id cert = u /\ cert_module_id cert = m
      /\ forall env2,
           fault env2 (calls w1) = false ->
           fst (verifyCertificate (cert_certificate_code cert) env2 w1)
           = Ok (Some cert)
           /\ fst (certificates_verify (cert_certificate_code cert) env2 w1)
              = Ok (handled cert)
           /\ fst (getUserCertificates u env2 w1)
              = Ok (select_certificates_of u st ++ [cert])%list.
Proof.
  intros env u m w resp w1 E Hs.
  destruct (generateCertificate_success env u m w resp w1 E Hs)
    as (st & t & c & mr & usr & doc & result & st' & -> & F3 & Hm & Hu & Hp & Hb
        & Hi & (cert & Hc & ->) & ->).
  pose proof (insert_certificate_code_free _ _ _ _ _ _ _ Hi) as Hfree.
  destruct (insert_certificate_inv _ _ _ _ _ _ _ Hi) as (Hkey & Hid & Hst' & Hsel).
  rewrite Hsel in Hc. injection Hc as <-.
  eexists _, st. split; [reflexivity|]. split; [reflexivity|].
  split; [reflexivity|]. split; [reflexivity|].
  intros env2 F. cbn [calls world] in F.
  assert (Hfound : select_certificate_by_code (certificate_code (clock env t) u m) st'
                   = Some {| cert_id := next_rowid (certificates_seq st)
                                          (map cert_id (certificates st));
                             cert_user_id := u; cert_module_id := m;
                             cert_certificate_code := certificate_code (clock env t) u m;
                             cert_certificate_data :=
                               cert_certificate_data
                                 (minted u m usr mr (clock env t) (clock env (S t)) st);
                             cert_verified := true |}).
  { rewrite Hst'. unfold select_certificate_by_code in *.
    cbn [certificates with_certificates]. rewrite find_snoc, Hfree.
    cbn [cert_certificate_code]. rewrite String.eqb_refl. reflexivity. }
  cbn [cert_certificate_code].
  split; [|split].
  - unfold verifyCertificate. erewrite try_ok; [reflexivity|].
    rewrite get_ok by exact F. rewrite Hfound. reflexivity.
  - unfold certificates_verify, verifyCertificate.
    erewrite try_ok; [reflexivity|].
    erewrite bind_ok by (erewrite try_ok; [reflexivity|]; apply get_ok; exact F).
    rewrite Hfound. reflexivity.
  - unfold getUserCertificates. erewrite try_ok; [|apply query_ok; exact F].
    cbn [fst]. f_equal. rewrite Hst'. unfold select_certificates_of.
    cbn [certificates with_certificates]. rewrite filter_app. cbn.
    rewrite Z.eqb_refl. reflexivity.
Qed.

(** ** A module without lessons *)

Lemma below_threshold_no_lessons (k : Z) : 0 <= k -> below_threshold k 0 = false.
Proof.
  intros Hk. unfold below_threshold.
  change (JSNum.mul (JSNum.of_int 0) JSNum.lit_0_8) with (JSNum.mkDouble 0 0).
  unfold JSNum.int_lt. cbn. apply Z.ltb_ge. lia.
Qed.

(** X11.  The threshold is vacuous for a module without lessons (an empty
    content column, a document without the key [lessons], or an empty
    array, whatever quizzes it holds): [generateCertificate] then issues
    the certificate to any user of the store, however little progress is
    recorded, as long as the pair has no certificate and the code is
    free. *)
Theorem module_without_lessons_is_certified :
  forall env u m st t c mr usr doc,
    no_faults env ->
    select_module m st = Some mr -> select_user u st = Some usr ->
    parsed (mod_content mr) = Some doc ->
    lesson_count doc = 0 ->
    existsb (cert_key u m) (certificates st) = false ->
    select_certificate_by_code (certificate_code (clock env t) u m) st = None ->
    fst (generateCertificate u m env (world st t c))
    = Ok (succeed (minted u m usr mr (clock env t) (clock env (S t)) st)).
Proof.
  intros env u m st t c mr usr doc NF Hm Hu Hp Hn Hkey Hcode.
  rewrite (generateCertificate_issues env u m st t c mr usr doc); try assumption.
  - reflexivity.
  - rewrite Hn. apply below_threshold_no_lessons. lia.
Qed.

(** ** Relations kept by the statements of one call *)

Section PreservationForCall.

Variable R : Store -> Store -> Prop.
Hypothesis R_refl : forall st, R st st.
Hypothesis R_trans : forall a b c, R a b -> R b c -> R a c.

Variable pd : ProgressData.

(** The statements that the call runs, with the identifiers it binds. *)
Hypothesis R_insert_up :
  forall a b st, R st (snd (insert_user_progress (userId pd) (moduleId pd) a b st)).
Hypothesis R_touch_up :
  forall ts st, R st (snd (update_last_accessed ts (userId pd) (moduleId pd) st)).
Hypothesis R_update_up :
  forall p b d st, R st (snd (update_user_progress p b d (userId pd) (moduleId pd) st)).
Hypothesis R_insert_lp :
  forall b ts q ca st,
    R st (snd (insert_lesson_progress (userId pd) (moduleId pd) (lessonId pd)
                 b ts q ca st)).
Hypothesis R_update_lp :
  forall b ts q ca st,
    R st (snd (update_lesson_progress b ts q ca (userId pd) (moduleId pd)
                 (lessonId pd) st)).

Lemma keeps_call : keeps R (updateLessonProgress pd).
Proof.
  unfold updateLessonProgress.
  apply keeps_try_catch; [exact R_trans| |intros e; apply keeps_ret; exact R_refl].
  apply keeps_bind; [exact R_trans| |intros _].
  { unfold touch_module_progress.
    apply keeps_bind; [exact R_trans|apply keeps_get; exact R_refl|].
    intros [cur|].
    - apply keeps_bind; [exact R_trans|apply keeps_new_Date; exact R_refl|].
      intros now. apply keeps_run; [exact R_refl|]. intros st. apply R_touch_up.
    - apply keeps_bind; [exact R_trans|apply keeps_new_Date; exact R_refl|]. intros a.
      apply keeps_bind; [exact R_trans|apply keeps_new_Date; exact R_refl|]. intros b.
      apply keeps_run; [exact R_refl|]. intros st. apply R_insert_up. }
  apply keeps_bind; [exact R_trans| |intros _].
  { unfold upsert_lesson_progress.
    apply keeps_bind; [exact R_trans|apply keeps_get; exact R_refl|].
    intros [ex|].
    - apply keeps_bind; [exact R_trans| |].
      + destruct (completed pd); [|apply keeps_ret; exact R_refl].
        apply keeps_bind; [exact R_trans|apply keeps_new_Date; exact R_refl|].
        intros now. apply keeps_ret; exact R_refl.
      + intros ca. apply keeps_run; [exact R_refl|]. intros st. apply R_update_lp.
    - apply keeps_bind; [exact R_trans| |].
      + destruct (completed pd); [|apply keeps_ret; exact R_refl].
        apply keeps_bind; [exact R_trans|apply keeps_new_Date; exact R_refl|].
        intros now. apply keeps_ret; exact R_refl.
      + intros ca. apply keeps_run; [exact R_refl|]. intros st. apply R_insert_lp. }
  apply keeps_bind; [exact R_trans| |intros _].
  { unfold updateModuleCompletionStatus.
    apply keeps_try_catch; [exact R_trans| |intros e; apply keeps_ret; exact R_refl].
    unfold recompute_aggregate.
    apply keeps_bind; [exact R_trans|apply keeps_get; exact R_refl|].
    intros [mr|]; [|apply keeps_ret; exact R_refl].
    apply keeps_bind; [exact R_trans|apply keeps_parse_content; exact R_refl|].
    intros doc.
    destruct (_ =? 0); [apply keeps_ret; exact R_refl|].
    apply keeps_bind; [exact R_trans|apply keeps_query; exact R_refl|]. intros cl.
    apply keeps_bind; [exact R_trans|apply keeps_query; exact R_refl|]. intros cq.
    apply keeps_bind; [exact R_trans|apply keeps_get; exact R_refl|].
    intros [cur|]; [|apply keeps_ret; exact R_refl].
    apply keeps_bind; [exact R_trans| |].
    - destruct (_ && negb _); [|apply keeps_ret; exact R_refl].
      apply keeps_bind; [exact R_trans|apply keeps_new_Date; exact R_refl|].
      intros now. apply keeps_ret; exact R_refl.
    - intros d. apply keeps_bind; [exact R_trans| |intros; apply keeps_ret; exact R_refl].
      apply keeps_run; [exact R_refl|]. intros st. apply R_update_up. }
  unfold return_updated_progress.
  apply keeps_bind; [exact R_trans|apply keeps_get; exact R_refl|].
  intros [r|]; apply keeps_ret; exact R_refl.
Qed.

End PreservationForCall.

(** ** A call touches the rows of its pair only *)

Lemma filter_others_map {A : Type} (P : A -> bool) (f : A -> A) (l : list A) :
  (forall x, P (f x) = P x) ->
  filter (fun r => negb (P r)) (map (fun r => if P r then f r else r) l)
  = filter (fun r => negb (P r)) l.
Proof.
  intros H. induction l as [|x l IH]; cbn; [reflexivity|].
  destruct (P x) eqn:Px.
  - rewrite H, Px. cbn. exact IH.
  - rewrite Px. cbn. rewrite IH. reflexivity.
Qed.

Lemma filter_others_map_key {A : Type} (P Q : A -> bool) (f : A -> A) (l : list A) :
  (forall x, Q x = true -> P x = true) ->
  (forall x, P (f x) = P x) ->
  filter (fun r => negb (P r)) (map (fun r => if Q r then f r else r) l)
  = filter (fun r => negb (P r)) l.
Proof.
  intros HQ H. induction l as [|x l IH]; cbn; [reflexivity|].
  destruct (Q x) eqn:Qx.
  - rewrite H, (HQ x Qx). cbn. exact IH.
  - destruct (P x); cbn; rewrite IH; reflexivity.
Qed.

Lemma filter_others_snoc {A : Type} (P : A -> bool) (l : list A) (x : A) :
  P x = true ->
  filter (fun r => negb (P r)) (l ++ [x]) = filter (fun r => negb (P r)) l.
Proof. intros H. rewrite filter_app. cbn. rewrite H. cbn. apply app_nil_r. Qed.

Lemma others_untouched_refl u m st : others_untouched u m st st.
Proof. unfold others_untouched. repeat split; reflexivity. Qed.

Lemma others_untouched_trans u m a b c :
  others_untouched u m a b -> others_untouched u m b c -> others_untouched u m a c.
Proof.
  unfold others_untouched.
  intros (A1 & A2 & A3 & A4 & A5 & A6) (B1 & B2 & B3 & B4 & B5 & B6).
  repeat split; congruence.
Qed.

Lemma keeps_others pd :
  keeps (others_untouched (userId pd) (moduleId pd)) (updateLessonProgress pd).
Proof.
  apply keeps_call.
  - apply others_untouched_refl.
  - apply others_untouched_trans.
  - intros a b st. unfold insert_user_progress.
    destruct (existsb _ _); [apply others_untouched_refl|].
    unfold others_untouched;
      cbn [snd users modules certificates certificates_seq user_progress
           lesson_progress with_user_progress].
    repeat split; try reflexivity.
    apply filter_others_snoc. unfold up_key; cbn. rewrite !Z.eqb_refl. reflexivity.
  - intros ts st.
    unfold others_untouched, update_last_accessed;
      cbn [snd users modules certificates certificates_seq user_progress
           lesson_progress with_user_progress].
    repeat split; try reflexivity.
    apply filter_others_map. intros x. apply up_key_set_last_accessed.
  - intros p b d st.
    unfold others_untouched, update_user_progress;
      cbn [snd users modules certificates certificates_seq user_progress
           lesson_progress with_user_progress].
    repeat split; try reflexivity.
    apply filter_others_map. intros x. apply up_key_set_aggregate.
  - intros b ts q ca st. unfold insert_lesson_progress.
    destruct (existsb _ _); [apply others_untouched_refl|].
    unfold others_untouched;
      cbn [snd users modules certificates certificates_seq user_progress
           lesson_progress with_lesson_progress].
    repeat split; try reflexivity.
    apply filter_others_snoc. unfold lp_pair; cbn. rewrite !Z.eqb_refl. reflexivity.
  - intros b ts q ca st.
    unfold others_untouched, update_lesson_progress;
      cbn [snd users modules certificates certificates_seq user_progress
           lesson_progress with_lesson_progress].
    repeat split; try reflexivity.
    apply filter_others_map_key.
    + intros x Hx. unfold lp_key in Hx. apply andb_prop in Hx. tauto.
    + intros x. apply lp_pair_set_outcome.
Qed.

(** X12.  A call of [updateLessonProgress] stays within its pair, whatever
    the driver does and however the call ends: the users, the modules and
    the certificates are what they were, and so are, row for row and in
    the same order, the module progress and the lesson progress of every
    other user and of every other module.  In particular what
    [getModuleProgress] returns for another pair does not change. *)
Theorem call_touches_its_pair_only :
  forall pd env w st,
    db w = Some st ->
    exists st',
      db (snd (updateLessonProgress pd env w)) = Some st'
      /\ others_untouched (userId pd) (moduleId pd) st st'
      /\ forall u m,
           (u, m) <> (userId pd, moduleId pd) ->
           select_user_progress u m st' = select_user_progress u m st
           /\ select_module_lesson_progress u m st'
              = select_module_lesson_progress u m st.
Proof.
  intros pd env w st H.
  destruct (keeps_others pd env w st H) as [st' [H' HR]].
  exists st'. split; [exact H'|]. split; [exact HR|].
  intros u m Hne. destruct HR as (_ & _ & _ & _ & Hup & Hlp).
  assert (Hk : forall r, up_key u m r = true -> up_key (userId pd) (moduleId pd) r = false).
  { intros r Hr. unfold up_key in Hr |- *. apply andb_prop in Hr. destruct Hr as [A B].
    apply Z.eqb_eq in A, B. rewrite A, B.
    destruct (u =? userId pd) eqn:E1; [|reflexivity].
    destruct (m =? moduleId pd) eqn:E2; [|reflexivity].
    apply Z.eqb_eq in E1, E2. exfalso. apply Hne. congruence. }
  assert (Hl : forall r, lp_pair u m r = true -> lp_pair (userId pd) (moduleId pd) r = false).
  { intros r Hr. unfold lp_pair in Hr |- *. apply andb_prop in Hr. destruct Hr as [A B].
    apply Z.eqb_eq in A, B. rewrite A, B.
    destruct (u =? userId pd) eqn:E1; [|reflexivity].
    destruct (m =? moduleId pd) eqn:E2; [|reflexivity].
    apply Z.eqb_eq in E1, E2. exfalso. apply Hne. congruence. }
  split.
  - unfold select_user_progress.
    assert (G : forall l, find (up_key u m) l
                          = find (up_key u m)
                              (filter (fun r => negb (up_key (userId pd) (moduleId pd) r)) l)).
    { induction l as [|x l IH]; cbn; [reflexivity|].
      destruct (up_key u m x) eqn:Ux.
      - rewrite (Hk x Ux). cbn. rewrite Ux. reflexivity.
      - destruct (up_key (userId pd) (moduleId pd) x); cbn; rewrite ?Ux; exact IH. }
    rewrite (G (user_progress st')), (G (user_progress st)), Hup. reflexivity.
  - unfold select_module_lesson_progress.
    assert (G : forall l, filter (lp_pair u m) l
                          = filter (lp_pair u m)
                              (filter (fun r => negb (lp_pair (userId pd) (moduleId pd) r)) l)).
    { induction l as [|x l IH]; cbn; [reflexivity|].
      destruct (lp_pair u m x) eqn:Ux.
      - rewrite (Hl x Ux). cbn. rewrite Ux. f_equal. exact IH.
      - destruct (lp_pair (userId pd) (moduleId pd) x); cbn; rewrite ?Ux; exact IH. }
    rewrite (G (lesson_progress st')), (G (lesson_progress st)), Hlp. reflexivity.
Qed.

(** ** The outcome columns over a sequence of calls *)

Lemma outcome_after_sequence env u m l pds :
  no_faults env -> Forall (for_key u m l) pds ->
  forall st t c existing,
    select_lesson_progress u m l st = Some existing ->
    exists row,
      stored_lesson_progress u m l (record_outcomes env pds (world st t c)) = Some row
      /\ lp_quiz_score row = latest_score (lp_quiz_score existing) pds
      /\ lp_completed row = latest_flag (lp_completed existing) pds
      /\ lp_quiz_attempts row = lp_quiz_attempts existing
      /\ lp_id row = lp_id existing.
Proof.
  intros NF Hk. induction Hk as [|pd pds [Hu [Hm Hl]] Hk IH]; intros st t c ex Hex.
  - exists ex. cbn. rewrite Hex. repeat split; reflexivity.
  - destruct (record_outcomes_cons env pd pds st t c NF) as [c' ->].
    pose proof (row_after_update pd env st t) as H1.
    rewrite Hu, Hm, Hl, Hex in H1.
    destruct (IH _ (snd (after_update pd env st t)) c' _ H1)
      as (row & Hrow & Hs & Hf & Ha & Hi).
    exists row. split; [exact Hrow|].
    cbn [lp_quiz_score lp_completed lp_quiz_attempts lp_id set_outcome] in Hs, Hf, Ha, Hi.
    repeat split; assumption.
Qed.

(** X13.  Over any sequence of [updateLessonProgress] calls for one user,
    module and lesson or quiz id (driver not failing), the stored row
    holds what the last call that carried [quizScore] bound for it: its
    integer (a later, lower score replaces a higher one), or [NULL] when it
    carried [null] or [NaN], which erases a stored score; a call without
    the property keeps what is stored.  The row holds the [completed] flag
    of the last call, whatever the calls before it said, and
    [quiz_attempts] is never counted up: it keeps its value, 0 on a row
    that the calls created. *)
Theorem latest_outcome_is_stored :
  forall env u m l pd pds st t c,
    no_faults env ->
    Forall (for_key u m l) (pd :: pds) ->
    exists row,
      stored_lesson_progress u m l (record_outcomes env (pd :: pds) (world st t c))
      = Some row
      /\ lp_quiz_score row
         = latest_score (match select_lesson_progress u m l st with
                         | Some existing => lp_quiz_score existing
                         | None => None
                         end) (pd :: pds)
      /\ lp_completed row = latest_flag false (pd :: pds)
      /\ lp_quiz_attempts row
         = match select_lesson_progress u m l st with
           | Some existing => lp_quiz_attempts existing
           | None => 0
           end.
Proof.
  intros env u m l pd pds st t c NF Hk.
  inversion Hk as [|? ? [Hu [Hm Hl]] Hk']; subst.
  destruct (record_outcomes_cons env pd pds st t c NF) as [c' ->].
  pose proof (row_after_update pd env st t) as H1.
  destruct (outcome_after_sequence env _ _ _ pds NF Hk' _
              (snd (after_update pd env st t)) c' _ H1)
    as (row & Hrow & Hs & Hf & Ha & _).
  exists row. split; [exact Hrow|].
  destruct (select_lesson_progress (userId pd) (moduleId pd) (lessonId pd) st)
    as [ex|];
    cbn [lp_quiz_score lp_completed lp_quiz_attempts set_outcome] in Hs, Hf, Ha;
    unfold latest_score, latest_flag, score_to_store in *; cbn [fold_left];
    destruct (quizScore pd); cbn [bound_score] in *; repeat split; assumption.
Qed.

(** ** Columns that no statement writes *)

Lemma counters_kept_refl st : counters_kept st st.
Proof. split; exists 0%nat; cbn; rewrite app_nil_r; reflexivity. Qed.

Lemma counters_kept_trans a b c :
  counters_kept a b -> counters_kept b c -> counters_kept a c.
Proof.
  intros [[n1 A1] [k1 A2]] [[n2 B1] [k2 B2]]. split.
  - exists (n1 + n2)%nat. rewrite B1, A1, repeat_app, app_assoc. reflexivity.
  - exists (k1 + k2)%nat. rewrite B2, A2, repeat_app, app_assoc. reflexivity.
Qed.

Lemma map_setter {A B : Type} (g : A -> B) (P : A -> bool) (f : A -> A) (l : list A) :
  (forall x, g (f x) = g x) ->
  map g (map (fun r => if P r then f r else r) l) = map g l.
Proof.
  intros H. rewrite map_map. apply map_ext. intros x.
  destruct (P x); [apply H|reflexivity].
Qed.

(** X14.  No statement of [updateLessonProgress] writes the columns
    [quiz_attempts] of [lesson_progress] and [total_time_spent] of
    [user_progress]: over any sequence of calls, whatever the driver does,
    every row keeps the value it had and every row added holds 0.  On
    tables that start empty both columns are 0 throughout: attempts are
    not counted and the time spent is not totalled per module. *)
Theorem counters_are_never_written :
  forall env pds w st,
    db w = Some st ->
    exists st',
      db (record_outcomes env pds w) = Some st'
      /\ counters_kept st st'
      /\ (lesson_progress st = [] -> user_progress st = [] ->
          Forall (fun r => lp_quiz_attempts r = 0) (lesson_progress st')
          /\ Forall (fun r => up_total_time_spent r = 0) (user_progress st')).
Proof.
  intros env pds w st H.
  destruct (keeps_record_outcomes counters_kept counters_kept_refl counters_kept_trans)
    with (env := env) (pds := pds) (w := w) (st := st) as [st' [H' HR]]; try exact H.
  - intros u m a b st0. unfold insert_user_progress.
    destruct (existsb _ _); [apply counters_kept_refl|].
    split; cbn [snd lesson_progress user_progress with_user_progress].
    + exists 0%nat. cbn. rewrite app_nil_r. reflexivity.
    + exists 1%nat. rewrite map_app. reflexivity.
  - intros ts u m st0. unfold update_last_accessed.
    split; cbn [snd lesson_progress user_progress with_user_progress];
      exists 0%nat; cbn [repeat]; rewrite app_nil_r; [reflexivity|].
    apply map_setter. reflexivity.
  - intros p b d u m st0. unfold update_user_progress.
    split; cbn [snd lesson_progress user_progress with_user_progress];
      exists 0%nat; cbn [repeat]; rewrite app_nil_r; [reflexivity|].
    apply map_setter. reflexivity.
  - intros u m l b ts q ca st0. unfold insert_lesson_progress.
    destruct (existsb _ _); [apply counters_kept_refl|].
    split; cbn [snd lesson_progress user_progress with_lesson_progress].
    + exists 1%nat. rewrite map_app. reflexivity.
    + exists 0%nat. cbn. rewrite app_nil_r. reflexivity.
  - intros b ts q ca u m l st0. unfold update_lesson_progress.
    split; cbn [snd lesson_progress user_progress with_lesson_progress];
      exists 0%nat; cbn [repeat]; rewrite app_nil_r; [|reflexivity].
    apply map_setter. reflexivity.
  - exists st'. split; [exact H'|]. split; [exact HR|].
    intros E1 E2. destruct HR as [[n Hn] [k Hk]].
    rewrite E1 in Hn. rewrite E2 in Hk. cbn in Hn, Hk.
    assert (G : forall (A : Type) (g : A -> Z) (l : list A) j,
              map g l = repeat 0 j -> Forall (fun r => g r = 0) l).
    { intros A g l. induction l as [|x l IH]; intros j E; [constructor|].
      destruct j as [|j]; [discriminate|]. cbn in E. injection E as E0 E.
      constructor; [exact E0|exact (IH j E)]. }
    split; [exact (G _ _ _ _ Hn)|exact (G _ _ _ _ Hk)].
Qed.

(** ** A reset that fails half-way, and a reset followed by a call *)

(** X15.  [resetModuleProgress] is not atomic.  When the driver fails on
    the second [DELETE], the row of [user_progress] of the pair is already
    gone while all rows of [lesson_progress] stay; when it fails on the
    first, nothing is removed.  Both calls answer with the same failure,
    so the answer does not tell which happened; after the first kind
    [getModuleProgress] returns no module progress together with the
    lesson progress of the pair. *)
Theorem reset_is_not_atomic :
  forall env u m st t c,
    (fault env c = true ->
     resetModuleProgress u m env (world st t c)
     = (Ok (fail (Template "Failed to reset progress: " DriverError)),
        world st t (S c)))
    /\ (fault env c = false -> fault env (S c) = true ->
        exists st',
          resetModuleProgress u m env (world st t c)
          = (Ok (fail (Template "Failed to reset progress: " DriverError)),
             world st' t (S (S c)))
          /\ select_user_progress u m st' = None
          /\ lesson_progress st' = lesson_progress st
          /\ (fault env (S (S c)) = false -> fault env (S (S (S c))) = false ->
              fst (getModuleProgress u m env (world st' t (S (S c))))
              = Ok {| moduleProgress := None;
                      lessonProgress := select_module_lesson_progress u m st |})).
Proof.
  intros env u m st t c. split.
  - intros F0. unfold resetModuleProgress.
    erewrite try_throw by (erewrite bind_throw by (apply run_fault; exact F0);
                           reflexivity).
    reflexivity.
  - intros F0 F1. exists (snd (delete_user_progress u m st)).
    split; [|split; [|split]].
    + unfold resetModuleProgress.
      erewrite try_throw; [reflexivity|].
      erewrite bind_ok by (rewrite run_ok by exact F0; reflexivity).
      erewrite bind_throw by (apply run_fault; exact F1). reflexivity.
    + unfold select_user_progress, delete_user_progress;
        cbn [snd user_progress with_user_progress]. apply find_filter_negb.
    + reflexivity.
    + intros F2 F3. unfold getModuleProgress.
      erewrite try_ok; [reflexivity|].
      erewrite bind_ok by (apply get_ok; exact F2).
      erewrite bind_ok by (apply query_ok; exact F3).
      unfold select_user_progress, delete_user_progress;
        cbn [snd user_progress with_user_progress]. rewrite find_filter_negb.
      reflexivity.
Qed.

Lemma started_at_after_recompute u m env st t :
  option_map up_started_at (select_user_progress u m (fst (after_recompute u m env st t)))
  = option_map up_started_at (select_user_progress u m st).
Proof.
  unfold after_recompute.
  destruct (aggregate u m st) as [[p b]|]; [|reflexivity].
  destruct (select_user_progress u m st) as [cur|] eqn:E;
    [|cbn [fst]; rewrite E; reflexivity].
  destruct (b && negb (up_completed cur)); cbn [fst];
    rewrite select_after_update_user_progress, E; reflexivity.
Qed.

Lemma select_lesson_progress_after_delete u m l st :
  select_lesson_progress u m l (snd (delete_lesson_progress u m st)) = None.
Proof.
  unfold select_lesson_progress, delete_lesson_progress;
    cbn [snd lesson_progress with_lesson_progress].
  induction (lesson_progress st) as [|x xs IH]; cbn; [reflexivity|].
  destruct (lp_pair u m x) eqn:Px; cbn; [exact IH|].
  unfold lp_key at 1. rewrite Px. cbn. exact IH.
Qed.

(** X16.  After a reset the pair starts afresh.  When the driver does not
    fail, [resetModuleProgress] reports how many rows of [lesson_progress]
    it removed, quiz rows included, and the [updateLessonProgress] call
    that follows for the pair stores its own [timeSpent], flag and score
    (nothing of what was accumulated before the reset is added), and
    creates the row of [user_progress] anew, with [started_at] read from
    the clock during that call. *)
Theorem reset_then_call_starts_afresh :
  forall env pd st t c,
    no_faults env ->
    exists st1 w2 row cur,
      resetModuleProgress (userId pd) (moduleId pd) env (world st t c)
      = (Ok (inform ("Reset progress for "
                     ++ show (Z.of_nat (List.length
                                (select_module_lesson_progress
                                   (userId pd) (moduleId pd) st)))
                     ++ " lessons")%string),
         world st1 t (S (S c)))
      /\ updateLessonProgress pd env (world st1 t (S (S c))) = (Ok (succeed row), w2)
      /\ stored_lesson_progress (userId pd) (moduleId pd) (lessonId pd) w2 = Some row
      /\ lp_time_spent row = timeSpent pd
      /\ lp_completed row = completed pd
      /\ lp_quiz_score row = bound_score (quizScore pd)
      /\ stored_user_progress (userId pd) (moduleId pd) w2 = Some cur
      /\ up_started_at cur = Some (clock env t).
Proof.
  intros env pd st t c NF.
  set (st1 := snd (delete_lesson_progress (userId pd) (moduleId pd)
                     (snd (delete_user_progress (userId pd) (moduleId pd) st)))).
  assert (Hreset : resetModuleProgress (userId pd) (moduleId pd) env (world st t c)
                   = (Ok (inform ("Reset progress for "
                                  ++ show (Z.of_nat (List.length
                                             (select_module_lesson_progress
                                                (userId pd) (moduleId pd) st)))
                                  ++ " lessons")%string),
                      world st1 t (S (S c)))).
  { unfold resetModuleProgress.
    erewrite try_ok; [reflexivity|].
    erewrite bind_ok by (rewrite run_ok by apply NF; reflexivity).
    erewrite bind_ok by (rewrite run_ok by apply NF; reflexivity).
    reflexivity. }
  assert (Hlp : select_lesson_progress (userId pd) (moduleId pd) (lessonId pd) st1 = None)
    by apply select_lesson_progress_after_delete.
  assert (Hup : select_user_progress (userId pd) (moduleId pd) st1 = None).
  { unfold st1, select_user_progress, delete_lesson_progress, delete_user_progress;
      cbn [snd user_progress with_user_progress with_lesson_progress].
    apply find_filter_negb. }
  destruct (updateLessonProgress_ok pd env st1 t (S (S c)) NF) as (c' & row & E & Hrow).
  pose proof (row_after_update pd env st1 t) as Hafter.
  rewrite Hlp, Hrow in Hafter. injection Hafter as Hafter.
  (* the row of [user_progress] *)
  pose proof (started_at_after_recompute (userId pd) (moduleId pd) env
                (fst (after_upsert pd env (fst (after_touch pd env st1 t))
                        (snd (after_touch pd env st1 t))))
                (snd (after_upsert pd env (fst (after_touch pd env st1 t))
                        (snd (after_touch pd env st1 t))))) as Hs.
  rewrite <- after_update_eq in Hs.
  rewrite (select_user_progress_frame _ _ _ _ (after_upsert_user_progress _ _ _ _)) in Hs.
  unfold after_touch in Hs. rewrite Hup in Hs. cbn [fst] in Hs.
  rewrite select_after_insert_user_progress in Hs by exact Hup.
  cbn [option_map up_started_at] in Hs.
  destruct (select_user_progress (userId pd) (moduleId pd)
              (fst (after_update pd env st1 t))) as [cur|] eqn:Hcur;
    [|discriminate Hs].
  cbn [option_map] in Hs. injection Hs as Hs.
  exists st1, (world (fst (after_update pd env st1 t)) (snd (after_update pd env st1 t)) c'),
    row, cur.
  split; [exact Hreset|]. split; [exact E|]. split; [exact Hrow|].
  rewrite Hafter; cbn [lp_time_spent lp_completed lp_quiz_score lp_id].
  split; [reflexivity|]. split; [reflexivity|]. split; [reflexivity|].
  split; [exact Hcur|exact Hs].
Qed.

(** ** What a call records can be read back *)

(** The listing of a user follows the index: a row of module 2 that was
    saved first comes after the rows of module 1. *)
Example lesson_listing_follows_the_index :
  let w := record_outcomes Sample.env
             [Sample.visit 2 "lesson-1" true 5 None;
              Sample.visit 1 "lesson-1" true 5 None;
              Sample.visit 2 "quiz-1" true 5 (Some 80);
              Sample.visit 1 "lesson-2" false 5 None] Sample.start in
  map (fun r => (lp_id r, lp_module_id r, lp_lesson_id r))
      (Sample.answer [] (getUserLessonProgress 1 Sample.env w))
  = [(2, 1, "lesson-1"%string); (4, 1, "lesson-2"%string);
     (1, 2, "lesson-1"%string); (3, 2, "quiz-1"%string)].
Proof. vm_compute. reflexivity. Qed.

(** The order of the index holds the same rows. *)
Lemma In_insert_by_module r x rows :
  In x (insert_by_module r rows) <-> x = r \/ In x rows.
Proof.
  induction rows as [|y rows IH]; cbn [insert_by_module In].
  - split; [intros [H|[]]; left; symmetry; exact H|intros [H|[]]; left; symmetry; exact H].
  - destruct (lp_module_id r <=? lp_module_id y); cbn [In].
    + split; [intros [H|H]; [left; symmetry; exact H|right; exact H]
             |intros [H|H]; [left; symmetry; exact H|right; exact H]].
    + rewrite IH. tauto.
Qed.

Lemma In_by_module x rows : In x rows -> In x (by_module rows).
Proof.
  induction rows as [|r rows IH]; cbn [by_module fold_right In]; [tauto|].
  intros [->|H]; apply In_insert_by_module; [left; reflexivity|right; exact (IH H)].
Qed.


Lemma module_row_after_update pd env st t :
  exists cur,
    select_user_progress (userId pd) (moduleId pd) (fst (after_update pd env st t))
    = Some cur.
Proof.
  pose proof (started_at_after_recompute (userId pd) (moduleId pd) env
                (fst (after_upsert pd env (fst (after_touch pd env st t))
                        (snd (after_touch pd env st t))))
                (snd (after_upsert pd env (fst (after_touch pd env st t))
                        (snd (after_touch pd env st t))))) as Hs.
  rewrite <- after_update_eq in Hs.
  rewrite (select_user_progress_frame _ _ _ _ (after_upsert_user_progress _ _ _ _)) in Hs.
  unfold after_touch in Hs.
  destruct (select_user_progress (userId pd) (moduleId pd) st) as [old|] eqn:Hold;
    cbn [fst] in Hs.
  - rewrite select_after_update_last_accessed, Hold in Hs.
    destruct (select_user_progress _ _ (fst (after_update pd env st t))) as [cur|];
      [exists cur; reflexivity|discriminate Hs].
  - rewrite select_after_insert_user_progress in Hs by exact Hold.
    destruct (select_user_progress _ _ (fst (after_update pd env st t))) as [cur|];
      [exists cur; reflexivity|discriminate Hs].
Qed.

(** X17.  What [updateLessonProgress] records can be read back.  When the
    driver does not fail the call always succeeds, on any store, and the
    row it returns is then among the lesson progress that
    [getModuleProgress] returns for the pair, next to a module progress
    that is not null, and among the rows that [getUserLessonProgress]
    returns for the user; the handler of ['progress:get-module-progress']
    hands the same view on. *)
Theorem recorded_progress_is_read_back :
  forall env pd st t c,
    no_faults env ->
    exists row w1 view cur,
      updateLessonProgress pd env (world st t c) = (Ok (succeed row), w1)
      /\ lp_user_id row = userId pd /\ lp_module_id row = moduleId pd
      /\ lp_lesson_id row = lessonId pd
      /\ fst (getModuleProgress (userId pd) (moduleId pd) env w1) = Ok view
      /\ moduleProgress view = Some cur
      /\ In row (lessonProgress view)
      /\ fst (progress_get_module_progress (userId pd) (moduleId pd) env w1)
         = Ok (handled view)
      /\ exists rows,
           fst (getUserLessonProgress (userId pd) env w1) = Ok rows /\ In row rows.
Proof.
  intros env pd st t c NF.
  destruct (updateLessonProgress_ok pd env st t c NF) as (c' & row & E & Hrow).
  destruct (module_row_after_update pd env st t) as [cur Hcur].
  set (st1 := fst (after_update pd env st t)) in *.
  set (t1 := snd (after_update pd env st t)) in *.
  unfold select_lesson_progress in Hrow.
  apply find_some in Hrow. destruct Hrow as [Hin Hkey].
  pose proof (lp_key_true _ _ _ _ Hkey) as (K1 & K2 & K3).
  assert (Hview : getModuleProgress (userId pd) (moduleId pd) env (world st1 t1 c')
                  = (Ok {| moduleProgress := Some cur;
                           lessonProgress :=
                             select_module_lesson_progress (userId pd) (moduleId pd) st1 |},
                     world st1 t1 (S (S c')))).
  { unfold getModuleProgress. erewrite try_ok; [reflexivity|].
    erewrite bind_ok by (apply get_ok; apply NF).
    erewrite bind_ok by (apply query_ok; apply NF).
    rewrite Hcur. reflexivity. }
  eexists row, _, _, cur. split; [exact E|].
  split; [exact K1|]. split; [exact K2|]. split; [exact K3|].
  split; [rewrite Hview; reflexivity|]. split; [reflexivity|].
  split.
  { cbn [lessonProgress]. unfold select_module_lesson_progress.
    apply filter_In. split; [exact Hin|].
    unfold lp_key in Hkey. apply andb_prop in Hkey. tauto. }
  split.
  { unfold progress_get_module_progress. erewrite try_ok; [reflexivity|].
    erewrite bind_ok by exact Hview. reflexivity. }
  eexists. split.
  { unfold getUserLessonProgress. erewrite try_ok; [reflexivity|].
    apply query_ok. apply NF. }
  unfold select_lesson_progress_of. apply In_by_module.
  apply filter_In. split; [exact Hin|].
  rewrite K1. apply Z.eqb_refl.
Qed.

(** ** The ends of the percentage scale *)

Module JSNumBounds.

Import JSNum.

(** Rounding never falls below an integer that the quotient reaches. *)
Lemma rne_ge_int (p q k : Z) :
  0 < q -> 0 <= k < 2 ^ 53 -> k * q <= p -> int_le k (rne p q).
Proof.
  intros Hq Hk Hpk. unfold rne.
  destruct (p <=? 0) eqn:P0.
  - apply Z.leb_le in P0. unfold int_le; cbn [mant expo Z.leb Z.compare]. nia.
  - apply Z.leb_gt in P0.
    pose proof (exponent_of_lower p q P0 Hq) as L.
    pose proof (scaled_pos p q (exponent_of p q) P0 Hq) as [Sn Sd].
    set (e := exponent_of p q) in *.
    unfold int_le; cbn [mant expo].
    revert L Sn Sd. unfold scaled.
    destruct (0 <=? e) eqn:E; cbn [fst snd]; intros L Sn Sd.
    + apply Z.leb_le in E. pose proof (pow2_pos e E) as He.
      assert (H52 : 2 ^ 52 <= round_half_even p (q * 2 ^ e))
        by (apply round_half_even_ge; lia).
      destruct (Z.eq_dec e 0) as [->|Ne].
      * change (2 ^ 0) with 1 in *. rewrite Z.mul_1_r in *.
        apply round_half_even_ge; lia.
      * assert (2 <= 2 ^ e).
        { replace e with (1 + (e - 1)) by lia. rewrite Z.pow_add_r by lia.
          pose proof (pow2_pos (e - 1) ltac:(lia)). change (2 ^ 1) with 2. lia. }
        set (r := round_half_even p (q * 2 ^ e)) in *.
        set (P := 2 ^ e) in *.
        assert (2 ^ 53 = 2 ^ 52 * 2) by reflexivity.
        assert (2 ^ 52 * 2 <= r * P) by nia. lia.
    + apply Z.leb_gt in E.
      pose proof (pow2_pos (- e) ltac:(lia)).
      apply round_half_even_ge; [lia|]. nia.
Qed.

Lemma math_round_ge (x : double) (k : Z) : int_le k x -> k <= math_round x.
Proof.
  unfold int_le, math_round.
  destruct (0 <=? expo x) eqn:E; [trivial|].
  apply Z.leb_gt in E. intros H.
  pose proof (pow2_pos (- expo x) ltac:(lia)).
  replace (1 - expo x) with (1 + - expo x) by lia.
  rewrite Z.pow_add_r by lia. change (2 ^ 1) with 2.
  apply Z.div_le_lower_bound; [lia|]. nia.
Qed.

Lemma div_ge_one (c t : Z) :
  0 < t <= c -> int_le 1 (div (of_int c) (of_int t)).
Proof.
  intros Hc. unfold div, of_int; cbn [mant expo].
  change (0 <=? 0 - 0) with true. cbv iota.
  change (2 ^ (0 - 0)) with 1. rewrite Z.mul_1_r.
  apply rne_ge_int; first [lia | split; [lia|reflexivity]].
Qed.

Lemma mul_100_ge (x : double) :
  0 <= mant x -> int_le 1 x -> int_le 100 (mul x (of_int 100)).
Proof.
  unfold int_le at 1. unfold mul, of_int; cbn [mant expo]. intros Hm.
  rewrite Z.add_0_r.
  destruct (0 <=? expo x) eqn:E; intros H.
  - apply Z.leb_le in E. pose proof (pow2_pos (expo x) E).
    apply rne_ge_int; first [nia | split; [lia|reflexivity]].
  - apply Z.leb_gt in E. pose proof (pow2_pos (- expo x) ltac:(lia)).
    apply rne_ge_int; first [nia | split; [lia|reflexivity]].
Qed.

Lemma progress_percentage_ge_100 (c t : Z) :
  0 < t <= c -> 100 <= progress_percentage c t.
Proof.
  intros Hc. unfold progress_percentage.
  apply math_round_ge, mul_100_ge; [apply div_mant_nonneg; lia|].
  apply div_ge_one. exact Hc.
Qed.

Lemma progress_percentage_full (t : Z) : 0 < t -> progress_percentage t t = 100.
Proof.
  intros Ht.
  pose proof (progress_percentage_ge_100 t t ltac:(lia)).
  pose proof (progress_percentage_le_100 t t ltac:(lia) Ht). lia.
Qed.

Lemma progress_percentage_none (t : Z) : progress_percentage 0 t = 0.
Proof.
  unfold progress_percentage, div, of_int; cbn [mant expo].
  change (0 <=? 0 - 0) with true. cbv iota. reflexivity.
Qed.

End JSNumBounds.

Import JSNumBounds.

(** X18.  The ends of the scale are exact.  After a recomputation (driver
    not failing, a module with at least one item, a pair with a row): when
    the completed items are as many as the items of the module the stored
    percentage is exactly 100, the rounding of [(n / n) * 100] in binary64
    notwithstanding; whenever the stored flag is true the percentage is at
    least 100; and with no completed item the percentage is 0 and the flag
    is false. *)
Theorem percentage_at_the_ends :
  forall env u m st t c mr tl tq cur,
    no_faults env ->
    select_module m st = Some mr ->
    totals (mod_content mr) = Some (tl, tq) ->
    tl + tq <> 0 ->
    select_user_progress u m st = Some cur ->
    exists w' row,
      updateModuleCompletionStatus u m env (world st t c) = (Ok tt, w')
      /\ stored_user_progress u m w' = Some row
      /\ (completedLessons u m st + completedQuizzes u m st = tl + tq ->
          up_progress_percentage row = 100)
      /\ (up_completed row = true -> 100 <= up_progress_percentage row)
      /\ (completedLessons u m st + completedQuizzes u m st = 0 ->
          up_progress_percentage row = 0 /\ up_completed row = false).
Proof.
  intros env u m st t c mr tl tq cur NF Hm Ht Hz Hcur.
  destruct (recompute_ok u m env st t c NF) as [c' E].
  pose proof (aggregate_some u m st mr tl tq Hm Ht Hz) as Ha.
  destruct (totals_nonneg _ _ _ Ht) as [Hl Hq].
  pose proof (completedLessons_nonneg u m st) as Hcl.
  pose proof (completedQuizzes_nonneg u m st) as Hcq.
  assert (Hrow : exists d,
            select_user_progress u m (fst (after_recompute u m env st t))
            = Some (set_aggregate
                      (progress_percentage
                         (completedLessons u m st + completedQuizzes u m st) (tl + tq))
                      ((tl <=? completedLessons u m st) && (tq <=? completedQuizzes u m st))
                      d cur)).
  { unfold after_recompute. rewrite Ha, Hcur.
    destruct (_ && negb _); cbn [fst];
      rewrite select_after_update_user_progress, Hcur; eexists; reflexivity. }
  destruct Hrow as [d Hrow].
  eexists _, _. split; [exact E|].
  split; [unfold stored_user_progress, world; cbn [db]; exact Hrow|].
  cbn [up_progress_percentage up_completed set_aggregate].
  split; [|split].
  - intros ->. apply progress_percentage_full. lia.
  - intros Hb. apply andb_prop in Hb. destruct Hb as [B1 B2].
    apply Z.leb_le in B1, B2. apply progress_percentage_ge_100. lia.
  - intros H0. split; [rewrite H0; apply progress_percentage_none|].
    apply not_true_is_false. intros Hb. apply andb_prop in Hb. destruct Hb as [B1 B2].
    apply Z.leb_le in B1, B2. lia.
Qed.

(** X19.  [calculateProgress] of the renderer stays on the scale: it is 0
    for a total of 0 (no division is made), exactly 100 when all of a
    non-empty total is completed, and between 0 and 100 when the
    completed count does not exceed the total. *)
Theorem calculateProgress_on_the_scale :
  forall completed total,
    0 <= completed <= total ->
    0 <= calculateProgress completed total <= 100
    /\ calculateProgress completed 0 = 0
    /\ (0 < total -> calculateProgress total total = 100)
    /\ calculateProgress 0 total = 0.
Proof.
  intros completed total H. unfold calculateProgress.
  repeat match goal with |- _ /\ _ => split end.
  - destruct (total =? 0); [lia|apply progress_percentage_nonneg].
  - destruct (total =? 0) eqn:E; [lia|]. apply Z.eqb_neq in E.
    apply progress_percentage_le_100; lia.
  - reflexivity.
  - intros Ht. destruct (total =? 0) eqn:E; [apply Z.eqb_eq in E; lia|].
    apply progress_percentage_full. exact Ht.
  - destruct (total =? 0); [reflexivity|apply progress_percentage_none].
Qed.

(** ** Lessons are recognised by their ids *)

Lemma off_convention_count u m st :
  off_convention u m st -> completedLessons u m st = 0.
Proof.
  unfold off_convention, completedLessons, count_completed_lessons, first_count.
  rewrite or_zero_id. intros H.
  induction H as [|r rows Hr _ IH]; [reflexivity|].
  cbn [filter]. destruct (lp_pair u m r) eqn:P.
  - rewrite (Hr eq_refl), andb_false_r. exact IH.
  - cbn [andb]. exact IH.
Qed.

Lemma off_convention_after_upsert pd env st t :
  like "lesson-%" (lessonId pd) = false ->
  off_convention (userId pd) (moduleId pd) st ->
  off_convention (userId pd) (moduleId pd) (fst (after_upsert pd env st t)).
Proof.
  intros Hid H. unfold off_convention, after_upsert in *.
  destruct (select_lesson_progress (userId pd) (moduleId pd) (lessonId pd) st) as [ex|];
    cbn [fst].
  - unfold update_lesson_progress; cbn [snd lesson_progress with_lesson_progress].
    apply Forall_map. eapply Forall_impl; [|exact H]. intros r Hr.
    destruct (lp_key _ _ _ r); [|exact Hr].
    rewrite lp_pair_set_outcome. exact Hr.
  - unfold insert_lesson_progress.
    destruct (existsb _ _); cbn [snd lesson_progress with_lesson_progress]; [exact H|].
    apply Forall_app. split; [exact H|].
    constructor; [|constructor]. intros _. exact Hid.
Qed.

Lemma off_convention_step pd env st t mr tl tq :
  select_module (moduleId pd) st = Some mr ->
  totals (mod_content mr) = Some (tl, tq) -> 0 < tl ->
  like "lesson-%" (lessonId pd) = false ->
  off_convention (userId pd) (moduleId pd) st ->
  off_convention (userId pd) (moduleId pd) (fst (after_update pd env st t))
  /\ flag_of (userId pd) (moduleId pd) (fst (after_update pd env st t)) = false
  /\ select_module (moduleId pd) (fst (after_update pd env st t)) = Some mr.
Proof.
  intros Hm Ht Htl Hid Hoff. rewrite after_update_eq.
  pose proof (flag_date_after_touch pd env st t) as (_ & _ & Hrow1).
  set (st1 := fst (after_touch pd env st t)) in *.
  set (t1 := snd (after_touch pd env st t)) in *.
  assert (Hoff1 : off_convention (userId pd) (moduleId pd) st1).
  { unfold off_convention, st1. rewrite after_touch_lesson_progress. exact Hoff. }
  pose proof (off_convention_after_upsert pd env st1 t1 Hid Hoff1) as Hoff2.
  pose proof (after_upsert_user_progress pd env st1 t1) as Hup2.
  assert (Hm2 : select_module (moduleId pd)
                  (fst (after_upsert pd env st1 t1)) = Some mr).
  { unfold select_module, st1.
    rewrite after_upsert_modules, after_touch_modules. exact Hm. }
  set (st2 := fst (after_upsert pd env st1 t1)) in *.
  set (t2 := snd (after_upsert pd env st1 t1)) in *.
  destruct (totals_nonneg _ _ _ Ht) as [_ Hq].
  pose proof (aggregate_some (userId pd) (moduleId pd) st2 mr tl tq Hm2 Ht ltac:(lia))
    as Hagg.
  rewrite (off_convention_count _ _ _ Hoff2) in Hagg.
  assert ((tl <=? 0) = false) as E by (apply Z.leb_gt; lia).
  rewrite E in Hagg. cbn [andb] in Hagg.
  assert (Hsel2 : select_user_progress (userId pd) (moduleId pd) st2
                  = select_user_progress (userId pd) (moduleId pd) st1)
    by (apply select_user_progress_frame; exact Hup2).
  split; [|split].
  - unfold off_convention. rewrite after_recompute_lesson_progress. exact Hoff2.
  - unfold flag_of, after_recompute. rewrite Hagg, Hsel2.
    destruct (select_user_progress (userId pd) (moduleId pd) st1) as [cur1|] eqn:Hcur1;
      [|contradiction].
    cbn [andb fst]. rewrite select_after_update_user_progress, Hsel2. reflexivity.
  - unfold select_module. rewrite after_recompute_modules. exact Hm2.
Qed.

(** X20.  Lessons count only under the naming convention.  The
    recomputation recognises a completed lesson by its id, which must match
    ["lesson-%"].  For a module with at least one lesson, as long as the
    calls for a pair carry ids that do not match (and no stored row of the
    pair does), no lesson is ever counted and the module is never flagged
    completed, however many of its lessons and quizzes the calls
    complete. *)
Theorem lessons_off_the_convention_never_complete :
  forall env u m pds st t c mr tl tq,
    no_faults env ->
    select_module m st = Some mr ->
    totals (mod_content mr) = Some (tl, tq) ->
    0 < tl ->
    Forall (fun pd => for_pair u m pd /\ like "lesson-%" (lessonId pd) = false) pds ->
    off_convention u m st ->
    flag_of u m st = false ->
    exists st',
      db (record_outcomes env pds (world st t c)) = Some st'
      /\ completedLessons u m st' = 0
      /\ module_completed u m (record_outcomes env pds (world st t c)) = false.
Proof.
  intros env u m pds st t c mr tl tq NF Hm Ht Htl Hpds.
  revert st t c Hm.
  induction Hpds as [|pd pds [[Hu Hmod] Hid] _ IH]; intros st t c Hm Hoff Hflag.
  - exists st. split; [reflexivity|]. split; [apply off_convention_count; exact Hoff|].
    exact Hflag.
  - destruct (record_outcomes_cons env pd pds st t c NF) as [c' ->].
    subst u m.
    destruct (off_convention_step pd env st t mr tl tq Hm Ht Htl Hid Hoff)
      as (Hoff' & Hflag' & Hm').
    apply IH; assumption.
Qed.

(** ** The duration shown for a module *)

(** X21.  [formatDuration] reports the time between [started_at] and
    [completion_date] in its largest unit and drops the rest: whole days
    from one day on, else whole hours from one hour on, else whole minutes
    from one minute on, else 'less than a minute', which is also what a
    completion date before the start date gives. *)
Theorem duration_is_reported_in_its_largest_unit :
  forall formatDate start end_,
    (end_ - start < 60000 ->
     formatDuration formatDate (Some start) (Some end_)
     = "Completed in less than a minute"%string)
    /\ (60000 <= end_ - start < 3600000 ->
        formatDuration formatDate (Some start) (Some end_)
        = ("Completed in " ++ show ((end_ - start) / 60000) ++ " minute"
           ++ plural ((end_ - start) / 60000))%string)
    /\ (3600000 <= end_ - start < 86400000 ->
        formatDuration formatDate (Some start) (Some end_)
        = ("Completed in " ++ show ((end_ - start) / 3600000) ++ " hour"
           ++ plural ((end_ - start) / 3600000))%string)
    /\ (86400000 <= end_ - start ->
        formatDuration formatDate (Some start) (Some end_)
        = ("Completed in " ++ show ((end_ - start) / 86400000) ++ " day"
           ++ plural ((end_ - start) / 86400000))%string).
Proof.
  intros formatDate start end_. unfold formatDuration. cbv zeta.
  change (1000 * 60 * 60 * 24) with 86400000.
  change (1000 * 60 * 60) with 3600000.
  change (1000 * 60) with 60000.
  set (d := end_ - start).
  repeat match goal with |- _ /\ _ => split end; intros H.
  - assert ((0 <? d / 86400000) = false) as ->
        by (apply Z.ltb_ge; Z.to_euclidean_division_equations; lia).
    assert ((0 <? Z.rem d 86400000 / 3600000) = false) as ->
        by (apply Z.ltb_ge; Z.to_euclidean_division_equations; lia).
    assert ((0 <? Z.rem d 3600000 / 60000) = false) as ->
        by (apply Z.ltb_ge; Z.to_euclidean_division_equations; lia).
    reflexivity.
  - assert ((0 <? d / 86400000) = false) as ->
        by (apply Z.ltb_ge; Z.to_euclidean_division_equations; lia).
    assert ((0 <? Z.rem d 86400000 / 3600000) = false) as ->
        by (apply Z.ltb_ge; Z.to_euclidean_division_equations; lia).
    assert (Z.rem d 3600000 = d) as ->
        by (Z.to_euclidean_division_equations; lia).
    assert ((0 <? d / 60000) = true) as ->
        by (apply Z.ltb_lt; Z.to_euclidean_division_equations; lia).
    reflexivity.
  - assert ((0 <? d / 86400000) = false) as ->
        by (apply Z.ltb_ge; Z.to_euclidean_division_equations; lia).
    assert (Z.rem d 86400000 = d) as ->
        by (Z.to_euclidean_division_equations; lia).
    assert ((0 <? d / 3600000) = true) as ->
        by (apply Z.ltb_lt; Z.to_euclidean_division_equations; lia).
    reflexivity.
  - assert ((0 <? d / 86400000) = true) as ->
        by (apply Z.ltb_lt; Z.to_euclidean_division_equations; lia).
    reflexivity.
Qed.

(** ** The score of a quiz *)

Lemma correctAnswers_bounds answers index questions :
  0 <= correctAnswers answers index questions <= Z.of_nat (List.length questions).
Proof.
  revert index. induction questions as [|q qs IH]; intros index; cbn [correctAnswers].
  - cbn. lia.
  - specialize (IH (S index)). cbn [List.length].
    destruct (answered_correctly answers index q); lia.
Qed.

Lemma correctAnswers_text_keys answers index questions :
  Forall (fun q => exists s, correctAnswer q = TextKey s) questions ->
  correctAnswers answers index questions = 0.
Proof.
  intros H. revert index.
  induction H as [|q qs [s Hq] _ IH]; intros index; cbn [correctAnswers]; [reflexivity|].
  unfold answered_correctly. rewrite Hq, IH.
  destruct (answer_at answers index); reflexivity.
Qed.

(** X22.  The score that [completeQuiz] computes for a quiz with at least
    one question is a whole number between 0 and 100, and exactly 100 when
    every question is answered correctly.  Only a numeric [correctAnswer]
    can be matched, since the answers are option indexes: a quiz whose
    keys are all texts scores 0 whatever is answered.  For a quiz without
    questions the score is NaN, which passes no passing score, not even
    0. *)
Theorem quiz_score_is_on_the_scale :
  forall question questions answers,
    exists score,
      calculatedScore (question :: questions) answers = Some score
      /\ 0 <= score <= 100
      /\ (correctAnswers answers 0 (question :: questions)
          = Z.of_nat (List.length (question :: questions)) -> score = 100)
      /\ (Forall (fun q => exists s, correctAnswer q = TextKey s)
                 (question :: questions) -> score = 0)
      /\ forall passingScore, isPassed (calculatedScore [] answers) passingScore = false.
Proof.
  intros question questions answers.
  eexists. split; [reflexivity|].
  pose proof (correctAnswers_bounds answers 0 (question :: questions)) as B.
  assert (L : 0 < Z.of_nat (List.length (question :: questions))) by (cbn; lia).
  repeat match goal with |- _ /\ _ => split end.
  - apply progress_percentage_nonneg.
  - apply progress_percentage_le_100; lia.
  - intros ->. apply JSNumBounds.progress_percentage_full. exact L.
  - intros H. rewrite (correctAnswers_text_keys _ _ _ H).
    apply JSNumBounds.progress_percentage_none.
  - reflexivity.
Qed.

(** X23.  Selecting an answer sets the answer of that question and of no
    other: the answer read back at the index is the one selected (the last
    selection wins), the answers at the other indexes read as before, and
    the question is then counted as correct exactly when the selected
    option is its numeric key. *)
Theorem selected_answer_is_read_back :
  forall answers questionIndex answerIndex,
    answer_at (handleAnswerSelect answers questionIndex answerIndex) questionIndex
    = Some answerIndex
    /\ (forall other,
          other <> questionIndex ->
          answer_at (handleAnswerSelect answers questionIndex answerIndex) other
          = answer_at answers other)
    /\ (forall question key,
          correctAnswer question = NumberKey key ->
          answered_correctly (handleAnswerSelect answers questionIndex answerIndex)
            questionIndex question
          = (answerIndex =? key)).
Proof.
  intros answers questionIndex answerIndex.
  assert (Hsame : forall i xs,
            answer_at (handleAnswerSelect xs i answerIndex) i = Some answerIndex).
  { unfold answer_at.
    induction i as [|i IH]; intros [|x xs]; cbn; try reflexivity; apply IH. }
  assert (Hother : forall i j xs,
            j <> i ->
            answer_at (handleAnswerSelect xs i answerIndex) j = answer_at xs j).
  { unfold answer_at.
    induction i as [|i IH]; intros j xs Hne.
    - destruct j as [|j]; [contradiction|]. destruct xs as [|x xs]; cbn.
      + destruct j; reflexivity.
      + reflexivity.
    - destruct j as [|j]; destruct xs as [|x xs]; cbn; try reflexivity.
      + rewrite (IH j []) by (intros E; apply Hne; f_equal; exact E).
        destruct j; reflexivity.
      + apply IH. intros E. apply Hne. f_equal. exact E. }
  split; [apply Hsame|]. split.
  - intros other Hne. apply Hother. exact Hne.
  - intros question key Hkey. unfold answered_correctly. rewrite Hsame, Hkey.
    reflexivity.
Qed.

(** ** From a lesson through its quiz to the next lesson *)

Lemma anchored_at_true lessonId quiz :
  anchored_at lessonId quiz = true -> quiz_afterLessonId quiz = Some lessonId.
Proof.
  unfold anchored_at. destruct (quiz_afterLessonId quiz) as [a|]; [|discriminate].
  intros H. apply String.eqb_eq in H. congruence.
Qed.

(** X24.  The quiz after a lesson is a detour that rejoins the lessons.
    For a lesson of the module that has a quiz anchored after it,
    completing the lesson leads to the first such quiz; finishing that
    quiz leads, when it was passed, to the lesson that follows the
    anchoring lesson in the module (the one that completing the lesson
    would lead to in the same module without quizzes) and, when it was not
    passed, back to the module page.  After the last lesson a passed quiz
    leads nowhere: the results stay, or the module page is shown. *)
Theorem quiz_detour_rejoins_the_lessons :
  forall content ls lessonId quiz index moduleIsCompleted moduleCompleted,
    lessons content = Some ls ->
    findIndex (fun l => String.eqb (les_id l) lessonId) ls = Some index ->
    lessonId <> ""%string ->
    find (anchored_at lessonId)
         (match quizzes content with Some qs => qs | None => [] end) = Some quiz ->
    handleComplete content lessonId true moduleIsCompleted = ToQuiz (quiz_id quiz)
    /\ handleFinish content quiz false moduleCompleted = ToModule
    /\ handleFinish content quiz true moduleCompleted
       = match nth_error ls (S index) with
         | Some nextLesson => ToLesson (les_id nextLesson)
         | None => if moduleCompleted then Stay else ToModule
         end
    /\ handleComplete {| lessons := Some ls; quizzes := None;
                         estimatedTime := estimatedTime content |}
         lessonId true moduleIsCompleted
       = match nth_error ls (S index) with
         | Some nextLesson => ToLesson (les_id nextLesson)
         | None => if moduleIsCompleted then CompletionModal else ToModule
         end.
Proof.
  intros content ls lessonId quiz index mic mc Hls Hidx Hne Hquiz.
  pose proof (find_some _ _ Hquiz) as [_ Hanchor].
  apply anchored_at_true in Hanchor.
  assert (Hempty : String.eqb lessonId "" = false)
    by (apply String.eqb_neq; exact Hne).
  repeat match goal with |- _ /\ _ => split end.
  - unfold handleComplete. cbn [negb]. rewrite Hquiz. reflexivity.
  - reflexivity.
  - unfold handleFinish. cbn [negb]. rewrite Hanchor, Hempty, Hls, Hidx. reflexivity.
  - unfold handleComplete. cbn [negb quizzes lessons find].
    unfold element_after. rewrite Hidx. reflexivity.
Qed.

(** ** A call that fails after its first block *)

(** X25.  [updateLessonProgress] is not atomic either.  When the driver
    fails on the first statement of the second block, the call answers
    with a failure although the first block has been written: the row of
    [user_progress] of the pair exists (created with [started_at] set, if
    the pair had none) and its [last_accessed] is the time of the failed
    call, while [lesson_progress] is as it was.  When the driver fails on
    the very first statement nothing is written. *)
Theorem failed_call_leaves_the_touch :
  forall env pd st t c,
    (fault env c = true ->
     updateLessonProgress pd env (world st t c)
     = (Ok (fail (Template "Failed to update progress: " DriverError)),
        world st t (S c)))
    /\ (fault env c = false -> fault env (S c) = false -> fault env (S (S c)) = true ->
        exists st1 t1 cur,
          updateLessonProgress pd env (world st t c)
          = (Ok (fail (Template "Failed to update progress: " DriverError)),
             world st1 t1 (S (S (S c))))
          /\ lesson_progress st1 = lesson_progress st
          /\ select_user_progress (userId pd) (moduleId pd) st1 = Some cur
          /\ (select_user_progress (userId pd) (moduleId pd) st = None ->
              up_started_at cur = Some (clock env t)
              /\ up_last_accessed cur = clock env (S t))
          /\ (select_user_progress (userId pd) (moduleId pd) st <> None ->
              up_last_accessed cur = clock env t)).
Proof.
  intros env pd st t c. split.
  - intros F0. unfold updateLessonProgress, touch_module_progress.
    erewrite try_throw; [reflexivity|].
    erewrite bind_throw; [reflexivity|].
    erewrite bind_throw by (apply get_fault; exact F0). reflexivity.
  - intros F0 F1 F2.
    destruct (touch_ok pd env st t c F0 F1) as [r E].
    assert (Hcall : updateLessonProgress pd env (world st t c)
                    = (Ok (fail (Template "Failed to update progress: " DriverError)),
                       world (fst (after_touch pd env st t))
                             (snd (after_touch pd env st t)) (S (S (S c))))).
    { unfold updateLessonProgress. erewrite try_throw; [reflexivity|].
      erewrite bind_ok by exact E.
      erewrite bind_throw; [reflexivity|].
      unfold upsert_lesson_progress.
      erewrite bind_throw by (apply get_fault; exact F2). reflexivity. }
    unfold after_touch in *.
    destruct (select_user_progress (userId pd) (moduleId pd) st) as [old|] eqn:Hold;
      cbn [fst snd] in *.
    + eexists _, _, _. split; [exact Hcall|]. split; [reflexivity|].
      split; [rewrite select_after_update_last_accessed, Hold; reflexivity|].
      split; [discriminate|]. intros _. reflexivity.
    + eexists _, _, _. split; [exact Hcall|].
      split.
      { unfold insert_user_progress. destruct (existsb _ _); reflexivity. }
      split; [apply select_after_insert_user_progress; exact Hold|].
      split; [intros _; split; reflexivity|]. intros H. contradiction H. reflexivity.
Qed.

(** ** The uniqueness constraints over sequences of calls *)

Lemma uniqueness_kept_refl st : uniqueness_kept st st.
Proof. split; trivial. Qed.

Lemma uniqueness_kept_trans a b c :
  uniqueness_kept a b -> uniqueness_kept b c -> uniqueness_kept a c.
Proof. intros [A1 A2] [B1 B2]. split; auto. Qed.

Lemma filter_snoc_fresh {A : Type} (P : A -> bool) (Q : A -> bool) (l : list A) (x : A) :
  existsb Q l = false ->
  (P x = true -> forall y, P y = true -> Q y = true) ->
  (List.length (filter P l) <= 1)%nat ->
  (List.length (filter P (l ++ [x])) <= 1)%nat.
Proof.
  intros Hex HPQ Hlen. rewrite filter_app, length_app. cbn [filter].
  destruct (P x) eqn:Px; cbn [List.length]; [|lia].
  assert (filter P l = []) as ->; [|cbn; lia].
  destruct (filter P l) as [|y ys] eqn:E; [reflexivity|exfalso].
  assert (Hin : In y (filter P l)) by (rewrite E; left; reflexivity).
  apply filter_In in Hin. destruct Hin as [Hin Py].
  assert (existsb Q l = true)
    by (apply existsb_exists; exists y; split; [exact Hin|apply (HPQ eq_refl); exact Py]).
  congruence.
Qed.

Lemma up_key_true u m r :
  up_key u m r = true -> up_user_id r = u /\ up_module_id r = m.
Proof.
  unfold up_key. intros H. apply andb_prop in H. destruct H as [Hu Hm].
  apply Z.eqb_eq in Hu, Hm. tauto.
Qed.

(** X26.  The calls never double a row.  Over any sequence of
    [updateLessonProgress] calls, whatever the driver does, a store with
    at most one row of [lesson_progress] per user, module and id, and at
    most one row of [user_progress] per user and module, stays such a
    store; so [getModuleProgress] lists each lesson or quiz at most
    once. *)
Theorem calls_never_double_a_row :
  forall env pds w st,
    db w = Some st ->
    lesson_progress_unique st -> user_progress_unique st ->
    exists st',
      db (record_outcomes env pds w) = Some st'
      /\ lesson_progress_unique st' /\ user_progress_unique st'
      /\ forall u m l,
           (List.length (filter (fun r => String.eqb (lp_lesson_id r) l)
                           (select_module_lesson_progress u m st')) <= 1)%nat.
Proof.
  intros env pds w st H U1 U2.
  destruct (keeps_record_outcomes uniqueness_kept uniqueness_kept_refl
              uniqueness_kept_trans)
    with (env := env) (pds := pds) (w := w) (st := st) as [st' [H' [R1 R2]]];
    try exact H.
  - intros u m a b st0. unfold insert_user_progress.
    destruct (existsb _ _) eqn:E; [apply uniqueness_kept_refl|].
    split; [trivial|]. intros V u' m'.
    cbn [snd user_progress with_user_progress].
    apply (filter_snoc_fresh _ (up_key u m)); [exact E| |apply V].
    intros K y Ky. apply up_key_true in K, Ky. cbn in K.
    unfold up_key. destruct K as [<- <-]. destruct Ky as [-> ->].
    rewrite !Z.eqb_refl. reflexivity.
  - intros ts u m st0. split; [trivial|]. intros V u' m'.
    unfold update_last_accessed; cbn [snd user_progress with_user_progress].
    rewrite filter_map_same, length_map; [apply V|].
    intros x. apply up_key_cond. intros y. apply up_key_set_last_accessed.
  - intros p b d u m st0. split; [trivial|]. intros V u' m'.
    unfold update_user_progress; cbn [snd user_progress with_user_progress].
    rewrite filter_map_same, length_map; [apply V|].
    intros x. apply up_key_cond. intros y. apply up_key_set_aggregate.
  - intros u m l b ts q ca st0. unfold insert_lesson_progress.
    destruct (existsb _ _) eqn:E; [apply uniqueness_kept_refl|].
    split; [|trivial]. intros V u' m' l'.
    cbn [snd lesson_progress with_lesson_progress].
    apply (filter_snoc_fresh _ (lp_key u m l)); [exact E| |apply V].
    intros K y Ky. apply lp_key_true in K, Ky. cbn in K.
    destruct K as (<- & <- & <-). destruct Ky as (Ku & Km & Kl).
    unfold lp_key, lp_pair. rewrite Ku, Km, Kl, !Z.eqb_refl, String.eqb_refl.
    reflexivity.
  - intros b ts q ca u m l st0. split; [|trivial]. intros V u' m' l'.
    unfold update_lesson_progress; cbn [snd lesson_progress with_lesson_progress].
    rewrite filter_map_same, length_map; [apply V|].
    intros x. apply lp_key_cond. intros y. apply lp_key_set_outcome.
  - exists st'. split; [exact H'|]. split; [exact (R1 U1)|]. split; [exact (R2 U2)|].
    intros u m l. unfold select_module_lesson_progress.
    specialize (R1 U1 u m l).
    assert (G : forall (A : Type) (P Q : A -> bool) rows,
              filter Q (filter P rows) = filter (fun r => P r && Q r) rows).
    { intros A P Q rows. induction rows as [|x rows IH]; cbn; [reflexivity|].
      destruct (P x); cbn; [destruct (Q x)|]; rewrite IH; reflexivity. }
    rewrite G. exact R1.
Qed.

(** ** Deleting modules *)

Lemma filter_none_same {A : Type} (P : A -> bool) (l : list A) :
  find P l = None -> filter (fun x => negb (P x)) l = l.
Proof.
  induction l as [|x l IH]; cbn; [reflexivity|].
  destruct (P x); [discriminate|]. cbn. intros H. rewrite IH by exact H. reflexivity.
Qed.

Lemma find_filter_other {A : Type} (P Q : A -> bool) (l : list A) :
  (forall x, P x = true -> Q x = false) ->
  find P (filter (fun x => negb (Q x)) l) = find P l.
Proof.
  intros H. induction l as [|x l IH]; cbn; [reflexivity|].
  destruct (P x) eqn:Px.
  - rewrite (H x Px). cbn. rewrite Px. reflexivity.
  - destruct (Q x); cbn; rewrite ?Px; exact IH.
Qed.

Lemma with_modules_same st : with_modules st (modules st) = st.
Proof. destruct st; reflexivity. Qed.

(** X27.  [deleteModule] answers by what it found (driver not failing on
    the statement): for an id that no module has it answers 'Module not
    found' and leaves the store as it is; for the id of a module it answers
    with success, after which the module cannot be selected any more, the
    other modules can, as before, a second [deleteModule] answers 'Module
    not found', and [generateCertificate] for that module answers 'Module
    or user not found' whatever progress is stored for it.
    [deleteAllModules] reports how many modules there were and leaves
    none. *)
Theorem deleted_module_is_gone :
  forall env id st t c,
    fault env c = false ->
    exists resp st',
      deleteModule id env (world st t c) = (Ok resp, world st' t (S c))
      /\ (select_module id st = None ->
          resp = fail (Literal "Module not found") /\ st' = st)
      /\ (select_module id st <> None ->
          resp = inform "Module deleted successfully")
      /\ select_module id st' = None
      /\ (forall other, other <> id -> select_module other st' = select_module other st)
      /\ (forall t2 c2,
            fault env c2 = false ->
            deleteModule id env (world st' t2 c2)
            = (Ok (fail (Literal "Module not found")), world st' t2 (S c2)))
      /\ (forall u t2 c2,
            fault env c2 = false -> fault env (S c2) = false ->
            fault env (S (S c2)) = false ->
            generateCertificate u id env (world st' t2 c2)
            = (Ok (fail (Literal "Module or user not found")),
               world st' t2 (S (S (S c2)))))
      /\ exists none,
           deleteAllModules env (world st t c)
           = (Ok (inform ("Deleted " ++ show (Z.of_nat (List.length (modules st)))
                          ++ " modules")%string),
              world none t (S c))
           /\ forall any, select_module any none = None.
Proof.
  intros env id st t c F.
  set (st' := with_modules st (filter (fun r => negb (mod_id r =? id)) (modules st))).
  assert (Hgone : select_module id st' = None).
  { unfold select_module, st'; cbn [modules with_modules]. apply find_filter_negb. }
  assert (Hcall : forall s t2 c2,
            fault env c2 = false ->
            deleteModule id env (world s t2 c2)
            = (Ok (if 0 <? Z.of_nat (List.length (filter (fun r => mod_id r =? id)
                                                    (modules s)))
                   then inform "Module deleted successfully"
                   else fail (Literal "Module not found")),
               world (with_modules s (filter (fun r => negb (mod_id r =? id)) (modules s)))
                     t2 (S c2))).
  { intros s t2 c2 G. unfold deleteModule.
    erewrite try_ok; [reflexivity|].
    erewrite bind_ok by (rewrite run_ok by exact G; reflexivity).
    cbn [changes]. destruct (0 <? _); reflexivity. }
  assert (Hnone : forall s, select_module id s = None ->
            (0 <? Z.of_nat (List.length (filter (fun r => mod_id r =? id) (modules s))))
            = false
            /\ with_modules s (filter (fun r => negb (mod_id r =? id)) (modules s)) = s).
  { intros s Hs. unfold select_module in Hs. split.
    - rewrite (find_none_filter_nil _ _ Hs). reflexivity.
    - rewrite (filter_none_same _ _ Hs). apply with_modules_same. }
  eexists _, st'. split; [apply Hcall; exact F|].
  repeat match goal with |- _ /\ _ => split end.
  - intros Hs. destruct (Hnone st Hs) as [-> E]. split; [reflexivity|exact E].
  - intros Hs. unfold select_module in Hs.
    destruct (find (fun r => mod_id r =? id) (modules st)) as [r|] eqn:E;
      [|contradiction Hs; reflexivity].
    apply find_some in E. destruct E as [Hin Hr].
    assert (Hf : In r (filter (fun r => mod_id r =? id) (modules st)))
      by (apply filter_In; split; assumption).
    destruct (filter (fun r => mod_id r =? id) (modules st)); [contradiction|].
    reflexivity.
  - exact Hgone.
  - intros other Hne. unfold select_module, st'; cbn [modules with_modules].
    apply find_filter_other. intros x Hx. apply Z.eqb_eq in Hx.
    apply Z.eqb_neq. lia.
  - intros t2 c2 G. rewrite (Hcall st' t2 c2 G).
    destruct (Hnone st' Hgone) as [-> ->]. reflexivity.
  - intros u t2 c2 G0 G1 G2.
    apply (proj1 (generateCertificate_reads env u id st' t2 c2 G0 G1 G2)).
    left. exact Hgone.
  - exists (with_modules st []). split; [|reflexivity].
    unfold deleteAllModules. erewrite try_ok; [reflexivity|].
    erewrite bind_ok by (rewrite run_ok by exact F; reflexivity).
    reflexivity.
Qed.

Lemma deleted_module_is_gone_witness :
  fault Sample.env 0 = false
  /\ exists resp st',
       deleteModule 2 Sample.env (world Sample.after_scenario 0 0)
       = (Ok resp, world st' 0 1)
       /\ (select_module 2 Sample.after_scenario = None ->
           resp = fail (Literal "Module not found") /\ st' = Sample.after_scenario)
       /\ (select_module 2 Sample.after_scenario <> None ->
           resp = inform "Module deleted successfully")
       /\ select_module 2 st' = None
       /\ (forall other, other <> 2 ->
                         select_module other st' = select_module other Sample.after_scenario)
       /\ (forall t2 c2,
             fault Sample.env c2 = false ->
             deleteModule 2 Sample.env (world st' t2 c2)
             = (Ok (fail (Literal "Module not found")), world st' t2 (S c2)))
       /\ (forall u t2 c2,
             fault Sample.env c2 = false -> fault Sample.env (S c2) = false ->
             fault Sample.env (S (S c2)) = false ->
             generateCertificate u 2 Sample.env (world st' t2 c2)
             = (Ok (fail (Literal "Module or user not found")),
                world st' t2 (S (S (S c2)))))
       /\ exists none,
            deleteAllModules Sample.env (world Sample.after_scenario 0 0)
            = (Ok (inform "Deleted 4 modules"), world none 0 1)
            /\ forall any, select_module any none = None.
Proof.
  split; [reflexivity|].
  exact (deleted_module_is_gone Sample.env 2 Sample.after_scenario 0%nat 0%nat eq_refl).
Defined.

(** ** Accounts *)

Lemma find_none_existsb {A : Type} (P Q : A -> bool) (l : list A) :
  (forall x, Q x = P x) -> find P l = None -> existsb Q l = false.
Proof.
  intros H. induction l as [|x l IH]; cbn; [reflexivity|].
  rewrite H. destruct (P x); [discriminate|]. exact IH.
Qed.

Lemma find_none_all {A : Type} (P : A -> bool) (l : list A) :
  find P l = None -> forall x, In x l -> P x = false.
Proof. intros H x Hx. exact (find_none P l H x Hx). Qed.

Lemma insert_user_fresh username email h st :
  select_user_by_email_or_username email username st = None ->
  insert_user username email h st
  = (Ok {| lastID := next_rowid 0 (map usr_id (users st)); changes := 1 |},
     with_users st
       (users st ++
        [{| usr_id := next_rowid 0 (map usr_id (users st));
            usr_username := username; usr_email := email;
            usr_password_hash := h; usr_role := "student" |}])).
Proof.
  intros H. unfold insert_user.
  rewrite (find_none_existsb
             (fun r => String.eqb (usr_email r) email || String.eqb (usr_username r) username)
             _ (users st)); [reflexivity| |exact H].
  intros x. apply orb_comm.
Qed.

Lemma insert_user_cases username email h st :
  insert_user username email h st = (Throw (UniqueConstraintFailed "users"), st)
  \/ (existsb (fun r => String.eqb (usr_username r) username
                        || String.eqb (usr_email r) email) (users st) = false
      /\ insert_user username email h st
         = (Ok {| lastID := next_rowid 0 (map usr_id (users st)); changes := 1 |},
            with_users st
              (users st ++
               [{| usr_id := next_rowid 0 (map usr_id (users st));
                   usr_username := username; usr_email := email;
                   usr_password_hash := h; usr_role := "student" |}]))).
Proof.
  unfold insert_user.
  destruct (existsb _ (users st)); [left|right; split]; reflexivity.
Qed.

Lemma select_new_user st (row : User) :
  usr_id row = next_rowid 0 (map usr_id (users st)) ->
  select_user (usr_id row) (with_users st (users st ++ [row])) = Some row.
Proof.
  intros Hid. unfold select_user; cbn [users with_users]. rewrite find_snoc.
  destruct (find _ (users st)) as [old|] eqn:E.
  - apply find_some in E. destruct E as [Hin Heq].
    apply Z.eqb_eq in Heq.
    pose proof (next_rowid_above 0 (map usr_id (users st)) (usr_id old)
                  (in_map usr_id _ _ Hin)).
    lia.
  - rewrite Z.eqb_refl. reflexivity.
Qed.

Lemma NoDup_snoc {A : Type} (l : list A) (x : A) :
  NoDup l -> ~ In x l -> NoDup (l ++ [x]).
Proof.
  intros Hl Hx. induction Hl as [|y l Hy Hl IH]; cbn.
  - constructor; [intros []|constructor].
  - constructor.
    + rewrite in_app_iff. intros [H|[H|[]]]; [exact (Hy H)|].
      apply Hx. left. symmetry. exact H.
    + apply IH. intros H. apply Hx. right. exact H.
Qed.

Lemma accounts_unique_insert st username email h :
  accounts_unique st ->
  existsb (fun r => String.eqb (usr_username r) username
                    || String.eqb (usr_email r) email) (users st) = false ->
  accounts_unique
    (with_users st
       (users st ++
        [{| usr_id := next_rowid 0 (map usr_id (users st));
            usr_username := username; usr_email := email;
            usr_password_hash := h; usr_role := "student" |}])).
Proof.
  intros (Hi & Hu & He) Hex. unfold accounts_unique; cbn [users with_users].
  assert (Hall : forall r, In r (users st) ->
                           usr_username r <> username /\ usr_email r <> email).
  { intros r Hr.
    destruct (String.eqb (usr_username r) username) eqn:E1.
    - assert (existsb (fun r => String.eqb (usr_username r) username
                                || String.eqb (usr_email r) email) (users st) = true).
      { apply existsb_exists. exists r. rewrite E1. split; [exact Hr|reflexivity]. }
      congruence.
    - destruct (String.eqb (usr_email r) email) eqn:E2.
      + assert (existsb (fun r => String.eqb (usr_username r) username
                                  || String.eqb (usr_email r) email) (users st) = true).
        { apply existsb_exists. exists r. rewrite E2, orb_true_r.
          split; [exact Hr|reflexivity]. }
        congruence.
      + apply String.eqb_neq in E1. apply String.eqb_neq in E2. split; assumption. }
  rewrite !map_app; cbn [map usr_id usr_username usr_email].
  repeat match goal with |- _ /\ _ => split end; apply NoDup_snoc; try assumption.
  - intros Hin. pose proof (next_rowid_above 0 _ _ Hin). lia.
  - intros Hin. apply in_map_iff in Hin. destruct Hin as (r & Hr & Hin).
    destruct (Hall r Hin) as [Hn _]. exact (Hn Hr).
  - intros Hin. apply in_map_iff in Hin. destruct Hin as (r & Hr & Hin).
    destruct (Hall r Hin) as [_ Hn]. exact (Hn Hr).
Qed.

Lemma with_users_back st rows : with_users (with_users st rows) (users st) = st.
Proof. destruct st; reflexivity. Qed.

Lemma with_users_same st : with_users st (users st) = st.
Proof. destruct st; reflexivity. Qed.

Lemma find_unique_email (rows : list User) (u : User) :
  NoDup (map usr_email rows) -> In u rows ->
  find (fun r => String.eqb (usr_email r) (usr_email u)) rows = Some u.
Proof.
  induction rows as [|x rows IH]; cbn [map find In]; [contradiction|].
  intros Hnd [->|Hin].
  - rewrite String.eqb_refl. reflexivity.
  - inversion Hnd as [|? ? Hx Hrest]; subst.
    destruct (String.eqb (usr_email x) (usr_email u)) eqn:E.
    + apply String.eqb_eq in E. exfalso. apply Hx. rewrite E.
      apply in_map. exact Hin.
    + apply IH; assumption.
Qed.

Lemma find_no_email (rows : list User) (email : string) :
  (forall u, In u rows -> usr_email u <> email) ->
  find (fun r => String.eqb (usr_email r) email) rows = None.
Proof.
  induction rows as [|x rows IH]; cbn [find]; [reflexivity|].
  intros H. destruct (String.eqb (usr_email x) email) eqn:E.
  - apply String.eqb_eq in E. exfalso. apply (H x); [left; reflexivity|exact E].
  - apply IH. intros u Hu. apply H. right. exact Hu.
Qed.

(** What ['auth:login'] answers when the driver does not fail, by the row
    that the statement finds. *)
Lemma auth_login_answer bcrypt email attempt env st t c :
  fault env c = false ->
  auth_login bcrypt email attempt env (world st t c)
  = (Ok match select_user_by_email email st with
        | None => invalid_login
        | Some user =>
            if bcrypt_compare bcrypt attempt (usr_password_hash user)
            then session_of user else invalid_login
        end,
     world st t (S c)).
Proof.
  intros F. unfold auth_login, authenticateUser.
  apply try_ok.
  destruct (select_user_by_email email st) as [user|] eqn:E.
  - destruct (bcrypt_compare bcrypt attempt (usr_password_hash user)) eqn:Hc.
    + erewrite bind_ok.
      2:{ apply try_ok. erewrite bind_ok by (apply get_ok; exact F).
          rewrite E. cbv zeta. rewrite Hc. reflexivity. }
      reflexivity.
    + erewrite bind_ok.
      2:{ apply try_ok. erewrite bind_ok by (apply get_ok; exact F).
          rewrite E. cbv zeta. rewrite Hc. reflexivity. }
      reflexivity.
  - erewrite bind_ok.
    2:{ apply try_ok. erewrite bind_ok by (apply get_ok; exact F).
        rewrite E. reflexivity. }
    reflexivity.
Qed.

Lemma select_inserted_user st username email h :
  select_user (next_rowid 0 (map usr_id (users st)))
    (with_users st
       (users st ++
        [{| usr_id := next_rowid 0 (map usr_id (users st));
            usr_username := username; usr_email := email;
            usr_password_hash := h; usr_role := "student" |}]))
  = Some {| usr_id := next_rowid 0 (map usr_id (users st));
            usr_username := username; usr_email := email;
            usr_password_hash := h; usr_role := "student" |}.
Proof.
  exact (select_new_user st
           {| usr_id := next_rowid 0 (map usr_id (users st));
              usr_username := username; usr_email := email;
              usr_password_hash := h; usr_role := "student" |} eq_refl).
Qed.

(** [createUser] when no row has the email or the username and the driver
    does not fail. *)
Lemma createUser_fresh bcrypt salt userData env st t c :
  fault env c = false -> fault env (S c) = false ->
  fault env (S (S c)) = false ->
  select_user_by_email_or_username (ud_email userData) (ud_username userData) st
  = None ->
  createUser bcrypt salt userData env (world st t c)
  = (Ok (succeed (userWithoutPassword
           {| usr_id := next_rowid 0 (map usr_id (users st));
              usr_username := ud_username userData;
              usr_email := ud_email userData;
              usr_password_hash :=
                bcrypt_hash bcrypt salt (ud_password_hash userData);
              usr_role := "student" |})),
     world (with_users st
              (users st ++
               [{| usr_id := next_rowid 0 (map usr_id (users st));
                   usr_username := ud_username userData;
                   usr_email := ud_email userData;
                   usr_password_hash :=
                     bcrypt_hash bcrypt salt (ud_password_hash userData);
                   usr_role := "student" |}]))
           t (S (S (S c)))).
Proof.
  intros F0 F1 F2 Hnone. unfold createUser.
  apply try_ok. erewrite bind_ok by (apply get_ok; exact F0).
  rewrite Hnone. cbv zeta.
  erewrite bind_ok.
  2:{ rewrite run_ok by exact F1.
      rewrite (insert_user_fresh _ _ _ st Hnone). cbn [fst snd]. reflexivity. }
  cbn [lastID].
  erewrite bind_ok by (apply get_ok; exact F2).
  rewrite select_inserted_user. reflexivity.
Qed.

(** X28.  Registration and login fit together.  When no row has the email
    or the username and the driver does not fail, ['auth:register'] opens
    a session for a new account that carries the username and the email
    as they were given, the role 'student' and an id that no earlier row
    has; the table keeps its rows and gains one.  Afterwards
    ['auth:login'] with that email answers by what [bcrypt.compare] says
    of the attempt and the hash that was stored: the same account when it
    accepts, 'Invalid email or password' when it does not, and the stored
    hash is the one [bcrypt.hash] made of the password. *)
Theorem registered_account_logs_in :
  forall bcrypt salt username email password env st t c,
    fault env c = false -> fault env (S c) = false ->
    fault env (S (S c)) = false ->
    select_user_by_email_or_username email username st = None ->
    exists row st',
      auth_register bcrypt salt username email password env (world st t c)
      = (Ok (session_of row), world st' t (S (S (S c))))
      /\ users st' = (users st ++ [row])%list
      /\ usr_username row = username /\ usr_email row = email
      /\ usr_role row = "student"%string
      /\ usr_password_hash row = bcrypt_hash bcrypt salt password
      /\ (forall old, In old (users st) -> usr_id old < usr_id row)
      /\ forall attempt t2 c2,
           fault env c2 = false ->
           auth_login bcrypt email attempt env (world st' t2 c2)
           = (Ok (if bcrypt_compare bcrypt attempt (bcrypt_hash bcrypt salt password)
                  then session_of row else invalid_login),
              world st' t2 (S c2)).
Proof.
  intros bcrypt salt username email password env st t c F0 F1 F2 Hnone.
  set (row := {| usr_id := next_rowid 0 (map usr_id (users st));
                 usr_username := username; usr_email := email;
                 usr_password_hash := bcrypt_hash bcrypt salt password;
                 usr_role := "student" |}).
  exists row, (with_users st (users st ++ [row])).
  repeat match goal with |- _ /\ _ => split end; try reflexivity.
  - unfold auth_register. apply try_ok.
    erewrite bind_ok.
    2:{ apply createUser_fresh; cbn [ud_username ud_email]; assumption. }
    reflexivity.
  - intros old Hold. cbn [usr_id row].
    apply next_rowid_above. apply in_map. exact Hold.
  - intros attempt t2 c2 F. rewrite auth_login_answer by exact F.
    unfold select_user_by_email; cbn [users with_users]. rewrite find_snoc.
    assert (E : find (fun r => String.eqb (usr_email r) email) (users st) = None).
    { apply find_no_email. intros u Hu Heq.
      pose proof (find_none_all _ _ Hnone u Hu) as Hf. cbn beta in Hf.
      apply orb_false_elim in Hf. destruct Hf as [Hf _].
      apply String.eqb_neq in Hf. exact (Hf Heq). }
    rewrite E. cbn [usr_email row]. rewrite String.eqb_refl. reflexivity.
Qed.

(** X29.  [createUser] keeps the accounts apart, whatever the driver does
    at any of its statements and whatever it is given.  In a store whose
    users have distinct ids, distinct usernames and distinct emails, the
    call leaves the rows of [users] as they are and adds at most one at
    the end, leaves every other table as it is, and the ids, the
    usernames and the emails are distinct afterwards too.  When a row
    already has the email or the username and the driver answers the
    first statement, ['auth:register'] hands on 'User with this email or
    username already exists' and the store is as it was. *)
Theorem accounts_stay_apart :
  forall bcrypt salt userData env st t c,
    accounts_unique st ->
    exists st' c',
      snd (createUser bcrypt salt userData env (world st t c)) = world st' t c'
      /\ accounts_unique st'
      /\ (exists added, users st' = (users st ++ added)%list
                        /\ (List.length added <= 1)%nat)
      /\ with_users st' (users st) = st
      /\ (fault env c = false ->
          select_user_by_email_or_username (ud_email userData)
            (ud_username userData) st <> None ->
          auth_register bcrypt salt (ud_username userData) (ud_email userData)
            (ud_password_hash userData) env (world st t c)
          = (Ok {| hr_success := false; hr_data := None;
                   hr_error :=
                     Some (Handed (Literal
                       "User with this email or username already exists")) |},
             world st t (S c))).
Proof.
  intros bcrypt salt userData env st t c Hu.
  assert (Hreg : fault env c = false ->
            select_user_by_email_or_username (ud_email userData)
              (ud_username userData) st <> None ->
            auth_register bcrypt salt (ud_username userData) (ud_email userData)
              (ud_password_hash userData) env (world st t c)
            = (Ok {| hr_success := false; hr_data := None;
                     hr_error :=
                       Some (Handed (Literal
                         "User with this email or username already exists")) |},
               world st t (S c))).
  { intros F Hsome. unfold auth_register, createUser;
      cbn [ud_username ud_email ud_password_hash].
    apply try_ok. erewrite bind_ok.
    2:{ apply try_ok. erewrite bind_ok by (apply get_ok; exact F).
        destruct (select_user_by_email_or_username (ud_email userData)
                    (ud_username userData) st); [reflexivity|].
        exfalso. apply Hsome. reflexivity. }
    reflexivity. }
  assert (Hfinish : forall st' c',
            snd (createUser bcrypt salt userData env (world st t c)) = world st' t c' ->
            accounts_unique st' ->
            (exists added, users st' = (users st ++ added)%list
                           /\ (List.length added <= 1)%nat) ->
            with_users st' (users st) = st ->
            exists st' c',
              snd (createUser bcrypt salt userData env (world st t c)) = world st' t c'
              /\ accounts_unique st'
              /\ (exists added, users st' = (users st ++ added)%list
                                /\ (List.length added <= 1)%nat)
              /\ with_users st' (users st) = st
              /\ (fault env c = false ->
                  select_user_by_email_or_username (ud_email userData)
                    (ud_username userData) st <> None ->
                  auth_register bcrypt salt (ud_username userData) (ud_email userData)
                    (ud_password_hash userData) env (world st t c)
                  = (Ok {| hr_success := false; hr_data := None;
                           hr_error :=
                             Some (Handed (Literal
                               "User with this email or username already exists")) |},
                     world st t (S c)))).
  { intros st' c' H1 H2 H3 H4. exists st', c'.
    repeat match goal with |- _ /\ _ => split end; assumption. }
  assert (Hkeep : forall c',
            snd (createUser bcrypt salt userData env (world st t c)) = world st t c' ->
            exists st' c',
              snd (createUser bcrypt salt userData env (world st t c)) = world st' t c'
              /\ accounts_unique st'
              /\ (exists added, users st' = (users st ++ added)%list
                                /\ (List.length added <= 1)%nat)
              /\ with_users st' (users st) = st
              /\ (fault env c = false ->
                  select_user_by_email_or_username (ud_email userData)
                    (ud_username userData) st <> None ->
                  auth_register bcrypt salt (ud_username userData) (ud_email userData)
                    (ud_password_hash userData) env (world st t c)
                  = (Ok {| hr_success := false; hr_data := None;
                           hr_error :=
                             Some (Handed (Literal
                               "User with this email or username already exists")) |},
                     world st t (S c)))).
  { intros c' H. apply (Hfinish st c' H Hu).
    - exists []. rewrite app_nil_r. split; [reflexivity|cbn; lia].
    - apply with_users_same. }
  unfold createUser in Hkeep, Hfinish |- *.
  destruct (fault env c) eqn:F0.
  { apply (Hkeep (S c)).
    erewrite try_throw by (apply bind_throw; apply get_fault; exact F0).
    reflexivity. }
  destruct (select_user_by_email_or_username (ud_email userData)
              (ud_username userData) st) as [existing|] eqn:E.
  { apply (Hkeep (S c)).
    erewrite try_ok.
    2:{ erewrite bind_ok by (apply get_ok; exact F0). rewrite E. reflexivity. }
    reflexivity. }
  destruct (fault env (S c)) eqn:F1.
  { apply (Hkeep (S (S c))).
    erewrite try_throw.
    2:{ erewrite bind_ok by (apply get_ok; exact F0). rewrite E. cbv zeta.
        apply bind_throw. apply run_fault. exact F1. }
    reflexivity. }
  pose proof (insert_user_fresh (ud_username userData) (ud_email userData)
                (bcrypt_hash bcrypt salt (ud_password_hash userData)) st E) as Hins.
  destruct (insert_user_cases (ud_username userData) (ud_email userData)
              (bcrypt_hash bcrypt salt (ud_password_hash userData)) st)
    as [Hthrow|[Hex _]]; [rewrite Hins in Hthrow; discriminate|].
  set (row := {| usr_id := next_rowid 0 (map usr_id (users st));
                 usr_username := ud_username userData;
                 usr_email := ud_email userData;
                 usr_password_hash :=
                   bcrypt_hash bcrypt salt (ud_password_hash userData);
                 usr_role := "student" |}) in *.
  assert (Hu' : accounts_unique (with_users st (users st ++ [row]))).
  { apply accounts_unique_insert; assumption. }
  assert (Hadd : exists added,
             users (with_users st (users st ++ [row])) = (users st ++ added)%list
             /\ (List.length added <= 1)%nat).
  { exists [row]. split; [reflexivity|cbn; lia]. }
  destruct (fault env (S (S c))) eqn:F2.
  { apply (Hfinish (with_users st (users st ++ [row])) (S (S (S c))));
      [|exact Hu'|exact Hadd|apply with_users_back].
    erewrite try_throw.
    2:{ erewrite bind_ok by (apply get_ok; exact F0). rewrite E. cbv zeta.
        erewrite bind_ok.
        2:{ rewrite run_ok by exact F1. rewrite Hins. cbn [fst snd]. reflexivity. }
        apply bind_throw. apply get_fault. exact F2. }
    reflexivity. }
  apply (Hfinish (with_users st (users st ++ [row])) (S (S (S c))));
    [|exact Hu'|exact Hadd|apply with_users_back].
  fold (createUser bcrypt salt userData).
  rewrite (createUser_fresh bcrypt salt userData env st t c F0 F1 F2 E).
  reflexivity.
Qed.

(** X30.  ['auth:login'] reaches the account of the email it is given.
    In a store whose users have distinct emails (driver not failing), a
    login with the email of a row answers by what [bcrypt.compare] says of
    the attempt and that row's hash: a session for that very row, without
    its hash, or 'Invalid email or password'.  A login with an email that
    no row has gets the same 'Invalid email or password'.  Neither
    changes the store. *)
Theorem login_reaches_the_account_of_its_email :
  forall bcrypt env st t c attempt,
    accounts_unique st ->
    fault env c = false ->
    (forall user,
       In user (users st) ->
       auth_login bcrypt (usr_email user) attempt env (world st t c)
       = (Ok (if bcrypt_compare bcrypt attempt (usr_password_hash user)
              then session_of user else invalid_login),
          world st t (S c)))
    /\ (forall email,
          (forall user, In user (users st) -> usr_email user <> email) ->
          auth_login bcrypt email attempt env (world st t c)
          = (Ok invalid_login, world st t (S c))).
Proof.
  intros bcrypt env st t c attempt (_ & _ & He) F. split.
  - intros user Hin. rewrite auth_login_answer by exact F.
    unfold select_user_by_email. rewrite (find_unique_email _ _ He Hin).
    reflexivity.
  - intros email Hno. rewrite auth_login_answer by exact F.
    unfold select_user_by_email. rewrite (find_no_email _ _ Hno). reflexivity.
Qed.

(** ** The further statements on the sample data *)

Lemma sample_clock_after_epoch : after_epoch Sample.env.
Proof. intros n. unfold Sample.env; cbn [clock]. lia. Defined.

Lemma library_codes_minted : codes_minted Scenes.library.
Proof. intros r H. destruct H. Defined.

Lemma certificate_refused_before_threshold_witness :
  fault Sample.env 0 = false /\ fault Sample.env 1 = false
  /\ fault Sample.env 2 = false
  /\ (select_module 4 Sample.store = None \/ select_user 1 Sample.store = None ->
      generateCertificate 1 4 Sample.env (world Sample.store 0 0)
      = (Ok (fail (Literal "Module or user not found")), world Sample.store 0 3))
  /\ (forall mr usr,
        select_module 4 Sample.store = Some mr -> select_user 1 Sample.store = Some usr ->
        parsed (mod_content mr) = None ->
        generateCertificate 1 4 Sample.env (world Sample.store 0 0)
        = (Ok (fail (Template "Failed to generate certificate: " JsonSyntaxError)),
           world Sample.store 0 3)).
Proof.
  split; [reflexivity|]. split; [reflexivity|]. split; [reflexivity|].
  exact (certificate_refused_before_threshold Sample.env 1 4 Sample.store 0%nat 0%nat
           eq_refl eq_refl eq_refl).
Defined.

(** A store that holds a certificate: the example scenario followed by the
    issuance for module 1; and the same store after the lesson of module 2
    is completed. *)
Lemma certificate_decision_witness :
  let doc1 := {| lessons := Some (Sample.lessons_upto 3);
                 quizzes := Some [Sample.quiz 1 2 70]; estimatedTime := 30 |} in
  let doc2 := {| lessons := Some (Sample.lessons_upto 1);
                 quizzes := Some [Sample.quiz 1 1 70]; estimatedTime := 5 |} in
  let issued :=
    Sample.store_of (snd (generateCertificate 1 1 Sample.env
                            (world Sample.after_scenario 9 0))) in
  let later :=
    Sample.store_of (record_outcomes Sample.env [Sample.visit 2 "lesson-1" true 5 None]
                       (world issued 11 5)) in
  no_faults Sample.env /\ after_epoch Sample.env
  /\ codes_minted issued /\ codes_minted later
  /\ List.length (certificates issued) = 1%nat
  /\ List.length (certificates later) = 1%nat
  /\ 0 <= 1
  /\ (List.length (select_completed_lesson_progress 1 2 issued) = 0%nat
      /\ lesson_count doc2 = 1
      /\ generateCertificate 1 2 Sample.env (world issued 11 5)
         = (Ok (fail (Literal "Module not sufficiently completed")),
            world issued 11 8))
  /\ (List.length (select_completed_lesson_progress 1 1 issued) = 4%nat
      /\ lesson_count doc1 = 3
      /\ existsb (cert_key 1 1) (certificates issued) = true
      /\ generateCertificate 1 1 Sample.env (world issued 11 5)
         = (Ok (fail (Template "Failed to generate certificate: "
                        (UniqueConstraintFailed "certificates"))),
            world issued 13 9))
  /\ (List.length (select_completed_lesson_progress 1 2 later) = 1%nat
      /\ existsb (cert_key 1 2) (certificates later) = false
      /\ exists cert st',
           generateCertificate 1 2 Sample.env (world later 14 0)
           = (Ok (succeed cert), world st' 16 5)
           /\ cert_certificate_code cert = "CERT-1014-1-2"%string
           /\ List.length (certificates st') = 2%nat).
Proof.
  intros doc1 doc2 issued later.
  assert (H0 : 0 <= 1) by lia.
  assert (Hc1 : exists cert, certificates issued = [cert]
                             /\ cert_user_id cert = 1 /\ cert_module_id cert = 1
                             /\ cert_certificate_code cert = "CERT-1009-1-1"%string).
  { eexists. split; [|split; [|split]]; vm_compute; reflexivity. }
  assert (Hc2 : certificates later = certificates issued) by (vm_compute; reflexivity).
  assert (Hw1 : codes_minted issued).
  { destruct Hc1 as (cert & Hcerts & Hu & Hm & Hcode).
    intros r Hr. rewrite Hcerts in Hr. destruct Hr as [<-|[]].
    rewrite Hu, Hm, Hcode. split; [lia|]. exists 1009. split; [lia|].
    vm_compute. reflexivity. }
  assert (Hw2 : codes_minted later).
  { intros r Hr. rewrite Hc2 in Hr. exact (Hw1 r Hr). }
  split; [exact sample_env_no_faults|]. split; [exact sample_clock_after_epoch|].
  split; [exact Hw1|]. split; [exact Hw2|].
  split; [vm_compute; reflexivity|]. split; [vm_compute; reflexivity|].
  split; [exact H0|].
  split; [|split].
  - split; [vm_compute; reflexivity|]. split; [vm_compute; reflexivity|].
    refine (proj1 (certificate_decision Sample.env 1 2 issued 11%nat 5%nat
                     Sample.tiny_course Sample.student doc2
                     sample_env_no_faults sample_clock_after_epoch Hw1 H0
                     _ _ eq_refl _ _) _);
      vm_compute; reflexivity.
  - split; [vm_compute; reflexivity|]. split; [vm_compute; reflexivity|].
    assert (Hx : existsb (cert_key 1 1) (certificates issued) = true)
      by (vm_compute; reflexivity).
    split; [exact Hx|].
    refine (proj1 (proj2 (certificate_decision Sample.env 1 1 issued 11%nat 5%nat
                            Sample.course Sample.student doc1
                            sample_env_no_faults sample_clock_after_epoch Hw1 H0
                            _ _ eq_refl _ _)) _ Hx);
      try (vm_compute; reflexivity).
    vm_compute. discriminate.
  - split; [vm_compute; reflexivity|].
    assert (Hx : existsb (cert_key 1 2) (certificates later) = false)
      by (vm_compute; reflexivity).
    split; [exact Hx|].
    eexists _, _. split.
    + refine (proj2 (proj2 (certificate_decision Sample.env 1 2 later 14%nat 0%nat
                              Sample.tiny_course Sample.student doc2
                              sample_env_no_faults sample_clock_after_epoch Hw2 H0
                              _ _ eq_refl _ _)) _ Hx);
        try (vm_compute; reflexivity).
      vm_compute. discriminate.
    + split; vm_compute; reflexivity.
Defined.

Lemma issued_certificate_verifies_witness :
  let issued := generateCertificate 1 1 Sample.env (world Sample.after_scenario 0 0) in
  let resp := Sample.answer (fail (Literal "")) issued in
  issued = (Ok resp, snd issued)
  /\ success resp = true
  /\ exists cert st,
       data resp = Some cert /\ db (world Sample.after_scenario 0 0) = Some st
       /\ cert_user_id cert = 1 /\ cert_module_id cert = 1
       /\ forall env2,
            fault env2 (calls (snd issued)) = false ->
            fst (verifyCertificate (cert_certificate_code cert) env2 (snd issued))
            = Ok (Some cert)
            /\ fst (certificates_verify (cert_certificate_code cert) env2 (snd issued))
               = Ok (handled cert)
            /\ fst (getUserCertificates 1 env2 (snd issued))
               = Ok (select_certificates_of 1 st ++ [cert])%list.
Proof.
  intros issued resp.
  assert (E : issued = (Ok resp, snd issued)) by (vm_compute; reflexivity).
  assert (Hs : success resp = true) by (vm_compute; reflexivity).
  split; [exact E|]. split; [exact Hs|].
  exact (issued_certificate_verifies Sample.env 1 1 (world Sample.after_scenario 0 0)
           resp (snd issued) E Hs).
Defined.

Lemma module_without_lessons_is_certified_witness :
  no_faults Sample.env
  /\ select_module 5 Scenes.library = Some Scenes.blank_course
  /\ select_user 1 Scenes.library = Some Sample.student
  /\ parsed (mod_content Scenes.blank_course)
     = Some {| lessons := Some []; quizzes := Some []; estimatedTime := 0 |}
  /\ lesson_count {| lessons := Some []; quizzes := Some []; estimatedTime := 0 |} = 0
  /\ existsb (cert_key 1 5) (certificates Scenes.library) = false
  /\ select_certificate_by_code (certificate_code (clock Sample.env 0) 1 5)
       Scenes.library = None
  /\ select_module_lesson_progress 1 5 Scenes.library = []
  /\ fst (generateCertificate 1 5 Sample.env (world Scenes.library 0 0))
     = Ok (succeed (minted 1 5 Sample.student Scenes.blank_course 1000 1001
                      Scenes.library)).
Proof.
  split; [exact sample_env_no_faults|].
  split; [reflexivity|]. split; [reflexivity|]. split; [reflexivity|].
  split; [reflexivity|]. split; [reflexivity|]. split; [reflexivity|].
  split; [reflexivity|].
  exact (module_without_lessons_is_certified Sample.env 1 5 Scenes.library 0%nat 0%nat
           Scenes.blank_course Sample.student
           {| lessons := Some []; quizzes := Some []; estimatedTime := 0 |}
           sample_env_no_faults eq_refl eq_refl eq_refl eq_refl eq_refl eq_refl).
Defined.

Lemma call_touches_its_pair_only_witness :
  let pd := Sample.visit 1 "lesson-1" true 60 None in
  db Sample.start = Some Sample.store
  /\ exists st',
       db (snd (updateLessonProgress pd Sample.faulty_env Sample.start)) = Some st'
       /\ others_untouched 1 1 Sample.store st'
       /\ forall u m,
            (u, m) <> (1, 1) ->
            select_user_progress u m st' = select_user_progress u m Sample.store
            /\ select_module_lesson_progress u m st'
               = select_module_lesson_progress u m Sample.store.
Proof.
  intros pd. split; [reflexivity|].
  exact (call_touches_its_pair_only pd Sample.faulty_env Sample.start Sample.store
           eq_refl).
Defined.

Lemma latest_outcome_is_stored_witness :
  no_faults Sample.env
  /\ Forall (for_key 1 2 "quiz-1") Scenes.retakes
  /\ Forall (for_key 1 2 "quiz-1") Scenes.retakes_then_nan
  /\ (exists row,
        stored_lesson_progress 1 2 "quiz-1"
          (record_outcomes Sample.env Scenes.retakes (world Sample.store 0 0)) = Some row
        /\ lp_quiz_score row = Some 40
        /\ lp_completed row = false
        /\ lp_quiz_attempts row = 0)
  /\ (exists row,
        stored_lesson_progress 1 2 "quiz-1"
          (record_outcomes Sample.env Scenes.retakes_then_nan (world Sample.store 0 0))
        = Some row
        /\ lp_quiz_score row = None
        /\ lp_completed row = true
        /\ lp_quiz_attempts row = 0).
Proof.
  assert (H : Forall (for_key 1 2 "quiz-1") Scenes.retakes) by (repeat constructor).
  assert (H' : Forall (for_key 1 2 "quiz-1") Scenes.retakes_then_nan)
    by (repeat constructor).
  split; [exact sample_env_no_faults|]. split; [exact H|]. split; [exact H'|].
  split.
  - exact (latest_outcome_is_stored Sample.env 1 2 "quiz-1" _ _ Sample.store 0%nat 0%nat
             sample_env_no_faults H).
  - exact (latest_outcome_is_stored Sample.env 1 2 "quiz-1" _ _ Sample.store 0%nat 0%nat
             sample_env_no_faults H').
Defined.

Lemma counters_are_never_written_witness :
  db Sample.start = Some Sample.store
  /\ exists st',
       db (record_outcomes Sample.faulty_env Sample.scenario Sample.start) = Some st'
       /\ counters_kept Sample.store st'
       /\ (lesson_progress Sample.store = [] -> user_progress Sample.store = [] ->
           Forall (fun r => lp_quiz_attempts r = 0) (lesson_progress st')
           /\ Forall (fun r => up_total_time_spent r = 0) (user_progress st')).
Proof.
  split; [reflexivity|].
  exact (counters_are_never_written Sample.faulty_env Sample.scenario Sample.start
           Sample.store eq_refl).
Defined.

Lemma reset_then_call_starts_afresh_witness :
  let pd := Sample.visit 1 "lesson-1" false 7 None in
  no_faults Sample.env
  /\ exists st1 w2 row cur,
       resetModuleProgress 1 1 Sample.env (world Sample.after_scenario 0 0)
       = (Ok (inform "Reset progress for 4 lessons"), world st1 0 2)
       /\ updateLessonProgress pd Sample.env (world st1 0 2) = (Ok (succeed row), w2)
       /\ stored_lesson_progress 1 1 "lesson-1" w2 = Some row
       /\ lp_time_spent row = 7
       /\ lp_completed row = false
       /\ lp_quiz_score row = None
       /\ stored_user_progress 1 1 w2 = Some cur
       /\ up_started_at cur = Some 1000.
Proof.
  intros pd. split; [exact sample_env_no_faults|].
  exact (reset_then_call_starts_afresh Sample.env pd Sample.after_scenario 0%nat 0%nat
           sample_env_no_faults).
Defined.

Lemma recorded_progress_is_read_back_witness :
  let pd := Sample.visit 1 "lesson-1" true 60 None in
  no_faults Sample.env
  /\ exists row w1 view cur,
       updateLessonProgress pd Sample.env (world Sample.store 0 0) = (Ok (succeed row), w1)
       /\ lp_user_id row = 1 /\ lp_module_id row = 1
       /\ lp_lesson_id row = "lesson-1"%string
       /\ fst (getModuleProgress 1 1 Sample.env w1) = Ok view
       /\ moduleProgress view = Some cur
       /\ In row (lessonProgress view)
       /\ fst (progress_get_module_progress 1 1 Sample.env w1) = Ok (handled view)
       /\ exists rows,
            fst (getUserLessonProgress 1 Sample.env w1) = Ok rows /\ In row rows.
Proof.
  intros pd. split; [exact sample_env_no_faults|].
  exact (recorded_progress_is_read_back Sample.env pd Sample.store 0%nat 0%nat
           sample_env_no_faults).
Defined.

Lemma percentage_at_the_ends_witness :
  no_faults Sample.env
  /\ select_module 1 Sample.after_scenario = Some Sample.course
  /\ totals (mod_content Sample.course) = Some (3, 1)
  /\ 3 + 1 <> 0
  /\ (exists cur, select_user_progress 1 1 Sample.after_scenario = Some cur)
  /\ exists w' row,
       updateModuleCompletionStatus 1 1 Sample.env (world Sample.after_scenario 0 0)
       = (Ok tt, w')
       /\ stored_user_progress 1 1 w' = Some row
       /\ (completedLessons 1 1 Sample.after_scenario
           + completedQuizzes 1 1 Sample.after_scenario = 3 + 1 ->
           up_progress_percentage row = 100)
       /\ (up_completed row = true -> 100 <= up_progress_percentage row)
       /\ (completedLessons 1 1 Sample.after_scenario
           + completedQuizzes 1 1 Sample.after_scenario = 0 ->
           up_progress_percentage row = 0 /\ up_completed row = false).
Proof.
  assert (Hm : select_module 1 Sample.after_scenario = Some Sample.course)
    by (vm_compute; reflexivity).
  assert (Ht : totals (mod_content Sample.course) = Some (3, 1))
    by (vm_compute; reflexivity).
  assert (Hz : 3 + 1 <> 0) by lia.
  assert (Hc : select_user_progress 1 1 Sample.after_scenario
               = Some {| up_id := 1; up_user_id := 1; up_module_id := 1;
                         up_progress_percentage := 100; up_completed := true;
                         up_started_at := Some 1000;
                         up_completion_date := Some 1009;
                         up_total_time_spent := 0; up_last_accessed := 1007 |})
    by (vm_compute; reflexivity).
  split; [exact sample_env_no_faults|]. split; [exact Hm|]. split; [exact Ht|].
  split; [exact Hz|]. split; [eexists; exact Hc|].
  exact (percentage_at_the_ends Sample.env 1 1 Sample.after_scenario 0%nat 0%nat
           Sample.course 3 1 _ sample_env_no_faults Hm Ht Hz Hc).
Defined.

Lemma calculateProgress_on_the_scale_witness :
  0 <= 3 <= 4
  /\ 0 <= calculateProgress 3 4 <= 100
  /\ calculateProgress 3 0 = 0
  /\ (0 < 4 -> calculateProgress 4 4 = 100)
  /\ calculateProgress 0 4 = 0.
Proof.
  assert (H : 0 <= 3 <= 4) by lia.
  split; [exact H|]. exact (calculateProgress_on_the_scale 3 4 H).
Defined.

Lemma failures_read_as_absence_witness :
  let w := world Sample.after_scenario 0 0 in
  unreachable Scenes.offline_env w
  /\ select_user_progress 1 1 Sample.after_scenario <> None
  /\ fst (getModuleProgress 1 1 Scenes.offline_env w)
     = Ok {| moduleProgress := None; lessonProgress := [] |}
  /\ fst (verifyCertificate "CERT-1000-1-1" Scenes.offline_env w) = Ok None
  /\ fst (getUserProgress 1 Scenes.offline_env w) = Ok []
  /\ fst (getUserLessonProgress 1 Scenes.offline_env w) = Ok []
  /\ fst (getUserCertificates 1 Scenes.offline_env w) = Ok []
  /\ fst (progress_get_module_progress 1 1 Scenes.offline_env w)
     = Ok (handled {| moduleProgress := None; lessonProgress := [] |})
  /\ fst (progress_get_user_progress 1 Scenes.offline_env w) = Ok (handled [])
  /\ fst (progress_get_user_lesson_progress 1 Scenes.offline_env w) = Ok (handled [])
  /\ fst (certificates_get_user_certificates 1 Scenes.offline_env w) = Ok (handled [])
  /\ fst (certificates_verify "CERT-1000-1-1" Scenes.offline_env w)
     = Ok (refused (Said "Certificate not found")).
Proof.
  intros w.
  assert (H : unreachable Scenes.offline_env w) by (right; reflexivity).
  split; [exact H|]. split; [vm_compute; discriminate|].
  exact (failures_read_as_absence Scenes.offline_env w 1 1 "CERT-1000-1-1" H).
Defined.

Lemma lessons_off_the_convention_never_complete_witness :
  no_faults Sample.env
  /\ select_module 6 Scenes.library = Some Scenes.plain_course
  /\ totals (mod_content Scenes.plain_course) = Some (2, 0)
  /\ 0 < 2
  /\ Forall (fun pd => for_pair 1 6 pd /\ like "lesson-%" (lessonId pd) = false)
            Scenes.plain_visits
  /\ off_convention 1 6 Scenes.library
  /\ flag_of 1 6 Scenes.library = false
  /\ exists st',
       db (record_outcomes Sample.env Scenes.plain_visits (world Scenes.library 0 0))
       = Some st'
       /\ completedLessons 1 6 st' = 0
       /\ module_completed 1 6
            (record_outcomes Sample.env Scenes.plain_visits (world Scenes.library 0 0))
          = false.
Proof.
  assert (Hm : select_module 6 Scenes.library = Some Scenes.plain_course)
    by reflexivity.
  assert (Ht : totals (mod_content Scenes.plain_course) = Some (2, 0)) by reflexivity.
  assert (Hl : 0 < 2) by lia.
  assert (Hp : Forall (fun pd => for_pair 1 6 pd /\ like "lesson-%" (lessonId pd) = false)
                      Scenes.plain_visits)
    by (repeat constructor).
  assert (Ho : off_convention 1 6 Scenes.library) by constructor.
  assert (Hf : flag_of 1 6 Scenes.library = false) by reflexivity.
  split; [exact sample_env_no_faults|]. split; [exact Hm|]. split; [exact Ht|].
  split; [exact Hl|]. split; [exact Hp|]. split; [exact Ho|]. split; [exact Hf|].
  exact (lessons_off_the_convention_never_complete Sample.env 1 6 Scenes.plain_visits
           Scenes.library 0%nat 0%nat Scenes.plain_course 2 0
           sample_env_no_faults Hm Ht Hl Hp Ho Hf).
Defined.

Lemma quiz_detour_rejoins_the_lessons_witness :
  lessons Scenes.course_content = Some (Sample.lessons_upto 3)
  /\ findIndex (fun l => String.eqb (les_id l) "lesson-2") (Sample.lessons_upto 3)
     = Some 1%nat
  /\ "lesson-2"%string <> ""%string
  /\ find (anchored_at "lesson-2")
          (match quizzes Scenes.course_content with Some qs => qs | None => [] end)
     = Some (Sample.quiz 1 2 70)
  /\ handleComplete Scenes.course_content "lesson-2" true false = ToQuiz "quiz-1"
  /\ handleFinish Scenes.course_content (Sample.quiz 1 2 70) false false = ToModule
  /\ handleFinish Scenes.course_content (Sample.quiz 1 2 70) true false
     = ToLesson "lesson-3"
  /\ handleComplete {| lessons := Some (Sample.lessons_upto 3); quizzes := None;
                       estimatedTime := 30 |} "lesson-2" true false
     = ToLesson "lesson-3".
Proof.
  assert (Hne : "lesson-2"%string <> ""%string) by discriminate.
  split; [reflexivity|]. split; [reflexivity|]. split; [exact Hne|].
  split; [reflexivity|].
  exact (quiz_detour_rejoins_the_lessons Scenes.course_content (Sample.lessons_upto 3)
           "lesson-2" (Sample.quiz 1 2 70) 1%nat false false
           eq_refl eq_refl Hne eq_refl).
Defined.

Lemma sample_store_rows_unique : user_progress_unique Sample.store.
Proof. intros u m. cbn. apply Nat.le_0_1. Defined.

Lemma calls_never_double_a_row_witness :
  db Sample.start = Some Sample.store
  /\ lesson_progress_unique Sample.store /\ user_progress_unique Sample.store
  /\ exists st',
       db (record_outcomes Sample.faulty_env Sample.visits Sample.start) = Some st'
       /\ lesson_progress_unique st' /\ user_progress_unique st'
       /\ forall u m l,
            (List.length (filter (fun r => String.eqb (lp_lesson_id r) l)
                            (select_module_lesson_progress u m st')) <= 1)%nat.
Proof.
  split; [reflexivity|]. split; [exact sample_store_unique|].
  split; [exact sample_store_rows_unique|].
  exact (calls_never_double_a_row Sample.faulty_env Sample.visits Sample.start
           Sample.store eq_refl sample_store_unique sample_store_rows_unique).
Defined.

Lemma reset_is_not_atomic_witness :
  fault Scenes.flaky_env 0 = false /\ fault Scenes.flaky_env 1 = true
  /\ exists st',
       resetModuleProgress 1 1 Scenes.flaky_env (world Sample.after_scenario 0 0)
       = (Ok (fail (Template "Failed to reset progress: " DriverError)),
          world st' 0 2)
       /\ select_user_progress 1 1 st' = None
       /\ lesson_progress st' = lesson_progress Sample.after_scenario
       /\ (fault Scenes.flaky_env 2 = false -> fault Scenes.flaky_env 3 = false ->
           fst (getModuleProgress 1 1 Scenes.flaky_env (world st' 0 2))
           = Ok {| moduleProgress := None;
                   lessonProgress :=
                     select_module_lesson_progress 1 1 Sample.after_scenario |}).
Proof.
  split; [reflexivity|]. split; [reflexivity|].
  exact (proj2 (reset_is_not_atomic Scenes.flaky_env 1 1 Sample.after_scenario
                  0%nat 0%nat) eq_refl eq_refl).
Defined.

Lemma failed_call_leaves_the_touch_witness :
  let pd := Sample.visit 1 "lesson-1" true 60 None in
  fault Scenes.stalling_env 0 = false /\ fault Scenes.stalling_env 1 = false
  /\ fault Scenes.stalling_env 2 = true
  /\ exists st1 t1 cur,
       updateLessonProgress pd Scenes.stalling_env (world Sample.store 0 0)
       = (Ok (fail (Template "Failed to update progress: " DriverError)),
          world st1 t1 3)
       /\ lesson_progress st1 = lesson_progress Sample.store
       /\ select_user_progress 1 1 st1 = Some cur
       /\ (select_user_progress 1 1 Sample.store = None ->
           up_started_at cur = Some 1000 /\ up_last_accessed cur = 1001)
       /\ (select_user_progress 1 1 Sample.store <> None ->
           up_last_accessed cur = 1000).
Proof.
  intros pd. split; [reflexivity|]. split; [reflexivity|]. split; [reflexivity|].
  exact (proj2 (failed_call_leaves_the_touch Scenes.stalling_env pd Sample.store
                  0%nat 0%nat) eq_refl eq_refl eq_refl).
Defined.

Lemma duration_is_reported_in_its_largest_unit_witness :
  86400000 <= 90062000 - 1000
  /\ formatDuration show (Some 1000) (Some 90062000) = "Completed in 1 day"%string.
Proof.
  assert (H : 86400000 <= 90062000 - 1000) by lia.
  split; [exact H|].
  exact (proj2 (proj2 (proj2 (duration_is_reported_in_its_largest_unit show 1000
                                90062000))) H).
Defined.

Lemma sample_accounts_unique : accounts_unique Sample.store.
Proof.
  unfold accounts_unique; cbn.
  repeat split; (constructor; [intros []|constructor]).
Qed.

Lemma registered_account_logs_in_witness :
  select_user_by_email_or_username "kofi@example.org" "kofi" Sample.store = None
  /\ exists row st',
       auth_register Scenes.plain_bcrypt "salt" "kofi" "kofi@example.org" "secret"
         Sample.env (world Sample.store 0 0)
       = (Ok (session_of row), world st' 0 3)
       /\ users st' = (users Sample.store ++ [row])%list
       /\ usr_username row = "kofi"%string
       /\ usr_email row = "kofi@example.org"%string
       /\ usr_role row = "student"%string
       /\ usr_password_hash row
          = bcrypt_hash Scenes.plain_bcrypt "salt" "secret"
       /\ (forall old, In old (users Sample.store) -> usr_id old < usr_id row)
       /\ forall attempt t2 c2,
            fault Sample.env c2 = false ->
            auth_login Scenes.plain_bcrypt "kofi@example.org" attempt Sample.env
              (world st' t2 c2)
            = (Ok (if bcrypt_compare Scenes.plain_bcrypt attempt
                        (bcrypt_hash Scenes.plain_bcrypt "salt" "secret")
                   then session_of row else invalid_login),
               world st' t2 (S c2)).
Proof.
  split; [reflexivity|].
  exact (registered_account_logs_in Scenes.plain_bcrypt "salt" "kofi"
           "kofi@example.org" "secret" Sample.env Sample.store 0%nat 0%nat
           eq_refl eq_refl eq_refl eq_refl).
Defined.

Lemma accounts_stay_apart_witness :
  let userData := {| ud_username := "amina2"; ud_email := "amina@example.org";
                     ud_password_hash := "secret" |} in
  accounts_unique Sample.store
  /\ exists st' c',
       snd (createUser Scenes.plain_bcrypt "salt" userData Sample.env
              (world Sample.store 0 0)) = world st' 0 c'
       /\ accounts_unique st'
       /\ (exists added, users st' = (users Sample.store ++ added)%list
                         /\ (List.length added <= 1)%nat)
       /\ with_users st' (users Sample.store) = Sample.store
       /\ (fault Sample.env 0 = false ->
           select_user_by_email_or_username (ud_email userData)
             (ud_username userData) Sample.store <> None ->
           auth_register Scenes.plain_bcrypt "salt" (ud_username userData)
             (ud_email userData) (ud_password_hash userData) Sample.env
             (world Sample.store 0 0)
           = (Ok {| hr_success := false; hr_data := None;
                    hr_error :=
                      Some (Handed (Literal
                        "User with this email or username already exists")) |},
              world Sample.store 0 1)).
Proof.
  intros userData. split; [exact sample_accounts_unique|].
  exact (accounts_stay_apart Scenes.plain_bcrypt "salt" userData Sample.env
           Sample.store 0%nat 0%nat sample_accounts_unique).
Defined.

Lemma login_reaches_the_account_of_its_email_witness :
  accounts_unique Sample.store /\ fault Sample.env 0 = false
  /\ (forall user,
        In user (users Sample.store) ->
        auth_login Scenes.plain_bcrypt (usr_email user) "hash" Sample.env
          (world Sample.store 0 0)
        = (Ok (if bcrypt_compare Scenes.plain_bcrypt "hash" (usr_password_hash user)
               then session_of user else invalid_login),
           world Sample.store 0 1))
  /\ (forall email,
        (forall user, In user (users Sample.store) -> usr_email user <> email) ->
        auth_login Scenes.plain_bcrypt email "hash" Sample.env
          (world Sample.store 0 0)
        = (Ok invalid_login, world Sample.store 0 1)).
Proof.
  split; [exact sample_accounts_unique|]. split; [reflexivity|].
  exact (login_reaches_the_account_of_its_email Scenes.plain_bcrypt Sample.env
           Sample.store 0%nat 0%nat "hash" sample_accounts_unique eq_refl).
Defined.
